(* ===== verification/_CoqProject ===== *)
-Q . S2P
Prelude.v
JsText.v
JsNum.v
JsValue.v
Regex.v
Validators.v
Limits.v
Node.v
TarZst.v
QueueSpec.v
MemoryQueue.v
FsQueue.v
QueueFaults.v
QueueTheorems.v
QueueLock.v
Identity.v
ReplayConcurrent.v
Bundle.v
Content.v
Effects.v
Catalog.v
Downloader.v
ToolchainLock.v
CatalogFetch.v
CatalogGenerator.v
Builder.v
Fakes.v
Installer.v
Sandbox.v
JreRegistry.v
Materializer.v
MaterializerTree.v
MaterializerRoot.v
Worker.v
Callbacks.v
HttpWorker.v
WorkerLoops.v
ServerProcess.v
Production.v
WorldSeed.v
Scripts.v
