(* ===== verification/Prelude.v ===== *)
(** * XMCL compiler worker: a verification library

    The repository holds the services of an XMCL shared node.  Its JavaScript part,
    [src/compiler], is the compiler worker: it takes deployment jobs from a control
    plane, turns a bundle uploaded by a launcher into an immutable server archive,
    and publishes it.  This library models that program, file by file, and proves
    what makes it correct.

    ** The program and how its parts interact

    - The HTTP boundary authenticates a request, checks its envelope and puts it in
      a durable queue ([http-worker.mjs], [service-identity.mjs], [job-queue.mjs]).
    - Worker loops claim jobs, run the compiler worker and report to the control
      plane with signed callbacks ([http-worker.mjs], [compiler.mjs]).
    - The compiler worker downloads the bundle, re-validates it, has a builder
      assemble the server, uploads the archive and publishes it ([compiler.mjs],
      [bundle.mjs]).
    - The reviewed builder resolves the toolchain in a reviewed catalog, the JRE in
      a registry of verified roots, downloads pinned artifacts, runs the installer
      in a sandbox, adds the bundle's files and the frozen mods, and packages
      everything deterministically ([reviewed-builder.mjs],
      [verified-jre-registry.mjs], [bubblewrap-sandbox.mjs]).
    - The supply chain is prepared offline: the toolchain lock is generated and
      validated ([toolchain-catalog.mjs] and two scripts), and the JRE is installed
      by a third script ([materialize_verified_jre.mjs]).
    - [production-composition.mjs] and [worker-server.mjs] construct it all from the
      configuration; [world-seed.mjs] is a separate small worker.

    ** Files

    The language and its library:
    - [Prelude]: exceptions, the exception monad, ordered maps, list and integer
      lemmas, tactics and the hint databases.  [Effects]: asynchronous code as a
      function of an outside world, with the rules for invariants and logs.
    - [JsText], [JsNum], [JsValue]: strings as UTF-16 code units with UTF-8 coding,
      numbers with their 32-bit operators, values and property access.
    - [Regex]: the regular expressions, matched by derivatives.  [Validators]: the
      text and path predicates shared by the modules.  [Node]: hashing, MACs,
      signatures, base64, JSON and URL parsing as classes with the documented facts
      that are used, and concrete instances to run the model with.

    The components:
    - [Limits] ([production-limits.mjs]).
    - [TarZst], [Content], [Catalog], [Downloader], [Builder]
      ([reviewed-builder.mjs]: packaging, validation of built content, catalog, strict
      downloads, the build); [Fakes]: the test doubles it exports, as instances of
      the interfaces of the build.
    - [QueueSpec] is the contract of the job queue; [MemoryQueue] and [FsQueue]
      implement it; [QueueFaults]: file system calls that reject while the process
      goes on, and the handler of [atomicWrite]; [QueueTheorems] and [QueueLock] hold
      the theorems, the latter with the promise chain of [lock] ([job-queue.mjs]).
    - [Identity] ([service-identity.mjs]), with the replay store as an atomic
      function; [ReplayConcurrent]: the same store as interleaved calls, one step per
      file system call.
    - [Bundle] ([bundle.mjs]): the ZIP reader, the manifest, the frozen manifest.
    - [ToolchainLock], [CatalogFetch], [CatalogGenerator] ([toolchain-catalog.mjs]),
      [Scripts] ([update_toolchain_catalog.mjs], [validate_toolchain_catalog.mjs]).
    - [Installer], [Sandbox] ([bubblewrap-sandbox.mjs]).
    - [JreRegistry] ([verified-jre-registry.mjs]); [Materializer],
      [MaterializerTree], [MaterializerRoot] ([materialize_verified_jre.mjs]).
    - [Worker] ([compiler.mjs]); [Callbacks], [HttpWorker], [WorkerLoops]
      ([http-worker.mjs]); [Production] ([production-composition.mjs], the ports and
      constructors of the other modules); [ServerProcess] ([worker-server.mjs]: the
      life of the process); [WorldSeed] ([world-seed.mjs]).

    Definitions keep the names of the source.  A module's state is a record; an
    operation is a function that returns the result, or the exception thrown, with
    the new state; what the program calls but does not contain (the network, the
    control plane, storage, processes, the clock, randomness) is a class over an
    abstract world, so the theorems hold whatever it answers.  Calls whose order
    matters are written to a log.  Where one component uses another through an
    interface (the queue, the replay store, the downloader, the registry, the
    sandbox, the builder, the control plane), the interface is a class, the client
    is proved against it and the implementation is an instance.

    ** What the theorems show

    - From end to end ([Worker]): the calls of a run with their answers, in order, up
      to the announcement of the bound publication; what is published is backed by an
      uploaded archive whose files are those of the one sandbox call the build made on
      reviewed artifacts, of the validated bundle, the frozen mods and the generator,
      none missing; the redelivery case in which digest and archive differ.
    - The boundary ([HttpWorker], [Identity], [Callbacks], [WorkerLoops]): which
      requests are accepted, no replay over a store that keeps its promise, the replay
      the in-memory cache admits at the age limit, one terminal callback, a job retired
      only after its callback, no job run by two loops, [stop] drains.  Calls of the
      queue may reject: the jobs left running are then exactly the ones given up, when
      a retrying [finish] or a [claim] rejects.
    - Replicas ([ReplayConcurrent]): calls of the replay store that share a directory
      accept a nonce at most once, under torn writes, failures and stopped callers, when
      all come before its expiry and no exclusive open of it fails oddly; a call left alone is the atomic function of [Identity]; and the failing [open]
      after which a nonce is accepted twice.
    - The process ([ServerProcess]): a clean exit leaves no request open and no job
      running but the ones given up, and a signal ends the process within ten seconds when timers fire on
      time.
    - The queues: both refine one abstract queue and lose nothing; under concurrent
      callers and a crash at any moment the filesystem queue recovers to the calls
      acknowledged, and at most one more.  A call that rejects has had no effect the
      queue can see or its whole effect, except a terminal [finish], which can leave a
      job archived and running, and then it runs again ([QueueFaults]).
    - Building ([Bundle], [Builder], [Content], [TarZst], [Downloader], [Sandbox],
      [Installer]): validation is exact, packaging and reading are inverse, the
      builder's output passes its own validation, downloads come only from the listed
      URLs and two fixed mirrors, the sandboxed command is isolated by the meaning of
      its options, the output is collected completely.
    - The supply chain ([ToolchainLock], [CatalogFetch], [CatalogGenerator],
      [Scripts], [Materializer], [JreRegistry], [Catalog]): a generated lock is pinned
      to bytes served by approved hosts, a validated lock is loaded by the worker,
      update and validate agree, a materialized JRE root is exactly the resolution the
      two catalogs determine and, when its links lead to declared entries, is accepted
      by the registry, a resolved JRE was verified, on a read-only mount unless mounts
      are stacked.
    - [Production]: after the configuration was validated once no constructor
      rejects and no fallback is taken.

    Examples at the end of a file run the model on concrete data; the hypotheses of
    the theorems hold there.

    ** Bounds and fuel

    Integers are [Z]; the 32-bit operators wrap as in the language, and
    [Number.isSafeInteger] is a bound.  The loops of the archive reader take the
    length of the input as fuel and throw [OutOfFuel] when it runs out, which
    [TarZst.unpack_terminates] excludes; the scanners of Maven metadata take one unit
    of fuel per character and do not depend on it beyond that; number printing takes
    one per bit; [ReplayConcurrent.alone] takes 3100 steps, three for each of the 1024
    entries a cleanup looks at and 13 for the rest, and is proved to end within them.
    All other loops recurse on their data or on a count the code itself
    reads.  A call counter in the queue invariants bounds attempts below
    [MAX_SAFE_INTEGER].

    ** Not modelled, and why

    - In [WorkerLoops] and [ServerProcess] a rejected [finish] has had no effect, and
      [initialize] does not reject; a rejected [finish] that took effect is in
      [QueueFaults] only.  The calls with which the sandbox collects its output are one
      reading of the tree; what a failing write of a script leaves in its own file.
    - Reading and writing sockets, a [listen] that fails, printing, and the exit codes
      of the scripts: input and output of the Node process with no decision in it.
    - What survives a power failure: [fsync] orders writes on the medium, and the
      models take file system calls as atomic and durable.  File descriptor flags and
      permission bits of new files, and the branches for Windows.
    - The tests.
    - The internals of the Node built-ins (hashes, zlib, JSON and URL parsing):
      parameters with documented facts.
    - The Go agent, the Python and shell scripts and the deployment files: other
      programs. *)

From stdpp Require Export base option list sorting strings gmap.
From Stdlib Require Export ZArith Lia.
From Stdlib Require Import Ascii.

#[global] Open Scope Z_scope.

(** ** Exceptions

    One constructor per error class of the sources; a code is the string the
    class carries.  [OutOfFuel] is thrown by no source line: it marks a loop of
    the model whose fuel ran out, and the termination theorems show that it
    never appears. *)
Inductive exn :=
  | CompilerFailure (code : string)
  | ToolchainCatalogFailure (code : string)
  | ServiceIdentityError (code : string)
  | WorldSeedFailure (code : string)
  | MaterializerFailure (code : string)
  | HttpWorkerError (status : Z) (code : string)
  | CodedError (message code : string)
  | PlainError (message : string)
  | TypeError (message : string)
  | OutOfFuel.

#[export] Instance exn_eq_dec : EqDecision exn.
Proof. solve_decision. Defined.

(** ** The exception monad: a [throw] is a value *)
Inductive res (A : Type) :=
  | Ok (a : A)
  | Throw (e : exn).
Arguments Ok {A} a.
Arguments Throw {A} e.

#[export] Instance res_ret : MRet res := fun A a => Ok a.
#[export] Instance res_bind : MBind res := fun A B f m =>
  match m with Ok a => f a | Throw e => Throw e end.

#[export] Instance res_eq_dec {A} `{EqDecision A} : EqDecision (res A).
Proof. solve_decision. Defined.

(** [if (b) throw e;] *)
Definition throw_if (b : bool) (e : exn) : res unit :=
  if b then Throw e else Ok tt.

(** [try { m } catch { throw e }] *)
Definition rethrow {A} (m : res A) (e : exn) : res A :=
  match m with Ok a => Ok a | Throw _ => Throw e end.

(** A [throw] inside a map or a loop body ends the loop. *)
Fixpoint mapM_res {A B} (f : A -> res B) (l : list A) : res (list B) :=
  match l with
  | [] => Ok []
  | x :: t => y ← f x; ys ← mapM_res f t; Ok (y :: ys)
  end.

Fixpoint foldM_res {A S} (f : S -> A -> res S) (s : S) (l : list A) : res S :=
  match l with
  | [] => Ok s
  | x :: t => s' ← f s x; foldM_res f s' t
  end.

Definition get_ok {A} (d : A) (m : res A) : A :=
  match m with Ok a => a | Throw _ => d end.

Definition is_ok {A} (m : res A) : bool :=
  match m with Ok _ => true | Throw _ => false end.

Lemma bind_ok {A B} (m : res A) (f : A -> res B) b :
  m ≫= f = Ok b <-> exists a, m = Ok a /\ f a = Ok b.
Proof. destruct m; simpl; [naive_solver|]. split; [done|]. by intros (? & ? & ?). Qed.

Lemma throw_if_ok b e u : throw_if b e = Ok u <-> b = false.
Proof. destruct b, u; simpl; naive_solver. Qed.

Lemma rethrow_ok {A} (m : res A) e a : rethrow m e = Ok a <-> m = Ok a.
Proof. destruct m as [x|e']; simpl; naive_solver. Qed.

(** ** Which exceptions a computation may throw *)
Definition only_throws {A} (P : exn -> Prop) (m : res A) : Prop :=
  match m with Ok _ => True | Throw e => P e end.

Lemma only_throws_bind {A B} P (m : res A) (f : A -> res B) :
  only_throws P m -> (forall a, m = Ok a -> only_throws P (f a)) -> only_throws P (m ≫= f).
Proof. destruct m; simpl; auto. Qed.

Lemma only_throws_if {A} P (b : bool) (m1 m2 : res A) :
  (b = true -> only_throws P m1) -> (b = false -> only_throws P m2) ->
  only_throws P (if b then m1 else m2).
Proof. destruct b; auto. Qed.

Lemma only_throws_mapM {A B} P (f : A -> res B) l :
  (forall x, x ∈ l -> only_throws P (f x)) -> only_throws P (mapM_res f l).
Proof.
  induction l as [|x l IH]; intros Hf; simpl; [done|].
  apply only_throws_bind; [apply Hf; left|]. intros y _.
  apply only_throws_bind; [apply IH; intros; apply Hf; by right|]. done.
Qed.

Create HintDb throws.

(** Follow the control flow of a computation down to the exceptions it names;
    the lemmas of the components it calls come from the database. *)
Ltac throws :=
  repeat first
    [ apply only_throws_bind; [|intros ? ?]
    | apply only_throws_if; intros ?
    | progress (cbn [only_throws])
    | match goal with |- only_throws _ (match ?x with _ => _ end) => destruct x eqn:? end ];
  eauto with throws.

Lemma mapM_res_ok {A B} (f : A -> res B) l ys :
  mapM_res f l = Ok ys <-> Forall2 (fun x y => f x = Ok y) l ys.
Proof.
  revert ys; induction l as [|x l IH]; intros ys; simpl.
  - split; [intros [= <-]; constructor | by inversion 1].
  - rewrite bind_ok. setoid_rewrite bind_ok. split.
    + intros (y & Hy & ys' & Hys & [= <-]). constructor; [done|]. by apply IH.
    + inversion 1; subst. eexists; split; [done|]. eexists; split; [by apply IH|done].
Qed.

(** Invert every [bind] and [throw_if] of a successful run. *)
Ltac ok_inv :=
  repeat match goal with
  | H : _ ≫= _ = Ok _ |- _ => apply bind_ok in H; destruct H as (? & ? & ?)
  | H : throw_if _ _ = Ok _ |- _ => apply throw_if_ok in H
  | H : rethrow _ _ = Ok _ |- _ => apply rethrow_ok in H
  | H : Ok _ = Ok _ |- _ => injection H as H; subst
  | H : Throw _ = Ok _ |- _ => discriminate H
  | H : (if ?b then Throw _ else _) = Ok _ |- _ => destruct b eqn:?; [discriminate H|]
  | H : (if ?b then _ else Throw _) = Ok _ |- _ => destruct b eqn:?; [|discriminate H]
  | H : _ || _ = false |- _ => apply orb_false_iff in H; destruct H
  | H : _ && _ = true |- _ => apply andb_true_iff in H; destruct H
  | H : negb _ = false |- _ => apply negb_false_iff in H
  | H : negb _ = true |- _ => apply negb_true_iff in H
  end.

(** ** Typed arrays: lists indexed by [Z]

    A [Uint8Array] is a list of bytes, each a [Z] in [0, 256); sizes and offsets
    are [Z] so that the 100 MiB bounds of the sources are numbers the kernel can
    compute with. *)
Abbreviation bytes := (list Z).

Definition is_byte (b : Z) : bool := (0 <=? b) && (b <=? 255).

Definition bytes_ok (b : bytes) : Prop := Forall (fun x => is_byte x = true) b.

Definition zlen {A} (l : list A) : Z := Z.of_nat (length l).

Fixpoint ztake {A} (n : Z) (l : list A) : list A :=
  match l with
  | [] => []
  | x :: t => if n <=? 0 then [] else x :: ztake (n - 1) t
  end.

Fixpoint zdrop {A} (n : Z) (l : list A) : list A :=
  match l with
  | [] => []
  | x :: t => if n <=? 0 then l else zdrop (n - 1) t
  end.

(** [b.subarray(start, end)] for non-negative arguments: clamped at the end. *)
Definition subarray (b : bytes) (start stop : Z) : bytes :=
  ztake (stop - start) (zdrop start b).

(** [b[i]]: out of range is [undefined], which the bit operators read as 0. *)
Definition byte_at (b : bytes) (i : Z) : Z :=
  match zdrop i b with x :: _ => x | [] => 0 end.

(** [target.set(bs, offset)], for [offset + bs.length <= target.length] (a
    longer [bs] is a [RangeError]; every caller in the sources checks first). *)
Definition set_bytes (target : bytes) (offset : Z) (bs : bytes) : bytes :=
  ztake offset target ++ bs ++ zdrop (offset + zlen bs) target.

Definition zeros (n : Z) : bytes := replicate (Z.to_nat n) 0.
#[global] Arguments zeros : simpl never.

Section zlist.
Context {A : Type}.
Implicit Types l : list A.

Lemma ztake_take n l : ztake n l = take (Z.to_nat n) l.
Proof.
  revert n; induction l as [|x l IH]; intros n; simpl; [by rewrite take_nil|].
  destruct (Z.leb_spec n 0).
  - by replace (Z.to_nat n) with 0%nat by lia.
  - rewrite IH. by replace (Z.to_nat n) with (S (Z.to_nat (n - 1))) by lia.
Qed.

Lemma zdrop_drop n l : zdrop n l = drop (Z.to_nat n) l.
Proof.
  revert n; induction l as [|x l IH]; intros n; simpl; [by rewrite drop_nil|].
  destruct (Z.leb_spec n 0).
  - by replace (Z.to_nat n) with 0%nat by lia.
  - rewrite IH. by replace (Z.to_nat n) with (S (Z.to_nat (n - 1))) by lia.
Qed.

Lemma zlen_nonneg l : 0 <= zlen l.
Proof. unfold zlen; lia. Qed.

Lemma zlen_nil : zlen (@nil A) = 0.
Proof. done. Qed.

Lemma zlen_cons x l : zlen (x :: l) = 1 + zlen l.
Proof. unfold zlen; simpl; lia. Qed.

Lemma zlen_app l1 l2 : zlen (l1 ++ l2) = zlen l1 + zlen l2.
Proof. unfold zlen; rewrite length_app; lia. Qed.

Lemma zlen_ztake n l : zlen (ztake n l) = Z.max 0 (Z.min n (zlen l)).
Proof. rewrite ztake_take; unfold zlen; rewrite length_take; lia. Qed.

Lemma zlen_zdrop n l : zlen (zdrop n l) = Z.max 0 (zlen l - Z.max 0 n).
Proof. rewrite zdrop_drop; unfold zlen; rewrite length_drop; lia. Qed.

Lemma zlen_replicate (x : A) n : zlen (replicate n x) = Z.of_nat n.
Proof. unfold zlen; by rewrite length_replicate. Qed.

Lemma zlen_0_nil l : zlen l <= 0 -> l = [].
Proof. destruct l; [done|]. rewrite zlen_cons. pose proof (zlen_nonneg l). lia. Qed.

Lemma ztake_zdrop n l : ztake n l ++ zdrop n l = l.
Proof. rewrite ztake_take, zdrop_drop. apply take_drop. Qed.

Lemma zdrop_zdrop a b l : 0 <= a -> 0 <= b -> zdrop a (zdrop b l) = zdrop (b + a) l.
Proof. intros. rewrite !zdrop_drop, drop_drop. f_equal; lia. Qed.

Lemma ztake_ztake a b l : ztake a (ztake b l) = ztake (Z.min a b) l.
Proof. rewrite !ztake_take, take_take. f_equal; lia. Qed.

Lemma zdrop_ge n l : zlen l <= n -> zdrop n l = [].
Proof. intros. rewrite zdrop_drop. apply drop_ge. unfold zlen in *; lia. Qed.

Lemma zdrop_le0 n l : n <= 0 -> zdrop n l = l.
Proof. intros. rewrite zdrop_drop. by replace (Z.to_nat n) with 0%nat by lia. Qed.

Lemma ztake_ge n l : zlen l <= n -> ztake n l = l.
Proof. intros. rewrite ztake_take. apply take_ge. unfold zlen in *; lia. Qed.

Lemma ztake_le0 n l : n <= 0 -> ztake n l = [].
Proof. intros. rewrite ztake_take. by replace (Z.to_nat n) with 0%nat by lia. Qed.

Lemma ztake_app n l1 l2 : ztake n (l1 ++ l2) = ztake n l1 ++ ztake (n - zlen l1) l2.
Proof.
  rewrite !ztake_take, take_app. f_equal. unfold zlen. f_equal; lia.
Qed.

Lemma zdrop_app n l1 l2 :
  zdrop n (l1 ++ l2) = zdrop n l1 ++ zdrop (n - zlen l1) l2.
Proof.
  rewrite !zdrop_drop, drop_app. f_equal. unfold zlen. f_equal; lia.
Qed.

Lemma ztake_app_exact n l1 l2 : n = zlen l1 -> ztake n (l1 ++ l2) = l1.
Proof.
  intros ->. rewrite ztake_app, ztake_ge, ztake_le0, app_nil_r; [done|lia..].
Qed.

Lemma zdrop_app_exact n l1 l2 : n = zlen l1 -> zdrop n (l1 ++ l2) = l2.
Proof. intros ->. rewrite zdrop_app, zdrop_ge, zdrop_le0; [done|lia..]. Qed.

Lemma ztake_zdrop_comm a b l :
  0 <= a -> 0 <= b -> ztake a (zdrop b l) = zdrop b (ztake (b + a) l).
Proof. intros. rewrite !ztake_take, !zdrop_drop, take_drop_commute. f_equal. f_equal. lia. Qed.
End zlist.

(** Length arithmetic: normalise every [zlen] and close with [lia]. *)
Create Rewrite HintDb zl.
Create HintDb zl.
#[export] Hint Rewrite @zlen_nil @zlen_cons @zlen_app @zlen_ztake @zlen_zdrop
  @zlen_replicate @length_app : zl.

Ltac zl_pose :=
  repeat match goal with
  | |- context [zlen ?l] =>
      lazymatch goal with H : 0 <= zlen l |- _ => fail | _ => pose proof (zlen_nonneg l) end
  | H : context [zlen ?l] |- _ =>
      lazymatch goal with H : 0 <= zlen l |- _ => fail | _ => pose proof (zlen_nonneg l) end
  end.

Ltac zlia := autorewrite with zl in *; zl_pose; lia.

Lemma zlen_zeros n : 0 <= n -> zlen (zeros n) = n.
Proof. intros. unfold zeros. rewrite zlen_replicate. lia. Qed.

Lemma zlen_subarray b s e :
  0 <= s <= e -> e <= zlen b -> zlen (subarray b s e) = e - s.
Proof. intros. unfold subarray. zlia. Qed.

Lemma zlen_set_bytes t o bs :
  0 <= o -> o + zlen bs <= zlen t -> zlen (set_bytes t o bs) = zlen t.
Proof. intros. unfold set_bytes. zlia. Qed.

Lemma bytes_ok_app a b : bytes_ok (a ++ b) <-> bytes_ok a /\ bytes_ok b.
Proof. apply Forall_app. Qed.

Lemma bytes_ok_zeros n : bytes_ok (zeros n).
Proof. by apply Forall_replicate. Qed.

Lemma ztake_zeros n k : ztake k (zeros n) = zeros (Z.min k n).
Proof. unfold zeros. rewrite ztake_take, take_replicate. f_equal. lia. Qed.

Lemma zdrop_zeros n k : 0 <= k -> zdrop k (zeros n) = zeros (n - k).
Proof. intros. unfold zeros. rewrite zdrop_drop, drop_replicate. f_equal. lia. Qed.

(** *** Reading back what [set_bytes] wrote *)
Definition slice (b : bytes) (offset len : Z) : bytes := ztake len (zdrop offset b).

Lemma zlen_slice b o n : 0 <= o -> 0 <= n -> o + n <= zlen b -> zlen (slice b o n) = n.
Proof. intros. unfold slice. zlia. Qed.

Lemma slice_set_disjoint t o bs o' n :
  0 <= o -> o + zlen bs <= zlen t -> 0 <= o' -> 0 <= n -> o' + n <= zlen t ->
  o' + n <= o \/ o + zlen bs <= o' ->
  slice (set_bytes t o bs) o' n = slice t o' n.
Proof.
  intros Ho Hfit Ho' Hn Hfit' Hdis. zl_pose. unfold slice, set_bytes.
  rewrite (ztake_zdrop_comm n o' (_ ++ _)), (ztake_zdrop_comm n o' t) by lia.
  rewrite !ztake_app, ztake_ztake, zlen_ztake.
  destruct Hdis.
  - rewrite (Z.min_l (o' + n)) by lia.
    rewrite (ztake_le0 _ bs), (ztake_le0 _ (zdrop _ _)) by zlia. simpl. by rewrite app_nil_r.
  - rewrite (Z.min_r (o' + n)) by lia. rewrite (ztake_ge _ bs) by zlia.
    rewrite !zdrop_app, !zlen_ztake.
    rewrite (zdrop_ge _ (ztake _ _)), (zdrop_ge _ bs) by zlia. simpl.
    rewrite ztake_zdrop_comm, zdrop_zdrop by zlia.
    f_equal; [zlia|]. f_equal. zlia.
Qed.

Lemma slice_set_same t o bs n :
  0 <= o -> zlen bs <= n -> o + n <= zlen t ->
  slice (set_bytes t o bs) o n = bs ++ slice t (o + zlen bs) (n - zlen bs).
Proof.
  intros. unfold slice, set_bytes. zl_pose.
  rewrite zdrop_app_exact by (autorewrite with zl; lia).
  by rewrite ztake_app, (ztake_ge n bs) by lia.
Qed.

Lemma slice_zeros n o k : 0 <= o -> o + k <= n -> slice (zeros n) o k = zeros k.
Proof. intros. unfold slice. rewrite zdrop_zeros, ztake_zeros by lia. f_equal. lia. Qed.

(** ** [Map]: an association list in insertion order

    [set] on a present key keeps its position, as in the language. *)
Section js_map.
Context {K V : Type} `{EqDecision K}.
Implicit Types m : list (K * V).

Fixpoint map_get (k : K) m : option V :=
  match m with
  | [] => None
  | (k', v) :: t => if bool_decide (k = k') then Some v else map_get k t
  end.

Definition map_has (k : K) m : bool := bool_decide (is_Some (map_get k m)).

Fixpoint map_set (k : K) (v : V) m : list (K * V) :=
  match m with
  | [] => [(k, v)]
  | (k', v') :: t => if bool_decide (k = k') then (k, v) :: t else (k', v') :: map_set k v t
  end.

Fixpoint map_delete (k : K) m : list (K * V) :=
  match m with
  | [] => []
  | (k', v') :: t => if bool_decide (k = k') then t else (k', v') :: map_delete k t
  end.

Definition map_keys m : list K := m.*1.

(** Every [Map] has distinct keys. *)
Definition map_wf m : Prop := NoDup (map_keys m).

#[export] Instance map_wf_dec m : Decision (map_wf m).
Proof. unfold map_wf. apply _. Defined.

Lemma map_get_In k v m : map_get k m = Some v -> (k, v) ∈ m.
Proof.
  induction m as [|[k' v'] m IH]; simpl; [done|].
  case_bool_decide; subst; intros Hv; [injection Hv as ->; by left|right; auto].
Qed.

Lemma map_get_None k m : map_get k m = None <-> k ∉ map_keys m.
Proof.
  induction m as [|[k' v'] m IH]; simpl; [by split; [intros _; apply not_elem_of_nil|]|].
  rewrite not_elem_of_cons. case_bool_decide; [naive_solver|]. rewrite IH. naive_solver.
Qed.

Lemma map_wf_get k v m : map_wf m -> (k, v) ∈ m -> map_get k m = Some v.
Proof.
  unfold map_wf, map_keys. induction m as [|[k' v'] m IH]; simpl; [by intros _ ?%not_elem_of_nil|].
  rewrite NoDup_cons. intros [Hk' Hnd] Hin. apply elem_of_cons in Hin as [[= -> ->]|Hin].
  - by rewrite bool_decide_true.
  - rewrite bool_decide_false; [auto|]. intros ->. apply Hk'.
    apply list_elem_of_fmap. by exists (k', v).
Qed.

Lemma map_get_set_eq k v m : map_get k (map_set k v m) = Some v.
Proof.
  induction m as [|[k' v'] m IH]; simpl; [by rewrite bool_decide_true|].
  case_bool_decide; simpl; [by rewrite bool_decide_true|by rewrite bool_decide_false].
Qed.

Lemma map_get_set_ne k k' v m : k <> k' -> map_get k (map_set k' v m) = map_get k m.
Proof.
  intros. induction m as [|[k'' v''] m IH]; simpl; [by rewrite bool_decide_false|].
  destruct (decide (k' = k'')) as [<-|].
  - rewrite (bool_decide_true (k' = k')) by done. simpl. by rewrite !bool_decide_false.
  - rewrite (bool_decide_false (k' = k'')) by done. simpl. by rewrite IH.
Qed.

Lemma map_get_delete_ne k k' m : k <> k' -> map_get k (map_delete k' m) = map_get k m.
Proof.
  intros. induction m as [|[k'' v''] m IH]; simpl; [done|].
  destruct (decide (k' = k'')) as [<-|].
  - rewrite (bool_decide_true (k' = k')) by done. by rewrite (bool_decide_false (k = k')).
  - rewrite (bool_decide_false (k' = k'')) by done. simpl. by rewrite IH.
Qed.

Lemma map_get_delete_eq k m : map_wf m -> map_get k (map_delete k m) = None.
Proof.
  unfold map_wf, map_keys. induction m as [|[k' v'] m IH]; simpl; [done|].
  rewrite NoDup_cons. intros [Hk' Hnd]. case_bool_decide; subst; simpl.
  - by apply map_get_None.
  - rewrite bool_decide_false by done. auto.
Qed.

Lemma map_set_fresh k v m : map_get k m = None -> map_set k v m = m ++ [(k, v)].
Proof.
  induction m as [|[k' v'] m IH]; simpl; [done|]. case_bool_decide; [done|]. intros. f_equal. auto.
Qed.

Lemma map_keys_set k v m x : x ∈ map_keys (map_set k v m) <-> x = k \/ x ∈ map_keys m.
Proof.
  unfold map_keys. induction m as [|[k' v'] m IH]; simpl; [by rewrite list_elem_of_singleton, elem_of_nil; naive_solver|].
  case_bool_decide; simpl; rewrite !elem_of_cons; [naive_solver|]. rewrite IH. naive_solver.
Qed.

Lemma map_keys_delete k m x : x ∈ map_keys (map_delete k m) -> x ∈ map_keys m.
Proof.
  unfold map_keys. induction m as [|[k' v'] m IH]; simpl; [done|].
  case_bool_decide; simpl; rewrite !elem_of_cons; naive_solver.
Qed.

Lemma map_wf_set k v m : map_wf m -> map_wf (map_set k v m).
Proof.
  unfold map_wf. induction m as [|[k' v'] m IH]; simpl; [intros; apply NoDup_singleton|].
  rewrite NoDup_cons. intros [Hk' Hnd]. case_bool_decide; subst; simpl; rewrite NoDup_cons; [done|].
  split; [|auto]. rewrite (map_keys_set k v m k'). naive_solver.
Qed.

Lemma map_wf_delete k m : map_wf m -> map_wf (map_delete k m).
Proof.
  unfold map_wf. induction m as [|[k' v'] m IH]; simpl; [done|].
  rewrite NoDup_cons. intros [Hk' Hnd]. case_bool_decide; subst; simpl; [done|].
  rewrite NoDup_cons. split; [|auto]. intros ?%map_keys_delete. auto.
Qed.

Lemma map_wf_app m1 m2 :
  map_wf (m1 ++ m2) <->
  map_wf m1 /\ (forall k, k ∈ map_keys m1 -> k ∉ map_keys m2) /\ map_wf m2.
Proof. unfold map_wf, map_keys. rewrite fmap_app. apply NoDup_app. Qed.
End js_map.

Lemma map_get_map {K V W} `{EqDecision K} (f : V -> W) (k : K) (m : list (K * V)) :
  map_get k (map (fun e => (e.1, f e.2)) m) = f <$> map_get k m.
Proof. induction m as [|[k' v] m IH]; simpl; [done|]. by destruct (bool_decide (k = k')). Qed.

Lemma map_wf_map {K V W} `{EqDecision K} (f : V -> W) (m : list (K * V)) :
  map_wf m -> map_wf (map (fun e => (e.1, f e.2)) m).
Proof.
  unfold map_wf, map_keys. intros Hm. by replace ((map _ m).*1) with (m.*1) by (by rewrite <- list_fmap_compose).
Qed.

Create HintDb jsmap.
#[export] Hint Resolve map_wf_set map_wf_delete : jsmap.
Create Rewrite HintDb jsmap.
#[export] Hint Rewrite @map_get_set_eq : jsmap.

(** Close a decidable goal by evaluation. *)
Ltac by_decide := refine (bool_decide_unpack _ _); vm_compute; exact I.

Lemma zdrop_length {A} n (l : list A) : (length (zdrop n l) <= length l)%nat.
Proof. revert n. induction l as [|x l IH]; intros n; cbn; [done|]. destruct (n <=? 0); cbn; [done|]. specialize (IH (n - 1)). lia. Qed.
