(* ===== verification/JsText.v ===== *)
(** * JavaScript strings

    A string of the language is a sequence of UTF-16 code units, here a list of
    [Z] in [0, 65536): [length], [<], [startsWith], [split] and the regular
    expressions of the sources work on code units.  This file models the string
    operations the compiler worker uses, number printing and parsing
    ([toString(radix)], [parseInt]), [TextEncoder] and the fatal [TextDecoder]
    (UTF-8), and proves the facts the components share: the order is total, a
    printed number parses back, a well-formed string survives
    encode-then-decode. *)

From S2P Require Import Prelude.
From Stdlib Require Import Ascii.

Abbreviation jsstr := (list Z).

(** A literal of the sources (all of them are ASCII). *)
Definition js (s : string) : jsstr :=
  map (fun a => Z.of_N (N_of_ascii a)) (String.list_ascii_of_string s).

#[global] Arguments js : simpl never.

Definition ch (a : ascii) : Z := Z.of_N (N_of_ascii a).

Definition streq (a b : jsstr) : bool := bool_decide (a = b).

Lemma streq_true a b : streq a b = true <-> a = b.
Proof. apply bool_decide_eq_true. Qed.

Lemma streq_false a b : streq a b = false <-> a <> b.
Proof. apply bool_decide_eq_false. Qed.

Lemma streq_refl a : streq a a = true.
Proof. by apply streq_true. Qed.

(** [list.includes(s)] for an array of strings. *)
Definition str_in (s : jsstr) (l : list jsstr) : bool := existsb (streq s) l.

Lemma str_in_spec s l : str_in s l = true <-> s ∈ l.
Proof.
  unfold str_in. rewrite existsb_exists. setoid_rewrite streq_true.
  rewrite list_elem_of_In. naive_solver.
Qed.

(** ** Order: [left < right] compares code units *)
Fixpoint str_ltb (a b : jsstr) : bool :=
  match a, b with
  | _, [] => false
  | [], _ :: _ => true
  | x :: a', y :: b' => if x <? y then true else if y <? x then false else str_ltb a' b'
  end.

Definition str_le (a b : jsstr) : Prop := str_ltb b a = false.

#[export] Instance str_le_dec : RelDecision str_le.
Proof. intros a b. unfold str_le. apply _. Defined.

Lemma str_ltb_irrefl a : str_ltb a a = false.
Proof. induction a as [|x a IH]; simpl; [done|]. by rewrite Z.ltb_irrefl. Qed.

Lemma str_ltb_total a b : str_ltb a b = false -> str_ltb b a = false -> a = b.
Proof.
  revert b; induction a as [|x a IH]; intros [|y b]; simpl; try done.
  destruct (Z.ltb_spec x y), (Z.ltb_spec y x); try done.
  intros. replace y with x by lia. f_equal; auto.
Qed.

Lemma str_ltb_trans a b c : str_ltb a b = true -> str_ltb b c = true -> str_ltb a c = true.
Proof.
  revert b c; induction a as [|x a IH]; intros [|y b] [|z c]; simpl; try done.
  destruct (Z.ltb_spec x y), (Z.ltb_spec y x), (Z.ltb_spec y z), (Z.ltb_spec z y),
    (Z.ltb_spec x z), (Z.ltb_spec z x); try done; try lia. apply IH.
Qed.

Lemma str_ltb_asym a b : str_ltb a b = true -> str_ltb b a = false.
Proof.
  intros H. destruct (str_ltb b a) eqn:E; [|done].
  pose proof (str_ltb_trans _ _ _ H E) as T. by rewrite str_ltb_irrefl in T.
Qed.

#[export] Instance str_le_total : Total str_le.
Proof. intros a b. unfold str_le. destruct (str_ltb b a) eqn:E; [right|by left]. by apply str_ltb_asym. Qed.

#[export] Instance str_le_trans : Transitive str_le.
Proof.
  intros a b c. unfold str_le. intros Hab Hbc. destruct (str_ltb c a) eqn:E; [|done].
  destruct (str_ltb a b) eqn:Eab.
  - by rewrite (str_ltb_trans _ _ _ E Eab) in Hbc.
  - rewrite (str_ltb_total a b Eab Hab) in E. congruence.
Qed.

#[export] Instance str_le_antisym : AntiSymm (=) str_le.
Proof. intros a b Hab Hba. by apply str_ltb_total. Qed.

(** ** [startsWith], [endsWith], [includes], [slice] *)
Fixpoint starts_with (p s : jsstr) : bool :=
  match p, s with
  | [], _ => true
  | x :: p', y :: s' => (x =? y) && starts_with p' s'
  | _ :: _, [] => false
  end.

Definition ends_with (p s : jsstr) : bool := starts_with (reverse p) (reverse s).

Definition includes_char (c : Z) (s : jsstr) : bool := existsb (Z.eqb c) s.

Fixpoint includes (p s : jsstr) : bool :=
  starts_with p s || match s with [] => false | _ :: t => includes p t end.

Lemma starts_with_spec p s : starts_with p s = true <-> exists t, s = p ++ t.
Proof.
  revert s; induction p as [|x p IH]; intros s; simpl; [naive_solver|].
  destruct s as [|y s]; simpl; [naive_solver|].
  rewrite andb_true_iff, Z.eqb_eq, IH. naive_solver.
Qed.

Lemma starts_with_app p t : starts_with p (p ++ t) = true.
Proof. apply starts_with_spec. eauto. Qed.

Lemma includes_char_spec c s : includes_char c s = true <-> c ∈ s.
Proof.
  unfold includes_char. rewrite existsb_exists, list_elem_of_In.
  setoid_rewrite Z.eqb_eq. naive_solver.
Qed.

Lemma includes_char_false c s : includes_char c s = false <-> c ∉ s.
Proof. rewrite <- includes_char_spec. by destruct (includes_char c s). Qed.

(** ** [split] on one character and [join] with one *)
Fixpoint split_on (c : Z) (s : jsstr) : list jsstr :=
  match s with
  | [] => [[]]
  | x :: t =>
      if x =? c then [] :: split_on c t
      else match split_on c t with
           | [] => [[x]]
           | w :: ws => (x :: w) :: ws
           end
  end.

Fixpoint join (sep : jsstr) (l : list jsstr) : jsstr :=
  match l with
  | [] => []
  | [w] => w
  | w :: ws => w ++ sep ++ join sep ws
  end.

Lemma split_on_cons c s : exists w ws, split_on c s = w :: ws.
Proof.
  induction s as [|x s (w & ws & IH)]; simpl; [eauto|]. rewrite IH.
  destruct (x =? c); eauto.
Qed.

Lemma join_split c s : join [c] (split_on c s) = s.
Proof.
  induction s as [|x s IH]; simpl; [done|].
  destruct (split_on_cons c s) as (w & ws & E). rewrite E in *.
  destruct (Z.eqb_spec x c) as [->|]; [by rewrite <- IH|].
  destruct ws; simpl in *; by rewrite <- IH.
Qed.

Lemma split_on_free c s : Forall (fun w => c ∉ w) (split_on c s).
Proof.
  induction s as [|x s IH]; simpl; [constructor; [apply not_elem_of_nil|done]|].
  destruct (split_on_cons c s) as (w & ws & E). rewrite E in *. inversion IH; subst.
  destruct (Z.eqb_spec x c) as [->|Hne]; constructor; try done.
  - apply not_elem_of_nil.
  - rewrite not_elem_of_cons. naive_solver.
Qed.

Lemma join_app sep l1 l2 :
  l1 <> [] -> l2 <> [] -> join sep (l1 ++ l2) = join sep l1 ++ sep ++ join sep l2.
Proof.
  intros H1 H2. induction l1 as [|w [|w' l1] IH]; [done| |].
  - simpl. by destruct l2.
  - change (join sep ((w :: w' :: l1) ++ l2)) with (w ++ sep ++ join sep ((w' :: l1) ++ l2)).
    rewrite IH by done. simpl. by rewrite <- !app_assoc.
Qed.

(** ** Case: ASCII letters, and the Unicode tables as an interface

    [toLowerCase] and [normalize("NFKC")] consult the Unicode database; the
    sources rely on nothing but their effect on ASCII. *)
Definition ascii_lower_unit (c : Z) : Z := if (65 <=? c) && (c <=? 90) then c + 32 else c.

Definition ascii_lower (s : jsstr) : jsstr := map ascii_lower_unit s.

Definition is_ascii (s : jsstr) : bool := forallb (fun c => (0 <=? c) && (c <? 128)) s.

Class Unicode := {
  toLowerCase : jsstr -> jsstr;
  normalizeNFKC : jsstr -> jsstr;
  toLowerCase_ascii : forall s, is_ascii s = true -> toLowerCase s = ascii_lower s;
  normalizeNFKC_ascii : forall s, is_ascii s = true -> normalizeNFKC s = s;
}.

(** An instance for ASCII inputs, used to run the model. *)
Definition ascii_unicode : Unicode := {|
  toLowerCase := ascii_lower;
  normalizeNFKC s := s;
  toLowerCase_ascii s _ := eq_refl;
  normalizeNFKC_ascii s _ := eq_refl;
|}.

Lemma ascii_lower_idem s : ascii_lower (ascii_lower s) = ascii_lower s.
Proof.
  unfold ascii_lower. rewrite map_map. apply map_ext. intros c. unfold ascii_lower_unit.
  destruct (Z.leb_spec 65 c), (Z.leb_spec c 90); simpl;
    repeat match goal with |- context [?a <=? ?b] => destruct (Z.leb_spec a b) end; simpl; lia.
Qed.

(** ** Numbers as text: [toString(radix)], [parseInt(text, radix)], [padStart] *)
Definition digit_char (d : Z) : Z := if d <? 10 then 48 + d else 87 + d.

Definition digit_value (c : Z) : Z :=
  if c <? 58 then c - 48 else if c <? 91 then c - 55 else c - 87.

Fixpoint radix_digits (fuel : nat) (base n : Z) (acc : jsstr) : jsstr :=
  match fuel with
  | O => acc
  | S f =>
      let acc' := digit_char (n mod base) :: acc in
      if n <? base then acc' else radix_digits f base (n / base) acc'
  end.

(** [n.toString(base)] of an integer; [String(n)] is base 10. *)
Definition to_radix (base n : Z) : jsstr :=
  if n <? 0 then 45 :: radix_digits (S (Z.to_nat (Z.log2 (- n)))) base (- n) []
  else radix_digits (S (Z.to_nat (Z.log2 n))) base n [].

Definition parse_digits (base acc : Z) (s : jsstr) : Z :=
  fold_left (fun a c => a * base + digit_value c) s acc.

(** [Number.parseInt(s, base)] of a string of digits of that base. *)
Definition parse_radix (base : Z) (s : jsstr) : Z := parse_digits base 0 s.

Definition pad_start (len : Z) (s : jsstr) : jsstr :=
  replicate (Z.to_nat (len - zlen s)) 48 ++ s.

Definition is_digit_of (base c : Z) : bool :=
  ((48 <=? c) && (c <? 58) || (97 <=? c) && (c <? 103)) && (digit_value c <? base).

Lemma digit_value_char d : 0 <= d < 16 -> digit_value (digit_char d) = d.
Proof.
  intros. unfold digit_value, digit_char.
  destruct (Z.ltb_spec d 10); [destruct (Z.ltb_spec (48 + d) 58); lia|].
  destruct (Z.ltb_spec (87 + d) 58), (Z.ltb_spec (87 + d) 91); lia.
Qed.

Lemma is_digit_char base d : 0 <= d < base -> base <= 16 -> is_digit_of base (digit_char d) = true.
Proof.
  intros. unfold is_digit_of. rewrite digit_value_char by lia. unfold digit_char.
  destruct (Z.ltb_spec d 10);
    repeat match goal with |- context [?a <=? ?b] => destruct (Z.leb_spec a b) end;
    repeat match goal with |- context [?a <? ?b] => destruct (Z.ltb_spec a b) end; simpl; lia.
Qed.

Lemma fuel_div fuel base n :
  2 <= base -> base <= n -> n < 2 ^ Z.of_nat (S fuel) -> 0 <= n / base < 2 ^ Z.of_nat fuel.
Proof.
  intros Hb Hn Hf. rewrite Nat2Z.inj_succ, Z.pow_succ_r in Hf by lia.
  split; [apply Z.div_pos; lia|]. apply Z.div_lt_upper_bound; [lia|].
  pose proof (Z.pow_pos_nonneg 2 (Z.of_nat fuel)). nia.
Qed.

Lemma log2_fuel n : 0 <= n -> n < 2 ^ Z.of_nat (S (Z.to_nat (Z.log2 n))).
Proof.
  intros Hn. rewrite Nat2Z.inj_succ, Z2Nat.id by apply Z.log2_nonneg.
  destruct (Z.eq_dec n 0) as [->|]; [done|]. apply Z.log2_spec. lia.
Qed.

Lemma parse_radix_digits fuel base n acc :
  2 <= base <= 16 -> 0 <= n < 2 ^ Z.of_nat fuel ->
  parse_digits base 0 (radix_digits fuel base n acc) = parse_digits base n acc.
Proof.
  intros Hb. revert n acc. induction fuel as [|fuel IH]; intros n acc Hn.
  - change (2 ^ Z.of_nat 0) with 1 in Hn. by replace n with 0 by lia.
  - cbn [radix_digits]. pose proof (Z.mod_pos_bound n base).
    destruct (Z.ltb_spec n base).
    + rewrite Z.mod_small by lia. unfold parse_digits at 1. simpl.
      by rewrite digit_value_char by lia.
    + rewrite IH by (apply fuel_div; lia). unfold parse_digits. simpl.
      rewrite digit_value_char by lia. f_equal. rewrite (Z.div_mod n base) at 3 by lia. lia.
Qed.

Lemma parse_to_radix base n :
  2 <= base <= 16 -> 0 <= n -> parse_radix base (to_radix base n) = n.
Proof.
  intros. unfold parse_radix, to_radix. rewrite (proj2 (Z.ltb_ge n 0)) by lia.
  rewrite parse_radix_digits; [done|lia|]. split; [lia|by apply log2_fuel].
Qed.

Lemma radix_digits_forall fuel base n acc :
  2 <= base <= 16 -> 0 <= n ->
  Forall (fun c => is_digit_of base c = true) acc ->
  Forall (fun c => is_digit_of base c = true) (radix_digits fuel base n acc).
Proof.
  intros Hb. revert n acc. induction fuel as [|fuel IH]; intros n acc Hn Hacc; [done|].
  cbn [radix_digits]. pose proof (Z.mod_pos_bound n base).
  assert (Forall (fun c => is_digit_of base c = true) (digit_char (n mod base) :: acc))
    by (constructor; [apply is_digit_char; lia|done]).
  destruct (n <? base); [done|]. apply IH; [apply Z.div_pos; lia|done].
Qed.

Lemma to_radix_digits base n :
  2 <= base <= 16 -> 0 <= n -> Forall (fun c => is_digit_of base c = true) (to_radix base n).
Proof.
  intros. unfold to_radix. rewrite (proj2 (Z.ltb_ge n 0)) by lia.
  by apply radix_digits_forall.
Qed.

(** The digits put in front of [acc]: at least one, and the first is not zero
    unless the number is. *)
Lemma radix_digits_head fuel base n acc :
  2 <= base <= 16 -> 0 < n < 2 ^ Z.of_nat fuel ->
  exists d t, radix_digits fuel base n acc = digit_char d :: t /\ 0 < d < base.
Proof.
  intros Hb. revert n acc. induction fuel as [|fuel IH]; intros n acc Hn.
  - change (2 ^ Z.of_nat 0) with 1 in Hn. lia.
  - cbn [radix_digits]. destruct (Z.ltb_spec n base).
    + rewrite Z.mod_small by lia. exists n, acc. split; [done|lia].
    + apply IH. split; [apply Z.div_str_pos; lia|apply fuel_div; lia].
Qed.

Lemma radix_digits_length fuel base n acc k :
  2 <= base -> 0 <= n < base ^ k -> 1 <= k ->
  zlen (radix_digits fuel base n acc) <= k + zlen acc.
Proof.
  intros Hb. revert n acc k. induction fuel as [|fuel IH]; intros n acc k Hn Hk; [simpl; lia|].
  cbn [radix_digits]. destruct (Z.ltb_spec n base); [zlia|].
  destruct (Z.eq_dec k 1) as [->|]; [rewrite Z.pow_1_r in Hn; lia|].
  assert (0 <= n / base < base ^ (k - 1)) as Hdiv.
  { split; [apply Z.div_pos; lia|]. apply Z.div_lt_upper_bound; [lia|].
    rewrite <- Z.pow_succ_r by lia. replace (Z.succ (k - 1)) with k by lia. lia. }
  pose proof (IH (n / base) (digit_char (n mod base) :: acc) (k - 1) Hdiv). zlia.
Qed.

Lemma to_radix_length base n k :
  2 <= base -> 0 <= n < base ^ k -> 1 <= k -> zlen (to_radix base n) <= k.
Proof.
  intros. unfold to_radix. rewrite (proj2 (Z.ltb_ge n 0)) by lia.
  pose proof (radix_digits_length (S (Z.to_nat (Z.log2 n))) base n [] k). zlia.
Qed.

Lemma to_radix_nonempty base n : to_radix base n <> [].
Proof.
  assert (forall f b m acc, acc <> [] -> radix_digits f b m acc <> []) as Hgrow.
  { induction f as [|f IH]; intros b m acc Hacc; [done|]. cbn [radix_digits].
    destruct (m <? b); [done|]. by apply IH. }
  unfold to_radix. destruct (n <? 0); [done|]. cbn [radix_digits].
  destruct (n <? base); [done|]. by apply Hgrow.
Qed.

Lemma parse_pad_start base len s : parse_radix base (pad_start len s) = parse_radix base s.
Proof.
  unfold parse_radix, pad_start, parse_digits. rewrite fold_left_app. f_equal.
  induction (Z.to_nat (len - zlen s)) as [|k IH]; [done|]. simpl. exact IH.
Qed.

(** ** [trim] *)
Definition is_space (c : Z) : bool :=
  (9 <=? c) && (c <=? 13) || (c =? 32) || (c =? 160) || (c =? 0x1680) ||
  (0x2000 <=? c) && (c <=? 0x200a) || (c =? 0x2028) || (c =? 0x2029) || (c =? 0x202f) ||
  (c =? 0x205f) || (c =? 0x3000) || (c =? 0xfeff).

Fixpoint trim_start (s : jsstr) : jsstr :=
  match s with
  | [] => []
  | c :: t => if is_space c then trim_start t else s
  end.

Definition trim (s : jsstr) : jsstr := reverse (trim_start (reverse (trim_start s))).

Lemma trim_start_id s : Forall (fun c => is_space c = false) s -> trim_start s = s.
Proof. destruct 1 as [|c t Hc]; simpl; [done|]. by rewrite Hc. Qed.

Lemma trim_id s : Forall (fun c => is_space c = false) s -> trim s = s.
Proof.
  intros H. unfold trim. rewrite (trim_start_id s) by done.
  rewrite trim_start_id by (by apply Forall_reverse). apply reverse_involutive.
Qed.

Lemma digit_not_space base c : is_digit_of base c = true -> is_space c = false.
Proof.
  unfold is_digit_of. rewrite andb_true_iff, orb_true_iff, !andb_true_iff, !Z.leb_le, !Z.ltb_lt.
  intros H. unfold is_space.
  repeat match goal with |- context [?a <=? ?b] => destruct (Z.leb_spec a b) end; simpl; try lia;
  repeat match goal with |- context [?a =? ?b] => destruct (Z.eqb_spec a b) end; simpl; lia.
Qed.

(** ** UTF-8: [TextEncoder.encode] and the fatal [TextDecoder]

    The encoder turns a lone surrogate into U+FFFD; the decoder refuses
    malformed, overlong and surrogate encodings and drops a leading byte order
    mark, as the Encoding Standard says. *)
Definition is_high (c : Z) : bool := (0xd800 <=? c) && (c <=? 0xdbff).
Definition is_low (c : Z) : bool := (0xdc00 <=? c) && (c <=? 0xdfff).

Definition utf8_unit (c : Z) : bytes :=
  if c <? 0x80 then [c]
  else if c <? 0x800 then [0xc0 + c / 64; 0x80 + c mod 64]
  else [0xe0 + c / 4096; 0x80 + c / 64 mod 64; 0x80 + c mod 64].

Definition utf8_pair (hi lo : Z) : bytes :=
  let cp := 0x10000 + (hi - 0xd800) * 1024 + (lo - 0xdc00) in
  [0xf0 + cp / 262144; 0x80 + cp / 4096 mod 64; 0x80 + cp / 64 mod 64; 0x80 + cp mod 64].

Definition replacement : bytes := [0xef; 0xbf; 0xbd].

Fixpoint utf8_encode (s : jsstr) : bytes :=
  match s with
  | [] => []
  | c :: t =>
      if is_high c then
        match t with
        | d :: t' => if is_low d then utf8_pair c d ++ utf8_encode t'
                     else replacement ++ utf8_encode t
        | [] => replacement
        end
      else if is_low c then replacement ++ utf8_encode t
      else utf8_unit c ++ utf8_encode t
  end.

Definition is_cont (b : Z) : bool := (0x80 <=? b) && (b <=? 0xbf).

Fixpoint utf8_decode (b : bytes) : option jsstr :=
  match b with
  | [] => Some []
  | b0 :: t =>
      if b0 <? 0x80 then cons b0 <$> utf8_decode t
      else if (0xc2 <=? b0) && (b0 <=? 0xdf) then
        match t with
        | b1 :: t' =>
            if is_cont b1 then cons ((b0 - 0xc0) * 64 + (b1 - 0x80)) <$> utf8_decode t'
            else None
        | _ => None
        end
      else if (0xe0 <=? b0) && (b0 <=? 0xef) then
        match t with
        | b1 :: b2 :: t' =>
            if ((if b0 =? 0xe0 then 0xa0 else 0x80) <=? b1) &&
               (b1 <=? (if b0 =? 0xed then 0x9f else 0xbf)) && is_cont b2
            then cons ((b0 - 0xe0) * 4096 + (b1 - 0x80) * 64 + (b2 - 0x80)) <$> utf8_decode t'
            else None
        | _ => None
        end
      else if (0xf0 <=? b0) && (b0 <=? 0xf4) then
        match t with
        | b1 :: b2 :: b3 :: t' =>
            if ((if b0 =? 0xf0 then 0x90 else 0x80) <=? b1) &&
               (b1 <=? (if b0 =? 0xf4 then 0x8f else 0xbf)) && is_cont b2 && is_cont b3
            then
              let cp := (b0 - 0xf0) * 262144 + (b1 - 0x80) * 4096 +
                        (b2 - 0x80) * 64 + (b3 - 0x80) - 0x10000 in
              (fun r => 0xd800 + cp / 1024 :: 0xdc00 + cp mod 1024 :: r) <$> utf8_decode t'
            else None
        | _ => None
        end
      else None
  end.

Definition strip_bom (b : bytes) : bytes :=
  match b with
  | b0 :: b1 :: b2 :: t => if (b0 =? 0xef) && (b1 =? 0xbb) && (b2 =? 0xbf) then t else b
  | _ => b
  end.

(** [decoder.decode(b)]; [None] is the [TypeError] of the fatal decoder. *)
Definition text_decode (b : bytes) : option jsstr := utf8_decode (strip_bom b).

(** Code units in range, surrogates in pairs. *)
Fixpoint well_formed (s : jsstr) : bool :=
  match s with
  | [] => true
  | c :: t =>
      if is_high c then match t with d :: t' => is_low d && well_formed t' | [] => false end
      else negb (is_low c) && (0 <=? c) && (c <? 0x10000) && well_formed t
  end.

Definition has_bom (s : jsstr) : bool :=
  match s with c :: _ => c =? 0xfeff | [] => false end.

(** Destruct the integer comparisons of the goal and close with [lia]. *)
Ltac zcases :=
  repeat match goal with
  | |- context [?a <? ?b] => destruct (Z.ltb_spec a b); try (exfalso; lia)
  | |- context [?a <=? ?b] => destruct (Z.leb_spec a b); try (exfalso; lia)
  | |- context [?a =? ?b] => destruct (Z.eqb_spec a b); try (exfalso; lia)
  end.

Ltac zbool H :=
  repeat first
    [ rewrite andb_true_iff in H | rewrite negb_true_iff in H | rewrite andb_false_iff in H
    | rewrite Z.leb_le in H | rewrite Z.ltb_lt in H | rewrite Z.leb_gt in H
    | rewrite Z.ltb_ge in H | rewrite Z.eqb_eq in H ].

(** The decoder on one scalar value of each width. *)
Lemma decode_2 b0 b1 t :
  0xc2 <= b0 <= 0xdf -> 0x80 <= b1 <= 0xbf ->
  utf8_decode (b0 :: b1 :: t) = cons ((b0 - 0xc0) * 64 + (b1 - 0x80)) <$> utf8_decode t.
Proof.
  intros. remember (b1 :: t) as t1 eqn:E. cbn [utf8_decode].
  zcases. cbn [andb]. subst t1. unfold is_cont. by zcases.
Qed.

Lemma decode_3 b0 b1 b2 t :
  0xe0 <= b0 <= 0xef -> 0x80 <= b1 <= 0xbf -> 0x80 <= b2 <= 0xbf ->
  (b0 = 0xe0 -> 0xa0 <= b1) -> (b0 = 0xed -> b1 <= 0x9f) ->
  utf8_decode (b0 :: b1 :: b2 :: t) =
  cons ((b0 - 0xe0) * 4096 + (b1 - 0x80) * 64 + (b2 - 0x80)) <$> utf8_decode t.
Proof.
  intros. remember (b1 :: b2 :: t) as t1 eqn:E. cbn [utf8_decode].
  zcases; cbn [andb]; subst t1; unfold is_cont; by zcases.
Qed.

Lemma decode_4 b0 b1 b2 b3 t cp :
  0xf0 <= b0 <= 0xf4 -> 0x80 <= b1 <= 0xbf -> 0x80 <= b2 <= 0xbf -> 0x80 <= b3 <= 0xbf ->
  (b0 = 0xf0 -> 0x90 <= b1) -> (b0 = 0xf4 -> b1 <= 0x8f) ->
  cp = (b0 - 0xf0) * 262144 + (b1 - 0x80) * 4096 + (b2 - 0x80) * 64 + (b3 - 0x80) - 0x10000 ->
  utf8_decode (b0 :: b1 :: b2 :: b3 :: t) =
  (fun r => 0xd800 + cp / 1024 :: 0xdc00 + cp mod 1024 :: r) <$> utf8_decode t.
Proof.
  intros. remember (b1 :: b2 :: b3 :: t) as t1 eqn:E. cbn [utf8_decode].
  zcases; cbn [andb]; subst t1; unfold is_cont; zcases; cbn [andb]; by subst cp.
Qed.

Ltac dm_lia := Z.div_mod_to_equations; lia.

Lemma decode_unit c t :
  0 <= c < 0x10000 -> is_high c = false -> is_low c = false ->
  utf8_decode (utf8_unit c ++ t) = cons c <$> utf8_decode t.
Proof.
  intros Hc Hh Hl. unfold is_high, is_low in *. zbool Hh. zbool Hl. unfold utf8_unit.
  destruct (Z.ltb_spec c 0x80); [|destruct (Z.ltb_spec c 0x800)]; cbn [app].
  - cbn [utf8_decode]. by zcases.
  - rewrite decode_2 by dm_lia. do 2 f_equal. dm_lia.
  - rewrite decode_3 by dm_lia. do 2 f_equal. dm_lia.
Qed.

Lemma decode_pair c d t :
  is_high c = true -> is_low d = true ->
  utf8_decode (utf8_pair c d ++ t) = (fun r => c :: d :: r) <$> utf8_decode t.
Proof.
  intros Hh Hl. unfold is_high, is_low in *. zbool Hh. zbool Hl. unfold utf8_pair. cbn [app].
  rewrite (decode_4 _ _ _ _ _ ((c - 0xd800) * 1024 + (d - 0xdc00))) by dm_lia.
  replace (0xd800 + ((c - 0xd800) * 1024 + (d - 0xdc00)) / 1024) with c by dm_lia.
  replace (0xdc00 + ((c - 0xd800) * 1024 + (d - 0xdc00)) mod 1024) with d by dm_lia. done.
Qed.

(** Decoding what was encoded gives the string back. *)
Lemma utf8_roundtrip s : well_formed s = true -> utf8_decode (utf8_encode s) = Some s.
Proof.
  induction s as [s IH] using (induction_ltof1 _ (@length Z)). unfold ltof in IH.
  destruct s as [|c t]; [done|]. cbn [well_formed utf8_encode].
  destruct (is_high c) eqn:Hh.
  - destruct t as [|d t]; [done|]. intros [Hd Ht]%andb_true_iff. rewrite Hd.
    rewrite decode_pair, IH by (simpl; auto with lia || done). done.
  - rewrite !andb_true_iff, negb_true_iff, Z.leb_le, Z.ltb_lt. intros [[[Hl H0] H1] Ht].
    rewrite Hl, decode_unit, IH by (simpl; auto with lia || done). done.
Qed.

(** No byte order mark is stripped from the encoding of a string that does not
    start with U+FEFF. *)
Lemma strip_bom_encode s :
  well_formed s = true -> has_bom s = false -> strip_bom (utf8_encode s) = utf8_encode s.
Proof.
  destruct s as [|c t]; [done|]. cbn [well_formed utf8_encode has_bom].
  destruct (is_high c) eqn:Hh.
  - destruct t as [|d t]; [done|]. intros [Hd _]%andb_true_iff _. rewrite Hd.
    unfold is_high, is_low in *. zbool Hh. zbool Hd. unfold utf8_pair. cbn [app strip_bom].
    rewrite (proj2 (Z.eqb_neq _ 0xef)) by dm_lia. done.
  - rewrite !andb_true_iff, negb_true_iff, Z.leb_le, Z.ltb_lt, Z.eqb_neq.
    intros [[[Hl H0] H1] _] Hbom. rewrite Hl. unfold utf8_unit.
    destruct (Z.ltb_spec c 0x80); [|destruct (Z.ltb_spec c 0x800)]; cbn [app strip_bom].
    + destruct (utf8_encode t) as [|? [|? ?]]; try done. by rewrite (proj2 (Z.eqb_neq c 0xef)) by lia.
    + destruct (utf8_encode t) as [|? ?]; try done. by rewrite (proj2 (Z.eqb_neq _ 0xef)) by dm_lia.
    + destruct (Z.eqb_spec (0xe0 + c / 4096) 0xef), (Z.eqb_spec (0x80 + c / 64 mod 64) 0xbb),
        (Z.eqb_spec (0x80 + c mod 64) 0xbf); try done. exfalso. apply Hbom. dm_lia.
Qed.

Lemma text_roundtrip s :
  well_formed s = true -> has_bom s = false -> text_decode (utf8_encode s) = Some s.
Proof.
  intros. unfold text_decode. rewrite strip_bom_encode by done. by apply utf8_roundtrip.
Qed.

(** The encoder emits bytes, and a zero byte only for U+0000. *)
Lemma utf8_unit_bytes c :
  0 <= c < 0x10000 -> Forall (fun b => is_byte b = true /\ (c <> 0 -> b <> 0)) (utf8_unit c).
Proof.
  intros. unfold utf8_unit, is_byte.
  zcases; rewrite ?Forall_cons, Forall_nil, ?andb_true_iff, ?Z.leb_le; repeat split; try dm_lia.
Qed.

Lemma utf8_pair_bytes c d :
  is_high c = true -> is_low d = true ->
  Forall (fun b => is_byte b = true /\ b <> 0) (utf8_pair c d).
Proof.
  intros Hh Hl. unfold is_high, is_low in *. zbool Hh. zbool Hl. unfold utf8_pair, is_byte.
  rewrite ?Forall_cons, Forall_nil, ?andb_true_iff, ?Z.leb_le. repeat split; dm_lia.
Qed.

Lemma utf8_encode_bytes s :
  well_formed s = true ->
  Forall (fun b => is_byte b = true /\ (0 ∉ s -> b <> 0)) (utf8_encode s).
Proof.
  induction s as [s IH] using (induction_ltof1 _ (@length Z)). unfold ltof in IH.
  destruct s as [|c t]; [constructor|]. cbn [well_formed utf8_encode].
  destruct (is_high c) eqn:Hh.
  - destruct t as [|d t]; [done|]. intros [Hd Ht]%andb_true_iff. rewrite Hd.
    apply Forall_app. split.
    + eapply Forall_impl; [by apply utf8_pair_bytes|]. naive_solver.
    + eapply Forall_impl; [apply IH; [simpl; lia|done]|]. simpl.
      setoid_rewrite not_elem_of_cons. setoid_rewrite not_elem_of_cons. naive_solver.
  - rewrite !andb_true_iff, negb_true_iff, Z.leb_le, Z.ltb_lt. intros [[[Hl H0] H1] Ht].
    rewrite Hl. apply Forall_app. split.
    + eapply Forall_impl; [by apply utf8_unit_bytes|]. simpl.
      setoid_rewrite not_elem_of_cons. naive_solver.
    + eapply Forall_impl; [apply IH; [simpl; lia|done]|]. simpl.
      setoid_rewrite not_elem_of_cons. naive_solver.
Qed.

Lemma utf8_encode_bytes_ok s : well_formed s = true -> bytes_ok (utf8_encode s).
Proof. intros H%utf8_encode_bytes. eapply Forall_impl; [done|]. naive_solver. Qed.

Lemma utf8_encode_no_zero s : well_formed s = true -> 0 ∉ s -> 0 ∉ utf8_encode s.
Proof.
  intros H%utf8_encode_bytes Hs Hin. rewrite Forall_forall in H.
  destruct (H 0 Hin) as [_ Hz]. by apply Hz.
Qed.

(** On ASCII text the encoding is the identity. *)
Lemma utf8_encode_ascii s : is_ascii s = true -> utf8_encode s = s.
Proof.
  induction s as [|c s IH]; [done|]. unfold is_ascii in *. cbn [forallb utf8_encode].
  rewrite !andb_true_iff, Z.leb_le, Z.ltb_lt. intros [[H0 H1] Hs].
  unfold is_high, is_low, utf8_unit. zcases. cbn [andb app]. by rewrite IH.
Qed.

Lemma is_ascii_well_formed s : is_ascii s = true -> well_formed s = true.
Proof.
  induction s as [|c s IH]; [done|]. unfold is_ascii in *. cbn [forallb well_formed].
  rewrite !andb_true_iff, Z.leb_le, Z.ltb_lt. intros [[H0 H1] Hs].
  unfold is_high, is_low. zcases. cbn [andb negb]. by apply IH.
Qed.

Lemma is_ascii_no_bom s : is_ascii s = true -> has_bom s = false.
Proof.
  destruct s as [|c s]; [done|]. unfold is_ascii. cbn [forallb has_bom].
  rewrite !andb_true_iff, Z.leb_le, Z.ltb_lt, Z.eqb_neq. lia.
Qed.

Lemma text_decode_ascii s : is_ascii s = true -> text_decode s = Some s.
Proof.
  intros H. rewrite <- (utf8_encode_ascii s) at 1 by done.
  apply text_roundtrip; auto using is_ascii_well_formed, is_ascii_no_bom.
Qed.

Lemma digits_ascii base s :
  Forall (fun c => is_digit_of base c = true) s -> is_ascii s = true.
Proof.
  induction 1 as [|c s Hc Hs IH]; [done|]. unfold is_ascii in *. cbn [forallb]. rewrite IH.
  unfold is_digit_of in Hc. rewrite andb_true_iff, orb_true_iff, !andb_true_iff, !Z.leb_le, !Z.ltb_lt in Hc.
  zcases; done || lia.
Qed.
