(* ===== verification/JsNum.v ===== *)
(** * JavaScript numbers

    Numbers of the sources that carry meaning are integers.  [Number.isSafeInteger]
    is a bound on them; a value that is not an integer at all (missing,
    fractional, not a number) is [None].  The bit operators work on 32-bit
    integers and are written out with their wrap-around. *)

From S2P Require Import Prelude.

Definition MAX_SAFE_INTEGER : Z := 2 ^ 53 - 1.

Definition is_safe (z : Z) : bool := (- MAX_SAFE_INTEGER <=? z) && (z <=? MAX_SAFE_INTEGER).

Definition isSafeInteger (v : option Z) : bool :=
  match v with Some z => is_safe z | None => false end.

Lemma is_safe_spec z : is_safe z = true <-> - MAX_SAFE_INTEGER <= z <= MAX_SAFE_INTEGER.
Proof. unfold is_safe. by rewrite andb_true_iff, !Z.leb_le. Qed.

(** ** The 32-bit operators [|], [&], [<<], [>>>] *)
Definition to_uint32 (z : Z) : Z := z mod 2 ^ 32.

Definition to_int32 (z : Z) : Z :=
  let m := z mod 2 ^ 32 in if m <? 2 ^ 31 then m else m - 2 ^ 32.

Definition js_or (a b : Z) : Z := Z.lor (to_int32 a) (to_int32 b).
Definition js_and (a b : Z) : Z := Z.land (to_int32 a) (to_int32 b).
Definition js_xor (a b : Z) : Z := Z.lxor (to_int32 a) (to_int32 b).
Definition js_shl (a n : Z) : Z := to_int32 (Z.shiftl (to_int32 a) n).
Definition js_ushr (a n : Z) : Z := Z.shiftr (to_uint32 a) n.

Lemma to_int32_mod z : to_int32 z mod 2 ^ 32 = z mod 2 ^ 32.
Proof.
  unfold to_int32. destruct (_ <? _); [by rewrite Z.mod_mod|].
  rewrite <- (Z.mod_add (z mod 2 ^ 32 - 2 ^ 32) 1) by done.
  replace (z mod 2 ^ 32 - 2 ^ 32 + 1 * 2 ^ 32) with (z mod 2 ^ 32) by lia. by rewrite Z.mod_mod.
Qed.

Lemma to_int32_id z : - 2 ^ 31 <= z < 2 ^ 31 -> to_int32 z = z.
Proof.
  intros. unfold to_int32. destruct (Z.ltb_spec (z mod 2 ^ 32) (2 ^ 31));
    Z.div_mod_to_equations; lia.
Qed.

(** A low part below [2^n] and a multiple of [2^n] do not overlap. *)
Lemma lor_shifted a b n : 0 <= n -> 0 <= a < 2 ^ n -> Z.lor a (b * 2 ^ n) = a + b * 2 ^ n.
Proof.
  intros Hn Ha.
  assert (Z.land a (b * 2 ^ n) = 0) as E.
  { apply Z.bits_inj'. intros i Hi. rewrite Z.land_spec, Z.bits_0.
    destruct (Z.lt_ge_cases i n).
    - by rewrite Z.mul_pow2_bits_low, andb_false_r by lia.
    - rewrite <- (Z.mod_small a (2 ^ n)) by lia. by rewrite Z.mod_pow2_bits_high by lia. }
  by rewrite Z.add_nocarry_lxor, Z.lxor_lor by done.
Qed.

Lemma js_or_shl a b n :
  0 <= n < 31 -> 0 <= a < 2 ^ n -> 0 <= b < 2 ^ (31 - n) ->
  js_or a (js_shl b n) = a + b * 2 ^ n.
Proof.
  intros Hn Ha Hb. unfold js_or, js_shl.
  assert (2 ^ n * 2 ^ (31 - n) = 2 ^ 31) as E by (rewrite <- Z.pow_add_r by lia; f_equal; lia).
  assert (0 < 2 ^ n) by (apply Z.pow_pos_nonneg; lia).
  assert (0 < 2 ^ (31 - n)) by (apply Z.pow_pos_nonneg; lia).
  rewrite Z.shiftl_mul_pow2 by lia. rewrite (to_int32_id b), (to_int32_id a) by nia.
  rewrite !(to_int32_id (b * 2 ^ n)) by nia. apply lor_shifted; lia.
Qed.

Lemma js_and_mask z k : 0 <= k <= 31 -> js_and z (2 ^ k - 1) = z mod 2 ^ k.
Proof.
  intros Hk. unfold js_and. assert (0 < 2 ^ k) by (apply Z.pow_pos_nonneg; lia).
  assert (2 ^ k <= 2 ^ 31) by (apply Z.pow_le_mono_r; lia).
  rewrite (to_int32_id (2 ^ k - 1)) by lia.
  replace (2 ^ k - 1) with (Z.ones k) by (rewrite Z.ones_equiv; lia). rewrite Z.land_ones by lia.
  assert ((2 ^ k | 2 ^ 32)) as Hd.
  { exists (2 ^ (32 - k)). rewrite <- Z.pow_add_r by lia. f_equal. lia. }
  rewrite <- (Z.mod_mod_divide _ (2 ^ 32) (2 ^ k)), to_int32_mod by done.
  by apply Z.mod_mod_divide.
Qed.

Lemma js_and_255 z : js_and z 255 = z mod 256.
Proof. by apply (js_and_mask z 8). Qed.

Lemma js_or_comm a b : js_or a b = js_or b a.
Proof. apply Z.lor_comm. Qed.

Lemma js_ushr_div z n : 0 <= z < 2 ^ 32 -> 0 <= n -> js_ushr z n = z / 2 ^ n.
Proof. intros. unfold js_ushr, to_uint32. by rewrite Z.mod_small, Z.shiftr_div_pow2 by lia. Qed.

(** ** Little-endian 32-bit integers

    [littleEndian32] and [readLittleEndian32] of [reviewed-builder.mjs]. *)
Definition littleEndian32 (value : Z) : bytes :=
  [js_and value 0xff; js_and (js_ushr value 8) 0xff;
   js_and (js_ushr value 16) 0xff; js_and (js_ushr value 24) 0xff].

Definition readLittleEndian32 (b : bytes) (offset : Z) : Z :=
  js_ushr
    (js_or (js_or (js_or (byte_at b offset) (js_shl (byte_at b (offset + 1)) 8))
                  (js_shl (byte_at b (offset + 2)) 16))
           (js_shl (byte_at b (offset + 3)) 24)) 0.

Lemma read_le32_value b0 b1 b2 b3 :
  is_byte b0 = true -> is_byte b1 = true -> is_byte b2 = true -> is_byte b3 = true ->
  js_ushr (js_or (js_or (js_or b0 (js_shl b1 8)) (js_shl b2 16)) (js_shl b3 24)) 0 =
  b0 + b1 * 2 ^ 8 + b2 * 2 ^ 16 + b3 * 2 ^ 24.
Proof.
  unfold is_byte. rewrite !andb_true_iff, !Z.leb_le. intros H0 H1 H2 H3.
  rewrite (js_or_shl b0) by lia. rewrite (js_or_shl (b0 + _)) by lia.
  set (a := b0 + b1 * 2 ^ 8 + b2 * 2 ^ 16). assert (0 <= a < 2 ^ 24) by (unfold a; lia).
  unfold js_or, js_shl, js_ushr. rewrite Z.shiftr_0_r, Z.shiftl_mul_pow2 by lia.
  rewrite (to_int32_id a), (to_int32_id b3) by lia.
  assert (to_int32 (to_int32 (b3 * 2 ^ 24)) = (if b3 <? 128 then b3 else b3 - 256) * 2 ^ 24) as ->.
  { destruct (Z.ltb_spec b3 128).
    - by rewrite !(to_int32_id (b3 * 2 ^ 24)) by lia.
    - assert (to_int32 (b3 * 2 ^ 24) = (b3 - 256) * 2 ^ 24) as ->; [|by rewrite to_int32_id by lia].
      unfold to_int32. rewrite Z.mod_small by lia. rewrite (proj2 (Z.ltb_ge _ _)) by lia. lia. }
  rewrite lor_shifted by lia. unfold to_uint32.
  destruct (Z.ltb_spec b3 128); [by rewrite Z.mod_small by lia|].
  rewrite <- (Z.mod_add _ 1) by done. rewrite Z.mod_small by lia. lia.
Qed.

Lemma byte_at_app a b i : i = zlen a -> byte_at (a ++ b) i = byte_at b 0.
Proof.
  intros ->. unfold byte_at. rewrite zdrop_app_exact by done. by rewrite zdrop_le0 by lia.
Qed.

Lemma byte_at_0 x b : byte_at (x :: b) 0 = x.
Proof. done. Qed.

Lemma zlen_littleEndian32 v : zlen (littleEndian32 v) = 4.
Proof. done. Qed.

Lemma littleEndian32_ok v : bytes_ok (littleEndian32 v).
Proof.
  unfold littleEndian32, bytes_ok. rewrite !js_and_255, !Forall_cons, Forall_nil. unfold is_byte.
  rewrite !andb_true_iff, !Z.leb_le. repeat split; Z.div_mod_to_equations; lia.
Qed.

Lemma read_littleEndian32 pre v post :
  0 <= v < 2 ^ 32 -> readLittleEndian32 (pre ++ littleEndian32 v ++ post) (zlen pre) = v.
Proof.
  intros Hv. unfold readLittleEndian32, littleEndian32.
  set (b0 := js_and v 0xff). set (b1 := js_and (js_ushr v 8) 0xff).
  set (b2 := js_and (js_ushr v 16) 0xff). set (b3 := js_and (js_ushr v 24) 0xff).
  rewrite (byte_at_app pre) by done.
  replace (pre ++ [b0; b1; b2; b3] ++ post) with ((pre ++ [b0]) ++ [b1; b2; b3] ++ post) at 1
    by (by rewrite <- app_assoc).
  rewrite (byte_at_app (pre ++ [b0])) by zlia.
  replace (pre ++ [b0; b1; b2; b3] ++ post) with ((pre ++ [b0; b1]) ++ [b2; b3] ++ post) at 1
    by (by rewrite <- app_assoc).
  rewrite (byte_at_app (pre ++ [b0; b1])) by zlia.
  replace (pre ++ [b0; b1; b2; b3] ++ post) with ((pre ++ [b0; b1; b2]) ++ [b3] ++ post)
    by (by rewrite <- app_assoc).
  rewrite (byte_at_app (pre ++ [b0; b1; b2])) by zlia.
  pose proof (littleEndian32_ok v) as Hok. unfold littleEndian32, bytes_ok in Hok.
  rewrite !Forall_cons in Hok. destruct Hok as (? & ? & ? & ? & _).
  cbn [app]. rewrite !byte_at_0, read_le32_value by done.
  unfold b0, b1, b2, b3. rewrite !js_and_255, !js_ushr_div by lia.
  replace (v / 2 ^ 24) with (v / 2 ^ 8 / 2 ^ 8 / 2 ^ 8) by (rewrite !Z.div_div by lia; done).
  replace (v / 2 ^ 16) with (v / 2 ^ 8 / 2 ^ 8) by (rewrite !Z.div_div by lia; done).
  change (2 ^ 8) with 256. set (q1 := v / 256). set (q2 := q1 / 256). set (q3 := q2 / 256).
  assert (v = 256 * q1 + v mod 256) by (unfold q1; Z.div_mod_to_equations; lia).
  assert (q1 = 256 * q2 + q1 mod 256) by (unfold q2; Z.div_mod_to_equations; lia).
  assert (q2 = 256 * q3 + q2 mod 256) by (unfold q3; Z.div_mod_to_equations; lia).
  rewrite (Z.mod_small q3); [lia|]. Z.div_mod_to_equations. lia.
Qed.
