(* ===== verification/JsValue.v ===== *)
(** * JavaScript values

    The values the worker reads from JSON and passes between its components:
    primitives, arrays, plain objects with their own keys in insertion order,
    and byte arrays.  Property reads on [undefined] or [null] throw, every other
    missing property is [undefined].  Inherited properties are not modelled:
    none of the names the sources read is one. *)

From S2P Require Import Prelude JsText JsNum.

(** A number is an integer, another number (identified by the text [String]
    gives it), or NaN. *)
Inductive jsnum :=
  | NInt (z : Z)
  | NReal (text : jsstr)
  | NNaN.

Inductive jsval :=
  | VUndef
  | VNull
  | VBool (b : bool)
  | VNum (n : jsnum)
  | VStr (s : jsstr)
  | VArr (l : list jsval)
  | VObj (fields : list (jsstr * jsval))
  | VBytes (b : bytes).

#[export] Instance jsnum_eq_dec : EqDecision jsnum.
Proof. solve_decision. Defined.

Definition VInt (z : Z) : jsval := VNum (NInt z).
Definition VText (s : string) : jsval := VStr (js s).

(** An object literal. *)
Definition obj (fields : list (string * jsval)) : jsval :=
  VObj (map (fun f => (js f.1, f.2)) fields).

(** [v.k] *)
Definition prop (v : jsval) (k : string) : res jsval :=
  match v with
  | VUndef | VNull => Throw (TypeError "not an object")
  | VObj fields => Ok (default VUndef (map_get (js k) fields))
  | _ => Ok VUndef
  end.

(** [v?.k] *)
Definition opt_prop (v : jsval) (k : string) : jsval :=
  match v with
  | VObj fields => default VUndef (map_get (js k) fields)
  | _ => VUndef
  end.

Definition truthy (v : jsval) : bool :=
  match v with
  | VUndef | VNull | VBool false | VNum NNaN | VNum (NInt 0) | VStr [] => false
  | _ => true
  end.

Definition is_string (v : jsval) : bool := match v with VStr _ => true | _ => false end.
Definition is_array (v : jsval) : bool := match v with VArr _ => true | _ => false end.
Definition is_bytes (v : jsval) : bool := match v with VBytes _ => true | _ => false end.
Definition is_undef (v : jsval) : bool := match v with VUndef => true | _ => false end.

(** [Number.isSafeInteger(v)] *)
Definition is_safe_integer (v : jsval) : bool :=
  match v with VNum (NInt z) => is_safe z | _ => false end.

(** [value !== null && typeof value === "object" && !Array.isArray(value)] *)
Definition plainObject (v : jsval) : bool :=
  match v with VObj _ | VBytes _ => true | _ => false end.

(** [a === b], for a primitive on either side (two objects are compared by
    identity, which the sources never do). *)
Definition strict_eq (a b : jsval) : bool :=
  match a, b with
  | VUndef, VUndef | VNull, VNull => true
  | VBool x, VBool y => Bool.eqb x y
  | VNum NNaN, VNum NNaN => false
  | VNum x, VNum y => bool_decide (x = y)
  | VStr x, VStr y => streq x y
  | _, _ => false
  end.

(** [typeof v === "string" && f(v)] *)
Definition vstr (f : jsstr -> bool) (v : jsval) : bool :=
  match v with VStr s => f s | _ => false end.

(** [names.includes(v)] for a list of strings *)
Definition val_in (v : jsval) (names : list string) : bool := vstr (fun s => str_in s (map js names)) v.

(** [Number.isSafeInteger(v) && f(v)] *)
Definition vint (f : Z -> bool) (v : jsval) : bool :=
  match v with VNum (NInt z) => is_safe z && f z | _ => false end.

(** [String(v)] *)
Fixpoint to_string (v : jsval) : jsstr :=
  match v with
  | VUndef => js "undefined"
  | VNull => js "null"
  | VBool b => if b then js "true" else js "false"
  | VNum (NInt z) => to_radix 10 z
  | VNum (NReal t) => t
  | VNum NNaN => js "NaN"
  | VStr s => s
  | VArr l => join (js ",") (map (fun x => match x with VUndef | VNull => [] | _ => to_string x end) l)
  | VObj _ => js "[object Object]"
  | VBytes b => join (js ",") (map (to_radix 10) b)
  end.

(** [Object.keys(v)] of an object. *)
Definition object_keys (v : jsval) : list jsstr :=
  match v with
  | VObj fields => map_keys fields
  | VBytes b => map (fun i => to_radix 10 (Z.of_nat i)) (seq 0 (length b))
  | VArr l => map (fun i => to_radix 10 (Z.of_nat i)) (seq 0 (length l))
  | _ => []
  end.

Definition sort_strings (l : list jsstr) : list jsstr := merge_sort str_le l.

(** [sameKeys(value, expected)]: the sorted keys are the sorted expected keys. *)
Definition sameKeys (v : jsval) (expected : list string) : bool :=
  bool_decide (sort_strings (object_keys v) = sort_strings (map js expected)).

(** [!Object.keys(value).some((key) => !names.includes(key))] *)
Definition keys_within (v : jsval) (names : list string) : bool :=
  forallb (fun k => str_in k (map js names)) (object_keys v).

(** [hasExactKeys(value, expected)] *)
Definition hasExactKeys (v : jsval) (expected : list string) : bool :=
  plainObject v && sameKeys v expected.

(** ** Lemmas *)
Lemma strict_eq_str v s : strict_eq v (VStr s) = true <-> v = VStr s.
Proof.
  destruct v as [| |b|[]|t|l|f|b]; simpl; try (split; discriminate).
  rewrite streq_true. split; congruence.
Qed.

Lemma strict_eq_text v s : strict_eq v (VText s) = true <-> v = VText s.
Proof. apply strict_eq_str. Qed.

Lemma strict_eq_int v z : strict_eq v (VInt z) = true <-> v = VInt z.
Proof.
  destruct v as [| |b|n|t|l|f|b]; simpl; try (split; discriminate).
  destruct n; simpl; rewrite ?bool_decide_eq_true; unfold VInt; split; congruence.
Qed.

Lemma is_safe_integer_spec v : is_safe_integer v = true <-> exists z, v = VInt z /\ is_safe z = true.
Proof.
  unfold VInt. destruct v as [| |b|[z|t|]|t|l|f|b]; simpl; (split; [try done|by intros (? & [=] & ?); subst]).
  intros. by exists z.
Qed.

Lemma is_string_spec v : is_string v = true <-> exists s, v = VStr s.
Proof. destruct v; simpl; split; try done; try (by intros [? ?]). intros _. by eexists. Qed.

Lemma plainObject_prop v k : plainObject v = true -> prop v k = Ok (opt_prop v k).
Proof. by destruct v. Qed.

(** An object with exactly the expected keys. *)
Lemma sameKeys_obj fields expected :
  sameKeys (VObj fields) expected = true <-> map_keys fields ≡ₚ map js expected.
Proof.
  unfold sameKeys. rewrite bool_decide_eq_true. simpl. split.
  - intros E. rewrite <- (merge_sort_Permutation str_le (map_keys fields)).
    rewrite <- (merge_sort_Permutation str_le (map js expected)).
    unfold sort_strings in E. by rewrite E.
  - intros Hp. apply (StronglySorted_unique str_le).
    + apply (StronglySorted_merge_sort _).
    + apply (StronglySorted_merge_sort _).
    + unfold sort_strings. by rewrite !merge_sort_Permutation.
Qed.

Lemma vstr_true f v : vstr f v = true <-> exists s, v = VStr s /\ f s = true.
Proof.
  destruct v; simpl; (split; [try done|by intros (? & [=] & ?); subst]). intros. by eexists.
Qed.

Lemma vint_true f v : vint f v = true <-> exists z, v = VInt z /\ is_safe z = true /\ f z = true.
Proof.
  unfold VInt. destruct v as [| |b|[z|t|]|s|l|f'|b]; simpl; try (split; [done|by intros (? & [=] & _)]).
  rewrite andb_true_iff. split; [intros; by exists z|]. by intros (? & [= <-] & ?).
Qed.

Lemma val_in_true v names : val_in v names = true <-> exists s, v = VStr s /\ s ∈ map js names.
Proof. unfold val_in. rewrite vstr_true. setoid_rewrite str_in_spec. done. Qed.

Lemma strict_eq_sym_str s v : strict_eq (VStr s) v = true -> v = VStr s.
Proof. destruct v; cbn; try done. by intros ->%streq_true. Qed.

Lemma strict_eq_sym_int z v : strict_eq (VInt z) v = true -> v = VInt z.
Proof.
  unfold VInt. destruct v as [| | |n| | | |]; cbn; try done. destruct n; try done.
  by intros ->%bool_decide_eq_true.
Qed.

(** Names that are no indices belong to an object, not to a byte array. *)
Lemma sameKeys_fields v names :
  plainObject v = true -> sameKeys v names = true -> forallb (fun k => negb (forallb (is_digit_of 10) (js k))) names = true ->
  names <> [] -> exists fields, v = VObj fields /\ map_keys fields ≡ₚ map js names.
Proof.
  intros Hp Hs Hn Hne. destruct v as [| | | | | |fields|b]; try done; [exists fields; split; [done|by apply sameKeys_obj]|].
  exfalso. unfold sameKeys in Hs. apply bool_decide_eq_true in Hs. destruct names as [|k names]; [done|].
  assert (js k ∈ object_keys (VBytes b)) as Hin.
  { rewrite <- (merge_sort_Permutation str_le). unfold sort_strings in Hs. rewrite Hs.
    rewrite (merge_sort_Permutation str_le). left. }
  cbn [object_keys] in Hin. apply list_elem_of_fmap in Hin as (i & Hi & _). cbn [forallb] in Hn.
  apply andb_true_iff in Hn as [Hn _]. apply negb_true_iff in Hn.
  assert (forallb (is_digit_of 10) (js k) = true); [|congruence]. apply forallb_forall. intros c Hc%list_elem_of_In.
  rewrite Hi in Hc. pose proof (to_radix_digits 10 (Z.of_nat i)) as Hd. rewrite Forall_forall in Hd. by apply Hd; [lia..|].
Qed.
