(* ===== verification/Regex.v ===== *)
(** * Regular expressions

    The sources validate text with anchored regular expressions without back
    references.  Each pattern is transcribed as a term of [re] and run by
    Brzozowski derivatives; [matches_spec] shows that the matcher decides the
    language of the term.  A pattern [/^r$/] is [matches r]; a pattern that may
    start anywhere is [matches (Seq anything r)]. *)

From S2P Require Import Prelude JsText.
From Stdlib Require Import Ascii.

Inductive re :=
  | Void
  | Eps
  | Cls (p : Z -> bool)
  | Seq (a b : re)
  | Alt (a b : re)
  | Star (a : re).

Inductive lang : re -> jsstr -> Prop :=
  | lang_eps : lang Eps []
  | lang_cls p c : p c = true -> lang (Cls p) [c]
  | lang_seq a b s t : lang a s -> lang b t -> lang (Seq a b) (s ++ t)
  | lang_alt_l a b s : lang a s -> lang (Alt a b) s
  | lang_alt_r a b s : lang b s -> lang (Alt a b) s
  | lang_star_nil a : lang (Star a) []
  | lang_star_cons a s t : lang a s -> lang (Star a) t -> lang (Star a) (s ++ t).

Create HintDb regex.
#[export] Hint Constructors lang : regex.

Fixpoint nullable (r : re) : bool :=
  match r with
  | Void | Cls _ => false
  | Eps | Star _ => true
  | Seq a b => nullable a && nullable b
  | Alt a b => nullable a || nullable b
  end.

Definition mk_seq (a b : re) : re :=
  match a, b with
  | Void, _ | _, Void => Void
  | Eps, b => b
  | a, b => Seq a b
  end.

Definition mk_alt (a b : re) : re :=
  match a, b with
  | Void, b => b
  | a, Void => a
  | a, b => Alt a b
  end.

Fixpoint deriv (c : Z) (r : re) : re :=
  match r with
  | Void | Eps => Void
  | Cls p => if p c then Eps else Void
  | Seq a b =>
      if nullable a then mk_alt (mk_seq (deriv c a) b) (deriv c b)
      else mk_seq (deriv c a) b
  | Alt a b => mk_alt (deriv c a) (deriv c b)
  | Star a => mk_seq (deriv c a) (Star a)
  end.

Fixpoint matches (r : re) (s : jsstr) : bool :=
  match s with
  | [] => nullable r
  | c :: t => matches (deriv c r) t
  end.

(** ** The matcher decides the language *)
Lemma lang_void s : ~ lang Void s.
Proof. by inversion 1. Qed.

Lemma lang_seq_inv a b s :
  lang (Seq a b) s <-> exists s1 s2, s = s1 ++ s2 /\ lang a s1 /\ lang b s2.
Proof. split; [inversion 1; eauto 10|]. intros (? & ? & -> & ? & ?). by constructor. Qed.

Lemma lang_alt_inv a b s : lang (Alt a b) s <-> lang a s \/ lang b s.
Proof. split; [inversion 1; auto|intros []; auto with regex]. Qed.

Lemma lang_eps_inv s : lang Eps s <-> s = [].
Proof. split; [by inversion 1|intros ->; constructor]. Qed.

Lemma lang_cls_inv p s : lang (Cls p) s <-> exists c, s = [c] /\ p c = true.
Proof. split; [inversion 1; eauto|intros (? & -> & ?); by constructor]. Qed.

Lemma lang_seq_void_l b s : lang Void s <-> lang (Seq Void b) s.
Proof. split; [by intros ?%lang_void|]. by intros (? & ? & _ & ?%lang_void & _)%lang_seq_inv. Qed.

Lemma lang_seq_void_r a s : lang Void s <-> lang (Seq a Void) s.
Proof. split; [by intros ?%lang_void|]. by intros (? & ? & _ & _ & ?%lang_void)%lang_seq_inv. Qed.

Lemma lang_seq_eps_l b s : lang b s <-> lang (Seq Eps b) s.
Proof.
  rewrite lang_seq_inv. setoid_rewrite lang_eps_inv.
  split; [by exists [], s|]. by intros (? & ? & -> & -> & ?).
Qed.

Lemma lang_mk_seq a b s : lang (mk_seq a b) s <-> lang (Seq a b) s.
Proof.
  destruct a, b; cbn [mk_seq]; first
    [ reflexivity | apply lang_seq_void_l | apply lang_seq_void_r | apply lang_seq_eps_l ].
Qed.

Lemma lang_mk_alt a b s : lang (mk_alt a b) s <-> lang (Alt a b) s.
Proof.
  destruct a, b; cbn [mk_alt]; try reflexivity; rewrite !lang_alt_inv;
    pose proof (lang_void s); tauto.
Qed.

Lemma nullable_spec r : nullable r = true <-> lang r [].
Proof.
  induction r; cbn [nullable].
  - split; [done|by intros ?%lang_void].
  - split; [constructor|done].
  - split; [done|]. by intros (? & ? & ?)%lang_cls_inv.
  - rewrite andb_true_iff, IHr1, IHr2, lang_seq_inv. split; [by exists [], []|].
    intros (s1 & s2 & E & ? & ?). symmetry in E. by apply app_nil in E as [-> ->].
  - rewrite orb_true_iff, IHr1, IHr2. by rewrite lang_alt_inv.
  - split; [constructor|done].
Qed.

Lemma deriv_star_inv a s :
  lang (Star a) s -> s <> [] ->
  exists c s1 s2, s = c :: s1 ++ s2 /\ lang a (c :: s1) /\ lang (Star a) s2.
Proof.
  remember (Star a) as r eqn:E. induction 1; simplify_eq; [done|].
  destruct s as [|c s]; simpl in *; [auto|]. intros _. by exists c, s, t.
Qed.

Lemma deriv_spec c r s : lang (deriv c r) s <-> lang r (c :: s).
Proof.
  revert s. induction r as [| |p|a IHa b IHb|a IHa b IHb|a IHa]; intros s; cbn [deriv].
  - split; by intros ?%lang_void.
  - split; [by intros ?%lang_void|by intros ?%lang_eps_inv].
  - rewrite lang_cls_inv. destruct (p c) eqn:E.
    + rewrite lang_eps_inv. split; [intros ->; eauto|by intros (? & [= <- ->] & ?)].
    + split; [by intros ?%lang_void|]. intros (? & [= <- ->] & ?). congruence.
  - assert (lang (mk_seq (deriv c a) b) s <->
      exists s1 s2, s = s1 ++ s2 /\ lang a (c :: s1) /\ lang b s2) as Hl.
    { rewrite lang_mk_seq, lang_seq_inv. by setoid_rewrite IHa. }
    rewrite lang_seq_inv. destruct (nullable a) eqn:E.
    + rewrite lang_mk_alt, lang_alt_inv, Hl, IHb. apply nullable_spec in E. split.
      * intros [(s1 & s2 & -> & ? & ?)|?]; [by exists (c :: s1), s2|by exists [], (c :: s)].
      * intros ([|c' s1] & s2 & E' & ? & ?); simplify_eq/=; [by right|left; eauto].
    + rewrite Hl. split.
      * intros (s1 & s2 & -> & ? & ?). by exists (c :: s1), s2.
      * intros ([|c' s1] & s2 & E' & Ha & ?); simplify_eq/=; [|eauto].
        apply nullable_spec in Ha. congruence.
  - by rewrite lang_mk_alt, !lang_alt_inv, IHa, IHb.
  - rewrite lang_mk_seq, lang_seq_inv. setoid_rewrite IHa. split.
    + intros (s1 & s2 & -> & ? & ?). by apply (lang_star_cons a (c :: s1) s2).
    + intros H. destruct (deriv_star_inv _ _ H) as (c' & s1 & s2 & [= -> ->] & ? & ?); [done|eauto].
Qed.

(** The executable matcher accepts exactly the language of the pattern. *)
Lemma matches_spec r s : matches r s = true <-> lang r s.
Proof.
  revert r; induction s as [|c s IH]; intros r; cbn [matches]; [apply nullable_spec|].
  rewrite IH. apply deriv_spec.
Qed.

(** ** Pattern syntax of the sources *)
Definition rng (a b : ascii) (c : Z) : bool := (ch a <=? c) && (c <=? ch b).
Definition chr1 (a : ascii) (c : Z) : bool := c =? ch a.
Definition por (p q : Z -> bool) (c : Z) : bool := p c || q c.
Definition pnot (p : Z -> bool) (c : Z) : bool := negb (p c).

Infix "∪c" := por (at level 50, left associativity).

Fixpoint lit_units (s : jsstr) : re :=
  match s with
  | [] => Eps
  | [c] => Cls (Z.eqb c)
  | c :: t => Seq (Cls (Z.eqb c)) (lit_units t)
  end.

Definition lit (s : string) : re := lit_units (js s).

Definition anything : re := Star (Cls (fun _ => true)).
Definition opt (r : re) : re := Alt Eps r.
Definition plus (r : re) : re := Seq r (Star r).

Fixpoint upto (r : re) (n : nat) : re :=
  match n with O => Eps | S n => Alt Eps (Seq r (upto r n)) end.

(** [r{lo,lo+extra}] *)
Fixpoint rep (r : re) (lo extra : nat) : re :=
  match lo with O => upto r extra | S lo => Seq r (rep r lo extra) end.

Definition alts (l : list re) : re := foldr Alt Void l.
Definition seqs (l : list re) : re := foldr Seq Eps l.

Definition digit : Z -> bool := rng "0" "9".
Definition alnum : Z -> bool := rng "0" "9" ∪c rng "A" "Z" ∪c rng "a" "z".

Lemma lang_star_cls p s : lang (Star (Cls p)) s <-> Forall (fun c => p c = true) s.
Proof.
  split.
  - remember (Star (Cls p)) as r eqn:E. induction 1; simplify_eq; [constructor|].
    match goal with H : lang (Cls p) _ |- _ => apply lang_cls_inv in H as (c & -> & ?) end.
    constructor; auto.
  - induction 1 as [|c s Hc Hs IH]; [constructor|].
    apply (lang_star_cons _ [c] s); [by constructor|done].
Qed.

Lemma lang_upto_cls p n s :
  lang (upto (Cls p) n) s <-> Forall (fun c => p c = true) s /\ (length s <= n)%nat.
Proof.
  revert s; induction n as [|n IH]; intros s; cbn [upto].
  - rewrite lang_eps_inv. split; [intros ->; split; [constructor|simpl; lia]|].
    intros [_ ?]. destruct s; [done|simpl in *; lia].
  - rewrite lang_alt_inv, lang_eps_inv, lang_seq_inv. setoid_rewrite lang_cls_inv.
    setoid_rewrite IH. split.
    + intros [->|(? & s2 & -> & (c & -> & ?) & ? & ?)]; [split; [constructor|simpl; lia]|].
      split; [by constructor|simpl; lia].
    + intros [Hs Hl]. destruct Hs as [|c s Hc Hs]; [by left|right].
      exists [c], s. simpl in *. split_and!; eauto with lia.
Qed.

(** A bounded repetition of one class is a bound on the length and a condition
    on every character. *)
Lemma lang_rep_cls p lo extra s :
  lang (rep (Cls p) lo extra) s <->
  Forall (fun c => p c = true) s /\ (lo <= length s <= lo + extra)%nat.
Proof.
  revert s; induction lo as [|lo IH]; intros s; cbn [rep].
  - rewrite lang_upto_cls. naive_solver lia.
  - rewrite lang_seq_inv. setoid_rewrite lang_cls_inv. setoid_rewrite IH. split.
    + intros (? & s2 & -> & (c & -> & ?) & ? & ?). split; [by constructor|simpl; lia].
    + intros [Hs Hl]. destruct Hs as [|c s Hc Hs]; [simpl in *; lia|].
      exists [c], s. simpl in *. split_and!; eauto with lia.
Qed.

Lemma matches_rep_cls p lo extra s :
  matches (rep (Cls p) lo extra) s = true <->
  Forall (fun c => p c = true) s /\ (lo <= length s <= lo + extra)%nat.
Proof. rewrite matches_spec. apply lang_rep_cls. Qed.

Lemma matches_plus_cls p s :
  matches (plus (Cls p)) s = true <-> Forall (fun c => p c = true) s /\ s <> [].
Proof.
  rewrite matches_spec. unfold plus. rewrite lang_seq_inv. setoid_rewrite lang_cls_inv.
  setoid_rewrite lang_star_cls. split.
  - intros (? & s2 & -> & (c & -> & ?) & ?). split; [by constructor|done].
  - intros [Hs Hne]. destruct Hs as [|c s Hc Hs]; [done|]. exists [c], s. eauto 10.
Qed.

Lemma matches_seq_cls p r c s : matches (Seq (Cls p) r) (c :: s) = p c && matches r s.
Proof.
  apply eq_iff_eq_true. rewrite andb_true_iff, !matches_spec, lang_seq_inv.
  setoid_rewrite lang_cls_inv. split.
  - intros (? & ? & E & (? & -> & ?) & ?). by simplify_eq/=.
  - intros [? ?]. exists [c], s. eauto 10.
Qed.

Lemma matches_anything_seq r s :
  matches (Seq anything r) s = true <-> exists a b, s = a ++ b /\ matches r b = true.
Proof.
  rewrite matches_spec, lang_seq_inv. unfold anything. setoid_rewrite lang_star_cls.
  setoid_rewrite matches_spec. split.
  - intros (a & b & -> & _ & ?). eauto.
  - intros (a & b & -> & ?). exists a, b. split_and!; [done|by apply Forall_true|done].
Qed.

Lemma lang_lit_units w s : lang (lit_units w) s <-> s = w.
Proof.
  revert s. induction w as [|c w IH]; intros s; [apply lang_eps_inv|].
  destruct w as [|d w]; cbn [lit_units].
  - rewrite lang_cls_inv. split; [intros (x & -> & E); apply Z.eqb_eq in E as ->; done|].
    intros ->. exists c. by rewrite Z.eqb_refl.
  - change (match w with [] => _ | _ => _ end) with (lit_units (d :: w)) in *.
    rewrite lang_seq_inv. setoid_rewrite lang_cls_inv. setoid_rewrite IH. split.
    + intros (? & ? & -> & (x & -> & E) & ->). by apply Z.eqb_eq in E as ->.
    + intros ->. exists [c], (d :: w). split; [done|]. split; [|done]. exists c. by rewrite Z.eqb_refl.
Qed.

Lemma lang_lit w s : lang (lit w) s <-> s = js w.
Proof. apply lang_lit_units. Qed.

(** A character that no class of the pattern admits. *)
Fixpoint avoids (c : Z) (r : re) : bool :=
  match r with
  | Void | Eps => true
  | Cls p => negb (p c)
  | Seq a b | Alt a b => avoids c a && avoids c b
  | Star a => avoids c a
  end.

Lemma lang_avoids c r s : lang r s -> avoids c r = true -> c ∉ s.
Proof.
  induction 1; cbn [avoids]; rewrite ?andb_true_iff, ?elem_of_app, ?list_elem_of_singleton, ?negb_true_iff; try set_solver.
  intros Hp ->. congruence.
Qed.
