(* ===== verification/Validators.v ===== *)
(** * Text validators shared by the compiler modules

    The predicates of [reviewed-builder.mjs], [bundle.mjs], [compiler.mjs],
    [http-worker.mjs] and [service-identity.mjs] on strings, transcribed from
    their regular expressions, and POSIX [path.resolve] with the containment
    facts that the path validators give. *)

From S2P Require Import Prelude JsText Regex.
From Stdlib Require Import Ascii.

(** ** Digests, identifiers, versions *)
Definition hex_lower : Z -> bool := rng "a" "f" ∪c rng "0" "9".
Definition hex_any : Z -> bool := hex_lower ∪c rng "A" "F".

(** [/^[a-f0-9]{64}$/i] *)
Definition validSha256 (v : jsstr) : bool := matches (rep (Cls hex_any) 64 0) v.

(** [/^[a-f0-9]{64}$/] *)
Definition lowerSha256 (v : jsstr) : bool := matches (rep (Cls hex_lower) 64 0) v.

(** [/^[A-Za-z0-9][A-Za-z0-9._-]{0,127}$/] and its two-line spelling *)
Definition ident_char : Z -> bool := alnum ∪c chr1 "." ∪c chr1 "_" ∪c chr1 "-".

Definition validIdentifier (v : jsstr) : bool :=
  negb (zlen v =? 0) && (zlen v <=? 128) && matches (Seq (Cls alnum) (Star (Cls ident_char))) v.

(** [/^[A-Za-z0-9][A-Za-z0-9._-]{0,254}$/] *)
Definition validKeySegment (v : jsstr) : bool :=
  matches (Seq (Cls alnum) (rep (Cls ident_char) 0 254)) v.

Definition validLoaderVersion (v : jsstr) : bool :=
  negb (zlen v =? 0) && (zlen v <=? 128) &&
  matches (Seq (Cls alnum) (Star (Cls (ident_char ∪c chr1 "+")))) v.

Definition upto3 : re := Alt (lit "0") (Seq (Cls (rng "1" "9")) (rep (Cls digit) 0 2)).

(** The two families of Minecraft versions: [1.x.y] and [YY.x] or [YY.x.y]. *)
Definition validMinecraftVersion (v : jsstr) : bool :=
  matches
    (Alt (seqs [lit "1."; upto3; lit "."; upto3])
         (seqs [Cls (rng "1" "9"); rep (Cls digit) 1 2; lit "."; upto3;
                opt (Seq (lit ".") upto3)])) v.

Definition coord_char : Z -> bool := alnum ∪c chr1 "_" ∪c chr1 "." ∪c chr1 "-".

Definition validCoordinate (v : jsstr) : bool :=
  negb (zlen v =? 0) && (zlen v <=? 256) &&
  matches
    (seqs [plus (Cls coord_char); lit ":"; plus (Cls coord_char); lit ":";
           plus (Cls (coord_char ∪c chr1 "+")); opt (Seq (lit ":") (plus (Cls coord_char)))]) v.

(** [!/[\x00-\x1f\x7f]/.test(value)] *)
Definition no_control (v : jsstr) : bool :=
  negb (existsb (fun c => (0 <=? c) && (c <=? 31) || (c =? 127)) v).

Definition validId (v : jsstr) : bool :=
  negb (zlen v =? 0) && (zlen v <=? 255) && no_control v.

Definition validContentKey (v : jsstr) : bool :=
  negb (zlen v =? 0) && (zlen v <=? 1024) && no_control v.

(** ** Paths inside an archive *)
Definition SLASH : Z := 47.
Definition BACKSLASH : Z := 92.

Definition safe_part (p : jsstr) : bool :=
  negb (streq p []) && negb (streq p (js ".")) && negb (streq p (js "..")).

(** [/^[A-Za-z]:/] *)
Definition drive_prefix (p : jsstr) : bool :=
  match p with
  | c :: d :: _ => (rng "A" "Z" c || rng "a" "z" c) && (d =? ch ":")
  | _ => false
  end.

Definition safe_relative (limit : Z) (p : jsstr) : bool :=
  negb (zlen p =? 0) && (zlen p <=? limit) && negb (includes_char BACKSLASH p) &&
  negb (starts_with (js "/") p) && negb (drive_prefix p) &&
  forallb safe_part (split_on SLASH p).

Definition safeOutputPath (p : jsstr) : bool := safe_relative 255 p.

Definition safeZipPath (p : jsstr) : bool := safe_relative 1024 p.

(** [comparePath(left, right)] *)
Definition comparePath (left right : jsstr) : Z :=
  if str_ltb left right then -1 else if str_ltb right left then 1 else 0.

(** A literal under the [i] flag (which folds ASCII letters only). *)
Definition liti (s : string) : re :=
  seqs (map (fun c => Cls (fun x => ascii_lower_unit x =? c)) (js s)).

(** [(?:^|\/)] at the start of an unanchored pattern *)
Definition at_component : re := Alt Eps (Seq anything (lit "/")).

(** [(?:\/|$)] at the end of one *)
Definition component_end : re := Alt Eps (Seq (lit "/") anything).

Section unicode.
Context `{Unicode}.

Definition safeModFilename (v : jsstr) : bool :=
  negb (zlen v =? 0) && (zlen v <=? 255) && negb (includes_char SLASH v) &&
  negb (includes_char BACKSLASH v) && negb (includes_char 0 v) &&
  ends_with (js ".jar") (toLowerCase v).

Definition forbiddenOutputPath (path : jsstr) : bool :=
  let lower := toLowerCase path in
  matches (Seq at_component
             (Alt (lit "eula.txt") (seqs [lit "java"; opt (lit "w"); opt (lit ".exe")]))) lower ||
  matches (seqs [at_component; Alt (lit "jre") (lit "jdk"); component_end]) lower ||
  matches (seqs [lit "neoforge_installer"; plus (Cls digit); component_end]) lower ||
  matches (seqs [anything; lit ".";
                 alts [liti "sh"; liti "bat"; liti "cmd"; liti "ps1"; liti "exe"]]) path.
End unicode.

(** [0o644] and [0o755] *)
Definition MODE_644 : Z := 420.
Definition MODE_755 : Z := 493.

Definition validOutputMode (mode : Z) : bool := (mode =? MODE_644) || (mode =? MODE_755).

(** ** POSIX [path.resolve] on one absolute path

    Empty and ["."] components vanish, [".."] pops one. *)
Fixpoint normalize_parts (acc parts : list jsstr) : list jsstr :=
  match parts with
  | [] => reverse acc
  | p :: rest =>
      if streq p [] || streq p (js ".") then normalize_parts acc rest
      else if streq p (js "..") then normalize_parts (tail acc) rest
      else normalize_parts (p :: acc) rest
  end.

Definition resolve (p : jsstr) : jsstr :=
  js "/" ++ join (js "/") (normalize_parts [] (split_on SLASH p)).

Definition absoluteNormalizedPath (v : jsstr) : bool :=
  (1 <? zlen v) && (zlen v <=? 1024) && streq (resolve v) v.

(** [resolve(value).startsWith(resolve(root) + sep)] *)
Definition within (root value : jsstr) : bool :=
  starts_with (resolve root ++ js "/") (resolve value).

Lemma normalize_parts_safe acc parts :
  forallb safe_part parts = true -> normalize_parts acc parts = reverse acc ++ parts.
Proof.
  revert acc; induction parts as [|p parts IH]; intros acc; simpl; [by rewrite app_nil_r|].
  unfold safe_part at 1. rewrite !andb_true_iff, !negb_true_iff. intros [[[-> ->] ->] Hs]. simpl.
  rewrite IH by done. by rewrite reverse_cons, <- app_assoc.
Qed.

Lemma normalize_parts_app acc a b :
  normalize_parts acc (a ++ b) = normalize_parts (reverse (normalize_parts acc a)) b.
Proof.
  revert acc; induction a as [|p a IH]; intros acc; simpl; [by rewrite reverse_involutive|].
  destruct (_ || _); [apply IH|]. destruct (streq _ _); apply IH.
Qed.

Lemma split_on_app_sep c a b : split_on c (a ++ c :: b) = split_on c a ++ split_on c b.
Proof.
  induction a as [|x a IH]; simpl; [by rewrite Z.eqb_refl|].
  rewrite IH. destruct (x =? c); [done|].
  by destruct (split_on_cons c a) as (w & ws & ->).
Qed.

Lemma normalize_parts_cons_empty parts : normalize_parts [] ([] :: parts) = normalize_parts [] parts.
Proof. done. Qed.

(** Joining a safe relative path to a directory stays below the directory. *)
Lemma resolve_join root p :
  forallb safe_part (split_on SLASH p) = true ->
  normalize_parts [] (split_on SLASH root) <> [] ->
  resolve (root ++ js "/" ++ p) = resolve root ++ js "/" ++ p.
Proof.
  intros Hp Hroot. unfold resolve. change (js "/" ++ p) with (SLASH :: p).
  rewrite split_on_app_sep, normalize_parts_app, normalize_parts_safe by done.
  rewrite reverse_involutive. destruct (split_on_cons SLASH p) as (w & ws & E).
  rewrite join_app by (done || by rewrite E). rewrite <- app_assoc. do 2 f_equal.
  change (js "/") with [SLASH]. by rewrite join_split.
Qed.

Lemma within_join root p :
  forallb safe_part (split_on SLASH p) = true ->
  normalize_parts [] (split_on SLASH root) <> [] ->
  within root (root ++ js "/" ++ p) = true.
Proof.
  intros. unfold within. rewrite resolve_join by done. rewrite app_assoc. apply starts_with_app.
Qed.

(** ** Facts the components use *)
Lemma validSha256_length v : validSha256 v = true -> zlen v = 64.
Proof. unfold validSha256, zlen. rewrite matches_rep_cls. intros [_ ?]. lia. Qed.

Lemma lowerSha256_valid v : lowerSha256 v = true -> validSha256 v = true.
Proof.
  unfold lowerSha256, validSha256. rewrite !matches_rep_cls. intros [H ?]. split; [|done].
  eapply Forall_impl; [done|]. intros c Hc. unfold hex_any, por at 1. by rewrite Hc.
Qed.

Lemma safe_relative_parts n p : safe_relative n p = true -> forallb safe_part (split_on SLASH p) = true.
Proof. unfold safe_relative. rewrite !andb_true_iff. tauto. Qed.

Lemma safe_relative_nonempty n p : safe_relative n p = true -> p <> [].
Proof. unfold safe_relative. intros H ->. done. Qed.

Lemma comparePath_lt a b : comparePath a b < 0 <-> str_ltb a b = true.
Proof.
  unfold comparePath. destruct (str_ltb a b); [lia|]. destruct (str_ltb b a); split; (done || lia).
Qed.

Lemma comparePath_le a b : comparePath a b <= 0 <-> str_le a b.
Proof.
  unfold comparePath, str_le. destruct (str_ltb a b) eqn:E.
  - rewrite str_ltb_asym by done. split; [done|lia].
  - destruct (str_ltb b a); split; (done || lia).
Qed.

Lemma validOutputMode_cases m : validOutputMode m = true <-> m = MODE_644 \/ m = MODE_755.
Proof. unfold validOutputMode. by rewrite orb_true_iff, !Z.eqb_eq. Qed.

Lemma validOutputMode_nonneg m : validOutputMode m = true -> 0 <= m.
Proof. by intros [-> | ->]%validOutputMode_cases. Qed.

(** ** Paths that do not climb *)

(** The parts [resolve] keeps when none is [..]. *)
Definition kept_part (p : jsstr) : bool := negb (streq p [] || streq p (js ".")).

Lemma normalize_parts_clean acc parts :
  str_in (js "..") parts = false -> normalize_parts acc parts = reverse acc ++ List.filter kept_part parts.
Proof.
  revert acc. induction parts as [|p parts IH]; intros acc; cbn [normalize_parts List.filter str_in existsb].
  { by rewrite app_nil_r. }
  intros [Hp Hs]%orb_false_iff. unfold kept_part at 1.
  destruct (streq p [] || streq p (js ".")); cbn [negb]; [by apply IH|].
  assert (streq p (js "..") = false) as ->.
  { apply not_true_iff_false. intros ->%streq_true. by rewrite streq_refl in Hp. }
  rewrite IH by done. by rewrite reverse_cons, <- app_assoc.
Qed.

Lemma normalize_below root p :
  str_in (js "..") (split_on SLASH p) = false ->
  normalize_parts [] (split_on SLASH (root ++ js "/" ++ p)) =
  normalize_parts [] (split_on SLASH root) ++ List.filter kept_part (split_on SLASH p).
Proof.
  intros Hp. change (js "/" ++ p) with (SLASH :: p).
  by rewrite split_on_app_sep, normalize_parts_app, normalize_parts_clean, reverse_involutive.
Qed.

Lemma resolve_parts p : resolve p = js "/" ++ join (js "/") (normalize_parts [] (split_on SLASH p)).
Proof. done. Qed.

Lemma within_parts root p rest :
  normalize_parts [] (split_on SLASH root) <> [] -> rest <> [] ->
  normalize_parts [] (split_on SLASH p) = normalize_parts [] (split_on SLASH root) ++ rest ->
  within root p = true.
Proof.
  intros Hroot Hrest Hp. unfold within. rewrite (resolve_parts p), Hp, join_app by done.
  rewrite resolve_parts, <- !app_assoc. apply starts_with_spec. eexists. by rewrite <- !app_assoc.
Qed.

(** What [resolve] leaves, it leaves alone. *)
Lemma normalize_parts_result parts : forall acc,
  Forall (fun p => SLASH ∉ p) parts -> Forall (fun p => safe_part p = true /\ SLASH ∉ p) acc ->
  Forall (fun p => safe_part p = true /\ SLASH ∉ p) (normalize_parts acc parts).
Proof.
  induction parts as [|p parts IH]; intros acc Hf Ha; cbn [normalize_parts]; [by apply Forall_reverse|].
  apply Forall_cons in Hf as [Hp Hf]. destruct (_ || _) eqn:E; [by apply IH|].
  destruct (streq p (js "..")) eqn:E2.
  - apply IH; [done|]. by destruct Ha.
  - apply IH; [done|]. constructor; [|done]. split; [|done]. unfold safe_part. rewrite E2.
    apply orb_false_iff in E as [-> ->]. done.
Qed.

Lemma split_on_word c w : c ∉ w -> split_on c w = [w].
Proof.
  induction w as [|x w IH]; [done|]. intros [Hx Hw]%not_elem_of_cons. cbn [split_on].
  rewrite (proj2 (Z.eqb_neq x c)) by congruence. by rewrite IH.
Qed.

Lemma split_join_words c l :
  l <> [] -> Forall (fun w => c ∉ w) l -> split_on c (join [c] l) = l.
Proof.
  intros Hne Hl. induction Hl as [|w l Hw Hl IH]; [done|]. destruct l as [|w' l].
  - by apply split_on_word.
  - change (join [c] (w :: w' :: l)) with (w ++ c :: join [c] (w' :: l)).
    by rewrite split_on_app_sep, IH, split_on_word.
Qed.

Lemma normalize_resolve p :
  normalize_parts [] (split_on SLASH (resolve p)) = normalize_parts [] (split_on SLASH p).
Proof.
  assert (Forall (fun w => safe_part w = true /\ SLASH ∉ w) (normalize_parts [] (split_on SLASH p))) as Hok.
  { apply normalize_parts_result; [apply split_on_free|constructor]. }
  rewrite resolve_parts. set (l := normalize_parts [] (split_on SLASH p)) in *. clearbody l.
  destruct (decide (l = [])) as [->|Hne]; [done|].
  change (js "/" ++ join (js "/") l) with ([] ++ SLASH :: join [SLASH] l).
  rewrite split_on_app_sep, split_join_words; [|done|eapply Forall_impl; [exact Hok|]; intros w [_ ?]; done].
  cbn [split_on app]. rewrite normalize_parts_cons_empty. apply normalize_parts_safe.
  apply forallb_forall. intros w Hw%list_elem_of_In. rewrite Forall_forall in Hok. by apply Hok.
Qed.

Lemma normalize_parent p :
  normalize_parts [] (split_on SLASH (p ++ js "/..")) = removelast (normalize_parts [] (split_on SLASH p)).
Proof.
  change (js "/..") with (SLASH :: js ".."). rewrite split_on_app_sep, normalize_parts_app.
  set (l := normalize_parts [] (split_on SLASH p)). clearbody l. cbn.
  destruct (decide (l = [])) as [->|Hne]; [done|].
  destruct (exists_last Hne) as (a & x & ->). rewrite reverse_app, removelast_last. cbn. apply reverse_involutive.
Qed.

(** The character that separates keys is in no coordinate. *)
Lemma coordinate_no_nul c : validCoordinate c = true -> 0 ∉ c.
Proof.
  unfold validCoordinate. rewrite !andb_true_iff, matches_spec. intros [_ Hl]. eapply lang_avoids; [exact Hl|]. reflexivity.
Qed.
