(* ===== verification/Limits.v ===== *)
(** * Production output limits ([compiler/src/production-limits.mjs])

    The record of limits and the early-exit loop that checks a sequence of file
    sizes against one of them, with its closed form: the loop accepts exactly
    when every size is in range and the total does not exceed the maximum. *)

From S2P Require Import Prelude JsNum.

Definition maxFiles : Z := 16384.
Definition maxFileBytes : Z := 256 * 1024 * 1024.
Definition maxSandboxBytes : Z := 320 * 1024 * 1024.
Definition maxPackageInputBytes : Z := 384 * 1024 * 1024.
Definition maxBundleArchiveBytes : Z := 400 * 1024 * 1024.
Definition maxPackageTarBytes : Z := 400 * 1024 * 1024.
Definition maxPackageArchiveBytes : Z := 401 * 1024 * 1024.

(** The loop body: [None] is [return false]. *)
Definition add_size (total : Z) (size : option Z) (maximum : Z) : option Z :=
  match size with
  | None => None
  | Some z =>
      if negb (is_safe z) || (z <? 0) || (maxFileBytes <? z) then None
      else
        let total' := total + z in
        if negb (is_safe total') || (maximum <? total') then None else Some total'
  end.

Fixpoint size_loop (total : Z) (sizes : list (option Z)) (maximum : Z) : bool :=
  match sizes with
  | [] => true
  | size :: rest =>
      match add_size total size maximum with
      | None => false
      | Some total' => size_loop total' rest maximum
      end
  end.

(** A size is [None] when the value is not an integer (a missing
    [byteLength]). *)
Definition outputSizeWithinLimit (sizes : list (option Z)) (maximum : option Z) : bool :=
  match maximum with
  | Some m => if negb (is_safe m) || (m <? 1) then false else size_loop 0 sizes m
  | None => false
  end.

(** ** The closed form of the loop *)
Definition size_ok (size : option Z) : Prop :=
  exists z, size = Some z /\ 0 <= z <= maxFileBytes.

Definition size_sum (sizes : list (option Z)) : Z :=
  foldr (fun s acc => default 0 s + acc) 0 sizes.

Lemma size_sum_nonneg sizes : Forall size_ok sizes -> 0 <= size_sum sizes.
Proof. induction 1 as [|s l (z & -> & ?) _ IH]; simpl; lia. Qed.

Lemma size_loop_spec total sizes m :
  0 <= total <= m -> is_safe m = true ->
  size_loop total sizes m = true <-> Forall size_ok sizes /\ total + size_sum sizes <= m.
Proof.
  intros Ht Hm. revert total Ht. induction sizes as [|s sizes IH]; intros total Ht; simpl.
  { split; [|done]. intros _. split; [constructor|lia]. }
  rewrite is_safe_spec in Hm. unfold add_size. destruct s as [z|]; simpl; cycle 1.
  { rewrite Forall_cons. split; [done|]. by intros [[(? & ? & _) _] _]. }
  rewrite Forall_cons.
  destruct (negb (is_safe z) || (z <? 0) || (maxFileBytes <? z)) eqn:Ez.
  { split; [done|]. intros [[(z' & [= <-] & Hz) _] _].
    rewrite !orb_true_iff, negb_true_iff, <- not_true_iff_false, is_safe_spec, !Z.ltb_lt in Ez.
    unfold MAX_SAFE_INTEGER, maxFileBytes in *. lia. }
  rewrite !orb_false_iff, negb_false_iff, !Z.ltb_ge in Ez. destruct Ez as [[_ Hz0] Hz1].
  destruct (negb (is_safe (total + z)) || (m <? total + z)) eqn:Et.
  - split; [done|]. intros [[_ Hs%size_sum_nonneg] Hle].
    rewrite orb_true_iff, negb_true_iff, <- not_true_iff_false, is_safe_spec, Z.ltb_lt in Et.
    unfold MAX_SAFE_INTEGER in *. lia.
  - rewrite orb_false_iff, Z.ltb_ge in Et. rewrite IH by lia. unfold size_ok.
    split; [intros [? ?]; split; [split; [eauto|done]|lia]|intros [[_ ?] ?]; split; [done|lia]].
Qed.

(** The checked sum never leaves the safe integers: each accepted size is in
    range and the maximum is itself safe. *)
Lemma outputSizeWithinLimit_true sizes m :
  outputSizeWithinLimit sizes (Some m) = true <->
  is_safe m = true /\ 1 <= m /\ Forall size_ok sizes /\ size_sum sizes <= m.
Proof.
  unfold outputSizeWithinLimit.
  destruct (negb (is_safe m) || (m <? 1)) eqn:E.
  - rewrite orb_true_iff, negb_true_iff, Z.ltb_lt in E.
    split; [done|]. intros (? & ? & _). destruct E; [congruence|lia].
  - rewrite orb_false_iff, negb_false_iff, Z.ltb_ge in E. destruct E.
    rewrite size_loop_spec by (done || lia). rewrite Z.add_0_l. naive_solver.
Qed.

Lemma size_sum_app a b : size_sum (a ++ b) = size_sum a + size_sum b.
Proof. induction a as [|x a IH]; simpl; lia. Qed.

Lemma size_sum_Permutation a b : a ≡ₚ b -> size_sum a = size_sum b.
Proof. induction 1; simpl; lia. Qed.
