(* ===== verification/Node.v ===== *)
(** * Interfaces of the Node.js built-ins

    Hashing, message authentication and base64 are native code.  Each is an
    operation of a class with the documented facts the worker relies on; the
    components are proved against the class.  The instances at the end are
    concrete functions with these laws, used to run the model. *)

From S2P Require Import Prelude JsText JsNum JsValue Regex Validators.
From Stdlib Require Import Ascii.

(** [createHash("sha256").update(bytes).digest("hex")]: 64 lower-case digits. *)
Class Sha256 := {
  sha256 : bytes -> jsstr;
  sha256_hex : forall b, lowerSha256 (sha256 b) = true;
}.

(** [createHash("sha1").update(bytes).digest("hex")] *)
Class Sha1 := { sha1 : bytes -> jsstr }.

(** [.update(string)] hashes the UTF-8 bytes. *)
Definition sha256_text `{Sha256} (s : jsstr) : jsstr := sha256 (utf8_encode s).

Lemma sha256_valid `{Sha256} b : validSha256 (sha256 b) = true.
Proof. apply lowerSha256_valid, sha256_hex. Qed.

(** [Buffer.from(b).toString("base64")] and its decoder. *)
Class Base64 := {
  base64_encode : bytes -> jsstr;
  base64_decode : jsstr -> bytes;
  base64_roundtrip : forall b, bytes_ok b -> base64_decode (base64_encode b) = b;
}.

(** [toString("base64url")] (no padding) and its decoder. *)
Definition url_char : Z -> bool := alnum ∪c chr1 "_" ∪c chr1 "-".

Class Base64Url := {
  base64url_encode : bytes -> jsstr;
  base64url_decode : jsstr -> bytes;
  base64url_roundtrip : forall b, bytes_ok b -> base64url_decode (base64url_encode b) = b;
  base64url_alphabet : forall b, bytes_ok b -> Forall (fun c => url_char c = true) (base64url_encode b);
  base64url_length : forall b, zlen (base64url_encode b) = (4 * zlen b + 2) / 3;
}.

(** [createHmac("sha256", key).update(text).digest()] *)
Class Hmac := {
  hmac_sha256 : bytes -> jsstr -> bytes;
  hmac_length : forall k s, zlen (hmac_sha256 k s) = 32;
  hmac_bytes : forall k s, bytes_ok (hmac_sha256 k s);
}.

(** [sign(null, payload, key)] and [verify(null, payload, key, signature)] on
    Ed25519 keys: signatures have 64 bytes and verify under the public half. *)
Class Ed25519 := {
  private_key : Type;
  public_key : Type;
  public_of : private_key -> public_key;
  ed_sign : private_key -> bytes -> bytes;
  ed_verify : public_key -> bytes -> bytes -> bool;
  ed_sign_length : forall k p, zlen (ed_sign k p) = 64;
  ed_sign_bytes : forall k p, bytes_ok (ed_sign k p);
  ed_sign_verify : forall k p, ed_verify (public_of k) p (ed_sign k p) = true;
}.

(** [JSON.parse(text)]; a syntax error is [None]. *)
Class JsonParse := { json_parse : jsstr -> option jsval }.

(** [JSON.parse(decoder.decode(bytes))] with a fatal UTF-8 decoder. *)
Definition parse_bytes `{JsonParse} (b : bytes) : option jsval := text_decode b ≫= json_parse.

(** [JSON.stringify(value)] *)
Class JsonStringify := { json_stringify : jsval -> jsstr }.

(** [new URL(text)]: the components the sources read; [None] is a [TypeError]. *)
Record url := mkUrl {
  u_protocol : jsstr;
  u_username : jsstr;
  u_password : jsstr;
  u_hostname : jsstr;
  u_port : jsstr;
  u_pathname : jsstr;
  u_search : jsstr;
  u_hash : jsstr;
  u_href : jsstr;
  u_origin : jsstr;
}.

Class UrlParser := { parse_url : jsstr -> option url }.

(** [inflateRawSync(bytes)]; a corrupt stream is [None]. *)
Class InflateRaw := { inflateRawSync : bytes -> option bytes }.

(** ** Concrete instances *)
Definition toy_digest (b : bytes) : jsstr :=
  pad_start 64 (to_radix 16 (fold_left (fun a x => Z.land (a * 5 + x + 1) (Z.ones 20)) b 0)).

Lemma hex_digit_lower c : is_digit_of 16 c = true -> hex_lower c = true.
Proof.
  unfold is_digit_of, hex_lower, por, rng. change (ch "a") with 97. change (ch "f") with 102.
  change (ch "0") with 48. change (ch "9") with 57.
  rewrite andb_true_iff, !orb_true_iff, !andb_true_iff, !Z.leb_le, !Z.ltb_lt. lia.
Qed.

Lemma toy_fold_bound b a :
  0 <= a < 2 ^ 20 -> 0 <= fold_left (fun a x => Z.land (a * 5 + x + 1) (Z.ones 20)) b a < 2 ^ 20.
Proof.
  revert a; induction b as [|x b IH]; intros a Ha; [done|]. cbn [fold_left].
  apply IH. rewrite Z.land_ones by lia. by apply Z.mod_pos_bound.
Qed.

Lemma toy_digest_hex b : lowerSha256 (toy_digest b) = true.
Proof.
  unfold lowerSha256, toy_digest. set (h := fold_left _ b 0).
  assert (0 <= h < 2 ^ 20) as Hh by (by apply toy_fold_bound).
  assert (zlen (to_radix 16 h) <= 64) by (apply to_radix_length; lia).
  pose proof (to_radix_digits 16 h) as Hd.
  rewrite matches_rep_cls. unfold pad_start. split.
  - apply Forall_app. split; [by apply Forall_replicate|].
    eapply Forall_impl; [apply Hd; lia|]. apply hex_digit_lower.
  - rewrite length_app, length_replicate. unfold zlen in *. lia.
Qed.

Definition toy_sha256 : Sha256 := {| sha256 := toy_digest; sha256_hex := toy_digest_hex |}.

Definition toy_base64 : Base64 := {|
  base64_encode b := b; base64_decode s := s; base64_roundtrip b _ := eq_refl |}.

(** Base64url as RFC 4648 defines it. *)
Definition sextet_char (i : Z) : Z :=
  if i <? 26 then 65 + i
  else if i <? 52 then 97 + (i - 26)
  else if i <? 62 then 48 + (i - 52)
  else if i =? 62 then 45 else 95.

Definition sextet_value (c : Z) : Z :=
  if (65 <=? c) && (c <=? 90) then c - 65
  else if (97 <=? c) && (c <=? 122) then c - 97 + 26
  else if (48 <=? c) && (c <=? 57) then c - 48 + 52
  else if c =? 45 then 62 else 63.

Fixpoint rfc_encode (b : bytes) : jsstr :=
  match b with
  | [] => []
  | [x] => [sextet_char (x / 4); sextet_char (x mod 4 * 16)]
  | [x; y] => [sextet_char (x / 4); sextet_char (x mod 4 * 16 + y / 16); sextet_char (y mod 16 * 4)]
  | x :: y :: z :: t =>
      sextet_char (x / 4) :: sextet_char (x mod 4 * 16 + y / 16) ::
      sextet_char (y mod 16 * 4 + z / 64) :: sextet_char (z mod 64) :: rfc_encode t
  end.

Fixpoint rfc_decode (s : jsstr) : bytes :=
  match s with
  | a :: b :: c :: d :: t =>
      let '(p, q, r, u) := (sextet_value a, sextet_value b, sextet_value c, sextet_value d) in
      (p * 4 + q / 16) :: (q mod 16 * 16 + r / 4) :: (r mod 4 * 64 + u) :: rfc_decode t
  | [a; b; c] =>
      let '(p, q, r) := (sextet_value a, sextet_value b, sextet_value c) in
      [p * 4 + q / 16; q mod 16 * 16 + r / 4]
  | [a; b] => [sextet_value a * 4 + sextet_value b / 16]
  | _ => []
  end.

Lemma sextet_roundtrip i : 0 <= i < 64 -> sextet_value (sextet_char i) = i.
Proof.
  intros. unfold sextet_char.
  destruct (Z.ltb_spec i 26); [|destruct (Z.ltb_spec i 52); [|destruct (Z.ltb_spec i 62);
    [|destruct (Z.eqb_spec i 62)]]]; unfold sextet_value; zcases; simpl; lia.
Qed.

Lemma sextet_url i : 0 <= i < 64 -> url_char (sextet_char i) = true.
Proof.
  intros. unfold url_char, alnum, por, rng, chr1. unfold sextet_char.
  change (ch "0") with 48. change (ch "9") with 57. change (ch "A") with 65. change (ch "Z") with 90.
  change (ch "a") with 97. change (ch "z") with 122. change (ch "_") with 95. change (ch "-") with 45.
  repeat case_match; rewrite ?orb_true_iff, ?andb_true_iff, ?Z.leb_le, ?Z.eqb_eq, ?Z.ltb_lt, ?Z.ltb_ge in *; lia.
Qed.

Lemma byte_range x : is_byte x = true -> 0 <= x < 256.
Proof. unfold is_byte. rewrite andb_true_iff, !Z.leb_le. lia. Qed.

(** Induction three bytes at a time. *)
Lemma bytes_ind3 (P : bytes -> Prop) :
  P [] -> (forall x, P [x]) -> (forall x y, P [x; y]) ->
  (forall x y z t, P t -> P (x :: y :: z :: t)) -> forall b, P b.
Proof.
  intros H0 H1 H2 H3 b. induction b as [b IH] using (induction_ltof1 _ (@length Z)). unfold ltof in IH.
  destruct b as [|x [|y [|z t]]]; auto. apply H3, IH. simpl. lia.
Qed.

Lemma rfc_roundtrip b : bytes_ok b -> rfc_decode (rfc_encode b) = b.
Proof.
  unfold bytes_ok. induction b as [|x|x y|x y z t IH] using bytes_ind3; cbn [rfc_encode rfc_decode];
    rewrite ?Forall_cons; intros Hb; [done|..]; repeat match goal with
    | H : _ /\ _ |- _ => destruct H
    | H : is_byte _ = true |- _ => apply byte_range in H end;
    rewrite !sextet_roundtrip by (Z.div_mod_to_equations; lia).
  - f_equal. Z.div_mod_to_equations; lia.
  - f_equal; [|f_equal]; Z.div_mod_to_equations; lia.
  - rewrite IH by done. f_equal; [|f_equal; [|f_equal]]; Z.div_mod_to_equations; lia.
Qed.

Lemma rfc_alphabet b : bytes_ok b -> Forall (fun c => url_char c = true) (rfc_encode b).
Proof.
  unfold bytes_ok. induction b as [|x|x y|x y z t IH] using bytes_ind3; cbn [rfc_encode];
    rewrite ?Forall_cons; intros Hb; [done|..]; repeat match goal with
    | H : _ /\ _ |- _ => destruct H
    | H : is_byte _ = true |- _ => apply byte_range in H end;
    split_and!; auto; apply sextet_url; Z.div_mod_to_equations; lia.
Qed.

Lemma rfc_length b : zlen (rfc_encode b) = (4 * zlen b + 2) / 3.
Proof.
  induction b as [|x|x y|x y z t IH] using bytes_ind3; cbn [rfc_encode]; [done..|].
  rewrite !zlen_cons, IH. replace (4 * (1 + (1 + (1 + zlen t))) + 2) with (4 * zlen t + 2 + 4 * 3) by lia.
  rewrite Z.div_add by lia. lia.
Qed.

Definition rfc_base64url : Base64Url := {|
  base64url_encode := rfc_encode; base64url_decode := rfc_decode;
  base64url_roundtrip := rfc_roundtrip; base64url_alphabet := rfc_alphabet;
  base64url_length := rfc_length |}.

(** Concrete keyed functions of the right shape. *)
Definition toy_mac (n : nat) (k : bytes) (p : bytes) : bytes :=
  let h := fold_left (fun a x => (a * 257 + x + 1) mod 2 ^ 61) (k ++ p) 0 in
  map (fun i => (h / (Z.of_nat i + 1)) mod 256) (seq 0 n).

Lemma toy_mac_length n k p : zlen (toy_mac n k p) = Z.of_nat n.
Proof. unfold toy_mac, zlen. by rewrite length_map, length_seq. Qed.

Lemma toy_mac_bytes n k p : bytes_ok (toy_mac n k p).
Proof.
  unfold toy_mac, bytes_ok. apply Forall_map, Forall_forall. intros i _.
  set (v := _ / _). pose proof (Z.mod_pos_bound v 256 eq_refl) as Hv. unfold is_byte.
  rewrite andb_true_iff, !Z.leb_le. lia.
Qed.

Definition toy_hmac : Hmac := {|
  hmac_sha256 := toy_mac 32; hmac_length := toy_mac_length 32; hmac_bytes := toy_mac_bytes 32 |}.

Definition toy_ed25519 : Ed25519.
Proof.
  refine {| private_key := bytes; public_key := bytes; public_of k := k;
            ed_sign := toy_mac 64; ed_verify k p s := bool_decide (s = toy_mac 64 k p);
            ed_sign_length := toy_mac_length 64; ed_sign_bytes := toy_mac_bytes 64 |}.
  intros k p. by apply bool_decide_eq_true.
Defined.
