(* ===== verification/TarZst.v ===== *)
(** * The deterministic archive ([reviewed-builder.mjs], packaging)

    [packageDeterministicTarZst] writes the output files, sorted by path, as a
    ustar archive inside a Zstandard frame of raw blocks;
    [unpackDeterministicTarZst] reads it back before the worker uploads
    anything.  The main theorems: unpacking a packaged file set returns exactly
    that set; the packer does not depend on the order in which files were
    added; whatever the unpacker accepts has distinct, safe paths and valid
    modes; the loops terminate; the frame stays within the archive limit. *)

From S2P Require Import Prelude JsText JsNum Regex Validators Limits Node.
From Stdlib Require Import Ascii.

Definition RAW_ZSTD_BLOCK_BYTES : Z := 128 * 1024.

Definition invalid_builder_output : exn := CompilerFailure "invalid_builder_output".

(** One output file; the file set is a [Map] from path to file. *)
Record file := mkFile { f_bytes : bytes; f_mode : Z }.

#[export] Instance file_eq_dec : EqDecision file.
Proof. solve_decision. Defined.

(** What [unpackTar] stores per path. *)
Record unpacked := mkUnpacked {
  u_bytes : bytes;
  u_sha256 : jsstr;
  u_sizeBytes : Z;
  u_mode : Z;
}.

(** ** [concatenate(chunks, total)] *)
Fixpoint concat_loop (output : bytes) (offset : Z) (chunks : list bytes) : bytes :=
  match chunks with
  | [] => output
  | chunk :: rest => concat_loop (set_bytes output offset chunk) (offset + zlen chunk) rest
  end.

Definition concatenate (chunks : list bytes) (total : Z) : bytes :=
  concat_loop (zeros total) 0 chunks.

(** ** [[...files.entries()].sort(([l], [r]) => comparePath(l, r))] *)
Definition entry_le {V} (a b : jsstr * V) : Prop := comparePath a.1 b.1 <= 0.

#[export] Instance entry_le_dec {V} : RelDecision (@entry_le V).
Proof. intros a b. unfold entry_le. apply _. Defined.

Definition sort_entries {V} (m : list (jsstr * V)) : list (jsstr * V) := merge_sort entry_le m.

(** ** Writing a header *)
Fixpoint split_loop (parts : list jsstr) (indices : list nat) : res (jsstr * jsstr) :=
  match indices with
  | [] => Throw invalid_builder_output
  | index :: rest =>
      let prefix := join (js "/") (take index parts) in
      let name := join (js "/") (drop index parts) in
      if (zlen (utf8_encode prefix) <=? 155) && (zlen (utf8_encode name) <=? 100)
      then Ok (name, prefix)
      else split_loop parts rest
  end.

(** The result is the pair [{ name, prefix }]. *)
Definition splitTarPath (path : jsstr) : res (jsstr * jsstr) :=
  if zlen (utf8_encode path) <=? 100 then Ok (path, [])
  else
    let parts := split_on SLASH path in
    split_loop parts (seq 1 (length parts - 1)).

Definition writeTarText (target : bytes) (offset len : Z) (value : jsstr) : res bytes :=
  let b := utf8_encode value in
  if len <? zlen b then Throw invalid_builder_output
  else Ok (set_bytes target offset b).

Definition writeTarOctal (target : bytes) (offset len value : Z) : res bytes :=
  let text := pad_start (len - 1) (to_radix 8 value) in
  if negb (zlen text =? len - 1) then Throw invalid_builder_output
  else writeTarText target offset len text.

Definition writeTarChecksum (target : bytes) (value : Z) : res bytes :=
  let text := pad_start 6 (to_radix 8 value) in
  if negb (zlen text =? 6) then Throw invalid_builder_output
  else Ok (set_bytes target 148 (utf8_encode (text ++ [0; 32]))).

Definition byte_sum (b : bytes) : Z := fold_left Z.add b 0.

(** The 512-byte header of one entry (the loop body of [packageTar] up to the
    checksum). *)
Definition tarHeader (path : jsstr) (f : file) : res bytes :=
  np ← splitTarPath path;
  let '(name, prefix) := np in
  h ← writeTarText (zeros 512) 0 100 name;
  h ← writeTarOctal h 100 8 (f_mode f);
  h ← writeTarOctal h 108 8 0;
  h ← writeTarOctal h 116 8 0;
  h ← writeTarOctal h 124 12 (zlen (f_bytes f));
  h ← writeTarOctal h 136 12 0;
  let h := set_bytes h 148 (replicate 8 0x20) in
  let h := set_bytes h 156 [0x30] in
  h ← writeTarText h 257 6 (js "ustar");
  h ← writeTarText h 263 2 (js "00");
  h ← writeTarText h 265 32 (js "root");
  h ← writeTarText h 297 32 (js "root");
  h ← writeTarText h 345 155 prefix;
  writeTarChecksum h (byte_sum h).

Definition tar_padding (n : Z) : Z := (512 - n mod 512) mod 512.

(** ** [packageTar] *)
Fixpoint tar_loop (entries : list (jsstr * file)) (chunks : list bytes) (total : Z) :
    res (list bytes * Z) :=
  match entries with
  | [] => Ok (chunks, total)
  | (path, f) :: rest =>
      header ← tarHeader path f;
      let padding := tar_padding (zlen (f_bytes f)) in
      let chunks' := chunks ++ [header; f_bytes f; zeros padding] in
      let total' := total + (512 + zlen (f_bytes f) + padding) in
      if maxPackageTarBytes <? total' then Throw invalid_builder_output
      else tar_loop rest chunks' total'
  end.

Definition packageTar (files : list (jsstr * file)) : res bytes :=
  ct ← tar_loop (sort_entries files) [] 0;
  let '(chunks, total) := ct in
  if maxPackageTarBytes <? total + 1024 then Throw invalid_builder_output
  else Ok (concatenate (chunks ++ [zeros 1024]) (total + 1024)).

(** ** [rawZstd] *)
Fixpoint zstd_loop (fuel : nat) (input : bytes) (offset : Z) (chunks : list bytes) (total : Z) :
    res (list bytes * Z) :=
  if offset <? zlen input then
    match fuel with
    | O => Throw OutOfFuel
    | S fuel =>
        let size := Z.min RAW_ZSTD_BLOCK_BYTES (zlen input - offset) in
        let last := if offset + size =? zlen input then 1 else 0 in
        let header := js_or (js_shl size 3) last in
        let chunks' := chunks ++
          [[js_and header 0xff; js_and (js_ushr header 8) 0xff; js_and (js_ushr header 16) 0xff];
           subarray input offset (offset + size)] in
        zstd_loop fuel input (offset + RAW_ZSTD_BLOCK_BYTES) chunks' (total + (3 + size))
    end
  else Ok (chunks, total).

Definition zstd_fuel (input : bytes) : nat :=
  Z.to_nat (zlen input / RAW_ZSTD_BLOCK_BYTES + 1).

Definition rawZstd (input : bytes) : res bytes :=
  if maxPackageTarBytes <? zlen input then Throw invalid_builder_output
  else
    let first := [0x28; 0xb5; 0x2f; 0xfd; 0xa0] ++ littleEndian32 (zlen input) in
    ct ← zstd_loop (zstd_fuel input) input 0 [first] (zlen first);
    let '(chunks, total) := ct in
    if maxPackageArchiveBytes <? total then Throw invalid_builder_output
    else Ok (concatenate chunks total).

Definition packageDeterministicTarZst (files : list (jsstr * file)) : res bytes :=
  tar ← packageTar files;
  rawZstd tar.

(** ** Reading a header field *)
Fixpoint find_index (v : Z) (l : bytes) (i : Z) : Z :=
  match l with
  | [] => -1
  | x :: t => if x =? v then i else find_index v t (i + 1)
  end.

(** [target.indexOf(v, from)] *)
Definition index_of (target : bytes) (v from : Z) : Z := find_index v (zdrop from target) from.

Definition tarText (target : bytes) (offset len : Z) : res jsstr :=
  let stop := index_of target 0 offset in
  let boundedEnd := if (stop =? -1) || (offset + len <? stop) then offset + len else stop in
  match text_decode (subarray target offset boundedEnd) with
  | Some s => Ok s
  | None => Throw invalid_builder_output
  end.

Definition octal_digit : Z -> bool := rng "0" "7".

Definition parseTarOctal (target : bytes) (offset len : Z) : res Z :=
  raw ← tarText target offset len;
  let text := trim raw in
  if negb (matches (plus (Cls octal_digit)) text) then Throw invalid_builder_output
  else
    let value := parse_radix 8 text in
    if negb (is_safe value) then Throw invalid_builder_output else Ok value.

Definition all_zero (b : bytes) : bool := forallb (Z.eqb 0) b.

Section unpack.
Context `{Sha256}.

(** ** [unpackTar] *)
Fixpoint untar_loop (fuel : nat) (tar : bytes) (offset : Z) (files : list (jsstr * unpacked)) :
    res (list (jsstr * unpacked)) :=
  if offset + 512 <=? zlen tar then
    match fuel with
    | O => Throw OutOfFuel
    | S fuel =>
        let header := subarray tar offset (offset + 512) in
        if all_zero header then
          if negb (offset + 1024 =? zlen tar) ||
             negb (all_zero (subarray tar (offset + 512) (offset + 1024)))
          then Throw invalid_builder_output
          else Ok files
        else
          magic ← tarText header 257 6;
          if negb (streq magic (js "ustar")) ||
             (negb (byte_at header 156 =? 0) && negb (byte_at header 156 =? 0x30))
          then Throw invalid_builder_output
          else
            name ← tarText header 0 100;
            prefix ← tarText header 345 155;
            let path := if streq prefix [] then name else prefix ++ js "/" ++ name in
            sizeBytes ← parseTarOctal header 124 12;
            mode ← parseTarOctal header 100 8;
            let dataOffset := offset + 512 in
            if negb (safeOutputPath path) || map_has path files || negb (is_safe sizeBytes) ||
               (zlen tar <? dataOffset + sizeBytes) || negb (validOutputMode mode)
            then Throw invalid_builder_output
            else
              let b := subarray tar dataOffset (dataOffset + sizeBytes) in
              untar_loop fuel tar (dataOffset + sizeBytes + tar_padding sizeBytes)
                (map_set path (mkUnpacked b (sha256 b) sizeBytes mode) files)
    end
  else Throw invalid_builder_output.

Definition untar_fuel (tar : bytes) : nat := Z.to_nat (zlen tar / 512 + 1).

Definition unpackTar (tar : bytes) : res (list (jsstr * unpacked)) :=
  untar_loop (untar_fuel tar) tar 0 [].

(** ** [unpackDeterministicTarZst] *)
Fixpoint unzstd_loop (fuel : nat) (archive : bytes) (offset total : Z) (chunks : list bytes) :
    res (list bytes * Z * Z) :=
  if zlen archive <? offset + 3 then Throw invalid_builder_output
  else
    match fuel with
    | O => Throw OutOfFuel
    | S fuel =>
        let header := js_or (js_or (byte_at archive offset) (js_shl (byte_at archive (offset + 1)) 8))
                            (js_shl (byte_at archive (offset + 2)) 16) in
        let offset := offset + 3 in
        let last := js_and header 1 =? 1 in
        let type := js_and (js_ushr header 1) 3 in
        let size := js_ushr header 3 in
        if negb (type =? 0) || (RAW_ZSTD_BLOCK_BYTES <? size) || (zlen archive <? offset + size)
        then Throw invalid_builder_output
        else
          let chunks := chunks ++ [subarray archive offset (offset + size)] in
          let offset := offset + size in
          let total := total + size in
          if last then Ok (chunks, offset, total)
          else unzstd_loop fuel archive offset total chunks
    end.

Definition unzstd_fuel (archive : bytes) : nat := Z.to_nat (zlen archive / 3 + 1).

Definition unpackDeterministicTarZst (archive : bytes) : res (list (jsstr * unpacked)) :=
  if (zlen archive <? 12) || (maxPackageArchiveBytes <? zlen archive) ||
     negb (byte_at archive 0 =? 0x28) || negb (byte_at archive 1 =? 0xb5) ||
     negb (byte_at archive 2 =? 0x2f) || negb (byte_at archive 3 =? 0xfd) ||
     negb (byte_at archive 4 =? 0xa0)
  then Throw invalid_builder_output
  else
    let expectedSize := readLittleEndian32 archive 5 in
    r ← unzstd_loop (unzstd_fuel archive) archive 9 0 [];
    let '(chunks, offset, total) := r in
    if negb (offset =? zlen archive) || negb (total =? expectedSize)
    then Throw invalid_builder_output
    else unpackTar (concatenate chunks total).
End unpack.

(** ** [concatenate] is concatenation when [total] is the sum of the lengths *)
Lemma concat_loop_spec done rest chunks :
  zlen rest = zlen (concat chunks) ->
  concat_loop (done ++ rest) (zlen done) chunks = done ++ concat chunks.
Proof.
  revert done rest. induction chunks as [|c cs IH]; intros done rest Hlen; simpl in *.
  - by rewrite (zlen_0_nil rest) by zlia.
  - assert (set_bytes (done ++ rest) (zlen done) c = (done ++ c) ++ zdrop (zlen c) rest) as ->.
    { unfold set_bytes. rewrite ztake_app_exact by done.
      rewrite zdrop_app, (zdrop_ge _ done) by zlia. simpl.
      rewrite <- app_assoc. do 3 f_equal. lia. }
    replace (zlen done + zlen c) with (zlen (done ++ c)) by zlia.
    rewrite IH by zlia. by rewrite <- app_assoc.
Qed.

Lemma concatenate_concat chunks total :
  total = zlen (concat chunks) -> concatenate chunks total = concat chunks.
Proof.
  intros ->. apply (concat_loop_spec [] (zeros (zlen (concat chunks)))).
  apply zlen_zeros, zlen_nonneg.
Qed.

(** ** Sorting by path *)
#[export] Instance entry_le_total {V} : Total (@entry_le V).
Proof. intros a b. unfold entry_le. rewrite !comparePath_le. apply (total str_le). Qed.

#[export] Instance entry_le_trans {V} : Transitive (@entry_le V).
Proof. intros a b c. unfold entry_le. rewrite !comparePath_le. by etrans. Qed.

Lemma sort_entries_perm {V} (m : list (jsstr * V)) : sort_entries m ≡ₚ m.
Proof. apply merge_sort_Permutation. Qed.

Lemma sort_entries_sorted {V} (m : list (jsstr * V)) : StronglySorted entry_le (sort_entries m).
Proof. apply (StronglySorted_merge_sort _ m). Qed.

Lemma map_wf_perm {V} (a b : list (jsstr * V)) : a ≡ₚ b -> map_wf a -> map_wf b.
Proof. unfold map_wf, map_keys. intros Hp. by rewrite Hp. Qed.

(** Distinct paths have one sorted order. *)
Lemma sort_entries_unique {V} (a b : list (jsstr * V)) :
  map_wf a -> a ≡ₚ b -> sort_entries a = sort_entries b.
Proof.
  intros Hwf Hp. eapply StronglySorted_unique_strong; [|apply sort_entries_sorted..|].
  - intros [k1 v1] [k2 v2] H1 H2. unfold entry_le. rewrite !comparePath_le. simpl. intros Hle1 Hle2.
    assert (k1 = k2) as -> by by apply (anti_symm str_le).
    rewrite sort_entries_perm in H1. rewrite sort_entries_perm, <- Hp in H2.
    pose proof (map_wf_get _ _ _ Hwf H1). pose proof (map_wf_get _ _ _ Hwf H2). congruence.
  - by rewrite !sort_entries_perm.
Qed.

(** ** [splitTarPath] splits the path at a separator and respects the field widths *)
Definition joined (name prefix : jsstr) : jsstr :=
  if streq prefix [] then name else prefix ++ js "/" ++ name.

Lemma split_loop_spec parts indices name prefix :
  Forall (fun i => 0 < i < length parts)%nat indices ->
  split_loop parts indices = Ok (name, prefix) ->
  (exists i, (0 < i < length parts)%nat /\ name = join (js "/") (drop i parts) /\
             prefix = join (js "/") (take i parts)) /\
  zlen (utf8_encode name) <= 100 /\ zlen (utf8_encode prefix) <= 155.
Proof.
  induction 1 as [|i ix Hi _ IH]; simpl; [done|].
  destruct (_ && _) eqn:E; [|exact IH]. intros [= <- <-].
  rewrite andb_true_iff, !Z.leb_le in E. destruct E. split; [by exists i|lia].
Qed.

Lemma join_nil_head w ws : join (js "/") (w :: ws) = [] -> w = [].
Proof. destruct ws; simpl; [done|]. intros [? _]%app_nil. done. Qed.

Lemma splitTarPath_spec path name prefix :
  forallb safe_part (split_on SLASH path) = true ->
  splitTarPath path = Ok (name, prefix) ->
  joined name prefix = path /\ zlen (utf8_encode name) <= 100 /\ zlen (utf8_encode prefix) <= 155.
Proof.
  intros Hsafe. unfold splitTarPath. destruct (Z.leb_spec (zlen (utf8_encode path)) 100).
  { intros [= <- <-]. split_and!; [done|done|simpl; done]. }
  intros (Hi & ? & ?)%split_loop_spec; cycle 1.
  { apply Forall_forall. intros i Hi%list_elem_of_In%in_seq. lia. }
  split; [|done]. destruct Hi as (i & Hi & -> & ->).
  set (parts := split_on SLASH path) in *. unfold joined.
  assert (take i parts <> []) as Hne1.
  { intros E%(f_equal length). rewrite length_take in E. simpl in E. lia. }
  assert (drop i parts <> []) as Hne2.
  { intros E%(f_equal length). rewrite length_drop in E. simpl in E. lia. }
  rewrite (proj2 (streq_false _ _)).
  - rewrite <- join_app, take_drop by done. unfold parts. apply (join_split SLASH).
  - destruct parts as [|w ws]; [simpl in *; lia|]. destruct i as [|i]; [lia|]. cbn [take].
    intros ->%join_nil_head. simpl in Hsafe. done.
Qed.

(** ** Header fields: what each write changes *)
Definition wrote (t t' : bytes) (o n : Z) (c : bytes) : Prop :=
  zlen t' = zlen t /\
  slice t' o n = c ++ slice t (o + zlen c) (n - zlen c) /\
  forall o' n', 0 <= o' -> 0 <= n' -> o' + n' <= zlen t -> o' + n' <= o \/ o + n <= o' ->
    slice t' o' n' = slice t o' n'.

Lemma wrote_set t o n c :
  0 <= o -> zlen c <= n -> o + n <= zlen t -> wrote t (set_bytes t o c) o n c.
Proof.
  intros. zl_pose. split_and!.
  - apply zlen_set_bytes; lia.
  - by apply slice_set_same.
  - intros. apply slice_set_disjoint; lia.
Qed.

Lemma writeTarText_wrote t o n v t' :
  0 <= o -> o + n <= zlen t -> writeTarText t o n v = Ok t' ->
  wrote t t' o n (utf8_encode v) /\ zlen (utf8_encode v) <= n.
Proof.
  intros ? ?. unfold writeTarText. destruct (Z.ltb_spec n (zlen (utf8_encode v))); [done|].
  intros [= <-]. split; [|lia]. apply wrote_set; lia.
Qed.

Definition octal_field (len value : Z) : jsstr := pad_start (len - 1) (to_radix 8 value).

Lemma octal_field_digits len value :
  0 <= value -> Forall (fun c => is_digit_of 8 c = true) (octal_field len value).
Proof.
  intros. apply Forall_app. split; [by apply Forall_replicate|]. by apply to_radix_digits.
Qed.

Lemma writeTarOctal_wrote t o n v t' :
  0 <= v -> 0 <= o -> o + n <= zlen t -> writeTarOctal t o n v = Ok t' ->
  wrote t t' o n (octal_field n v) /\ zlen (octal_field n v) = n - 1.
Proof.
  intros Hv ? ?. unfold writeTarOctal. fold (octal_field n v).
  destruct (Z.eqb_spec (zlen (octal_field n v)) (n - 1)) as [E|]; simpl; [|done].
  intros [Hw _]%writeTarText_wrote; [|done..].
  rewrite utf8_encode_ascii in Hw; [done|]. eapply digits_ascii, octal_field_digits. done.
Qed.

Lemma to_radix_ascii n : is_ascii (to_radix 8 n) = true.
Proof.
  unfold to_radix. destruct (Z.ltb_spec n 0); [|eapply (digits_ascii 8)].
  - unfold is_ascii. cbn [forallb]. eapply (digits_ascii 8), radix_digits_forall; [lia..|constructor].
  - apply radix_digits_forall; [lia..|constructor].
Qed.

Lemma writeTarChecksum_wrote t v t' :
  156 <= zlen t -> writeTarChecksum t v = Ok t' ->
  wrote t t' 148 8 (pad_start 6 (to_radix 8 v) ++ [0; 32]).
Proof.
  intros ?. unfold writeTarChecksum.
  destruct (Z.eqb_spec (zlen (pad_start 6 (to_radix 8 v))) 6) as [E|]; simpl; [|done].
  intros [= <-]. rewrite utf8_encode_ascii.
  - apply wrote_set; zlia.
  - unfold is_ascii, pad_start. rewrite !forallb_app, !andb_true_iff. split_and!; [|apply to_radix_ascii|done].
    apply forallb_forall. by intros x [-> _]%list_elem_of_In%elem_of_replicate.
Qed.

(** ** Reading a field back *)
Lemma find_index_app_stop v c r i :
  v ∉ c -> find_index v (c ++ v :: r) i = i + zlen c.
Proof.
  revert i; induction c as [|x c IH]; intros i Hv; simpl; [rewrite Z.eqb_refl; zlia|].
  rewrite not_elem_of_cons in Hv. destruct Hv as [Hne Hv].
  rewrite (proj2 (Z.eqb_neq x v)) by congruence. rewrite IH by done. zlia.
Qed.

Lemma find_index_ge v l i : find_index v l i = -1 \/ i <= find_index v l i.
Proof.
  revert i; induction l as [|x l IH]; intros i; simpl; [by left|].
  destruct (x =? v); [right; lia|]. destruct (IH (i + 1)); [by left|right; lia].
Qed.

Lemma find_index_app_skip v c r i :
  v ∉ c -> find_index v (c ++ r) i = find_index v r (i + zlen c).
Proof.
  revert i; induction c as [|x c IH]; intros i Hv; simpl; [f_equal; zlia|].
  rewrite not_elem_of_cons in Hv. destruct Hv as [Hne Hv].
  rewrite (proj2 (Z.eqb_neq x v)) by congruence. rewrite IH by done. f_equal; zlia.
Qed.

Lemma zeros_cons n : 0 < n -> zeros n = 0 :: zeros (n - 1).
Proof. intros. unfold zeros. by replace (Z.to_nat n) with (S (Z.to_nat (n - 1))) by lia. Qed.

(** A field that holds [c] padded with zeros reads as [c], decoded. *)
Lemma tarText_field h o n c s :
  0 <= o -> o + n <= zlen h -> zlen c <= n -> 0 ∉ c ->
  slice h o n = c ++ zeros (n - zlen c) -> text_decode c = Some s ->
  tarText h o n = Ok s.
Proof.
  intros Ho Hfit Hc Hz Hs Hdec. unfold tarText. zl_pose.
  set (stop := index_of h 0 o).
  assert (zdrop o h = c ++ zeros (n - zlen c) ++ zdrop (o + n) h) as Hd.
  { rewrite app_assoc, <- Hs. unfold slice. rewrite <- zdrop_zdrop by lia. by rewrite ztake_zdrop. }
  assert ((if (stop =? -1) || (o + n <? stop) then o + n else stop) = o + zlen c) as ->.
  { unfold stop, index_of. rewrite Hd.
    destruct (Z.eq_dec (zlen c) n) as [E|].
    - replace (n - zlen c) with 0 by lia. change (zeros 0) with (@nil Z). cbn [app].
      rewrite find_index_app_skip, E by done.
      destruct (find_index_ge 0 (zdrop (o + n) h) (o + n)) as [->|Hge]; [done|].
      set (i := find_index _ _ _) in *.
      destruct (Z.eqb_spec i (-1)), (Z.ltb_spec (o + n) i); simpl; lia.
    - rewrite zeros_cons by lia. cbn [app]. rewrite find_index_app_stop by done.
      destruct (Z.eqb_spec (o + zlen c) (-1)), (Z.ltb_spec (o + n) (o + zlen c)); simpl; lia. }
  assert (subarray h o (o + zlen c) = c) as ->; [|by rewrite Hdec].
  unfold subarray. rewrite Hd. apply ztake_app_exact. lia.
Qed.

Lemma octal_digit_of c : is_digit_of 8 c = true -> octal_digit c = true.
Proof.
  unfold is_digit_of, octal_digit, rng, digit_value. change (ch "0") with 48. change (ch "7") with 55.
  rewrite !andb_true_iff, orb_true_iff, !andb_true_iff, !Z.leb_le, !Z.ltb_lt.
  destruct (Z.ltb_spec c 58), (Z.ltb_spec c 91); lia.
Qed.

Lemma octal_field_value len v : 0 <= v -> parse_radix 8 (octal_field len v) = v.
Proof. intros. unfold octal_field. rewrite parse_pad_start. apply parse_to_radix; lia. Qed.

Lemma octal_field_nonempty len v : octal_field len v <> [].
Proof. unfold octal_field, pad_start. intros [_ E]%app_nil. by apply to_radix_nonempty in E. Qed.

Lemma digits_no_zero base s : Forall (fun c => is_digit_of base c = true) s -> 0 ∉ s.
Proof. intros H Hin. rewrite Forall_forall in H. specialize (H 0 Hin). done. Qed.

Lemma parseTarOctal_field h o n v :
  0 <= v -> is_safe v = true -> 0 <= o -> o + n <= zlen h ->
  zlen (octal_field n v) = n - 1 -> slice h o n = octal_field n v ++ [0] ->
  parseTarOctal h o n = Ok v.
Proof.
  intros Hv Hsafe Ho Hfit Hlen Hs. unfold parseTarOctal.
  pose proof (octal_field_digits n v Hv) as Hd.
  rewrite (tarText_field h o n (octal_field n v) (octal_field n v)); try lia.
  - simpl. rewrite trim_id by (eapply Forall_impl; [exact Hd|]; apply digit_not_space).
    rewrite (proj2 (matches_plus_cls _ _)); simpl.
    + by rewrite octal_field_value, Hsafe by done.
    + split; [|apply octal_field_nonempty]. eapply Forall_impl; [exact Hd|]. apply octal_digit_of.
  - by eapply digits_no_zero.
  - rewrite Hs. do 2 f_equal. rewrite Hlen. by replace (n - (n - 1)) with 1 by lia.
  - by eapply text_decode_ascii, digits_ascii.
Qed.

(** ** The header of an entry, field by field *)
Definition header_fields (h : bytes) (name prefix : jsstr) (f : file) : Prop :=
  zlen h = 512 /\
  slice h 0 100 = utf8_encode name ++ zeros (100 - zlen (utf8_encode name)) /\
  slice h 345 155 = utf8_encode prefix ++ zeros (155 - zlen (utf8_encode prefix)) /\
  (zlen (octal_field 8 (f_mode f)) = 7 /\ slice h 100 8 = octal_field 8 (f_mode f) ++ [0]) /\
  (zlen (octal_field 12 (zlen (f_bytes f))) = 11 /\
   slice h 124 12 = octal_field 12 (zlen (f_bytes f)) ++ [0]) /\
  slice h 257 6 = js "ustar" ++ [0] /\
  slice h 156 1 = [0x30].

(** Peel the writes off a field that they do not touch. *)
Ltac through_writes :=
  repeat match goal with
  | W : wrote _ ?t' _ _ _ |- context [slice ?t' _ _] =>
      rewrite (proj2 (proj2 W)) by lia
  end.

Ltac field_written W :=
  rewrite (proj1 (proj2 W)); zl_pose; through_writes; rewrite slice_zeros by zlia.

Ltac write_lengths :=
  repeat match goal with
  | W : wrote ?t ?t' _ _ _ |- _ =>
      lazymatch goal with
      | _ : zlen t' = 512 |- _ => fail
      | _ : zlen t = 512 |- _ => assert (zlen t' = 512) by (destruct W as [-> _]; assumption)
      end
  end.


Lemma tarHeader_fields path f h name prefix :
  0 <= f_mode f -> splitTarPath path = Ok (name, prefix) -> tarHeader path f = Ok h ->
  header_fields h name prefix f.
Proof.
  intros Hmode Hsplit Hh. unfold tarHeader in Hh.
  apply bind_ok in Hh as ([name' prefix'] & E & Hh). rewrite Hsplit in E. injection E as <- <-.
  apply bind_ok in Hh as (h1 & H1 & Hh). apply bind_ok in Hh as (h2 & H2 & Hh).
  apply bind_ok in Hh as (h3 & H3 & Hh). apply bind_ok in Hh as (h4 & H4 & Hh).
  apply bind_ok in Hh as (h5 & H5 & Hh). apply bind_ok in Hh as (h6 & H6 & Hh).
  apply bind_ok in Hh as (h9 & H9 & Hh). apply bind_ok in Hh as (h10 & H10 & Hh).
  apply bind_ok in Hh as (h11 & H11 & Hh). apply bind_ok in Hh as (h12 & H12 & Hh).
  apply bind_ok in Hh as (h13 & H13 & H14).
  pose proof (zlen_nonneg (f_bytes f)).
  assert (zlen (zeros 512) = 512) as L0 by done.
  apply writeTarText_wrote in H1 as [W1 B1]; [|lia..]. write_lengths.
  apply writeTarOctal_wrote in H2 as [W2 B2]; [|lia..]. write_lengths.
  apply writeTarOctal_wrote in H3 as [W3 B3]; [|lia..]. write_lengths.
  apply writeTarOctal_wrote in H4 as [W4 B4]; [|lia..]. write_lengths.
  apply writeTarOctal_wrote in H5 as [W5 B5]; [|lia..]. write_lengths.
  apply writeTarOctal_wrote in H6 as [W6 B6]; [|lia..]. write_lengths.
  set (h7 := set_bytes h6 148 (replicate 8 0x20)) in *.
  assert (wrote h6 h7 148 8 (replicate 8 0x20)) as W7 by (apply wrote_set; zlia). write_lengths.
  set (h8 := set_bytes h7 156 [0x30]) in *.
  assert (wrote h7 h8 156 1 [0x30]) as W8 by (apply wrote_set; zlia). write_lengths.
  apply writeTarText_wrote in H9 as [W9 B9]; [|lia..]. write_lengths.
  apply writeTarText_wrote in H10 as [W10 B10]; [|lia..]. write_lengths.
  apply writeTarText_wrote in H11 as [W11 B11]; [|lia..]. write_lengths.
  apply writeTarText_wrote in H12 as [W12 B12]; [|lia..]. write_lengths.
  apply writeTarText_wrote in H13 as [W13 B13]; [|lia..]. write_lengths.
  apply writeTarChecksum_wrote in H14 as W14; [|lia]. write_lengths.
  assert (zlen (utf8_encode (js "ustar")) = 5) as L9 by done.
  assert (zlen [0x30] = 1) as L8 by done.
  unfold header_fields. split_and!; try done; through_writes.
  - by field_written W1.
  - by field_written W13.
  - field_written W2. by rewrite B2.
  - field_written W5. by rewrite B5.
  - field_written W9. by rewrite L9.
  - field_written W8. by rewrite L8.
Qed.

(** ** Paths a ustar header can carry faithfully

    No NUL, no lone surrogate, and no component that starts with a byte order
    mark (the decoder would drop it). *)
Definition tar_clean (path : jsstr) : bool :=
  safeOutputPath path && well_formed path && negb (includes_char 0 path) &&
  forallb (fun part => negb (has_bom part)) (split_on SLASH path).

Lemma has_bom_split s :
  forallb (fun part => negb (has_bom part)) (split_on SLASH s) = true -> has_bom s = false.
Proof.
  destruct s as [|c t]; [done|]. cbn [split_on].
  destruct (Z.eqb_spec c SLASH) as [->|]; [done|].
  destruct (split_on_cons SLASH t) as (w & ws & ->). cbn [forallb has_bom].
  rewrite andb_true_iff, negb_true_iff. tauto.
Qed.

Lemma well_formed_app_slash a b :
  well_formed (a ++ SLASH :: b) = true -> well_formed a = true /\ well_formed b = true.
Proof.
  induction a as [a IH] using (induction_ltof1 _ (@length Z)). unfold ltof in IH.
  destruct a as [|c t]; [done|]. cbn [app well_formed].
  destruct (is_high c) eqn:Hh.
  - destruct t as [|d t]; cbn [app]; [done|]. rewrite andb_true_iff. intros [-> Ht].
    apply IH in Ht; [done|simpl; lia].
  - rewrite !andb_true_iff. intros [? Ht]. apply IH in Ht; [|simpl; lia]. tauto.
Qed.

Lemma tar_clean_parts path name prefix :
  tar_clean path = true -> joined name prefix = path ->
  (well_formed name = true /\ has_bom name = false /\ 0 ∉ name) /\
  (well_formed prefix = true /\ has_bom prefix = false /\ 0 ∉ prefix).
Proof.
  unfold tar_clean, joined. rewrite !andb_true_iff, negb_true_iff, includes_char_false.
  intros [[[_ Hwf] Hz] Hbom]. destruct (streq prefix []) eqn:E.
  - apply streq_true in E. intros ->. subst prefix. apply has_bom_split in Hbom.
    split_and!; try done. apply not_elem_of_nil.
  - change (js "/" ++ name) with (SLASH :: name). intros <-.
    apply well_formed_app_slash in Hwf as [? ?].
    rewrite split_on_app_sep, forallb_app, andb_true_iff in Hbom. destruct Hbom as [Hb1 Hb2].
    apply has_bom_split in Hb1, Hb2.
    rewrite not_elem_of_app, not_elem_of_cons in Hz. tauto.
Qed.

Lemma tar_clean_safe path : tar_clean path = true -> safeOutputPath path = true.
Proof. unfold tar_clean. rewrite !andb_true_iff. tauto. Qed.

(** ** The body [packageTar] writes *)
Fixpoint tar_blocks (entries : list (jsstr * file)) (body : bytes) : Prop :=
  match entries with
  | [] => body = []
  | (path, f) :: rest => exists header body',
      tarHeader path f = Ok header /\
      body = header ++ f_bytes f ++ zeros (tar_padding (zlen (f_bytes f))) ++ body' /\
      tar_blocks rest body'
  end.

Lemma tar_padding_bounds n : 0 <= n -> 0 <= tar_padding n < 512 /\ (n + tar_padding n) mod 512 = 0.
Proof.
  intros. unfold tar_padding. pose proof (Z.mod_pos_bound n 512).
  destruct (Z.eq_dec (n mod 512) 0) as [E|E].
  - rewrite E. change ((512 - 0) mod 512) with 0. rewrite Z.add_0_r. lia.
  - rewrite (Z.mod_small (512 - _)) by lia. split; [lia|].
    replace (n + (512 - n mod 512)) with ((n / 512 + 1) * 512) by (pose proof (Z_div_mod_eq_full n 512); lia).
    apply Z.mod_mul. lia.
Qed.

Lemma tarHeader_length path f h : 0 <= f_mode f -> tarHeader path f = Ok h -> zlen h = 512.
Proof.
  intros Hm Hh. destruct (splitTarPath path) as [[n p]|] eqn:E.
  - by destruct (tarHeader_fields _ _ _ _ _ Hm E Hh).
  - unfold tarHeader in Hh. by rewrite E in Hh.
Qed.

Lemma tar_loop_spec entries chunks total chunks' total' :
  Forall (fun e => 0 <= f_mode e.2) entries ->
  tar_loop entries chunks total = Ok (chunks', total') ->
  exists body, tar_blocks entries body /\ concat chunks' = concat chunks ++ body /\
    total' = total + zlen body.
Proof.
  intros Hm. revert chunks total. induction Hm as [|[path f] entries Hf Hm IH]; intros chunks total; simpl.
  - intros [= <- <-]. exists []. split_and!; [done|by rewrite app_nil_r|zlia].
  - intros (h & Hh & Hl)%bind_ok. destruct (_ <? _); [done|].
    apply IH in Hl as (body & Hb & Hc & Ht).
    exists (h ++ f_bytes f ++ zeros (tar_padding (zlen (f_bytes f))) ++ body). split_and!.
    + eauto.
    + rewrite Hc, concat_app. simpl. by rewrite app_nil_r, <- !app_assoc.
    + pose proof (zlen_nonneg (f_bytes f)). pose proof (tar_padding_bounds (zlen (f_bytes f))).
      pose proof (tarHeader_length _ _ _ Hf Hh).
      rewrite !zlen_app, zlen_zeros by lia. lia.
Qed.

Lemma tar_blocks_length entries body :
  Forall (fun e => validOutputMode (f_mode e.2) = true) entries -> tar_blocks entries body ->
  512 * zlen entries <= zlen body.
Proof.
  intros Hm. revert body. induction Hm as [|[path f] entries Hf Hm IH]; intros body; simpl.
  - intros ->. done.
  - intros (h & body' & Hh & -> & Hb). apply IH in Hb.
    apply tarHeader_length in Hh; [|by apply validOutputMode_nonneg].
    zlia.
Qed.

Lemma packageTar_spec files tar :
  Forall (fun e => 0 <= f_mode e.2) files -> packageTar files = Ok tar ->
  exists body, tar_blocks (sort_entries files) body /\ tar = body ++ zeros 1024 /\
    zlen tar <= maxPackageTarBytes.
Proof.
  intros Hm. unfold packageTar. intros ([chunks total] & Hl & Ht)%bind_ok.
  destruct (Z.ltb_spec maxPackageTarBytes (total + 1024)); [done|]. injection Ht as <-.
  apply tar_loop_spec in Hl as (body & Hb & Hc & ->).
  - exists body. split; [done|].
    assert (concat (chunks ++ [zeros 1024]) = body ++ zeros 1024) as E.
    { rewrite concat_app, Hc. cbn [concat]. by rewrite app_nil_r, app_nil_l. }
    rewrite concatenate_concat, E.
    + split; [done|]. rewrite zlen_app, zlen_zeros by lia. lia.
    + rewrite E, zlen_app, zlen_zeros by lia. lia.
  - by rewrite sort_entries_perm.
Qed.

(** ** Reading one entry *)
Section unpack_proofs.
Context `{Sha256}.

Definition unpacked_of (f : file) : unpacked :=
  mkUnpacked (f_bytes f) (sha256 (f_bytes f)) (zlen (f_bytes f)) (f_mode f).

Lemma all_zero_slice b o n : all_zero b = true -> all_zero (slice b o n) = true.
Proof.
  unfold all_zero, slice. rewrite ztake_take, zdrop_drop, !forallb_forall.
  intros Hb x Hx. apply Hb. apply list_elem_of_In. apply list_elem_of_In in Hx.
  apply elem_of_take in Hx as (i & Hi & _). rewrite lookup_drop in Hi.
  by eapply list_elem_of_lookup_2.
Qed.

Lemma all_zero_zeros n : all_zero (zeros n) = true.
Proof. apply forallb_forall. by intros x [-> _]%list_elem_of_In%elem_of_replicate. Qed.

Lemma byte_at_slice b i x : slice b i 1 = [x] -> byte_at b i = x.
Proof.
  unfold slice, byte_at. destruct (zdrop i b) as [|y l]; [done|]. simpl. by intros [= ->].
Qed.

(** What the reader sees in the header of a clean entry. *)
Lemma header_reads path f header name prefix :
  tar_clean path = true -> validOutputMode (f_mode f) = true ->
  splitTarPath path = Ok (name, prefix) -> tarHeader path f = Ok header ->
  is_safe (zlen (f_bytes f)) = true ->
  zlen header = 512 /\ all_zero header = false /\ byte_at header 156 = 0x30 /\
  tarText header 257 6 = Ok (js "ustar") /\
  tarText header 0 100 = Ok name /\ tarText header 345 155 = Ok prefix /\
  parseTarOctal header 124 12 = Ok (zlen (f_bytes f)) /\
  parseTarOctal header 100 8 = Ok (f_mode f) /\ joined name prefix = path.
Proof.
  intros Hclean Hmode Esplit Hh Hsize.
  assert (0 <= f_mode f /\ is_safe (f_mode f) = true) as [Hm0 Hms]
    by (apply validOutputMode_cases in Hmode as [-> | ->]; done).
  destruct (splitTarPath_spec path name prefix) as (Hjoin & Hn & Hp); [|done|].
  { eapply safe_relative_parts, tar_clean_safe, Hclean. }
  destruct (tar_clean_parts _ _ _ Hclean Hjoin) as [(Hnw & Hnb & Hnz) (Hpw & Hpb & Hpz)].
  destruct (tarHeader_fields _ _ _ _ _ Hm0 Esplit Hh) as
    (Hlen & Hname & Hprefix & [Hml Hms'] & [Hsl Hss] & Hmagic & Hkind).
  split_and!; try done.
  - apply not_true_iff_false. intros Hz%(all_zero_slice _ 156 1). by rewrite Hkind in Hz.
  - by apply byte_at_slice.
  - apply (tarText_field header 257 6 (js "ustar")); try done; [lia|by apply includes_char_false].
  - apply (tarText_field header 0 100 (utf8_encode name)); try lia; try done;
      [by apply utf8_encode_no_zero|by apply text_roundtrip].
  - apply (tarText_field header 345 155 (utf8_encode prefix)); try lia; try done;
      [by apply utf8_encode_no_zero|by apply text_roundtrip].
  - apply parseTarOctal_field; try lia; try done. apply zlen_nonneg.
  - apply parseTarOctal_field; try lia; done.
Qed.

(** One turn of the loop over the block of a clean entry. *)
Lemma untar_step fuel pre header f path rest files :
  let tar := pre ++ header ++ f_bytes f ++ zeros (tar_padding (zlen (f_bytes f))) ++ rest in
  tar_clean path = true -> validOutputMode (f_mode f) = true ->
  tarHeader path f = Ok header -> map_get path files = None ->
  zlen tar <= maxPackageTarBytes ->
  untar_loop (S fuel) tar (zlen pre) files =
  untar_loop fuel tar
    (zlen pre + 512 + zlen (f_bytes f) + tar_padding (zlen (f_bytes f)))
    (map_set path (unpacked_of f) files).
Proof.
  intros tar Hclean Hmode Hh Hnew Hmax.
  destruct (splitTarPath path) as [[name prefix]|] eqn:Esplit;
    [|by unfold tarHeader in Hh; rewrite Esplit in Hh].
  pose proof (zlen_nonneg (f_bytes f)) as Hfb. pose proof (zlen_nonneg pre). pose proof (zlen_nonneg rest).
  pose proof (tar_padding_bounds (zlen (f_bytes f)) Hfb) as [Hpad _].
  assert (zlen header = 512) as Hlen.
  { eapply tarHeader_length; [|done]. by apply validOutputMode_nonneg. }
  assert (zlen tar = zlen pre + 512 + zlen (f_bytes f) + tar_padding (zlen (f_bytes f)) + zlen rest) as Htar.
  { unfold tar. rewrite !zlen_app, zlen_zeros by lia. lia. }
  assert (is_safe (zlen (f_bytes f)) = true) as Hsafe.
  { apply is_safe_spec. unfold maxPackageTarBytes, MAX_SAFE_INTEGER in *. lia. }
  destruct (header_reads path f header name prefix) as
    (_ & Hnz & Hkind & Hmagic & Hname & Hprefix & Hsize & Hmd & Hjoin); try done.
  cbn [untar_loop]. rewrite (proj2 (Z.leb_le _ _)) by lia.
  assert (subarray tar (zlen pre) (zlen pre + 512) = header) as ->.
  { unfold subarray, tar. rewrite zdrop_app_exact by done. apply ztake_app_exact. lia. }
  assert (subarray tar (zlen pre + 512) (zlen pre + 512 + zlen (f_bytes f)) = f_bytes f) as Hdata.
  { unfold subarray, tar. rewrite app_assoc, zdrop_app_exact by zlia. apply ztake_app_exact. lia. }
  rewrite Hnz, Hmagic, Hkind. cbn [mbind res_bind]. rewrite streq_refl. cbn [negb orb andb Z.eqb Pos.eqb].
  rewrite Hname, Hprefix, Hsize, Hmd. cbn [mbind res_bind].
  fold (joined name prefix). rewrite Hjoin, (tar_clean_safe _ Hclean), Hsafe, Hmode, Hdata.
  unfold map_has. rewrite Hnew, (proj2 (Z.ltb_ge _ _)) by lia.
  rewrite bool_decide_eq_false_2 by (by intros []). done.
Qed.

(** The whole archive, entry by entry. *)
Lemma untar_blocks entries body pre files fuel :
  tar_blocks entries body ->
  Forall (fun e => tar_clean e.1 = true /\ validOutputMode (f_mode e.2) = true) entries ->
  map_wf entries -> (forall k, k ∈ map_keys entries -> map_get k files = None) ->
  zlen (pre ++ body ++ zeros 1024) <= maxPackageTarBytes ->
  (length entries < fuel)%nat ->
  untar_loop fuel (pre ++ body ++ zeros 1024) (zlen pre) files =
  Ok (files ++ map (fun e => (e.1, unpacked_of e.2)) entries).
Proof.
  revert body pre files fuel.
  induction entries as [|[path f] entries IH]; intros body pre files fuel Hb Hc Hwf Hnew Hmax Hfuel;
    (destruct fuel as [|fuel]; [simpl in *; lia|]).
  - simpl in Hb. subst body. rewrite app_nil_l in *. cbn [untar_loop].
    assert (zlen (pre ++ zeros 1024) = zlen pre + 1024) as Hlen
      by (rewrite zlen_app, zlen_zeros by lia; done).
    rewrite Hlen, (proj2 (Z.leb_le _ _)) by lia.
    unfold subarray. rewrite !zdrop_app, !(zdrop_ge _ pre) by lia. cbn [app].
    rewrite !zdrop_zeros, !ztake_zeros, !all_zero_zeros by lia.
    rewrite Z.eqb_refl. cbn [negb orb map]. by rewrite app_nil_r.
  - destruct Hb as (header & body' & Hh & -> & Hb). rewrite Forall_cons in Hc.
    destruct Hc as [[Hcl Hm] Hc]. simpl in Hcl, Hm. unfold map_wf, map_keys in Hwf. simpl in Hwf.
    rewrite NoDup_cons in Hwf. destruct Hwf as [Hnin Hwf].
    rewrite <- !app_assoc in Hmax |- *.
    rewrite (untar_step _ _ _ _ path); try done; [|apply Hnew; left].
    set (pre' := pre ++ header ++ f_bytes f ++ zeros (tar_padding (zlen (f_bytes f)))).
    assert (0 <= f_mode f) as Hm0 by (by apply validOutputMode_nonneg).
    pose proof (tarHeader_length _ _ _ Hm0 Hh) as Hlen.
    pose proof (tar_padding_bounds _ (zlen_nonneg (f_bytes f))) as [Hpad _].
    assert (zlen pre' = zlen pre + 512 + zlen (f_bytes f) + tar_padding (zlen (f_bytes f))) as <-.
    { unfold pre'. rewrite !zlen_app, zlen_zeros by lia. lia. }
    replace (pre ++ header ++ f_bytes f ++ zeros (tar_padding (zlen (f_bytes f))) ++ body' ++ zeros 1024)
      with (pre' ++ body' ++ zeros 1024) in * by (unfold pre'; by rewrite <- !app_assoc).
    rewrite IH; try done; [| |simpl in *; lia].
    + rewrite map_set_fresh by (apply Hnew; left). by rewrite <- app_assoc.
    + intros k Hk. rewrite map_get_set_ne; [apply Hnew; by right|].
      intros ->. by apply Hnin.
Qed.

(** Reading a packaged archive gives the files back, in path order. *)
Lemma unpackTar_packageTar files tar :
  map_wf files ->
  Forall (fun e => tar_clean e.1 = true /\ validOutputMode (f_mode e.2) = true) files ->
  packageTar files = Ok tar ->
  unpackTar tar = Ok (map (fun e => (e.1, unpacked_of e.2)) (sort_entries files)).
Proof.
  intros Hwf Hc Hp. pose proof (sort_entries_perm files) as Hperm.
  apply packageTar_spec in Hp as (body & Hb & -> & Hmax).
  - apply (untar_blocks (sort_entries files) body [] []); try done.
    + by rewrite Hperm.
    + by eapply map_wf_perm.
    + apply tar_blocks_length in Hb; [|rewrite Hperm; eapply Forall_impl; [done|]; intros e [_ Hm]; done].
      unfold untar_fuel, zlen in *. rewrite length_app, Nat2Z.inj_add.
      Z.div_mod_to_equations. lia.
  - eapply Forall_impl; [done|]. intros e [_ Hm]. by apply validOutputMode_nonneg.
Qed.
End unpack_proofs.

(** ** The frame: a sequence of raw blocks *)
Definition block_header (size last : Z) : bytes :=
  let header := js_or (js_shl size 3) last in
  [js_and header 0xff; js_and (js_ushr header 8) 0xff; js_and (js_ushr header 16) 0xff].

Inductive framed : bytes -> bytes -> Prop :=
  | framed_last r :
      0 < zlen r <= RAW_ZSTD_BLOCK_BYTES -> framed r (block_header (zlen r) 1 ++ r)
  | framed_more a r body :
      zlen a = RAW_ZSTD_BLOCK_BYTES -> framed r body ->
      framed (a ++ r) (block_header RAW_ZSTD_BLOCK_BYTES 0 ++ a ++ body).

Lemma framed_nonempty r body : framed r body -> 0 < zlen r.
Proof. induction 1; zlia. Qed.

(** A frame adds three bytes per block. *)
Lemma framed_length r body :
  framed r body ->
  zlen body = zlen r + 3 * ((zlen r - 1) / RAW_ZSTD_BLOCK_BYTES + 1).
Proof.
  induction 1 as [r Hr|a r body Ha Hf IH].
  - rewrite Z.div_small by lia. rewrite zlen_app. change (zlen (block_header _ _)) with 3. lia.
  - rewrite !zlen_app, IH, Ha. change (zlen (block_header _ _)) with 3.
    replace (RAW_ZSTD_BLOCK_BYTES + zlen r - 1) with (zlen r - 1 + 1 * RAW_ZSTD_BLOCK_BYTES) by lia.
    rewrite Z.div_add by done. lia.
Qed.

Lemma zstd_loop_spec fuel input offset chunks total :
  0 <= offset < zlen input -> zlen input - offset <= RAW_ZSTD_BLOCK_BYTES * Z.of_nat fuel ->
  exists body chunks', framed (zdrop offset input) body /\
    zstd_loop fuel input offset chunks total = Ok (chunks', total + zlen body) /\
    concat chunks' = concat chunks ++ body.
Proof.
  revert offset chunks total. induction fuel as [|fuel IH]; intros offset chunks total Ho Hf; [lia|].
  cbn [zstd_loop]. rewrite (proj2 (Z.ltb_lt _ _)) by lia.
  pose proof (zlen_zdrop offset input) as Hrem.
  destruct (Z.le_gt_cases (zlen input - offset) RAW_ZSTD_BLOCK_BYTES).
  - rewrite Z.min_r by lia. replace (offset + (zlen input - offset)) with (zlen input) by lia.
    rewrite Z.eqb_refl.
    exists (block_header (zlen (zdrop offset input)) 1 ++ zdrop offset input). eexists. split_and!.
    + constructor. lia.
    + assert (zlen (zdrop offset input) = zlen input - offset) as E by lia.
      destruct fuel; cbn [zstd_loop]; rewrite (proj2 (Z.ltb_ge _ _)) by (unfold RAW_ZSTD_BLOCK_BYTES in *; lia);
        rewrite zlen_app, E; reflexivity.
    + rewrite concat_app. cbn [concat]. rewrite app_nil_r. f_equal.
      replace (zlen (zdrop offset input)) with (zlen input - offset) by lia.
      unfold block_header. f_equal. unfold subarray. apply ztake_ge. lia.
  - rewrite Z.min_l by lia.
    rewrite (proj2 (Z.eqb_neq _ _)) by lia.
    edestruct (IH (offset + RAW_ZSTD_BLOCK_BYTES)) as (body & chunks' & Hfr & Hl & Hc);
      [unfold RAW_ZSTD_BLOCK_BYTES in *; lia..|].
    set (a := ztake RAW_ZSTD_BLOCK_BYTES (zdrop offset input)).
    assert (zlen a = RAW_ZSTD_BLOCK_BYTES) as Ha by (unfold a; rewrite zlen_ztake; lia).
    exists (block_header RAW_ZSTD_BLOCK_BYTES 0 ++ a ++ body), chunks'. split_and!.
    + rewrite <- (ztake_zdrop RAW_ZSTD_BLOCK_BYTES (zdrop offset input)). constructor; [done|].
      rewrite zdrop_zdrop by (done || lia). exact Hfr.
    + rewrite Hl. do 2 f_equal. rewrite !zlen_app, Ha. change (zlen (block_header _ _)) with 3. lia.
    + rewrite Hc, concat_app. cbn [concat]. rewrite app_nil_r, <- !app_assoc. do 2 f_equal.
      unfold subarray, a. f_equal. f_equal. lia.
Qed.

Definition frame_magic : bytes := [0x28; 0xb5; 0x2f; 0xfd; 0xa0].

(** [rawZstd] never fails on a non-empty input within the tar limit: the frame
    overhead fits the archive limit. *)
Lemma rawZstd_total input :
  0 < zlen input <= maxPackageTarBytes ->
  exists body, framed input body /\
    rawZstd input = Ok (frame_magic ++ littleEndian32 (zlen input) ++ body) /\
    9 + zlen body <= maxPackageArchiveBytes.
Proof.
  intros Hin. unfold rawZstd. rewrite (proj2 (Z.ltb_ge _ _)) by lia.
  set (first := [0x28; 0xb5; 0x2f; 0xfd; 0xa0] ++ littleEndian32 (zlen input)).
  assert (zlen first = 9) as Hfirst by done.
  destruct (zstd_loop_spec (zstd_fuel input) input 0 [first] (zlen first))
    as (body & chunks & Hfr & -> & Hc); [lia| |].
  { unfold zstd_fuel, RAW_ZSTD_BLOCK_BYTES. rewrite Z2Nat.id by (Z.div_mod_to_equations; lia).
    Z.div_mod_to_equations; lia. }
  rewrite zdrop_le0 in Hfr by lia. cbn [mbind res_bind].
  pose proof (framed_length _ _ Hfr) as Hlen.
  assert (9 + zlen body <= maxPackageArchiveBytes) as Hmax.
  { unfold maxPackageTarBytes, maxPackageArchiveBytes, RAW_ZSTD_BLOCK_BYTES in *.
    Z.div_mod_to_equations; lia. }
  exists body. split_and!; [done| |done].
  rewrite Hfirst, (proj2 (Z.ltb_ge _ _)) by lia.
  cbn [concat] in Hc. rewrite app_nil_r in Hc.
  rewrite concatenate_concat, Hc; [|rewrite Hc, zlen_app, Hfirst; lia].
  unfold first. by rewrite <- app_assoc.
Qed.

(** ** Reading a block header *)
Lemma block_header_value size last :
  0 <= size <= RAW_ZSTD_BLOCK_BYTES -> 0 <= last <= 1 ->
  block_header size last =
    let h := size * 8 + last in [h mod 256; h / 256 mod 256; h / 65536 mod 256].
Proof.
  intros Hs Hl. unfold RAW_ZSTD_BLOCK_BYTES in *. unfold block_header.
  assert (js_or (js_shl size 3) last = size * 8 + last) as ->.
  { rewrite js_or_comm, js_or_shl by lia. lia. }
  by rewrite !js_and_255, !js_ushr_div by lia.
Qed.

Lemma block_header_read h :
  0 <= h < 2 ^ 24 ->
  js_or (js_or (h mod 256) (js_shl (h / 256 mod 256) 8)) (js_shl (h / 65536 mod 256) 16) = h.
Proof.
  intros. pose proof (Z.mod_pos_bound h 256 eq_refl).
  pose proof (Z.mod_pos_bound (h / 256) 256 eq_refl).
  pose proof (Z.mod_pos_bound (h / 65536) 256 eq_refl).
  rewrite (js_or_shl (h mod 256)) by lia. rewrite js_or_shl by lia.
  replace (h / 65536) with (h / 256 / 256) by (by rewrite Z.div_div).
  set (q := h / 256). assert (h = 256 * q + h mod 256) by (unfold q; Z.div_mod_to_equations; lia).
  assert (q = 256 * (q / 256) + q mod 256) by (Z.div_mod_to_equations; lia).
  rewrite (Z.mod_small (q / 256)) by (unfold q; Z.div_mod_to_equations; lia). lia.
Qed.

Lemma byte_at_app_r a b i : 0 <= i -> byte_at (a ++ b) (zlen a + i) = byte_at b i.
Proof.
  intros. unfold byte_at. rewrite zdrop_app, zdrop_ge by lia. cbn [app].
  by replace (zlen a + i - zlen a) with i by lia.
Qed.

Lemma unzstd_block fuel pre size last data rest total chunks :
  0 <= size <= RAW_ZSTD_BLOCK_BYTES -> 0 <= last <= 1 -> zlen data = size ->
  let archive := pre ++ block_header size last ++ data ++ rest in
  unzstd_loop (S fuel) archive (zlen pre) total chunks =
  if last =? 1 then Ok (chunks ++ [data], zlen pre + 3 + size, total + size)
  else unzstd_loop fuel archive (zlen pre + 3 + size) (total + size) (chunks ++ [data]).
Proof.
  intros Hs Hl Hd archive. pose proof (zlen_nonneg pre). pose proof (zlen_nonneg rest).
  assert (zlen archive = zlen pre + 3 + size + zlen rest) as Hlen.
  { unfold archive. rewrite !zlen_app, Hd. change (zlen (block_header _ _)) with 3. lia. }
  assert (subarray archive (zlen pre + 3) (zlen pre + 3 + size) = data) as Hsub.
  { unfold subarray, archive. rewrite app_assoc, zdrop_app_exact.
    - apply ztake_app_exact. lia.
    - rewrite zlen_app. done. }
  cbn [unzstd_loop]. rewrite (proj2 (Z.ltb_ge _ _)) by lia.
  assert (js_or (js_or (byte_at archive (zlen pre)) (js_shl (byte_at archive (zlen pre + 1)) 8))
                (js_shl (byte_at archive (zlen pre + 2)) 16) = size * 8 + last) as ->.
  { replace (zlen pre) with (zlen pre + 0) at 1 by lia. unfold archive.
    rewrite !byte_at_app_r, block_header_value by lia. cbn zeta.
    unfold byte_at. cbn [app zdrop Z.leb Z.compare Z.sub Z.add Z.opp Z.pos_sub Pos.compare Pos.compare_cont Pos.pred_double].
    apply block_header_read. unfold RAW_ZSTD_BLOCK_BYTES in *. lia. }
  assert (js_and (size * 8 + last) 1 = last) as ->.
  { rewrite (js_and_mask _ 1) by lia. Z.div_mod_to_equations; lia. }
  assert (js_and (js_ushr (size * 8 + last) 1) 3 = 0) as ->.
  { rewrite (js_and_mask _ 2), js_ushr_div by (unfold RAW_ZSTD_BLOCK_BYTES in *; lia).
    replace (size * 8 + last) with (last + (size * 4) * 2 ^ 1) by lia.
    rewrite Z.div_add, (Z.div_small last), Z.add_0_l by lia.
    change (2 ^ 2) with 4. apply Z.mod_mul. lia. }
  assert (js_ushr (size * 8 + last) 3 = size) as ->.
  { rewrite js_ushr_div by (unfold RAW_ZSTD_BLOCK_BYTES in *; lia). change (2 ^ 3) with 8.
    Z.div_mod_to_equations; lia. }
  cbn [negb orb Z.eqb]. rewrite !(proj2 (Z.ltb_ge _ _)) by lia. cbn [orb]. by rewrite Hsub.
Qed.

(** Reading a frame gives its content back and stops at its end. *)
Lemma unzstd_framed r body :
  framed r body -> forall fuel pre total chunks, zlen body <= 3 * Z.of_nat fuel ->
  exists chunks', unzstd_loop fuel (pre ++ body) (zlen pre) total chunks =
    Ok (chunks', zlen (pre ++ body), total + zlen r) /\
    concat chunks' = concat chunks ++ r.
Proof.
  induction 1 as [r Hr|a r body Ha Hf IH]; intros fuel pre total chunks Hfuel;
    rewrite !zlen_app in Hfuel; change (zlen (block_header _ _)) with 3 in Hfuel;
    (destruct fuel as [|fuel]; [pose proof (zlen_nonneg (A:=Z)); zlia|]).
  - pose proof (unzstd_block fuel pre (zlen r) 1 r [] total chunks) as Hb.
    rewrite app_nil_r in Hb. rewrite Hb by lia. eexists. split.
    + rewrite !zlen_app. change (zlen (block_header _ _)) with 3. do 3 f_equal. lia.
    + rewrite concat_app. simpl. by rewrite app_nil_r.
  - rewrite unzstd_block by (unfold RAW_ZSTD_BLOCK_BYTES in *; lia). cbn [Z.eqb].
    set (pre' := pre ++ block_header RAW_ZSTD_BLOCK_BYTES 0 ++ a).
    assert (zlen pre' = zlen pre + 3 + RAW_ZSTD_BLOCK_BYTES) as <-.
    { unfold pre'. rewrite !zlen_app, Ha. change (zlen (block_header _ _)) with 3. lia. }
    replace (pre ++ block_header RAW_ZSTD_BLOCK_BYTES 0 ++ a ++ body) with (pre' ++ body)
      by (unfold pre'; by rewrite <- !app_assoc).
    destruct (IH fuel pre' (total + RAW_ZSTD_BLOCK_BYTES) (chunks ++ [a])) as (chunks' & -> & Hc);
      [unfold RAW_ZSTD_BLOCK_BYTES in *; zlia|].
    exists chunks'. split; [rewrite (zlen_app a r), Ha; do 2 f_equal; lia|].
    rewrite Hc, concat_app. simpl. by rewrite app_nil_r, <- app_assoc.
Qed.

Section main.
Context `{Sha256}.

(** What the reader accepts of a frame is the framed content. *)
Lemma unpack_rawZstd tar archive :
  0 < zlen tar -> rawZstd tar = Ok archive ->
  unpackDeterministicTarZst archive = unpackTar tar.
Proof.
  intros Hpos Hraw. destruct (Z.le_gt_cases (zlen tar) maxPackageTarBytes) as [Hle|Hgt];
    [|unfold rawZstd in Hraw; rewrite (proj2 (Z.ltb_lt _ _)) in Hraw by lia; done].
  destruct (rawZstd_total tar) as (body & Hfr & E & Hmax); [lia|].
  assert (archive = frame_magic ++ littleEndian32 (zlen tar) ++ body) as -> by congruence.
  clear Hraw E. pose proof (framed_length _ _ Hfr) as Hlen.
  set (archive := frame_magic ++ littleEndian32 (zlen tar) ++ body) in *.
  assert (zlen archive = 9 + zlen body) as Hal.
  { unfold archive. rewrite !zlen_app, zlen_littleEndian32. change (zlen frame_magic) with 5. lia. }
  assert (0 <= (zlen tar - 1) / RAW_ZSTD_BLOCK_BYTES) by (apply Z.div_pos; [lia|done]).
  unfold unpackDeterministicTarZst. rewrite !(proj2 (Z.ltb_ge _ _)) by lia.
  change (byte_at archive 0) with 0x28. change (byte_at archive 1) with 0xb5.
  change (byte_at archive 2) with 0x2f. change (byte_at archive 3) with 0xfd.
  change (byte_at archive 4) with 0xa0. cbn [negb orb Z.eqb Pos.eqb].
  assert (readLittleEndian32 archive 5 = zlen tar) as ->.
  { apply (read_littleEndian32 frame_magic). unfold maxPackageTarBytes in *. lia. }
  destruct (unzstd_framed _ _ Hfr (unzstd_fuel archive) (frame_magic ++ littleEndian32 (zlen tar)) 0 [])
    as (chunks & Hu & Hc).
  { unfold unzstd_fuel. rewrite Hal, Z2Nat.id by (Z.div_mod_to_equations; lia).
    Z.div_mod_to_equations; lia. }
  change (zlen (frame_magic ++ littleEndian32 (zlen tar))) with 9 in Hu.
  rewrite <- app_assoc in Hu. fold archive in Hu. rewrite Hu. cbn [mbind res_bind].
  rewrite Z.eqb_refl, Z.add_0_l, Z.eqb_refl. cbn [negb orb].
  rewrite concatenate_concat, Hc by (by rewrite Hc). done.
Qed.

Lemma packageTar_positive files tar :
  Forall (fun e => 0 <= f_mode e.2) files -> packageTar files = Ok tar -> 0 < zlen tar.
Proof.
  intros Hm Hp. apply packageTar_spec in Hp as (body & _ & -> & _); [|done].
  pose proof (zlen_nonneg body). rewrite zlen_app, zlen_zeros; lia.
Qed.
End main.

(** ** The unpacker on arbitrary input: soundness and termination *)
Abbreviation invalid_only := (only_throws (eq invalid_builder_output)).

Section reader.
Context `{Sha256}.

(** The condition every entry of an unpacked archive satisfies. *)
Definition unpacked_ok (path : jsstr) (u : unpacked) : Prop :=
  safeOutputPath path = true /\ validOutputMode (u_mode u) = true /\
  u_sha256 u = sha256 (u_bytes u) /\ u_sizeBytes u = zlen (u_bytes u).

Definition unpacked_files_ok (files : list (jsstr * unpacked)) : Prop :=
  map_wf files /\ Forall (fun e => unpacked_ok e.1 e.2) files.

Lemma parse_digits_nonneg s : forall acc,
  0 <= acc -> Forall (fun c => octal_digit c = true) s -> 0 <= parse_digits 8 acc s.
Proof.
  induction s as [|c s IH]; intros acc Ha Hf; [done|]. apply Forall_cons in Hf as [Hc Hf].
  apply IH; [|done]. unfold octal_digit, rng in Hc. rewrite andb_true_iff, !Z.leb_le in Hc.
  change (ch "0") with 48 in Hc. change (ch "7") with 55 in Hc.
  unfold digit_value. rewrite (proj2 (Z.ltb_lt _ _)) by lia. lia.
Qed.

(** The field readers fail with one code only. *)
Lemma tarText_throws h o n e : tarText h o n = Throw e -> e = invalid_builder_output.
Proof. unfold tarText. destruct (text_decode _); by intros [=]. Qed.

Lemma parseTarOctal_cases h o n :
  parseTarOctal h o n = Throw invalid_builder_output \/
  exists v, parseTarOctal h o n = Ok v /\ 0 <= v.
Proof.
  unfold parseTarOctal. destruct (tarText h o n) as [raw|e] eqn:Er; cbn [mbind res_bind];
    [|left; by rewrite (tarText_throws _ _ _ _ Er)].
  destruct (matches _ (trim raw)) eqn:E; cbn [negb]; [|by left].
  destruct (negb (is_safe _)); [by left|right]. eexists; split; [done|].
  apply matches_plus_cls in E as [E _]. by apply parse_digits_nonneg.
Qed.

(** One turn of the loop: it fails, it stops at the end marker, or it adds one
    checked file and moves on by at least a header. *)
Lemma untar_turn fuel tar offset files :
  0 <= offset -> unpacked_files_ok files ->
  let r := untar_loop (S fuel) tar offset files in
  r = Throw invalid_builder_output \/ r = Ok files \/
  exists offset' files', offset + 512 <= offset' /\ offset + 512 <= zlen tar /\
    unpacked_files_ok files' /\ r = untar_loop fuel tar offset' files'.
Proof.
  intros Ho [Hwf Hok]. cbn [untar_loop].
  destruct (Z.leb_spec (offset + 512) (zlen tar)); [|by left].
  destruct (all_zero _); [destruct (_ || _); [by left|by right; left]|].
  set (header := subarray tar offset (offset + 512)).
  destruct (tarText header 257 6) as [magic|e] eqn:Em; cbn [mbind res_bind];
    [|left; by rewrite (tarText_throws _ _ _ _ Em)].
  destruct (_ || _); [by left|].
  destruct (tarText header 0 100) as [name|e] eqn:En; cbn [mbind res_bind];
    [|left; by rewrite (tarText_throws _ _ _ _ En)].
  destruct (tarText header 345 155) as [prefix|e] eqn:Ep; cbn [mbind res_bind];
    [|left; by rewrite (tarText_throws _ _ _ _ Ep)].
  destruct (parseTarOctal_cases header 124 12) as [->|(size & -> & Hsize)]; [by left|].
  destruct (parseTarOctal_cases header 100 8) as [->|(mode & -> & Hmode)]; [by left|].
  cbn [mbind res_bind]. destruct (_ || _) eqn:Eg; [by left|right; right].
  rewrite !orb_false_iff, !negb_false_iff, Z.ltb_ge in Eg. destruct Eg as [[[[Hp Hn] Hs] Hl] Hm].
  pose proof (tar_padding_bounds size Hsize) as [Hpad _].
  eexists _, _. split_and!; [| | |reflexivity]; [lia|lia|].
  unfold map_has in Hn. apply bool_decide_eq_false in Hn. apply eq_None_not_Some in Hn.
  split; [by apply map_wf_set|]. rewrite map_set_fresh by done. apply Forall_app. split; [done|].
  apply Forall_singleton. unfold unpacked_ok. simpl. split_and!; try done.
  unfold subarray. rewrite zlen_ztake, zlen_zdrop. lia.
Qed.

Lemma untar_loop_ok fuel tar offset files files' :
  0 <= offset -> unpacked_files_ok files ->
  untar_loop fuel tar offset files = Ok files' -> unpacked_files_ok files'.
Proof.
  revert offset files. induction fuel as [|fuel IH]; intros offset files Ho Hok Hr.
  { cbn [untar_loop] in Hr. by destruct (_ <=? _). }
  destruct (untar_turn fuel tar offset files Ho Hok) as [E|[E|(o' & f' & ? & _ & ? & E)]];
    rewrite E in Hr; [done|by injection Hr as <-|]. eapply (IH o' f'); [lia|done..].
Qed.

Lemma untar_loop_terminates fuel tar offset files :
  0 <= offset -> unpacked_files_ok files -> zlen tar - offset < 512 * Z.of_nat fuel ->
  invalid_only (untar_loop fuel tar offset files).
Proof.
  revert offset files. induction fuel as [|fuel IH]; intros offset files Ho Hok Hf.
  { cbn [untar_loop]. by rewrite (proj2 (Z.leb_gt _ _)) by lia. }
  destruct (untar_turn fuel tar offset files Ho Hok) as [->|[->|(o' & f' & ? & ? & ? & ->)]]; [done..|].
  apply IH; [lia|done|lia].
Qed.

Lemma unzstd_loop_terminates fuel archive offset total chunks :
  zlen archive - offset < 3 * Z.of_nat fuel ->
  invalid_only (unzstd_loop fuel archive offset total chunks).
Proof.
  revert offset total chunks. induction fuel as [|fuel IH]; intros offset total chunks Hf; cbn [unzstd_loop].
  { by rewrite (proj2 (Z.ltb_lt _ _)) by lia. }
  destruct (_ <? _); [done|]. destruct (_ || _); [done|].
  destruct (_ =? 1); [done|]. apply IH.
  match goal with |- context [js_ushr ?h 3] =>
    assert (0 <= js_ushr h 3) by (apply Z.shiftr_nonneg, Z.mod_pos_bound; done) end. lia.
Qed.
End reader.

(** ** The packer fails with one code only, and its loop terminates *)
Section writer.

Lemma split_loop_throws parts indices : invalid_only (split_loop parts indices).
Proof. induction indices as [|i ix IH]; simpl; throws. Qed.
#[local] Hint Resolve split_loop_throws : throws.

Lemma splitTarPath_throws path : invalid_only (splitTarPath path).
Proof. unfold splitTarPath. throws. Qed.

Lemma writeTarText_throws t o n v : invalid_only (writeTarText t o n v).
Proof. unfold writeTarText. throws. Qed.
#[local] Hint Resolve splitTarPath_throws writeTarText_throws : throws.

Lemma writeTarOctal_throws t o n v : invalid_only (writeTarOctal t o n v).
Proof. unfold writeTarOctal. throws. Qed.

Lemma writeTarChecksum_throws t v : invalid_only (writeTarChecksum t v).
Proof. unfold writeTarChecksum. throws. Qed.
#[local] Hint Resolve writeTarOctal_throws writeTarChecksum_throws : throws.

Lemma tarHeader_throws path f : invalid_only (tarHeader path f).
Proof. unfold tarHeader. throws. Qed.
#[local] Hint Resolve tarHeader_throws : throws.

Lemma tar_loop_throws entries : forall chunks total, invalid_only (tar_loop entries chunks total).
Proof. induction entries as [|[path f] entries IH]; intros; simpl; throws. Qed.
#[local] Hint Resolve tar_loop_throws : throws.

Lemma packageTar_throws files : invalid_only (packageTar files).
Proof. unfold packageTar. throws. Qed.

Lemma rawZstd_throws input : invalid_only (rawZstd input).
Proof.
  destruct (Z.eq_dec (zlen input) 0) as [E|E].
  { assert (input = []) as -> by (apply zlen_0_nil; lia). exact I. }
  destruct (Z.le_gt_cases (zlen input) maxPackageTarBytes).
  - pose proof (zlen_nonneg input). destruct (rawZstd_total input) as (b & _ & -> & _); [lia|exact I].
  - unfold rawZstd. by rewrite (proj2 (Z.ltb_lt _ _)) by lia.
Qed.

Lemma rawZstd_bounded input archive :
  rawZstd input = Ok archive -> zlen archive <= maxPackageArchiveBytes.
Proof.
  intros Hr. destruct (Z.eq_dec (zlen input) 0) as [E|E].
  { assert (input = []) as -> by (apply zlen_0_nil; lia). vm_compute in Hr. injection Hr as <-. done. }
  destruct (Z.le_gt_cases (zlen input) maxPackageTarBytes).
  - pose proof (zlen_nonneg input).
    destruct (rawZstd_total input) as (b & _ & E' & Hb); [lia|].
    assert (archive = frame_magic ++ littleEndian32 (zlen input) ++ b) as -> by congruence.
    rewrite !zlen_app, zlen_littleEndian32. change (zlen frame_magic) with 5. lia.
  - unfold rawZstd in Hr. by rewrite (proj2 (Z.ltb_lt _ _)) in Hr by lia.
Qed.
End writer.

(** ** The theorems *)
Section theorems.
Context `{Sha256}.

Lemma unpack_package files archive :
  map_wf files ->
  Forall (fun e => tar_clean e.1 = true /\ validOutputMode (f_mode e.2) = true) files ->
  packageDeterministicTarZst files = Ok archive ->
  unpackDeterministicTarZst archive =
    Ok (map (fun e => (e.1, unpacked_of e.2)) (sort_entries files)).
Proof.
  intros Hwf Hc (tar & Ht & Hz)%bind_ok.
  rewrite (unpack_rawZstd tar); [by apply unpackTar_packageTar| |done].
  eapply packageTar_positive; [|done]. eapply Forall_impl; [done|].
  intros e [_ Hm]. by apply validOutputMode_nonneg.
Qed.

(** C13: Unpacking what [packageDeterministicTarZst] produced returns exactly the
    packaged files, in path order, with their bytes, modes, sizes and hashes.
    The hypotheses are the builder's own: the file set is a [Map], the paths
    are safe output paths a tar header can carry, the modes are 644 or 755. *)
Theorem package_unpack_roundtrip files archive :
  map_wf files ->
  Forall (fun e => tar_clean e.1 = true /\ validOutputMode (f_mode e.2) = true) files ->
  packageDeterministicTarZst files = Ok archive ->
  unpackDeterministicTarZst archive =
    Ok (map (fun e => (e.1, unpacked_of e.2)) (sort_entries files)).
Proof. apply unpack_package. Qed.

(** The archive is a function of the file set: the order in which the
    builder added the files does not change a byte of it. *)
Theorem package_order_independent files files' :
  map_wf files -> files ≡ₚ files' ->
  packageDeterministicTarZst files = packageDeterministicTarZst files'.
Proof.
  intros Hwf Hp. unfold packageDeterministicTarZst, packageTar.
  by rewrite (sort_entries_unique files files').
Qed.

Lemma unpack_files_ok archive files :
  unpackDeterministicTarZst archive = Ok files -> unpacked_files_ok files.
Proof.
  unfold unpackDeterministicTarZst. destruct (_ || _); [done|].
  intros ([[chunks offset] total] & _ & Hr)%bind_ok. destruct (_ || _); [done|].
  eapply (untar_loop_ok _ _ 0 []); [lia| |done]. split; constructor.
Qed.

(** Whatever bytes are presented, the files an accepted archive unpacks to
    have pairwise distinct safe relative paths, valid modes, and a recorded
    size and hash that are those of the bytes. *)
Theorem unpack_sound archive files :
  unpackDeterministicTarZst archive = Ok files -> unpacked_files_ok files.
Proof. apply unpack_files_ok. Qed.

(** The unpacker is total: on every byte string both of its loops stop
    within their fuel and the only failure is [invalid_builder_output]. *)
Theorem unpack_terminates archive :
  only_throws (eq invalid_builder_output) (unpackDeterministicTarZst archive).
Proof.
  unfold unpackDeterministicTarZst. apply only_throws_if; intros _; [done|].
  apply only_throws_bind.
  - apply unzstd_loop_terminates. unfold unzstd_fuel. pose proof (zlen_nonneg archive).
    Z.div_mod_to_equations; lia.
  - intros [[chunks offset] total] _. apply only_throws_if; intros _; [done|].
    unfold unpackTar. set (tar := concatenate _ _). pose proof (zlen_nonneg tar).
    apply untar_loop_terminates; [lia|split; constructor|].
    unfold untar_fuel. Z.div_mod_to_equations; lia.
Qed.

(** The packer is total: it returns an archive or fails with
    [invalid_builder_output], and an archive it returns is never larger than
    the archive limit. *)
Theorem package_total_bounded files :
  match packageDeterministicTarZst files with
  | Ok archive => zlen archive <= maxPackageArchiveBytes
  | Throw e => e = invalid_builder_output
  end.
Proof.
  unfold packageDeterministicTarZst.
  pose proof (packageTar_throws files) as Ht.
  destruct (packageTar files) as [tar|e]; cbn [mbind res_bind]; [|by rewrite <- Ht].
  pose proof (rawZstd_throws tar) as Hz.
  destruct (rawZstd tar) as [archive|e] eqn:E; [|by rewrite <- Hz].
  by eapply rawZstd_bounded.
Qed.
End theorems.

(** ** Witnesses *)
Definition demo_files : list (jsstr * file) :=
  [(js "mods/example.jar", mkFile [80; 75; 3; 4] MODE_644);
   (js "bin/launch", mkFile [35; 33] MODE_755)].

Definition demo_archive : bytes :=
  match packageDeterministicTarZst demo_files with Ok a => a | Throw _ => [] end.

Lemma package_unpack_roundtrip_witness :
  unpackDeterministicTarZst (H := toy_sha256) demo_archive =
    Ok (map (fun e => (e.1, unpacked_of (H := toy_sha256) e.2)) (sort_entries demo_files)).
Proof.
  apply (package_unpack_roundtrip (H := toy_sha256) demo_files demo_archive).
  - by_decide.
  - repeat constructor.
  - vm_compute. reflexivity.
Defined.

Lemma package_order_independent_witness :
  packageDeterministicTarZst demo_files = packageDeterministicTarZst (rev demo_files) /\
  rev demo_files <> demo_files.
Proof.
  split; [|vm_compute; discriminate].
  apply (package_order_independent demo_files (rev demo_files)).
  - by_decide.
  - apply perm_swap.
Defined.

Lemma unpack_sound_witness :
  exists files, unpackDeterministicTarZst (H := toy_sha256) demo_archive = Ok files /\
    unpacked_files_ok (H := toy_sha256) files /\ length files = 2%nat.
Proof.
  eexists. split; [vm_compute; reflexivity|]. split; [|reflexivity].
  apply (unpack_sound (H := toy_sha256) demo_archive). vm_compute. reflexivity.
Defined.
