(* ===== verification/QueueSpec.v ===== *)
(** * The compiler job queue: what it promises

    [job-queue.mjs] has two implementations of one contract.  This file states
    the contract: an abstract queue is a finite map from keys to jobs, with one
    transition per operation, and a class says what it means to implement it.
    The theorems at the end are proved from the contract alone and hold of both
    implementations ([MemoryQueue], [FsQueue]). *)

From S2P Require Import Prelude JsText JsNum JsValue Regex Validators.

(** ** Data *)
Record input := mkInput {
  in_id : jsstr;
  in_deploymentId : jsstr;
  in_jobFingerprint : jsstr;
  in_body : bytes;
}.

(** The strings of the [state] field. *)
Inductive qstate := QPending | QRunning | QRetry | QTerminal.

#[export] Instance qstate_eq_dec : EqDecision qstate.
Proof. solve_decision. Defined.

Record job := mkJob {
  j_id : jsstr;
  j_deploymentId : jsstr;
  j_jobFingerprint : jsstr;
  j_body : bytes;
  j_redeliveryBody : option bytes;
  j_state : qstate;
  j_attempts : Z;
  j_nextAttemptAt : Z;
  j_terminalResult : option jsval;
}.

(** What [claim] returns. *)
Record claimed := mkClaimed {
  c_id : jsstr;
  c_deploymentId : jsstr;
  c_body : bytes;
  c_attempts : Z;
}.

(** The second argument of [finish]. *)
Record outcome := mkOutcome { o_kind : jsstr; o_result : jsval }.

Definition valid_kind (o : outcome) : bool := str_in (o_kind o) [js "terminal"; js "retry"].

(** ** [validateEnqueue], [assertSameIdentity], [retryDelay] *)
Definition validateEnqueue (i : input) : res unit :=
  throw_if (streq (in_id i) [] || streq (in_deploymentId i) [] ||
            negb (lowerSha256 (in_jobFingerprint i)) ||
            negb (forallb is_byte (in_body i)))
    (TypeError "invalid compiler queue job").

Definition idempotency_conflict : exn :=
  CodedError "compiler queue idempotency conflict" "idempotency_conflict".

(** The three identity fields of a record, compared with those of another. *)
Definition identity : Type := jsstr * jsstr * jsstr.

Definition identity_of_input (i : input) : identity :=
  (in_id i, in_deploymentId i, in_jobFingerprint i).

Definition assertSameIdentity (a b : identity) : res unit :=
  let '(id1, dep1, fp1) := a in
  let '(id2, dep2, fp2) := b in
  throw_if (negb (streq id1 id2) || negb (streq dep1 dep2) || negb (streq fp1 fp2))
    idempotency_conflict.

#[global] Arguments assertSameIdentity : simpl never.

Definition retryDelay (base attempts : Z) : Z :=
  Z.min (base * 2 ^ Z.min (Z.max (attempts - 1) 0) 8) 300000.

Lemma assertSameIdentity_ok a b : assertSameIdentity a b = Ok tt <-> a = b.
Proof.
  destruct a as [[id1 dep1] fp1], b as [[id2 dep2] fp2]. unfold assertSameIdentity.
  rewrite throw_if_ok, !orb_false_iff, !negb_false_iff, !streq_true. split; [by intros [[-> ->] ->]|].
  by intros [= -> -> ->].
Qed.

Lemma assertSameIdentity_cases a b :
  (a = b /\ assertSameIdentity a b = Ok tt) \/
  (a <> b /\ assertSameIdentity a b = Throw idempotency_conflict).
Proof.
  destruct (assertSameIdentity a b) as [[]|e] eqn:E.
  - left. split; [by apply assertSameIdentity_ok|done].
  - right. split; [intros Heq%assertSameIdentity_ok; congruence|].
    destruct a as [[? ?] ?], b as [[? ?] ?]. unfold assertSameIdentity, throw_if in E.
    destruct (_ || _); congruence.
Qed.

Lemma retryDelay_bounds base attempts :
  0 <= base -> 0 <= retryDelay base attempts <= 300000 /\ Z.min base 300000 <= retryDelay base attempts.
Proof.
  intros Hb. unfold retryDelay.
  pose proof (Z.pow_pos_nonneg 2 (Z.min (Z.max (attempts - 1) 0) 8)). nia.
Qed.

(** ** The abstract queue *)
Abbreviation queue := (gmap jsstr job).

Definition identity_of (j : job) : identity := (j_id j, j_deploymentId j, j_jobFingerprint j).

Definition job_new (now : Z) (i : input) : job :=
  mkJob (in_id i) (in_deploymentId i) (in_jobFingerprint i) (in_body i) None QPending 0 now None.

(** A repeated delivery of a running job is remembered for its next attempt. *)
Definition job_redeliver (b : bytes) (j : job) : job :=
  mkJob (j_id j) (j_deploymentId j) (j_jobFingerprint j) (j_body j) (Some b) (j_state j)
    (j_attempts j) (j_nextAttemptAt j) (j_terminalResult j).

(** A repeated delivery of a waiting job replaces its body and makes it due. *)
Definition job_replace (now : Z) (b : bytes) (j : job) : job :=
  mkJob (j_id j) (j_deploymentId j) (j_jobFingerprint j) b (j_redeliveryBody j) QPending
    (j_attempts j) now (j_terminalResult j).

Definition job_run (j : job) : job :=
  mkJob (j_id j) (j_deploymentId j) (j_jobFingerprint j) (j_body j) (j_redeliveryBody j) QRunning
    (j_attempts j + 1) (j_nextAttemptAt j) (j_terminalResult j).

Definition job_terminal (result : jsval) (j : job) : job :=
  mkJob (j_id j) (j_deploymentId j) (j_jobFingerprint j) (j_body j) (j_redeliveryBody j) QTerminal
    (j_attempts j) (j_nextAttemptAt j) (Some result).

Definition job_retry (base now : Z) (j : job) : job :=
  mkJob (j_id j) (j_deploymentId j) (j_jobFingerprint j)
    (default (j_body j) (j_redeliveryBody j)) None QRetry (j_attempts j)
    (now + retryDelay base (j_attempts j)) (j_terminalResult j).

Definition job_recover (j : job) : job :=
  mkJob (j_id j) (j_deploymentId j) (j_jobFingerprint j) (j_body j) (j_redeliveryBody j)
    (if decide (j_state j = QRunning) then QPending else j_state j)
    (j_attempts j) (j_nextAttemptAt j) (j_terminalResult j).

Definition claim_of (j : job) : claimed :=
  mkClaimed (j_id j) (j_deploymentId j) (j_body j) (j_attempts j).

Definition due (now : Z) (j : job) : Prop :=
  (j_state j = QPending \/ j_state j = QRetry) /\ j_nextAttemptAt j <= now.

Section spec.
Context (retryDelayMs : Z) (key : jsstr -> jsstr).

Definition spec_enqueue (now : Z) (i : input) (m : queue) : res bool * queue :=
  match validateEnqueue i with
  | Throw e => (Throw e, m)
  | Ok _ =>
      match m !! key (in_id i) with
      | None => (Ok false, <[key (in_id i) := job_new now i]> m)
      | Some j =>
          match assertSameIdentity (identity_of j) (identity_of_input i) with
          | Throw e => (Throw e, m)
          | Ok _ =>
              (Ok true,
               match j_state j with
               | QTerminal => m
               | QRunning => <[key (in_id i) := job_redeliver (in_body i) j]> m
               | QPending | QRetry => <[key (in_id i) := job_replace now (in_body i) j]> m
               end)
          end
      end
  end.

(** A claim may choose any due job. *)
Inductive spec_claim (now : Z) (m : queue) : option claimed -> queue -> Prop :=
  | spec_claim_none :
      (forall k j, m !! k = Some j -> ~ due now j) -> spec_claim now m None m
  | spec_claim_some k j :
      m !! k = Some j -> due now j ->
      spec_claim now m (Some (claim_of (job_run j))) (<[k := job_run j]> m).

(** [None]: the call is refused and changes nothing. *)
Definition spec_finish (now : Z) (id : jsstr) (o : outcome) (m : queue) : option queue :=
  match m !! key id with
  | Some j =>
      if decide (j_id j = id /\ j_state j = QRunning /\ id <> []) then
        Some (<[key id := if streq (o_kind o) (js "terminal") then job_terminal (o_result o) j
                          else job_retry retryDelayMs now j]> m)
      else None
  | None => None
  end.

Definition spec_recover (m : queue) : queue := job_recover <$> m.

(** The jobs are filed under the key of their id. *)
Definition keyed (m : queue) : Prop := forall k j, m !! k = Some j -> k = key (j_id j).
End spec.

(** ** The interface

    A clock reading small enough for the retry delay to keep it exact. *)
Definition clock_ok (now : Z) : Prop := 0 <= now /\ now + 300000 <= MAX_SAFE_INTEGER.

(** [q_inv n q]: the state is well formed and no job has more than [n]
    attempts.  A claim raises the bound, which must stay a safe integer. *)
Class JobQueue (Q : Type) (retryDelayMs : Z) := {
  q_key : jsstr -> jsstr;
  q_initialize : Z -> Q -> res unit * Q;
  q_enqueue : Z -> input -> Q -> res bool * Q;
  q_claim : Z -> Q -> res (option claimed) * Q;
  q_finish : Z -> jsstr -> outcome -> Q -> res unit * Q;
  q_inv : Z -> Q -> Prop;
  q_abs : Q -> queue;
  q_inv_mono n n' q : q_inv n q -> n <= n' -> q_inv n' q;
  q_keyed_law n q : q_inv n q -> keyed q_key (q_abs q);
  q_initialize_law n now q :
    q_inv n q ->
    exists q', q_initialize now q = (Ok tt, q') /\ q_inv n q' /\ q_abs q' = spec_recover (q_abs q);
  q_enqueue_law n now i q :
    q_inv n q -> 0 <= n -> clock_ok now ->
    let '(r, q') := q_enqueue now i q in
    q_inv n q' /\ (r, q_abs q') = spec_enqueue q_key now i (q_abs q);
  q_claim_law n now q :
    q_inv n q -> 0 <= n < MAX_SAFE_INTEGER -> clock_ok now ->
    exists c q', q_claim now q = (Ok c, q') /\ q_inv (n + 1) q' /\ spec_claim now (q_abs q) c (q_abs q');
  q_finish_law n now id o q :
    q_inv n q -> clock_ok now -> valid_kind o = true ->
    let '(r, q') := q_finish now id o q in
    q_inv n q' /\
    match spec_finish retryDelayMs q_key now id o (q_abs q) with
    | Some m => r = Ok tt /\ q_abs q' = m
    | None => (exists e, r = Throw e) /\ q_abs q' = q_abs q
    end;
}.

(** ** Calls that reject

    A call of the queue can also reject because a file system call fails.  Such a
    call has had no effect on the jobs, or, when only the last directory sync
    failed, all of it. *)
Section faults.
Context {Q : Type} {base : Z} `{JobQueue Q base}.

Definition unaffected (q q' : Q) : Prop := q_abs q' = q_abs q /\ forall n, q_inv n q -> q_inv n q'.

#[export] Instance unaffected_preorder : PreOrder unaffected.
Proof.
  split; [by intros q; split|]. intros q1 q2 q3 [E1 H1] [E2 H2]. split; [by rewrite E2|]. auto.
Qed.

(** A [claim] that rejects, with the jobs it marked as running all the same. *)
Inductive claim_fault (now : Z) (q : Q) : list jsstr -> Q -> Prop :=
  | claim_untouched q' : unaffected q q' -> claim_fault now q [] q'
  | claim_taken c q1 q' :
      q_claim now q = (Ok (Some c), q1) -> unaffected q1 q' -> claim_fault now q [c_id c] q'.

(** An [enqueue] that rejects. *)
Inductive enqueue_fault (now : Z) (i : input) (q : Q) : Q -> Prop :=
  | enqueue_untouched q' : unaffected q q' -> enqueue_fault now i q q'
  | enqueue_taken r q1 q' : q_enqueue now i q = (r, q1) -> unaffected q1 q' -> enqueue_fault now i q q'.
End faults.

(** ** Histories

    An event records the call and its visible result; [ERecover] is a restart
    of the worker. *)
Inductive event :=
  | EEnqueue (i : input) (r : res bool)
  | EClaim (c : option claimed)
  | EFinish (id : jsstr) (o : outcome) (ok : bool)
  | ERecover.

Inductive qstep (base : Z) (key : jsstr -> jsstr) : queue -> event -> queue -> Prop :=
  | qstep_enqueue now i m r m' :
      spec_enqueue key now i m = (r, m') -> qstep base key m (EEnqueue i r) m'
  | qstep_claim now m c m' :
      spec_claim now m c m' -> qstep base key m (EClaim c) m'
  | qstep_finish now id o m m' :
      spec_finish base key now id o m = Some m' -> qstep base key m (EFinish id o true) m'
  | qstep_refused now id o m :
      spec_finish base key now id o m = None -> qstep base key m (EFinish id o false) m
  | qstep_recover m : qstep base key m ERecover (spec_recover m).

Inductive qsteps (base : Z) (key : jsstr -> jsstr) : queue -> list event -> queue -> Prop :=
  | qsteps_nil m : qsteps base key m [] m
  | qsteps_cons m e m1 es m2 :
      qstep base key m e m1 -> qsteps base key m1 es m2 -> qsteps base key m (e :: es) m2.

(** ** Consequences of the contract *)
Section spec_theory.
Context (base : Z) (key : jsstr -> jsstr).

(** How one job may evolve in one step: it keeps its identity, its attempt
    count does not decrease, and once terminal it never changes. *)
Definition job_evolves (j j' : job) : Prop :=
  identity_of j' = identity_of j /\ j_attempts j <= j_attempts j' /\
  (j_state j = QTerminal -> j' = j).

#[export] Instance job_evolves_preorder : PreOrder job_evolves.
Proof.
  split.
  - intros j. by split_and!.
  - intros a b c (Hi & Ha & Ht) (Hi' & Ha' & Ht'). split_and!; [congruence|lia|].
    intros E. specialize (Ht E). subst b. auto.
Qed.

Definition queue_grows (m m' : queue) : Prop :=
  forall k j, m !! k = Some j -> exists j', m' !! k = Some j' /\ job_evolves j j'.

#[export] Instance queue_grows_preorder : PreOrder queue_grows.
Proof.
  split.
  - intros m k j Hj. by exists j.
  - intros a b c Hab Hbc k j Hj. destruct (Hab k j Hj) as (j1 & H1 & E1).
    destruct (Hbc k j1 H1) as (j2 & H2 & E2). exists j2. split; [done|by etrans].
Qed.

Lemma queue_grows_insert (m : queue) k j j' :
  m !! k = Some j -> job_evolves j j' -> queue_grows m (<[k := j']> m).
Proof.
  intros Hk He k0 j0 H0. destruct (decide (k0 = k)) as [->|].
  - exists j'. rewrite lookup_insert_eq. split; [done|]. by assert (j0 = j) as -> by congruence.
  - exists j0. by rewrite lookup_insert_ne.
Qed.

Lemma queue_grows_fresh (m : queue) k j' : m !! k = None -> queue_grows m (<[k := j']> m).
Proof.
  intros Hk k0 j0 H0. exists j0. rewrite lookup_insert_ne by congruence. done.
Qed.

Lemma qstep_grows m e m' : qstep base key m e m' -> queue_grows m m'.
Proof.
  destruct 1 as [now i m r m' Hs|now m c m' Hs|now id o m m' Hs|now id o m Hs|m].
  - unfold spec_enqueue in Hs. destruct (validateEnqueue i); [|by injection Hs as _ <-].
    destruct (m !! key (in_id i)) as [j|] eqn:Ej; [|injection Hs as _ <-; by apply queue_grows_fresh].
    destruct (assertSameIdentity _ _); [|by injection Hs as _ <-].
    destruct (j_state j) eqn:Es; injection Hs as _ <-; try done;
      (eapply queue_grows_insert; [done|]; split_and!; simpl; [done|lia|congruence]).
  - destruct Hs as [_|k j Hk [Hd _]]; [done|]. eapply queue_grows_insert; [done|].
    split_and!; simpl; [done|lia|]. destruct Hd; congruence.
  - unfold spec_finish in Hs. destruct (m !! key id) as [j|] eqn:Ej; [|done].
    destruct (decide _) as [(? & Hr & ?)|]; [|done]. injection Hs as <-.
    eapply queue_grows_insert; [done|]. destruct (streq _ _); split_and!; simpl; try done; congruence.
  - done.
  - intros k j Hk. exists (job_recover j). unfold spec_recover. rewrite lookup_fmap, Hk. split; [done|].
    split_and!; simpl; [done|lia|]. intros E. destruct j; simpl in *. unfold job_recover; simpl. subst.
    by destruct (decide _).
Qed.

Lemma qsteps_grow m es m' : qsteps base key m es m' -> queue_grows m m'.
Proof.
  induction 1 as [|m e m1 es m2 Hs _ IH]; [done|]. etrans; [by eapply qstep_grows|done].
Qed.

(** A running job stays running, and is not handed out again, until it is
    finished or the worker restarts. *)
Definition releases (id : jsstr) (e : event) : Prop :=
  e = ERecover \/ exists o, e = EFinish id o true.

Definition claims (id : jsstr) (e : event) : Prop :=
  exists c, e = EClaim (Some c) /\ c_id c = id.

Lemma keyed_insert (m : queue) k j : keyed key m -> k = key (j_id j) -> keyed key (<[k := j]> m).
Proof.
  intros Hm Hk k0 j0. rewrite lookup_insert_Some. intros [[<- <-]|[_ H0]]; [done|by apply Hm].
Qed.

Lemma qstep_keyed m e m' : qstep base key m e m' -> keyed key m -> keyed key m'.
Proof.
  destruct 1 as [now i m r m' Hs|now m c m' Hs|now id o m m' Hs|now id o m Hs|m]; intros Hm; [| | |done|].
  - unfold spec_enqueue in Hs. destruct (validateEnqueue i); [|by injection Hs as _ <-].
    destruct (m !! key (in_id i)) as [j|] eqn:Ej;
      [|injection Hs as _ <-; by apply keyed_insert].
    destruct (assertSameIdentity _ _); [|by injection Hs as _ <-].
    destruct (j_state j) eqn:Es; injection Hs as _ <-; try done;
      (apply keyed_insert; [done|simpl; by apply Hm]).
  - destruct Hs as [_|k j Hk _]; [done|]. apply keyed_insert; [done|simpl; by apply Hm].
  - unfold spec_finish in Hs. destruct (m !! key id) as [j|] eqn:Ej; [|done].
    destruct (decide _) as [(? & _)|]; [|done]. injection Hs as <-.
    apply keyed_insert; [done|]. destruct (streq _ _); simpl; by apply Hm.
  - intros k j. unfold spec_recover. rewrite lookup_fmap, fmap_Some.
    intros (j0 & Hk & ->). simpl. by apply Hm.
Qed.

Definition running (m : queue) (id : jsstr) : Prop :=
  exists j, m !! key id = Some j /\ j_id j = id /\ j_state j = QRunning.

(** Each event other than a release keeps a running job running and is not a
    claim of it. *)
Lemma running_step m e m' id :
  keyed key m -> qstep base key m e m' -> running m id -> ~ releases id e -> running m' id /\ ~ claims id e.
Proof.
  intros Hm Hs (j & Hj & Hid & Hr) Hrel.
  destruct Hs as [now i m r m' Hs|now m c m' Hs|now id' o m m' Hs|now id' o m Hs|m].
  - split; [|by intros (? & [=] & _)]. unfold spec_enqueue in Hs.
    destruct (validateEnqueue i); [|injection Hs as _ <-; by exists j].
    destruct (decide (key (in_id i) = key id)) as [Ek|Ek].
    + rewrite Ek, Hj in Hs. destruct (assertSameIdentity _ _); [|injection Hs as _ <-; by exists j].
      rewrite Hr in Hs. injection Hs as _ <-. eexists. by rewrite lookup_insert_eq.
    + destruct (m !! key (in_id i)) as [j'|];
        [destruct (assertSameIdentity _ _); [destruct (j_state j')|]|]; injection Hs as _ <-;
        exists j; rewrite ?lookup_insert_ne by done; done.
  - destruct Hs as [_|k j' Hk Hd]; [split; [by exists j|by intros (? & [=] & _)]|].
    assert (k <> key id) by (intros ->; destruct Hd as [Hd _]; destruct Hd; congruence).
    split; [exists j; by rewrite lookup_insert_ne|]. intros (c & [= <-] & E). simpl in E.
    apply Hm in Hk. congruence.
  - assert (id' <> id) as Hne by (intros ->; apply Hrel; right; by eexists).
    split; [|by intros (? & [=] & _)].
    unfold spec_finish in Hs. destruct (m !! key id') as [j'|] eqn:Ej; [|done].
    destruct (decide _) as [(? & _)|]; [|done]. injection Hs as <-.
    exists j. rewrite lookup_insert_ne; [done|]. intros Ek. rewrite Ek in Ej. congruence.
  - split; [by exists j|by intros (? & [=] & _)].
  - exfalso. apply Hrel. by left.
Qed.

Lemma running_steps m es m' id :
  keyed key m -> qsteps base key m es m' -> running m id -> Forall (fun e => ~ releases id e) es ->
  running m' id /\ Forall (fun e => ~ claims id e) es.
Proof.
  intros Hm Hs. revert Hm. induction Hs as [m|m e m1 es m2 Hs _ IH]; intros Hm Hrun Hrel; [done|].
  apply Forall_cons in Hrel as [He Hrel].
  destruct (running_step _ _ _ _ Hm Hs Hrun He) as [Hrun1 Hc].
  destruct (IH (qstep_keyed _ _ _ Hs Hm) Hrun1 Hrel) as [Hrun2 Hcs]. split; [done|by constructor].
Qed.
End spec_theory.

(** ** Running an implementation

    A call with its clock reading; a history is a list of calls made one after
    the other (the filesystem queue serialises them with its [lock], the memory
    queue never suspends inside one). *)
Inductive qcall :=
  | CInitialize (now : Z)
  | CEnqueue (now : Z) (i : input)
  | CClaim (now : Z)
  | CFinish (now : Z) (id : jsstr) (o : outcome).

Definition call_ok (c : qcall) : Prop :=
  match c with
  | CInitialize _ => True
  | CEnqueue now _ | CClaim now => clock_ok now
  | CFinish now _ o => clock_ok now /\ valid_kind o = true
  end.

Section client.
Context {Q : Type} {base : Z} `{JobQueue Q base}.

Definition q_call (c : qcall) (q : Q) : event * Q :=
  match c with
  | CInitialize now => let '(_, q') := q_initialize now q in (ERecover, q')
  | CEnqueue now i => let '(r, q') := q_enqueue now i q in (EEnqueue i r, q')
  | CClaim now =>
      let '(r, q') := q_claim now q in
      (EClaim (match r with Ok c => c | Throw _ => None end), q')
  | CFinish now id o => let '(r, q') := q_finish now id o q in (EFinish id o (is_ok r), q')
  end.

Fixpoint q_history (cs : list qcall) (q : Q) : list event * Q :=
  match cs with
  | [] => ([], q)
  | c :: cs =>
      let '(e, q1) := q_call c q in
      let '(es, q2) := q_history cs q1 in
      (e :: es, q2)
  end.

Lemma q_call_refines n c q e q' :
  q_inv n q -> 0 <= n < MAX_SAFE_INTEGER -> call_ok c -> q_call c q = (e, q') ->
  qstep base q_key (q_abs q) e (q_abs q') /\ q_inv (n + 1) q'.
Proof.
  intros Hi Hn Hc E. destruct c as [now|now i|now|now id o]; simpl in *.
  - destruct (q_initialize_law n now q Hi) as (q1 & E1 & Hi1 & Ha). rewrite E1 in E.
    injection E as <- <-. rewrite Ha. split; [constructor|]. eapply q_inv_mono; [done|lia].
  - pose proof (q_enqueue_law n now i q Hi ltac:(lia) Hc) as Hl.
    destruct (q_enqueue now i q) as [r q1]. destruct Hl as [Hi1 Hl]. injection E as <- <-.
    split; [by eapply qstep_enqueue|]. eapply q_inv_mono; [done|lia].
  - destruct (q_claim_law n now q Hi Hn Hc) as (r & q1 & E1 & Hi1 & Hs). rewrite E1 in E.
    injection E as <- <-. split; [by eapply qstep_claim|done].
  - destruct Hc as [Hc Hk]. pose proof (q_finish_law n now id o q Hi Hc Hk) as Hl.
    destruct (q_finish now id o q) as [r q1]. destruct Hl as [Hi1 Hl]. injection E as <- <-.
    split; [|eapply q_inv_mono; [done|lia]].
    destruct (spec_finish base q_key now id o (q_abs q)) as [m|] eqn:Es.
    + destruct Hl as [-> ->]. by eapply qstep_finish.
    + destruct Hl as [[x ->] ->]. by eapply qstep_refused.
Qed.

(** Every history of an implementation is a history of the abstract queue. *)
Lemma q_history_refines cs : forall n q es q',
  q_inv n q -> 0 <= n -> n + Z.of_nat (length cs) <= MAX_SAFE_INTEGER -> Forall call_ok cs ->
  q_history cs q = (es, q') ->
  qsteps base q_key (q_abs q) es (q_abs q') /\ q_inv (n + Z.of_nat (length cs)) q'.
Proof.
  induction cs as [|c cs IH]; intros n q es q' Hi Hn Hl Hc E.
  - injection E as <- <-. simpl. rewrite Z.add_0_r. split; [constructor|done].
  - apply Forall_cons in Hc as [Hc Hcs]. cbn [q_history length] in *.
    destruct (q_call c q) as [e q1] eqn:E1. destruct (q_history cs q1) as [es' q2] eqn:E2.
    injection E as <- <-. destruct (q_call_refines n c q e q1) as [Hs Hi1]; [done|lia|done..|].
    destruct (IH (n + 1) q1 es' q2) as [Hss Hi2]; [done|lia..|done|done|].
    split; [by econstructor|]. by replace (n + Z.of_nat (S (length cs))) with (n + 1 + Z.of_nat (length cs)) by lia.
Qed.
End client.
