(* ===== verification/MemoryQueue.v ===== *)
(** * The in-memory job queue ([job-queue.mjs], [MemoryCompilerJobQueue])

    Two [Map]s from id to record.  The records of [pending] are mutated in
    place, which leaves their position in the map unchanged; [claim] takes the
    first due record in insertion order. *)

From S2P Require Import Prelude JsText JsNum JsValue Regex Validators QueueSpec.

Module Memory.

Record record := mkRecord {
  id : jsstr;
  deploymentId : jsstr;
  jobFingerprint : jsstr;
  body : bytes;
  redeliveryBody : option bytes;
  state : qstate;
  attempts : Z;
  nextAttemptAt : Z;
  terminalResult : option jsval;
  lastResult : option jsval;
}.

(** The fields [pending] and [archive]. *)
Record t := mkQueue {
  pending : list (jsstr * record);
  archive : list (jsstr * record);
}.

Definition empty : t := mkQueue [] [].

Definition identity_of_record (r : record) : identity :=
  (id r, deploymentId r, jobFingerprint r).

Definition is_running (s : qstate) : bool := bool_decide (s = QRunning).

(** [initialize] *)
Definition reset_running (r : record) : record :=
  if is_running (state r) then
    mkRecord (id r) (deploymentId r) (jobFingerprint r) (body r) (redeliveryBody r) QPending
      (attempts r) (nextAttemptAt r) (terminalResult r) (lastResult r)
  else r.

Definition initialize (q : t) : res unit * t :=
  (Ok tt, mkQueue (map (fun e => (e.1, reset_running e.2)) (pending q)) (archive q)).

(** [enqueue] *)
Definition enqueue (now : Z) (input : input) (q : t) : res bool * t :=
  match validateEnqueue input with
  | Throw e => (Throw e, q)
  | Ok _ =>
      match map_get (in_id input) (archive q) with
      | Some archived =>
          match assertSameIdentity (identity_of_record archived) (identity_of_input input) with
          | Throw e => (Throw e, q)
          | Ok _ => (Ok true, q)
          end
      | None =>
          match map_get (in_id input) (pending q) with
          | Some r =>
              match assertSameIdentity (identity_of_record r) (identity_of_input input) with
              | Throw e => (Throw e, q)
              | Ok _ =>
                  let r' :=
                    if is_running (state r) then
                      mkRecord (id r) (deploymentId r) (jobFingerprint r) (body r)
                        (Some (in_body input)) (state r) (attempts r) (nextAttemptAt r)
                        (terminalResult r) (lastResult r)
                    else
                      mkRecord (id r) (deploymentId r) (jobFingerprint r) (in_body input)
                        (redeliveryBody r) QPending (attempts r) now
                        (terminalResult r) (lastResult r) in
                  (Ok true, mkQueue (map_set (in_id input) r' (pending q)) (archive q))
              end
          | None =>
              let r := mkRecord (in_id input) (in_deploymentId input) (in_jobFingerprint input)
                         (in_body input) None QPending 0 now None None in
              (Ok false, mkQueue (map_set (in_id input) r (pending q)) (archive q))
          end
      end
  end.

(** [claim]: the loop over [pending.values()], with the mutated map. *)
Fixpoint claim_loop (now : Z) (l : list (jsstr * record)) : option (claimed * list (jsstr * record)) :=
  match l with
  | [] => None
  | (k, r) :: rest =>
      if is_running (state r) || (now <? nextAttemptAt r) then
        match claim_loop now rest with
        | Some (c, rest') => Some (c, (k, r) :: rest')
        | None => None
        end
      else
        let r' := mkRecord (id r) (deploymentId r) (jobFingerprint r) (body r) (redeliveryBody r)
                    QRunning (attempts r + 1) (nextAttemptAt r) (terminalResult r) (lastResult r) in
        Some (mkClaimed (id r') (deploymentId r') (body r') (attempts r'), (k, r') :: rest)
  end.

Definition claim (now : Z) (q : t) : res (option claimed) * t :=
  match claim_loop now (pending q) with
  | Some (c, pending') => (Ok (Some c), mkQueue pending' (archive q))
  | None => (Ok None, q)
  end.

Section finish.
Context (retryDelayMs : Z).

(** [finish] *)
Definition finish (now : Z) (jobId : jsstr) (o : outcome) (q : t) : res unit * t :=
  let conflict := Throw (PlainError "compiler queue state conflict") in
  match map_get jobId (pending q) with
  | None => (conflict, q)
  | Some r =>
      if negb (is_running (state r)) then (conflict, q)
      else if streq (o_kind o) (js "terminal") then
        let r' := mkRecord (id r) (deploymentId r) (jobFingerprint r) (body r) (redeliveryBody r)
                    QTerminal (attempts r) (nextAttemptAt r) (Some (o_result o)) (lastResult r) in
        (Ok tt, mkQueue (map_delete jobId (pending q)) (map_set jobId r' (archive q)))
      else
        let r' := mkRecord (id r) (deploymentId r) (jobFingerprint r)
                    (match redeliveryBody r with Some b => b | None => body r end) None
                    QRetry (attempts r) (now + retryDelay retryDelayMs (attempts r))
                    (terminalResult r) (Some (o_result o)) in
        (Ok tt, mkQueue (map_set jobId r' (pending q)) (archive q))
  end.
End finish.

(** [counts] *)
Definition counts (q : t) : Z * Z := (zlen (pending q), zlen (archive q)).

(** ** The abstract queue a state stands for *)
Definition job_of (r : record) : job :=
  mkJob (id r) (deploymentId r) (jobFingerprint r) (body r) (redeliveryBody r) (state r)
    (attempts r) (nextAttemptAt r) (terminalResult r).

Definition view (l : list (jsstr * record)) : queue :=
  list_to_map (map (fun e => (e.1, job_of e.2)) l).

Definition abs (q : t) : queue := view (archive q) ∪ view (pending q).

(** A record is filed under its id, which is not empty. *)
Definition record_ok (n : Z) (terminal : bool) (k : jsstr) (r : record) : Prop :=
  id r = k /\ k <> [] /\ bool_decide (state r = QTerminal) = terminal /\ attempts r <= n.

Definition inv (n : Z) (q : t) : Prop :=
  map_wf (pending q) /\
  (forall k r, map_get k (pending q) = Some r -> record_ok n false k r) /\
  (forall k r, map_get k (archive q) = Some r -> record_ok n true k r) /\
  (forall k r, map_get k (pending q) = Some r -> map_get k (archive q) = None).

Lemma mem_view_lookup l k : view l !! k = job_of <$> map_get k l.
Proof.
  induction l as [|[k' r] l IH]; [done|]. unfold view in *. simpl.
  destruct (decide (k = k')) as [->|Hne].
  - by rewrite lookup_insert_eq, bool_decide_eq_true_2.
  - by rewrite lookup_insert_ne, bool_decide_eq_false_2.
Qed.

Lemma view_set l k r : view (map_set k r l) = <[k := job_of r]> (view l).
Proof.
  apply map_eq. intros k'. rewrite mem_view_lookup. destruct (decide (k' = k)) as [->|Hne].
  - by rewrite map_get_set_eq, lookup_insert_eq.
  - by rewrite map_get_set_ne, lookup_insert_ne, mem_view_lookup.
Qed.

Lemma mem_view_delete l k : map_wf l -> view (map_delete k l) = delete k (view l).
Proof.
  intros Hwf. apply map_eq. intros k'. rewrite mem_view_lookup. destruct (decide (k' = k)) as [->|Hne].
  - by rewrite map_get_delete_eq, lookup_delete_eq.
  - by rewrite map_get_delete_ne, lookup_delete_ne, mem_view_lookup.
Qed.

Lemma mem_abs_lookup_pending n q k r :
  inv n q -> map_get k (pending q) = Some r -> abs q !! k = Some (job_of r).
Proof.
  intros (_ & _ & _ & Hd) Hk. unfold abs. rewrite lookup_union_r; rewrite mem_view_lookup;
    [by rewrite Hk|by rewrite (Hd _ _ Hk)].
Qed.

Lemma mem_abs_lookup_archive q k r : map_get k (archive q) = Some r -> abs q !! k = Some (job_of r).
Proof. intros Hk. unfold abs. apply lookup_union_Some_l. by rewrite mem_view_lookup, Hk. Qed.

Lemma mem_abs_lookup_none q k :
  abs q !! k = None <-> map_get k (archive q) = None /\ map_get k (pending q) = None.
Proof.
  unfold abs. rewrite lookup_union_None, !mem_view_lookup. rewrite !fmap_None. done.
Qed.

Lemma abs_set_pending q k r :
  map_get k (archive q) = None ->
  abs (mkQueue (map_set k r (pending q)) (archive q)) = <[k := job_of r]> (abs q).
Proof.
  intros Hk. unfold abs. simpl. rewrite view_set.
  symmetry. apply insert_union_r. by rewrite mem_view_lookup, Hk.
Qed.

Lemma mem_inv_mono n n' q : inv n q -> n <= n' -> inv n' q.
Proof.
  intros (? & Hp & Ha & ?) Hle. split_and!; try done; intros k r Hk;
    [destruct (Hp _ _ Hk) as (? & ? & ? & ?)|destruct (Ha _ _ Hk) as (? & ? & ? & ?)];
    split_and!; try done; lia.
Qed.

Lemma inv_set_pending n q k r :
  inv n q -> record_ok n false k r -> map_get k (archive q) = None ->
  inv n (mkQueue (map_set k r (pending q)) (archive q)).
Proof.
  intros (Hwf & Hp & Ha & Hd) Hr Hk. split_and!; simpl; [by apply map_wf_set| |done|].
  - intros k' r'. destruct (decide (k' = k)) as [->|Hne].
    + rewrite map_get_set_eq. by intros [= <-].
    + rewrite map_get_set_ne by done. apply Hp.
  - intros k' r'. destruct (decide (k' = k)) as [->|Hne]; [done|].
    rewrite map_get_set_ne by done. apply Hd.
Qed.

(** ** The laws *)
Lemma reset_running_job r : job_of (reset_running r) = job_recover (job_of r).
Proof.
  unfold reset_running, is_running, job_recover. simpl.
  destruct (decide (state r = QRunning)); [by rewrite bool_decide_eq_true_2|].
  by rewrite bool_decide_eq_false_2.
Qed.

Lemma reset_running_ok n k r : record_ok n false k r -> record_ok n false k (reset_running r).
Proof.
  unfold record_ok, reset_running. intros (? & ? & ? & ?). by destruct (is_running (state r)).
Qed.

Lemma job_recover_terminal j : j_state j = QTerminal -> job_recover j = j.
Proof. destruct j; simpl. unfold job_recover; simpl. intros ->. by destruct (decide _). Qed.

Lemma mem_initialize_law n q :
  inv n q ->
  exists q', initialize q = (Ok tt, q') /\ inv n q' /\ abs q' = spec_recover (abs q).
Proof.
  intros (Hwf & Hp & Ha & Hd). eexists. split; [reflexivity|]. split.
  - split_and!; simpl; [by apply map_wf_map| |done|]; intros k r; rewrite map_get_map, fmap_Some;
      intros (r0 & H0 & ->); [by apply reset_running_ok, Hp|by eapply Hd].
  - unfold abs, spec_recover. simpl. rewrite map_fmap_union. f_equal; apply map_eq; intros k;
      rewrite lookup_fmap, !mem_view_lookup, ?map_get_map.
    + destruct (map_get k (archive q)) as [r|] eqn:Hk; [|done]. simpl. f_equal.
      destruct (Ha _ _ Hk) as (_ & _ & Ht & _). apply bool_decide_eq_true in Ht.
      by rewrite job_recover_terminal.
    + destruct (map_get k (pending q)) as [r|]; [|done]. simpl. by rewrite reset_running_job.
Qed.

Lemma validateEnqueue_id i u : validateEnqueue i = Ok u -> in_id i <> [].
Proof. unfold validateEnqueue. rewrite throw_if_ok, !orb_false_iff, streq_false. tauto. Qed.

Lemma mem_enqueue_law n now i q :
  inv n q -> 0 <= n -> clock_ok now ->
  let '(r, q') := enqueue now i q in
  inv n q' /\ (r, abs q') = spec_enqueue (fun k => k) now i (abs q).
Proof.
  intros Hi Hn _. unfold enqueue, spec_enqueue.
  destruct (validateEnqueue i) as [[]|e] eqn:Ev; [|done]. apply validateEnqueue_id in Ev.
  destruct (map_get (in_id i) (archive q)) as [r|] eqn:Ea.
  { rewrite (mem_abs_lookup_archive _ _ _ Ea). change (identity_of (job_of r)) with (identity_of_record r).
    destruct Hi as (Hi1 & Hi2 & Ha & Hi4). destruct (Ha _ _ Ea) as (_ & _ & Ht & _).
    apply bool_decide_eq_true in Ht. simpl. rewrite Ht.
    by destruct (assertSameIdentity _ _). }
  destruct (map_get (in_id i) (pending q)) as [r|] eqn:Ep.
  - rewrite (mem_abs_lookup_pending n _ _ _ Hi Ep). change (identity_of (job_of r)) with (identity_of_record r).
    destruct (assertSameIdentity _ _); [|done].
    destruct Hi as (Hi1 & Hp & Ha & Hi4) eqn:E; clear E. destruct (Hp _ _ Ep) as (? & ? & Ht & ?).
    apply bool_decide_eq_false in Ht.
    split.
    + apply inv_set_pending; [done| |done]. unfold is_running.
      destruct (bool_decide (state r = QRunning)) eqn:E; split_and!; try done.
      by apply bool_decide_eq_false.
    + rewrite abs_set_pending by done. unfold is_running. simpl.
      destruct (state r) eqn:E; try done; cbn [bool_decide]; f_equal; f_equal; unfold job_of; simpl; by rewrite ?E.
  - rewrite (proj2 (mem_abs_lookup_none q (in_id i))) by done. split.
    + apply inv_set_pending; [done| |done]. by split_and!.
    + by rewrite abs_set_pending.
Qed.

Lemma claim_loop_none now l :
  claim_loop now l = None ->
  forall k r, map_get k l = Some r -> state r = QRunning \/ now < nextAttemptAt r.
Proof.
  induction l as [|[k' r'] l IH]; [done|]. simpl.
  destruct (is_running (state r') || (now <? nextAttemptAt r')) eqn:E; [|done].
  destruct (claim_loop now l) as [[? ?]|]; [done|]. intros _ k r.
  destruct (bool_decide (k = k')); [|by apply IH]. intros [= <-].
  apply orb_true_iff in E as [E|E]; [left; by apply bool_decide_eq_true in E|right; by apply Z.ltb_lt].
Qed.

Definition run_record (r : record) : record :=
  mkRecord (id r) (deploymentId r) (jobFingerprint r) (body r) (redeliveryBody r)
    QRunning (attempts r + 1) (nextAttemptAt r) (terminalResult r) (lastResult r).

Lemma claim_loop_some now l c l' :
  map_wf l -> claim_loop now l = Some (c, l') ->
  exists k r, map_get k l = Some r /\ state r <> QRunning /\ nextAttemptAt r <= now /\
    c = claim_of (job_of (run_record r)) /\ l' = map_set k (run_record r) l.
Proof.
  unfold map_wf. revert l'. induction l as [|[k r] l IH]; intros l' Hwf; [done|]. simpl in *.
  apply NoDup_cons in Hwf as [Hn Hwf].
  destruct (is_running (state r) || (now <? nextAttemptAt r)) eqn:E.
  - destruct (claim_loop now l) as [[c1 l1]|]; [|done]. intros [= <- <-].
    destruct (IH l1 Hwf eq_refl) as (k1 & r1 & Hk1 & ? & ? & -> & ->).
    assert (k1 <> k) as Hne.
    { intros ->. apply Hn. apply map_get_In in Hk1. apply list_elem_of_fmap. by exists (k, r1). }
    exists k1, r1. simpl. rewrite bool_decide_eq_false_2 by done. done.
  - intros [= <- <-]. apply orb_false_iff in E as [E1 E2]. apply bool_decide_eq_false in E1.
    apply Z.ltb_ge in E2. exists k, r. simpl. by rewrite bool_decide_eq_true_2.
Qed.

Lemma mem_claim_law n now q :
  inv n q -> 0 <= n < MAX_SAFE_INTEGER -> clock_ok now ->
  exists c q', claim now q = (Ok c, q') /\ inv (n + 1) q' /\ spec_claim now (abs q) c (abs q').
Proof.
  intros Hi Hn _. unfold claim. destruct (claim_loop now (pending q)) as [[c l']|] eqn:E.
  - apply claim_loop_some in E as (k & r & Hk & Hs & Ht & -> & ->); [|by destruct Hi].
    pose proof (mem_abs_lookup_pending _ _ _ _ Hi Hk) as Hl.
    assert (map_get k (archive q) = None) as Hd by (by apply Hi in Hk).
    destruct Hi as (Hwf & Hp & Ha & Hdis) eqn:E; clear E. destruct (Hp _ _ Hk) as (Hid & ? & Hst & ?).
    eexists _, _. split; [reflexivity|]. split.
    + apply inv_set_pending; [eapply mem_inv_mono; [exact Hi|lia]| |done]. split_and!; try done. simpl. lia.
    + rewrite abs_set_pending by done.
      change (job_of (run_record r)) with (job_run (job_of r)). constructor; [done|].
      apply bool_decide_eq_false in Hst. split; [|done]. simpl. destruct (state r); tauto.
  - eexists _, _. split; [reflexivity|]. split; [eapply mem_inv_mono; [done|lia]|].
    constructor. intros k j Hj [Hst Hle]. unfold abs in Hj.
    apply lookup_union_Some_raw in Hj as [Hj|[_ Hj]]; rewrite mem_view_lookup, fmap_Some in Hj;
      destruct Hj as (r & Hr & ->); simpl in *.
    + destruct Hi as (_ & _ & Ha & _). destruct (Ha _ _ Hr) as (_ & _ & Ht & _).
      apply bool_decide_eq_true in Ht. rewrite Ht in Hst. by destruct Hst.
    + destruct (claim_loop_none _ _ E _ _ Hr) as [Hs|?]; [|lia]. rewrite Hs in Hst. by destruct Hst.
Qed.

Lemma mem_finish_law base n now jobId o q :
  inv n q -> clock_ok now -> valid_kind o = true ->
  let '(r, q') := finish base now jobId o q in
  inv n q' /\
  match spec_finish base (fun k => k) now jobId o (abs q) with
  | Some m => r = Ok tt /\ abs q' = m
  | None => (exists e, r = Throw e) /\ abs q' = abs q
  end.
Proof.
  intros Hi _ _. unfold finish, spec_finish.
  destruct (map_get jobId (pending q)) as [r|] eqn:Ep; cycle 1.
  { split; [done|]. destruct (abs q !! jobId) as [j|] eqn:Ej; [|split; [by eexists|done]].
    rewrite decide_False; [split; [by eexists|done]|]. intros (_ & Hr & _).
    unfold abs in Ej. apply lookup_union_Some_raw in Ej as [Ej|[_ Ej]]; rewrite mem_view_lookup in Ej;
      [|by rewrite Ep in Ej].
    apply fmap_Some in Ej as (r & Hk & ->). destruct Hi as (_ & _ & Ha & _).
    destruct (Ha _ _ Hk) as (_ & _ & Ht & _). apply bool_decide_eq_true in Ht. simpl in Hr. congruence. }
  rewrite (mem_abs_lookup_pending _ _ _ _ Hi Ep).
  destruct Hi as (Hwf & Hp & Ha & Hd) eqn:E; clear E.
  destruct (Hp _ _ Ep) as (Hid & Hne & Hst & Hat). pose proof (Hd _ _ Ep) as Hdis.
  unfold is_running. destruct (decide (state r = QRunning)) as [Hr|Hr]; cycle 1.
  { rewrite bool_decide_eq_false_2 by done. cbn [negb].
    rewrite decide_False by (intros (_ & ? & _); done). split; [done|]. by split; [eexists|]. }
  rewrite bool_decide_eq_true_2 by done. cbn [negb]. rewrite decide_True by done.
  destruct (streq (o_kind o) (js "terminal")).
  - split; [|split; [done|]].
    + split_and!; simpl; [by apply map_wf_delete| | |].
      * intros k r' Hk. destruct (decide (k = jobId)) as [->|Hk'].
        -- by rewrite map_get_delete_eq in Hk.
        -- rewrite map_get_delete_ne in Hk by done. by apply Hp.
      * intros k r'. destruct (decide (k = jobId)) as [->|Hk'].
        -- rewrite map_get_set_eq. intros [= <-]. by split_and!.
        -- rewrite map_get_set_ne by done. apply Ha.
      * intros k r' Hk. destruct (decide (k = jobId)) as [->|Hk'].
        -- by rewrite map_get_delete_eq in Hk.
        -- rewrite map_get_delete_ne in Hk by done. rewrite map_get_set_ne by done. by eapply Hd.
    + unfold abs. simpl. rewrite view_set, mem_view_delete by done. rewrite <- insert_union_l.
      apply map_eq. intros k. destruct (decide (k = jobId)) as [->|Hk'].
      * by rewrite !lookup_insert_eq.
      * rewrite !lookup_insert_ne by done. by rewrite !lookup_union, lookup_delete_ne.
  - split; [|split; [done|]].
    + apply inv_set_pending; try done.
    + rewrite abs_set_pending by done. done.
Qed.

Lemma mem_inv_keyed n q : inv n q -> keyed (fun k => k) (abs q).
Proof.
  intros (_ & Hp & Ha & _) k j Hj. unfold abs in Hj.
  apply lookup_union_Some_raw in Hj as [Hj|[_ Hj]]; rewrite mem_view_lookup, fmap_Some in Hj;
    destruct Hj as (r & Hr & ->); [by destruct (Ha _ _ Hr)|by destruct (Hp _ _ Hr)].
Qed.

#[export] Instance queue (base : Z) : JobQueue t base := {|
  q_key := fun k => k;
  q_initialize _ := initialize;
  q_enqueue := enqueue;
  q_claim := claim;
  q_finish := finish base;
  q_inv := inv;
  q_abs := abs;
  q_inv_mono := mem_inv_mono;
  q_keyed_law := mem_inv_keyed;
  q_initialize_law n _ := mem_initialize_law n;
  q_enqueue_law := mem_enqueue_law;
  q_claim_law := mem_claim_law;
  q_finish_law := mem_finish_law base;
|}.

Lemma mem_empty_inv : inv 0 empty.
Proof. split_and!; [constructor|done..]. Qed.
End Memory.
