(* ===== verification/FsQueue.v ===== *)
(** * The filesystem job queue ([job-queue.mjs], [FilesystemCompilerJobQueue])

    Two directories of JSON files named after the hash of the job id.  Every
    operation runs under the queue's [lock], so operations do not interleave;
    each is a program over the directories that records the sequence of file
    system calls it makes.  Running all of them is the operation; running a
    prefix is a crash in the middle of it.

    A file holds a record, or something [JSON.parse] or the [typeof] tests of
    [readRecord] reject ([Malformed], also the content of a file that is being
    written).  A directory listing, a rename and a removal are single steps; the
    [fsync] calls order them on disk and change nothing here. *)

From S2P Require Import Prelude JsText JsNum JsValue Regex Validators Node QueueSpec.

(** [randomUUID()]: the n-th draw.  Two draws never give the same value. *)
Class Uuid := {
  randomUUID : nat -> jsstr;
  randomUUID_inj : Inj (=) (=) randomUUID;
}.

(** A concrete supply: the draws count up. *)
Definition toy_uuid : Uuid.
Proof.
  refine {| randomUUID n := to_radix 10 (Z.of_nat n) |}.
  intros a b E. apply (f_equal (parse_radix 10)) in E.
  rewrite !parse_to_radix in E by lia. by apply Nat2Z.inj.
Defined.

Module Fs.

(** A persisted record: the fields the queue writes, an absent field is
    [None]. *)
Record record := mkRecord {
  schemaVersion : Z;
  id : jsstr;
  deploymentId : jsstr;
  jobFingerprint : jsstr;
  body : jsstr;
  bodySha256 : jsstr;
  redeliveryBody : option jsstr;
  redeliveryBodySha256 : option jsstr;
  state : qstate;
  attempts : Z;
  nextAttemptAt : Z;
  createdAt : Z;
  updatedAt : Z;
  terminalResult : option jsval;
  lastResult : option jsval;
}.

Inductive content := Malformed | Stored (r : record).

Inductive dirname := Pending | Archive.

#[export] Instance dirname_eq_dec : EqDecision dirname.
Proof. solve_decision. Defined.

(** [directory/pending], [directory/archive], and the number of UUIDs drawn. *)
Record t := mkFs {
  pendingDirectory : gmap jsstr content;
  archiveDirectory : gmap jsstr content;
  draws : nat;
}.

Definition dir (d : dirname) (s : t) : gmap jsstr content :=
  match d with Pending => pendingDirectory s | Archive => archiveDirectory s end.

Definition set_dir (d : dirname) (f : gmap jsstr content -> gmap jsstr content) (s : t) : t :=
  match d with
  | Pending => mkFs (f (pendingDirectory s)) (archiveDirectory s) (draws s)
  | Archive => mkFs (pendingDirectory s) (f (archiveDirectory s)) (draws s)
  end.

(** ** File system calls *)
Inductive prim :=
  | DrawUuid
  | OpenNew (d : dirname) (name : jsstr)
  | WriteFile (d : dirname) (name : jsstr) (r : record)
  | Rename (d : dirname) (from to : jsstr)
  | Remove (d : dirname) (name : jsstr).

Definition exec_prim (p : prim) (s : t) : t :=
  match p with
  | DrawUuid => mkFs (pendingDirectory s) (archiveDirectory s) (S (draws s))
  | OpenNew d name => set_dir d (fun m => <[name := Malformed]> m) s
  | WriteFile d name r => set_dir d (fun m => <[name := Stored r]> m) s
  | Rename d from to =>
      set_dir d (fun m =>
        match m !! from with
        | Some c => <[to := c]> (delete from m)
        | None => m
        end) s
  | Remove d name => set_dir d (fun m => delete name m) s
  end.

Definition exec (ps : list prim) (s : t) : t := fold_left (fun s p => exec_prim p s) ps s.

(** ** Programs: the calls made from a state, and the result *)
Definition io (A : Type) : Type := t -> list prim * res A.

#[global] Instance io_ret : MRet io := fun A a s => ([], Ok a).
#[global] Instance io_bind : MBind io := fun A B k m s =>
  match m s with
  | (p, Throw e) => (p, Throw e)
  | (p, Ok a) => let '(p', r) := k a (exec p s) in (p ++ p', r)
  end.

Definition lift {A} (r : res A) : io A := fun s => ([], r).

Definition run {A} (m : io A) (s : t) : res A * t :=
  let '(p, r) := m s in (r, exec p s).

(** The states in which a crash during [m] may leave the directories. *)
Definition crash {A} (m : io A) (s : t) (k : nat) : t := exec (take k (m s).1) s.

(** ** Helpers of the module *)
Section queue.
Context `{Sha256} `{Base64} `{Uuid}.

Definition queueKey (jobId : jsstr) : jsstr := sha256_text jobId.
Definition queueFile (jobId : jsstr) : jsstr := queueKey jobId ++ js ".json".

(** [/^[a-f0-9]{64}\.json$/] *)
Definition json_name (name : jsstr) : bool :=
  matches (Seq (rep (Cls hex_lower) 64 0) (lit ".json")) name.

Definition jsonFiles (d : dirname) : io (list jsstr) := fun s =>
  ([], Ok (merge_sort str_le (filter (fun n => json_name n = true) (map fst (map_to_list (dir d s)))))).

Definition invalid_job : exn := PlainError "invalid persisted compiler job".

Definition decodeBody (r : record) : res bytes :=
  let b := base64_decode (body r) in
  if negb (streq (sha256 b) (bodySha256 r)) then Throw invalid_job else Ok b.

Definition parseRecord (c : content) : res record :=
  match c with
  | Malformed => Throw invalid_job
  | Stored r =>
      if negb (schemaVersion r =? 1) || negb (is_safe (attempts r)) || negb (is_safe (nextAttemptAt r))
      then Throw invalid_job
      else
        _ ← decodeBody r;
        match redeliveryBody r, redeliveryBodySha256 r with
        | None, None => Ok r
        | Some b, Some h => if streq (sha256 (base64_decode b)) h then Ok r else Throw invalid_job
        | _, _ => Throw invalid_job
        end
  end.

Definition ENOENT : exn := CodedError "no such file or directory" "ENOENT".

Definition readRecord (d : dirname) (name : jsstr) : io record := fun s =>
  ([], match dir d s !! name with
       | None => Throw ENOENT
       | Some c => parseRecord c
       end).

Definition readRecordIfPresent (d : dirname) (name : jsstr) : io (option record) := fun s =>
  ([], match (readRecord d name s).2 with
       | Ok r => Ok (Some r)
       | Throw (CodedError m code) =>
           if String.eqb code "ENOENT" then Ok None else Throw (CodedError m code)
       | Throw e => Throw e
       end).

Definition temporary (name : jsstr) (n : nat) : jsstr :=
  name ++ js "." ++ randomUUID n ++ js ".partial".

(** [open(temporary, "wx")] fails when the file exists; the handler then
    removes the temporary file. *)
Definition atomicWrite (d : dirname) (name : jsstr) (r : record) : io unit := fun s =>
  let tmp := temporary name (draws s) in
  match dir d s !! tmp with
  | Some _ => ([DrawUuid; Remove d tmp], Throw (CodedError "file already exists" "EEXIST"))
  | None => ([DrawUuid; OpenNew d tmp; WriteFile d tmp r; Rename d tmp name], Ok tt)
  end.

Definition durableRemove (d : dirname) (name : jsstr) : io unit := fun s =>
  ([Remove d name], Ok tt).

Definition identity_of_record (r : record) : identity :=
  (id r, deploymentId r, jobFingerprint r).

Definition is_running (s : qstate) : bool := bool_decide (s = QRunning).

(** ** [initialize]: the loop body and the loop *)
Definition with_state (st : qstate) (now : Z) (r : record) : record :=
  mkRecord (schemaVersion r) (id r) (deploymentId r) (jobFingerprint r) (body r) (bodySha256 r)
    (redeliveryBody r) (redeliveryBodySha256 r) st (attempts r) (nextAttemptAt r)
    (createdAt r) now (terminalResult r) (lastResult r).

Definition repair (now : Z) (name : jsstr) : io unit :=
  r ← readRecord Pending name;
  archived ← readRecordIfPresent Archive name;
  match archived with
  | Some a =>
      _ ← lift (assertSameIdentity (identity_of_record a) (identity_of_record r));
      if negb (bool_decide (state a = QTerminal))
      then lift (Throw (PlainError "invalid compiler queue archive state"))
      else durableRemove Pending name
  | None =>
      if is_running (state r) then atomicWrite Pending name (with_state QPending now r)
      else lift (Ok tt)
  end.

Fixpoint repair_all (now : Z) (names : list jsstr) : io unit :=
  match names with
  | [] => lift (Ok tt)
  | name :: rest => _ ← repair now name; repair_all now rest
  end.

Definition initialize (now : Z) : io unit :=
  names ← jsonFiles Pending;
  repair_all now names.

(** ** [enqueue] *)
Definition redelivered (now : Z) (i : input) (r : record) : record :=
  mkRecord (schemaVersion r) (id r) (deploymentId r) (jobFingerprint r) (body r) (bodySha256 r)
    (Some (base64_encode (in_body i))) (Some (sha256 (in_body i))) (state r) (attempts r)
    (nextAttemptAt r) (createdAt r) now (terminalResult r) (lastResult r).

Definition replaced (now : Z) (i : input) (r : record) : record :=
  mkRecord (schemaVersion r) (id r) (deploymentId r) (jobFingerprint r)
    (base64_encode (in_body i)) (sha256 (in_body i))
    (redeliveryBody r) (redeliveryBodySha256 r) QPending (attempts r) now
    (createdAt r) now (terminalResult r) (lastResult r).

Definition created (now : Z) (i : input) : record :=
  mkRecord 1 (in_id i) (in_deploymentId i) (in_jobFingerprint i)
    (base64_encode (in_body i)) (sha256 (in_body i)) None None QPending 0 now now now None None.

Definition enqueue (now : Z) (i : input) : io bool :=
  _ ← lift (validateEnqueue i);
  let name := queueFile (in_id i) in
  archived ← readRecordIfPresent Archive name;
  match archived with
  | Some a =>
      _ ← lift (assertSameIdentity (identity_of_record a) (identity_of_input i));
      lift (Ok true)
  | None =>
      existing ← readRecordIfPresent Pending name;
      match existing with
      | Some r =>
          _ ← lift (assertSameIdentity (identity_of_record r) (identity_of_input i));
          _ ← (if is_running (state r) then atomicWrite Pending name (redelivered now i r)
               else atomicWrite Pending name (replaced now i r));
          lift (Ok true)
      | None =>
          _ ← atomicWrite Pending name (created now i);
          lift (Ok false)
      end
  end.

(** ** [claim] *)
Definition claimed_record (now : Z) (r : record) : record :=
  mkRecord (schemaVersion r) (id r) (deploymentId r) (jobFingerprint r) (body r) (bodySha256 r)
    (redeliveryBody r) (redeliveryBodySha256 r) QRunning (attempts r + 1) (nextAttemptAt r)
    (createdAt r) now (terminalResult r) (lastResult r).

Fixpoint claim_loop (now : Z) (names : list jsstr) : io (option claimed) :=
  match names with
  | [] => lift (Ok None)
  | name :: rest =>
      r ← readRecord Pending name;
      if is_running (state r) || (now <? nextAttemptAt r) then claim_loop now rest
      else
        let running := claimed_record now r in
        _ ← atomicWrite Pending name running;
        b ← lift (decodeBody running);
        lift (Ok (Some (mkClaimed (id running) (deploymentId running) b (attempts running))))
  end.

Definition claim (now : Z) : io (option claimed) :=
  names ← jsonFiles Pending;
  claim_loop now names.

(** ** [finish] *)
Definition terminal_record (now : Z) (o : outcome) (r : record) : record :=
  mkRecord (schemaVersion r) (id r) (deploymentId r) (jobFingerprint r) (body r) (bodySha256 r)
    (redeliveryBody r) (redeliveryBodySha256 r) QTerminal (attempts r) (nextAttemptAt r)
    (createdAt r) now (Some (o_result o)) (lastResult r).

Definition retry_record (retryDelayMs now : Z) (o : outcome) (r : record) : record :=
  mkRecord (schemaVersion r) (id r) (deploymentId r) (jobFingerprint r)
    (default (body r) (redeliveryBody r)) (default (bodySha256 r) (redeliveryBodySha256 r))
    None None QRetry (attempts r) (now + retryDelay retryDelayMs (attempts r))
    (createdAt r) now (terminalResult r) (Some (o_result o)).

Definition finish (retryDelayMs now : Z) (jobId : jsstr) (o : outcome) : io unit :=
  if streq jobId [] || negb (valid_kind o)
  then lift (Throw (TypeError "invalid compiler queue outcome"))
  else
    let name := queueFile jobId in
    r ← readRecord Pending name;
    if negb (streq (id r) jobId) || negb (is_running (state r))
    then lift (Throw (PlainError "compiler queue state conflict"))
    else if streq (o_kind o) (js "terminal") then
      _ ← atomicWrite Archive name (terminal_record now o r);
      durableRemove Pending name
    else
      atomicWrite Pending name (retry_record retryDelayMs now o r).

(** ** [counts] *)
Definition counts : io (Z * Z) :=
  pending ← jsonFiles Pending;
  archive ← jsonFiles Archive;
  lift (Ok (zlen pending, zlen archive)).
End queue.

(** ** Running programs *)
Lemma exec_app p q s : exec (p ++ q) s = exec q (exec p s).
Proof. unfold exec. apply fold_left_app. Qed.

Lemma run_bind {A B} (m : io A) (k : A -> io B) s :
  run (m ≫= k) s =
  match run m s with
  | (Throw e, s') => (Throw e, s')
  | (Ok a, s') => run (k a) s'
  end.
Proof.
  unfold run, mbind, io_bind. destruct (m s) as [p [a|e]]; [|done].
  destruct (k a (exec p s)) as [p' r]. by rewrite exec_app.
Qed.

Lemma bind_pure {A B} (m : io A) (k : A -> io B) s a : m s = ([], Ok a) -> (m ≫= k) s = k a s.
Proof. intros E. unfold mbind, io_bind. rewrite E. simpl. by destruct (k a s). Qed.

Lemma bind_throw {A B} (m : io A) (k : A -> io B) s p e : m s = (p, Throw e) -> (m ≫= k) s = (p, Throw e).
Proof. intros E. unfold mbind, io_bind. by rewrite E. Qed.

Lemma run_lift {A} (r : res A) s : run (lift r) s = (r, s).
Proof. done. Qed.

(** A property of every state a crash may leave. *)
Definition crash_safe {A} (P : t -> Prop) (m : io A) (s : t) : Prop := forall k, P (crash m s k).

Lemma crash_safe_pure {A} P (r : res A) (m : io A) s : m s = ([], r) -> P s -> crash_safe P m s.
Proof. intros E Hp k. unfold crash. rewrite E. simpl. by rewrite take_nil. Qed.

Lemma crash_safe_bind {A B} P (m : io A) (k : A -> io B) s :
  crash_safe P m s -> (forall a s', run m s = (Ok a, s') -> crash_safe P (k a) s') ->
  crash_safe P (m ≫= k) s.
Proof.
  unfold crash_safe, crash, run. intros Hm Hk n. unfold mbind, io_bind.
  destruct (m s) as [p [a|e]] eqn:E; [|apply Hm].
  specialize (Hk a (exec p s) eq_refl). destruct (k a (exec p s)) as [p' r] eqn:E'. simpl in *.
  rewrite take_app. destruct (decide (n <= length p)%nat).
  - replace (n - length p)%nat with 0%nat by lia. rewrite take_0, app_nil_r. apply Hm.
  - rewrite take_ge, exec_app by lia. apply Hk.
Qed.

(** ** File names *)
Section names.
Context `{Sha256} `{Base64} `{Uuid}.

Lemma json_name_spec name :
  json_name name = true <-> exists h, name = h ++ js ".json" /\ lowerSha256 h = true.
Proof.
  unfold json_name, lowerSha256. rewrite matches_spec, lang_seq_inv. setoid_rewrite lang_lit.
  setoid_rewrite matches_spec. naive_solver.
Qed.

Lemma lowerSha256_length h : lowerSha256 h = true -> length h = 64%nat.
Proof. unfold lowerSha256. rewrite matches_rep_cls. lia. Qed.

Lemma json_name_length name : json_name name = true -> length name = 69%nat.
Proof.
  rewrite json_name_spec. intros (h & -> & Hh%lowerSha256_length). rewrite length_app, Hh. done.
Qed.

Lemma queueFile_json jobId : json_name (queueFile jobId) = true.
Proof. apply json_name_spec. eexists. split; [done|]. apply sha256_hex. Qed.

Lemma temporary_json name k : json_name name = true -> json_name (temporary name k) = false.
Proof.
  intros Hn. destruct (json_name (temporary name k)) eqn:E; [|done].
  apply json_name_length in Hn, E. unfold temporary in E. rewrite !length_app in E.
  change (length (js ".partial")) with 8%nat in E. lia.
Qed.

Lemma temporary_inj a b j k :
  json_name a = true -> json_name b = true -> temporary a j = temporary b k -> a = b /\ j = k.
Proof.
  intros Ha%json_name_length Hb%json_name_length E. unfold temporary in E.
  apply app_inj_1 in E as [-> E]; [|lia]. split; [done|].
  apply app_inv_head, app_inv_tail in E. by apply randomUUID_inj.
Qed.
End names.

(** ** States

    Two states are the same to the queue when they agree on the files it
    reads, the ones with a job name; temporary files do not count. *)
Section states.
Context `{Sha256} `{Base64} `{Uuid}.

Definition same_files (s s' : t) : Prop :=
  forall d name, json_name name = true -> dir d s !! name = dir d s' !! name.

#[export] Instance same_files_equiv : Equivalence same_files.
Proof.
  split; [by intros s d n Hn|intros s s' Hs d n Hn; by rewrite Hs|].
  intros a b c Hab Hbc d n Hn. by rewrite Hab, Hbc.
Qed.

Definition to_job (r : record) : job :=
  mkJob (id r) (deploymentId r) (jobFingerprint r) (base64_decode (body r))
    (base64_decode <$> redeliveryBody r) (state r) (attempts r) (nextAttemptAt r) (terminalResult r).

Definition job_of (c : content) : option job :=
  match c with
  | Malformed => None
  | Stored r => Some (to_job r)
  end.

Definition view (m : gmap jsstr content) : queue :=
  map_imap (fun name c => if json_name name then job_of c else None) m.

(** A job is where the archive says, or else where [pending] says. *)
Definition abs (s : t) : queue := view (archiveDirectory s) ∪ view (pendingDirectory s).

Lemma fs_view_lookup m name : view m !! name = if json_name name then m !! name ≫= job_of else None.
Proof.
  unfold view. rewrite map_lookup_imap. destruct (m !! name); simpl; by destruct (json_name name).
Qed.

Lemma view_json m name : json_name name = true -> view m !! name = m !! name ≫= job_of.
Proof. intros Hn. by rewrite fs_view_lookup, Hn. Qed.

Lemma view_insert m name r :
  json_name name = true -> view (<[name := Stored r]> m) = <[name := to_job r]> (view m).
Proof.
  intros Hn. apply map_eq. intros k. rewrite fs_view_lookup. destruct (decide (k = name)) as [->|].
  - by rewrite Hn, !lookup_insert_eq.
  - rewrite !lookup_insert_ne by done. by rewrite fs_view_lookup.
Qed.

Lemma fs_view_delete m name : view (delete name m) = delete name (view m).
Proof.
  apply map_eq. intros k. rewrite fs_view_lookup. destruct (decide (k = name)) as [->|].
  - rewrite !lookup_delete_eq. by destruct (json_name name).
  - rewrite !lookup_delete_ne by done. by rewrite fs_view_lookup.
Qed.

#[export] Instance abs_proper : Proper (same_files ==> eq) abs.
Proof.
  intros s s' Hs. unfold abs. f_equal; apply map_eq; intros k; rewrite !fs_view_lookup;
    (destruct (json_name k) eqn:Hk; [|done]).
  - by rewrite (Hs Archive k Hk : archiveDirectory s !! k = archiveDirectory s' !! k).
  - by rewrite (Hs Pending k Hk : pendingDirectory s !! k = pendingDirectory s' !! k).
Qed.

(** *** Invariants *)
Definition file_ok (n : Z) (d : dirname) (name : jsstr) (c : content) : Prop :=
  exists r, c = Stored r /\ parseRecord c = Ok r /\ name = queueFile (id r) /\ id r <> [] /\
    (state r = QTerminal <-> d = Archive) /\ attempts r <= n /\ 0 <= attempts r.

Definition files_ok (n : Z) (s : t) : Prop :=
  forall d name c, json_name name = true -> dir d s !! name = Some c -> file_ok n d name c.

(** No future UUID names a file that exists. *)
Definition fresh (s : t) : Prop :=
  forall d name k, json_name name = true -> (draws s <= k)%nat -> dir d s !! temporary name k = None.

(** A file present in both directories (after a crash in [finish]) belongs to
    one job. *)
Definition residue_ok (s : t) : Prop :=
  forall name r a, json_name name = true ->
    pendingDirectory s !! name = Some (Stored r) -> archiveDirectory s !! name = Some (Stored a) ->
    identity_of_record a = identity_of_record r.

(** What a crash may leave, and what [initialize] and every completed operation
    leave. *)
Definition recoverable (n : Z) (s : t) : Prop := files_ok n s /\ fresh s /\ residue_ok s.

Definition disjoint_dirs (s : t) : Prop :=
  forall name, json_name name = true ->
    is_Some (pendingDirectory s !! name) -> archiveDirectory s !! name = None.

Definition inv (n : Z) (s : t) : Prop := recoverable n s /\ disjoint_dirs s.

Lemma recoverable_same n s s' : same_files s s' -> fresh s' -> recoverable n s -> recoverable n s'.
Proof.
  intros Hs Hf (Hok & _ & Hr). split_and!; [|done|].
  - intros d name c Hn Hc. rewrite <- Hs in Hc by done. by apply Hok.
  - intros name r a Hn Hp Ha. apply (Hr name); [done| |].
    + change (dir Pending s !! name = Some (Stored r)). by rewrite Hs.
    + change (dir Archive s !! name = Some (Stored a)). by rewrite Hs.
Qed.

Lemma file_ok_mono n n' d name c : n <= n' -> file_ok n d name c -> file_ok n' d name c.
Proof. intros Hle (r & ? & ? & ? & ? & ? & ? & ?). exists r. split_and!; try done. lia. Qed.

Lemma recoverable_mono n n' s : n <= n' -> recoverable n s -> recoverable n' s.
Proof.
  intros Hle (Hok & Hf & Hr). split_and!; try done.
  intros d name c Hn Hc. eapply file_ok_mono; [done|by apply Hok].
Qed.

Lemma fs_inv_mono n n' s : inv n s -> n <= n' -> inv n' s.
Proof. intros [Hr Hd] Hle. split; [by eapply recoverable_mono|done]. Qed.

(** *** The effect of the two writing calls *)
Definition written (d : dirname) (name : jsstr) (r : record) (s : t) : t :=
  set_dir d (fun m => <[name := Stored r]> m)
    (mkFs (pendingDirectory s) (archiveDirectory s) (S (draws s))).

Definition removed (d : dirname) (name : jsstr) (s : t) : t := set_dir d (fun m => delete name m) s.

Lemma dir_set_eq d f s : dir d (set_dir d f s) = f (dir d s).
Proof. by destruct d. Qed.

Lemma dir_set_ne d d' f s : d <> d' -> dir d (set_dir d' f s) = dir d s.
Proof. by destruct d, d'. Qed.

Lemma draws_set d f s : draws (set_dir d f s) = draws s.
Proof. by destruct d. Qed.

Lemma set_dir_set_dir d f g s : set_dir d g (set_dir d f s) = set_dir d (fun m => g (f m)) s.
Proof. by destruct d. Qed.

Lemma set_dir_ext d f g s : f (dir d s) = g (dir d s) -> set_dir d f s = set_dir d g s.
Proof. destruct d; simpl; by intros ->. Qed.

Lemma run_atomicWrite d name r s :
  fresh s -> json_name name = true -> run (atomicWrite d name r) s = (Ok tt, written d name r s).
Proof.
  intros Hf Hn. unfold run, atomicWrite. rewrite (Hf d name (draws s) Hn) by lia.
  unfold exec. cbn [fold_left exec_prim]. f_equal. unfold written.
  rewrite !set_dir_set_dir. apply set_dir_ext.
  set (s1 := mkFs _ _ _). replace (dir d s1) with (dir d s) by (by destruct d).
  rewrite lookup_insert_eq. rewrite insert_insert_eq, delete_insert_eq.
  by rewrite delete_id by (by apply Hf).
Qed.

Lemma run_durableRemove d name s : run (durableRemove d name) s = (Ok tt, removed d name s).
Proof. done. Qed.

Lemma fresh_draw s :
  fresh s -> fresh (mkFs (pendingDirectory s) (archiveDirectory s) (S (draws s))).
Proof. intros Hf d name k Hn Hk. simpl in Hk. rewrite <- (Hf d name k Hn) by lia. by destruct d. Qed.

Lemma fresh_set d f s :
  fresh s -> (forall name k, json_name name = true -> (draws s <= k)%nat ->
              f (dir d s) !! temporary name k = None) ->
  fresh (set_dir d f s).
Proof.
  intros Hf Hset d' name k Hn Hk. rewrite draws_set in Hk. destruct (decide (d' = d)) as [->|].
  - rewrite dir_set_eq. by apply Hset.
  - rewrite dir_set_ne by done. by apply Hf.
Qed.

Lemma fresh_written d name r s : fresh s -> json_name name = true -> fresh (written d name r s).
Proof.
  intros Hf%fresh_draw Hn. apply fresh_set; [done|]. intros name' k Hn' Hk.
  rewrite lookup_insert_ne; [by apply Hf|]. intros ->. by rewrite temporary_json in Hn.
Qed.

Lemma fresh_removed d name s : fresh s -> fresh (removed d name s).
Proof.
  intros Hf. apply fresh_set; [done|]. intros name' k Hn' Hk.
  rewrite lookup_delete_None. right. by apply Hf.
Qed.

(** Every state a crash leaves during [atomicWrite] is the old one, as far as
    the queue can see, or the new one. *)
Lemma crash_safe_atomicWrite P d name r s :
  fresh s -> json_name name = true ->
  (forall s', fresh s' -> same_files s s' -> P s') -> P (written d name r s) ->
  crash_safe P (atomicWrite d name r) s.
Proof.
  intros Hf Hn Hold Hnew k.
  pose proof (run_atomicWrite d name r s Hf Hn) as Hrun. unfold run in Hrun. unfold crash.
  pose proof (Hf d name (draws s) Hn ltac:(lia)) as Htmp.
  unfold atomicWrite in *. rewrite Htmp in *. cbn [fst] in *.
  assert (forall c, fresh (set_dir d (fun m => <[temporary name (draws s) := c]> m)
                     (mkFs (pendingDirectory s) (archiveDirectory s) (S (draws s)))) /\
                    same_files s (set_dir d (fun m => <[temporary name (draws s) := c]> m)
                     (mkFs (pendingDirectory s) (archiveDirectory s) (S (draws s))))) as Htm.
  { intros c. split.
    - apply fresh_set; [by apply fresh_draw|]. intros name' k' Hn' Hk'. simpl in Hk'.
      rewrite lookup_insert_ne; [|intros E%temporary_inj; [lia|done..]].
      by apply (fresh_draw s Hf d).
    - intros d' name' Hn'. destruct (decide (d' = d)) as [->|].
      + rewrite dir_set_eq, lookup_insert_ne; [by destruct d|]. intros <-. by rewrite temporary_json in Hn'.
      + rewrite dir_set_ne by done. by destruct d'. }
  destruct k as [|[|[|[|k]]]]; cbn [take].
  - by apply Hold.
  - apply Hold; [by apply fresh_draw|]. intros d' name' _. by destruct d'.
  - apply Hold; apply Htm.
  - unfold exec. cbn [fold_left exec_prim]. rewrite set_dir_set_dir.
    rewrite (set_dir_ext _ _ (fun m => <[temporary name (draws s) := Stored r]> m));
      [apply Hold; apply Htm|]. by rewrite insert_insert_eq.
  - rewrite take_nil. apply (f_equal snd) in Hrun. cbn [snd] in Hrun. by rewrite Hrun.
Qed.

(** *** Reading *)
Definition record_valid (r : record) : Prop :=
  schemaVersion r = 1 /\ is_safe (attempts r) = true /\ is_safe (nextAttemptAt r) = true /\
  bodySha256 r = sha256 (base64_decode (body r)) /\
  redeliveryBodySha256 r = (fun b => sha256 (base64_decode b)) <$> redeliveryBody r.

Lemma parseRecord_valid r r' : parseRecord (Stored r) = Ok r' <-> r' = r /\ record_valid r.
Proof.
  unfold parseRecord, record_valid, decodeBody.
  destruct (Z.eqb_spec (schemaVersion r) 1); cbn [negb orb]; [|split; [done|tauto]].
  destruct (is_safe (attempts r)); cbn [negb orb]; [|split; [done|naive_solver]].
  destruct (is_safe (nextAttemptAt r)); cbn [negb orb]; [|split; [done|naive_solver]].
  destruct (streq (sha256 (base64_decode (body r))) (bodySha256 r)) eqn:E; cbn [negb mbind res_bind].
  - apply streq_true in E.
    destruct (redeliveryBody r) as [b|], (redeliveryBodySha256 r) as [h|]; simpl;
      try (split; [done|naive_solver]).
    + destruct (streq (sha256 (base64_decode b)) h) eqn:Eh.
      * apply streq_true in Eh as <-. split; [by intros [= <-]|by intros [-> _]].
      * apply streq_false in Eh. split; [done|]. intros (_ & _ & _ & _ & _ & [= ->]). done.
    + split; [by intros [= <-]|by intros [-> _]].
  - apply streq_false in E. split; [done|]. intros (_ & _ & _ & _ & Hb & _). congruence.
Qed.

Lemma decodeBody_valid r : record_valid r -> decodeBody r = Ok (base64_decode (body r)).
Proof. intros (_ & _ & _ & Hb & _). unfold decodeBody. by rewrite Hb, streq_refl. Qed.

Lemma file_ok_Stored n d name r :
  file_ok n d name (Stored r) <->
  record_valid r /\ name = queueFile (id r) /\ id r <> [] /\
  (state r = QTerminal <-> d = Archive) /\ attempts r <= n /\ 0 <= attempts r.
Proof.
  unfold file_ok. setoid_rewrite parseRecord_valid. split.
  - by intros (r' & [= <-] & [_ ?] & ?).
  - intros (? & ?). exists r. tauto.
Qed.

Lemma files_ok_get n s d name c :
  files_ok n s -> json_name name = true -> dir d s !! name = Some c ->
  exists r, c = Stored r /\ file_ok n d name (Stored r).
Proof. intros Hok Hn Hc. pose proof (Hok _ _ _ Hn Hc) as (r & -> & Hr). exists r. split; [done|]. by apply Hok. Qed.

Lemma readRecord_some n s d name r :
  files_ok n s -> json_name name = true -> dir d s !! name = Some (Stored r) ->
  readRecord d name s = ([], Ok r).
Proof.
  intros Hok Hn Hc. unfold readRecord. rewrite Hc.
  pose proof (Hok _ _ _ Hn Hc) as (r' & [= <-] & -> & _). done.
Qed.

Lemma readRecord_none s d name : dir d s !! name = None -> readRecord d name s = ([], Throw ENOENT).
Proof. intros Hc. unfold readRecord. by rewrite Hc. Qed.

Lemma readIfPresent_spec n s d name :
  files_ok n s -> json_name name = true ->
  exists o, readRecordIfPresent d name s = ([], Ok o) /\ dir d s !! name = Stored <$> o.
Proof.
  intros Hok Hn. unfold readRecordIfPresent, readRecord. simpl.
  destruct (dir d s !! name) as [c|] eqn:Hc.
  - pose proof (Hok _ _ _ Hn Hc) as (r & -> & -> & _). by exists (Some r).
  - by exists None.
Qed.

Lemma jsonFiles_spec d s :
  exists names, jsonFiles d s = ([], Ok names) /\ NoDup names /\
    forall name, name ∈ names <-> json_name name = true /\ is_Some (dir d s !! name).
Proof.
  eexists. split; [reflexivity|]. split.
  - rewrite merge_sort_Permutation. apply NoDup_filter, NoDup_fst_map_to_list.
  - intros name. rewrite merge_sort_Permutation, list_elem_of_filter, list_elem_of_fmap.
    apply and_iff_compat_l. split.
    + intros ([k c] & -> & Hk%elem_of_map_to_list). by exists c.
    + intros [c Hc%elem_of_map_to_list]. by exists (name, c).
Qed.

(** *** The invariants under the writing calls *)
Lemma files_ok_set n d f s :
  files_ok n s ->
  (forall name c, json_name name = true -> f (dir d s) !! name = Some c -> file_ok n d name c) ->
  files_ok n (set_dir d f s).
Proof.
  intros Hok Hf d' name c Hn. destruct (decide (d' = d)) as [->|].
  - rewrite dir_set_eq. by apply Hf.
  - rewrite dir_set_ne by done. by apply Hok.
Qed.

Lemma files_ok_written n d name r s :
  files_ok n s -> file_ok n d name (Stored r) -> files_ok n (written d name r s).
Proof.
  intros Hok Hr. apply files_ok_set.
  - intros d' name' c Hn Hc. apply Hok; [done|]. by destruct d'.
  - intros name' c Hn. rewrite lookup_insert_Some. intros [[<- <-]|[_ Hc]]; [done|].
    apply Hok; [done|]. by destruct d.
Qed.

Lemma files_ok_removed n d name s : files_ok n s -> files_ok n (removed d name s).
Proof.
  intros Hok. apply files_ok_set; [done|]. intros name' c Hn [_ Hc]%lookup_delete_Some. by apply Hok.
Qed.

(** *** The abstract queue under the writing calls *)
Lemma fs_abs_lookup_pending s name r :
  json_name name = true -> archiveDirectory s !! name = None ->
  pendingDirectory s !! name = Some (Stored r) -> abs s !! name = Some (to_job r).
Proof.
  intros Hn Ha Hp. unfold abs. rewrite lookup_union_r; rewrite view_json by done; [by rewrite Hp|by rewrite Ha].
Qed.

Lemma fs_abs_lookup_archive s name a :
  json_name name = true -> archiveDirectory s !! name = Some (Stored a) ->
  abs s !! name = Some (to_job a).
Proof. intros Hn Ha. unfold abs. apply lookup_union_Some_l. by rewrite view_json, Ha. Qed.

Lemma fs_abs_lookup_none s name :
  archiveDirectory s !! name = None -> pendingDirectory s !! name = None -> abs s !! name = None.
Proof.
  intros Ha Hp. unfold abs. rewrite lookup_union_None, !fs_view_lookup, Ha, Hp. by destruct (json_name name).
Qed.

Lemma abs_written_pending s name r :
  json_name name = true -> archiveDirectory s !! name = None ->
  abs (written Pending name r s) = <[name := to_job r]> (abs s).
Proof.
  intros Hn Ha. unfold abs. simpl. rewrite view_insert by done.
  symmetry. apply insert_union_r. by rewrite view_json, Ha.
Qed.

Lemma abs_written_archive s name r :
  json_name name = true -> abs (written Archive name r s) = <[name := to_job r]> (abs s).
Proof. intros Hn. unfold abs. simpl. rewrite view_insert by done. symmetry. apply insert_union_l. Qed.

Lemma abs_removed_pending s name a :
  json_name name = true -> archiveDirectory s !! name = Some (Stored a) ->
  abs (removed Pending name s) = abs s.
Proof.
  intros Hn Ha. unfold abs. simpl. rewrite fs_view_delete. apply map_eq. intros k.
  destruct (decide (k = name)) as [->|].
  - by rewrite !lookup_union, lookup_delete_eq, view_json, Ha; [|done]; simpl; destruct (view _ !! name).
  - by rewrite !lookup_union, lookup_delete_ne.
Qed.

(** Where the abstract queue has a job, a directory has a file. *)
Lemma abs_lookup_inv n s name j :
  files_ok n s -> abs s !! name = Some j ->
  json_name name = true /\ exists d r, dir d s !! name = Some (Stored r) /\ j = to_job r /\
    (d = Pending -> archiveDirectory s !! name = None).
Proof.
  intros Hok Hj. unfold abs in Hj. destruct (json_name name) eqn:Hn; cycle 1.
  { by rewrite lookup_union, !fs_view_lookup, Hn in Hj. }
  split; [done|]. apply lookup_union_Some_raw in Hj as [Hj|[Ha Hj]]; rewrite view_json in * by done.
  - apply bind_Some in Hj as (c & Hc & Hj). exists Archive.
    destruct c as [|r]; [done|]. injection Hj as <-. by exists r.
  - apply bind_Some in Hj as (c & Hc & Hj). exists Pending.
    destruct c as [|r]; [done|]. injection Hj as <-. exists r. split_and!; [done..|]. intros _.
    destruct (archiveDirectory s !! name) as [c|] eqn:Ea; [|done].
    destruct (files_ok_get n s Archive name c Hok Hn Ea) as (? & -> & _). done.
Qed.

Lemma recoverable_written_pending n s name r :
  recoverable n s -> json_name name = true -> file_ok n Pending name (Stored r) ->
  archiveDirectory s !! name = None -> recoverable n (written Pending name r s).
Proof.
  intros (Hok & Hf & Hres) Hn Hr Ha. split_and!.
  - by apply files_ok_written.
  - by apply fresh_written.
  - intros name' r' a Hn' Hp Ha'. simpl in Hp, Ha'. rewrite lookup_insert_Some in Hp.
    destruct Hp as [[<- _]|[_ Hp]]; [congruence|]. by apply (Hres name').
Qed.

Lemma inv_written_pending n s name r :
  inv n s -> json_name name = true -> file_ok n Pending name (Stored r) ->
  archiveDirectory s !! name = None -> inv n (written Pending name r s).
Proof.
  intros [Hrec Hd] Hn Hr Ha. split; [by apply recoverable_written_pending|].
  intros name' Hn' Hp. simpl in *. destruct (decide (name' = name)) as [->|Hne]; [done|].
  rewrite lookup_insert_ne in Hp by done. by apply Hd.
Qed.

(** ** Records the operations write *)
Lemma file_ok_with_state n name st now r :
  file_ok n Pending name (Stored r) -> st <> QTerminal ->
  file_ok n Pending name (Stored (with_state st now r)).
Proof.
  rewrite !file_ok_Stored; unfold record_valid. intros ((? & ? & ? & ? & ?) & ? & ? & ? & ? & ?) Hst. split_and!; try done; by split.
Qed.

Lemma bytes_ok_forallb b : forallb is_byte b = true -> bytes_ok b.
Proof. intros Hb. apply Forall_forall. intros x Hx%list_elem_of_In. by apply (proj1 (forallb_forall _ _) Hb). Qed.

Lemma validateEnqueue_inv i u : validateEnqueue i = Ok u -> in_id i <> [] /\ bytes_ok (in_body i).
Proof.
  unfold validateEnqueue. rewrite throw_if_ok, !orb_false_iff, !negb_false_iff, streq_false.
  intros [[[? _] _] ?]. split; [done|by apply bytes_ok_forallb].
Qed.

Lemma clock_safe now : clock_ok now -> is_safe now = true.
Proof. intros [? ?]. apply is_safe_spec. unfold MAX_SAFE_INTEGER in *. lia. Qed.

Lemma file_ok_redelivered n name now i r :
  bytes_ok (in_body i) -> file_ok n Pending name (Stored r) ->
  file_ok n Pending name (Stored (redelivered now i r)).
Proof.
  intros Hb. rewrite !file_ok_Stored; unfold record_valid. intros ((? & ? & ? & ? & ?) & ?). split; [|done].
  split_and!; try done; try (by split). simpl. by rewrite base64_roundtrip.
Qed.

Lemma file_ok_replaced n name now i r :
  bytes_ok (in_body i) -> clock_ok now -> file_ok n Pending name (Stored r) ->
  file_ok n Pending name (Stored (replaced now i r)).
Proof.
  intros Hb Hc%clock_safe. rewrite !file_ok_Stored; unfold record_valid. intros ((? & ? & ? & ? & ?) & ? & ? & ? & ? & ?).
  split_and!; try done; try (by split). simpl. by rewrite base64_roundtrip.
Qed.

Lemma file_ok_created n now i :
  0 <= n -> bytes_ok (in_body i) -> in_id i <> [] -> clock_ok now ->
  file_ok n Pending (queueFile (in_id i)) (Stored (created now i)).
Proof.
  intros ? Hb Hid Hc%clock_safe. rewrite !file_ok_Stored; unfold record_valid. split_and!; try done; try (by split).
  simpl. by rewrite base64_roundtrip.
Qed.

Lemma file_ok_claimed n name now r :
  n < MAX_SAFE_INTEGER -> file_ok n Pending name (Stored r) ->
  file_ok (n + 1) Pending name (Stored (claimed_record now r)).
Proof.
  intros Hn. rewrite !file_ok_Stored; unfold record_valid. intros ((? & ? & ? & ? & ?) & ? & ? & ? & ? & ?).
  split_and!; try done; try (by split); simpl; [|lia..]. apply is_safe_spec. unfold MAX_SAFE_INTEGER in *. lia.
Qed.

Lemma file_ok_terminal n name now o r :
  file_ok n Pending name (Stored r) -> file_ok n Archive name (Stored (terminal_record now o r)).
Proof.
  rewrite !file_ok_Stored; unfold record_valid. intros ((? & ? & ? & ? & ?) & ? & ? & ? & ? & ?).
  split_and!; try done; by split.
Qed.

Lemma file_ok_retry n name base now o r :
  0 <= base -> clock_ok now -> file_ok n Pending name (Stored r) ->
  file_ok n Pending name (Stored (retry_record base now o r)).
Proof.
  intros Hb Hc. rewrite !file_ok_Stored; unfold record_valid. intros ((? & ? & ? & Hbody & Hred) & ? & ? & ? & ? & ?).
  split_and!; try done; try (by split); simpl.
  - pose proof (retryDelay_bounds base (attempts r) Hb). destruct Hc. apply is_safe_spec.
    unfold MAX_SAFE_INTEGER in *. lia.
  - rewrite Hred. by destruct (redeliveryBody r).
Qed.

(** ** Operations that write at most one file

    [m] from [s] makes no call, or exactly those of one [atomicWrite]; its
    result and the new abstract queue are given. *)
Inductive one_write (n : Z) (s : t) {A} (m : io A) : res A -> queue -> Prop :=
  | writes_nothing r : m s = ([], r) -> one_write n s m r (abs s)
  | writes_file name r a :
      m s = ((atomicWrite Pending name r s).1, Ok a) -> json_name name = true ->
      file_ok n Pending name (Stored r) -> archiveDirectory s !! name = None ->
      one_write n s m (Ok a) (<[name := to_job r]> (abs s)).

Lemma one_write_eq {A} n s (m m' : io A) r q : m s = m' s -> one_write n s m r q -> one_write n s m' r q.
Proof. intros E []; [apply writes_nothing|eapply writes_file; try done]; congruence. Qed.

Lemma one_write_run {A} n n' s (m : io A) r q :
  inv n' s -> n' <= n -> one_write n s m r q ->
  exists s', run m s = (r, s') /\ inv n s' /\ abs s' = q.
Proof.
  intros Hi Hle Hw. apply (fs_inv_mono _ n) in Hi; [|done]. destruct Hw as [r E|name rec a E Hn Hok Ha].
  - exists s. unfold run. by rewrite E.
  - pose proof (proj1 Hi) as (_ & Hf & _). exists (written Pending name rec s).
    pose proof (run_atomicWrite Pending name rec s Hf Hn) as Hr. unfold run in *. rewrite E.
    destruct (atomicWrite Pending name rec s) as [p r]. injection Hr as -> Hr. simpl. rewrite Hr.
    split_and!; [done|by apply inv_written_pending|by apply abs_written_pending].
Qed.

Lemma crash_trace {A B} P (m : io A) (m' : io B) s :
  (m s).1 = (m' s).1 -> crash_safe P m' s -> crash_safe P m s.
Proof. intros E Hc k. unfold crash. rewrite E. apply Hc. Qed.

Lemma one_write_crash {A} n n' s (m : io A) r q :
  inv n' s -> n' <= n -> one_write n s m r q ->
  crash_safe (fun s' => recoverable n s' /\ (abs s' = abs s \/ abs s' = q)) m s.
Proof.
  intros Hi Hle Hw. apply (fs_inv_mono _ n) in Hi; [|done]. destruct Hw as [r E|name rec a E Hn Hok Ha].
  - eapply crash_safe_pure; [done|]. split; [apply Hi|by left].
  - eapply (crash_trace _ _ (atomicWrite Pending name rec)); [by rewrite E|].
    destruct Hi as [Hrec Hd]. pose proof Hrec as (_ & Hf & _).
    apply crash_safe_atomicWrite; [done..| |].
    + intros s' Hf' Hs. split; [by eapply recoverable_same|left]. by rewrite Hs.
    + split; [by apply recoverable_written_pending|right; by apply abs_written_pending].
Qed.

Lemma bind_write {A} d name r s (k : io A) p a :
  fresh s -> json_name name = true -> (forall s', k s' = ([], Ok a)) ->
  p = (atomicWrite d name r s).1 -> (atomicWrite d name r ≫= (fun _ => k)) s = (p, Ok a).
Proof.
  intros Hf Hn Hk ->. unfold mbind, io_bind.
  pose proof (run_atomicWrite d name r s Hf Hn) as Hr. unfold run in Hr.
  destruct (atomicWrite d name r s) as [p r']. injection Hr as -> _. rewrite Hk. simpl. by rewrite app_nil_r.
Qed.

(** ** [enqueue] *)
Lemma enqueue_known n s now i a :
  inv n s -> validateEnqueue i = Ok tt ->
  archiveDirectory s !! queueFile (in_id i) = Some (Stored a) ->
  enqueue now i s =
    ([], _ ← assertSameIdentity (identity_of_record a) (identity_of_input i); Ok true).
Proof.
  intros [(Hok & _ & _) _] Ev Ea. unfold enqueue. rewrite (bind_pure _ _ s tt) by (by rewrite Ev).
  destruct (readIfPresent_spec n s Archive _ Hok (queueFile_json (in_id i))) as (o & Er & E).
  simpl in E. rewrite Ea in E. destruct o as [a'|]; [|done]. injection E as <-.
  rewrite (bind_pure _ _ _ _ Er). unfold lift, mbind, io_bind. by destruct (assertSameIdentity _ _).
Qed.

Lemma enqueue_unarchived n s now i :
  inv n s -> validateEnqueue i = Ok tt -> archiveDirectory s !! queueFile (in_id i) = None ->
  exists o, pendingDirectory s !! queueFile (in_id i) = Stored <$> o /\
  enqueue now i s =
  match o with
  | Some r =>
      (_ ← lift (assertSameIdentity (identity_of_record r) (identity_of_input i));
       _ ← (if is_running (state r) then atomicWrite Pending (queueFile (in_id i)) (redelivered now i r)
            else atomicWrite Pending (queueFile (in_id i)) (replaced now i r));
       lift (Ok true)) s
  | None => (_ ← atomicWrite Pending (queueFile (in_id i)) (created now i); lift (Ok false)) s
  end.
Proof.
  intros [(Hok & _ & _) _] Ev Ea. unfold enqueue. rewrite (bind_pure _ _ s tt) by (by rewrite Ev).
  pose proof (queueFile_json (in_id i)) as Hj.
  destruct (readIfPresent_spec n s Archive _ Hok Hj) as (o & Er & E).
  simpl in E. rewrite Ea in E. destruct o; [done|]. rewrite (bind_pure _ _ _ _ Er).
  destruct (readIfPresent_spec n s Pending _ Hok Hj) as (o & Er' & E'). exists o. split; [done|].
  rewrite (bind_pure _ _ _ _ Er'). by destruct o.
Qed.

Lemma enqueue_writes n now i s :
  inv n s -> 0 <= n -> clock_ok now ->
  let '(r, q) := spec_enqueue queueFile now i (abs s) in one_write n s (enqueue now i) r q.
Proof.
  intros Hi Hn Hc. unfold spec_enqueue.
  destruct (validateEnqueue i) as [[]|e] eqn:Ev; [|apply writes_nothing; unfold enqueue; by rewrite Ev].
  pose proof (validateEnqueue_inv _ _ Ev) as [Hid Hb].
  pose proof (queueFile_json (in_id i)) as Hj. pose proof Hi as [(Hok & Hf & _) _].
  destruct (archiveDirectory s !! queueFile (in_id i)) as [c|] eqn:Ea.
  - destruct (files_ok_get n s Archive _ _ Hok Hj Ea) as (a & -> & Hfo).
    pose proof (enqueue_known n s now i a Hi Ev Ea) as E.
    rewrite (fs_abs_lookup_archive _ _ a) by done.
    change (identity_of (to_job a)) with (identity_of_record a).
    apply file_ok_Stored in Hfo as (_ & _ & _ & Ht & _). simpl. rewrite (proj2 Ht eq_refl).
    destruct (assertSameIdentity _ _); by apply writes_nothing.
  - destruct (enqueue_unarchived n s now i Hi Ev Ea) as (o & Ep & E). destruct o as [r|]; simpl in Ep.
    + assert (file_ok n Pending (queueFile (in_id i)) (Stored r)) as Hfo by (by apply Hok).
      pose proof Hfo as (_ & _ & _ & Ht & _)%file_ok_Stored.
      rewrite (fs_abs_lookup_pending _ _ r) by done.
      change (identity_of (to_job r)) with (identity_of_record r).
      destruct (assertSameIdentity _ _) as [[]|e];
        [rewrite (bind_pure _ _ _ tt) in E by done|by apply writes_nothing].
      simpl. unfold is_running in E. destruct (state r) eqn:Es; [| | |naive_solver];
        [rewrite bool_decide_eq_false_2 in E by done|rewrite bool_decide_eq_true_2 in E by done
        |rewrite bool_decide_eq_false_2 in E by done];
        (rewrite (bind_write _ _ _ _ _ _ true Hf Hj ltac:(done) eq_refl) in E).
      * replace (job_replace _ _ _) with (to_job (replaced now i r));
          [eapply writes_file; try done; by apply file_ok_replaced|].
        unfold to_job, job_replace, replaced. simpl. by rewrite base64_roundtrip.
      * replace (job_redeliver _ _) with (to_job (redelivered now i r));
          [eapply writes_file; try done; by apply file_ok_redelivered|].
        unfold to_job, job_redeliver, redelivered. simpl. by rewrite base64_roundtrip.
      * replace (job_replace _ _ _) with (to_job (replaced now i r));
          [eapply writes_file; try done; by apply file_ok_replaced|].
        unfold to_job, job_replace, replaced. simpl. by rewrite base64_roundtrip.
    + rewrite fs_abs_lookup_none by done.
      rewrite (bind_write _ _ _ _ _ _ false Hf Hj ltac:(done) eq_refl) in E.
      replace (job_new now i) with (to_job (created now i));
        [eapply writes_file; try done; by apply file_ok_created|].
      unfold to_job, job_new, created. simpl. by rewrite base64_roundtrip.
Qed.

(** ** [claim] *)
Lemma claim_loop_writes n now s names :
  inv n s -> n < MAX_SAFE_INTEGER ->
  (forall name, name ∈ names -> json_name name = true /\ is_Some (pendingDirectory s !! name)) ->
  (one_write (n + 1) s (claim_loop now names) (Ok None) (abs s) /\
   forall name r, name ∈ names -> pendingDirectory s !! name = Some (Stored r) -> ~ due now (to_job r)) \/
  (exists name r, json_name name = true /\ pendingDirectory s !! name = Some (Stored r) /\
     due now (to_job r) /\
     one_write (n + 1) s (claim_loop now names) (Ok (Some (claim_of (job_run (to_job r)))))
       (<[name := job_run (to_job r)]> (abs s))).
Proof.
  intros Hi Hn. pose proof Hi as [(Hok & Hf & _) Hd].
  induction names as [|name names IH]; intros Hnames.
  { left. split; [by apply writes_nothing|]. by intros ? ? ?%not_elem_of_nil. }
  destruct (Hnames name) as [Hj [c Hp]]; [left|].
  destruct (files_ok_get n s Pending name c Hok Hj Hp) as (r & -> & Hfo).
  pose proof Hfo as (Hv & _ & _ & Ht & _)%file_ok_Stored.
  assert (claim_loop now (name :: names) s = _) as E
    by (cbn [claim_loop]; apply (bind_pure _ _ _ _ (readRecord_some n s Pending name r Hok Hj Hp))).
  destruct (is_running (state r) || (now <? nextAttemptAt r)) eqn:Eb.
  - assert (~ due now (to_job r)) as Hnd.
    { intros [Hs Ht']. simpl in *. apply orb_true_iff in Eb as [Eb|Eb];
        [apply bool_decide_eq_true in Eb; rewrite Eb in Hs; by destruct Hs|apply Z.ltb_lt in Eb; lia]. }
    destruct IH as [[Hw Hno]|(name' & r' & ? & ? & ? & Hw)]; [intros; apply Hnames; by right|left|right].
    + split; [by eapply one_write_eq|].
      intros name' r' [->|Hin]%elem_of_cons Hp'; [|by eapply Hno].
      assert (r' = r) as -> by (simpl in Hp; congruence). done.
    + exists name', r'. split_and!; try done. by eapply one_write_eq.
  - right. exists name, r. apply orb_false_iff in Eb as [Er En].
    apply bool_decide_eq_false in Er. apply Z.ltb_ge in En.
    split_and!; try done.
    { split; [|done]. simpl. destruct (state r) eqn:Es; naive_solver. }
    change (job_run (to_job r)) with (to_job (claimed_record now r)).
    apply writes_file; [|done|by apply file_ok_claimed|by apply Hd].
    rewrite E. apply bind_write; [done..| |done].
    intros s'. rewrite (bind_pure _ _ _ (base64_decode (body r))); [done|].
    unfold lift. f_equal. exact (decodeBody_valid r Hv).
Qed.

Lemma claim_writes n now s :
  inv n s -> n < MAX_SAFE_INTEGER ->
  exists c q, one_write (n + 1) s (claim now) (Ok c) q /\ spec_claim now (abs s) c q.
Proof.
  intros Hi Hn. pose proof Hi as [(Hok & _) Hd].
  destruct (jsonFiles_spec Pending s) as (names & En & _ & Hnames).
  assert (claim now s = claim_loop now names s) as E by (apply (bind_pure _ _ _ _ En)).
  destruct (claim_loop_writes n now s names Hi Hn) as [[Hw Hno]|(name & r & Hj & Hp & Hdue & Hw)].
  - intros name. apply Hnames.
  - exists None, (abs s). split; [by eapply one_write_eq|].
    constructor. intros name j Hl Hdue.
    destruct (abs_lookup_inv n s name j Hok Hl) as (Hj & d & r & Hr & -> & _).
    destruct d.
    + apply (Hno name r); [apply Hnames; split; [done|by eexists]|done..].
    + assert (file_ok n Archive name (Stored r)) as (_ & _ & _ & Ht & _)%file_ok_Stored by (by apply Hok).
      destruct Hdue as [Hs _]. simpl in Hs. rewrite (proj2 Ht eq_refl) in Hs. by destruct Hs.
  - eexists _, _. split.
    + by eapply one_write_eq.
    + constructor; [|done]. apply fs_abs_lookup_pending; try done. apply Hd; [done|by eexists].
Qed.

(** ** [finish] *)
Definition finishable (s : t) (jobId : jsstr) (r : record) : Prop :=
  pendingDirectory s !! queueFile jobId = Some (Stored r) /\ id r = jobId /\ state r = QRunning /\ jobId <> [].

(** The call is refused before anything is written, or it acts on a running
    record. *)
Lemma finish_cases n base now jobId o s :
  inv n s -> valid_kind o = true ->
  ((exists e, finish base now jobId o s = ([], Throw e)) /\
   spec_finish base queueFile now jobId o (abs s) = None) \/
  (exists r, finishable s jobId r /\ abs s !! queueFile jobId = Some (to_job r) /\
     finish base now jobId o s =
       (if streq (o_kind o) (js "terminal") then
          _ ← atomicWrite Archive (queueFile jobId) (terminal_record now o r);
          durableRemove Pending (queueFile jobId)
        else atomicWrite Pending (queueFile jobId) (retry_record base now o r)) s).
Proof.
  intros [(Hok & _ & _) Hd] Hk. unfold finish. rewrite Hk. cbn [negb orb].
  set (name := queueFile jobId). pose proof (queueFile_json jobId) as Hj. fold name in Hj.
  unfold spec_finish. fold name. destruct (streq jobId []) eqn:Eid; cbn [orb].
  { apply streq_true in Eid as ->. left. split; [by eexists|].
    destruct (abs s !! name); [|done]. by rewrite decide_False by (by intros (_ & _ & ?)). }
  apply streq_false in Eid.
  destruct (pendingDirectory s !! name) as [c|] eqn:Ep; cycle 1.
  { left. split; [eexists; by rewrite (bind_throw _ _ _ _ _ (readRecord_none s Pending name Ep))|].
    destruct (abs s !! name) as [j|] eqn:Ej; [|done]. apply decide_False. intros (_ & Hr & _).
    destruct (abs_lookup_inv n s name j Hok Ej) as (_ & d & r & Hr' & -> & _).
    destruct d; simpl in Hr'; [congruence|].
    assert (file_ok n Archive name (Stored r)) as (_ & _ & _ & Ht & _)%file_ok_Stored by (by apply Hok).
    simpl in Hr. rewrite (proj2 Ht eq_refl) in Hr. done. }
  destruct (files_ok_get n s Pending name c Hok Hj Ep) as (r & -> & _).
  rewrite (bind_pure _ _ _ _ (readRecord_some n s Pending name r Hok Hj Ep)).
  assert (abs s !! name = Some (to_job r)) as Ej
    by (apply fs_abs_lookup_pending; try done; apply Hd; [done|by eexists]).
  destruct (negb (streq (id r) jobId) || negb (is_running (state r))) eqn:Eg.
  - left. split; [by eexists|]. rewrite Ej. apply decide_False. intros (Hid & Hr & _). simpl in *.
    rewrite Hid, streq_refl in Eg. unfold is_running in Eg. by rewrite bool_decide_eq_true_2 in Eg.
  - right. exists r. apply orb_false_iff in Eg as [E1 E2].
    apply negb_false_iff, streq_true in E1. apply negb_false_iff, bool_decide_eq_true in E2.
    split; [by split_and!|]. split; [done|]. by destruct (streq (o_kind o) _).
Qed.

(** The state between the two steps of a terminal [finish], and after them. *)
Lemma finish_terminal_states n now o jobId r s :
  inv n s -> finishable s jobId r ->
  let name := queueFile jobId in
  let mid := written Archive name (terminal_record now o r) s in
  recoverable n mid /\ inv n (removed Pending name mid) /\
  abs mid = <[name := to_job (terminal_record now o r)]> (abs s) /\
  abs (removed Pending name mid) = abs mid.
Proof.
  intros [(Hok & Hf & Hres) Hd] (Hp & Hid & Hr & Hne) name mid. pose proof (queueFile_json jobId) as Hj.
  assert (file_ok n Archive name (Stored (terminal_record now o r))) as Hfo
    by (apply file_ok_terminal; by apply Hok).
  assert (recoverable n mid) as Hmid.
  { split_and!; [by apply files_ok_written|by apply fresh_written|].
    intros name' r' a Hn' Hp' Ha'. simpl in Hp', Ha'. rewrite lookup_insert_Some in Ha'.
    destruct Ha' as [[<- [= <-]]|[_ Ha']]; [|by apply (Hres name')].
    unfold name in Hp'. by assert (r' = r) as -> by congruence. }
  split_and!; [done| |by apply abs_written_archive|].
  - destruct Hmid as (Hok' & Hf' & Hres'). split.
    + split_and!; [by apply files_ok_removed|by apply fresh_removed|].
      intros name' r' a Hn' Hp' Ha'. simpl in Hp', Ha'.
      apply lookup_delete_Some in Hp' as [_ Hp']. by apply (Hres' name').
    + intros name' Hn' Hs. simpl in *. destruct (decide (name' = name)) as [->|Hne'].
      * rewrite lookup_delete_eq in Hs. by destruct Hs.
      * rewrite lookup_delete_ne in Hs by done. rewrite lookup_insert_ne by done. by apply Hd.
  - eapply abs_removed_pending; [done|]. simpl. apply lookup_insert_eq.
Qed.

Lemma retry_job base now o r :
  to_job (retry_record base now o r) = job_retry base now (to_job r).
Proof. unfold to_job, job_retry, retry_record. simpl. by destruct (redeliveryBody r). Qed.

Lemma finish_spec_some base now jobId o s r :
  finishable s jobId r -> abs s !! queueFile jobId = Some (to_job r) ->
  spec_finish base queueFile now jobId o (abs s) =
  Some (<[queueFile jobId := if streq (o_kind o) (js "terminal") then to_job (terminal_record now o r)
                             else to_job (retry_record base now o r)]> (abs s)).
Proof.
  intros (_ & Hid & Hr & Hne) Ej. unfold spec_finish. rewrite Ej, decide_True by done.
  rewrite retry_job. by destruct (streq _ _).
Qed.

Lemma fs_finish_law n base now jobId o s :
  0 <= base -> inv n s -> clock_ok now -> valid_kind o = true ->
  let '(r, s') := run (finish base now jobId o) s in
  inv n s' /\
  match spec_finish base queueFile now jobId o (abs s) with
  | Some m => r = Ok tt /\ abs s' = m
  | None => (exists e, r = Throw e) /\ abs s' = abs s
  end.
Proof.
  intros Hb Hi Hc Hk. pose proof Hi as [(Hok & Hf & _) Hd]. pose proof (queueFile_json jobId) as Hj.
  destruct (finish_cases n base now jobId o s Hi Hk) as [[[e E] ->]|(r & Hfin & Ej & E)].
  { unfold run. rewrite E. split; [done|]. split; [by eexists|done]. }
  rewrite (finish_spec_some base now jobId o s r Hfin Ej).
  unfold run. rewrite E. change (let '(p, r) := ?m s in (r, exec p s)) with (run m s).
  destruct (streq (o_kind o) (js "terminal")).
  - rewrite run_bind, run_atomicWrite by done. rewrite run_durableRemove.
    destruct (finish_terminal_states n now o jobId r s Hi Hfin) as (_ & Hi' & Ha & Ha').
    split; [done|]. split; [done|]. by rewrite Ha'.
  - pose proof Hfin as (Hp & _). rewrite run_atomicWrite by done.
    assert (archiveDirectory s !! queueFile jobId = None) by (apply Hd; [done|by eexists]).
    split; [|split; [done|by apply abs_written_pending]].
    apply inv_written_pending; try done. apply file_ok_retry; [done..|]. by apply Hok.
Qed.

Lemma finish_crash n base now jobId o s :
  0 <= base -> inv n s -> clock_ok now -> valid_kind o = true ->
  crash_safe (fun s' => recoverable n s' /\
      (abs s' = abs s \/ abs s' = abs (run (finish base now jobId o) s).2))
    (finish base now jobId o) s.
Proof.
  intros Hb Hi Hc Hk. pose proof (fs_finish_law n base now jobId o s Hb Hi Hc Hk) as Hlaw.
  destruct (run (finish base now jobId o) s) as [res s1]. destruct Hlaw as [_ Hlaw]. cbn [snd].
  pose proof Hi as [Hrec Hd]. pose proof Hrec as (Hok & Hf & _). pose proof (queueFile_json jobId) as Hj.
  destruct (finish_cases n base now jobId o s Hi Hk) as [[[e E] _]|(r & Hfin & Ej & E)].
  { eapply crash_safe_pure; [done|]. split; [done|by left]. }
  rewrite (finish_spec_some base now jobId o s r Hfin Ej) in Hlaw. destruct Hlaw as [_ ->].
  assert (forall s', fresh s' -> same_files s s' -> recoverable n s' /\ abs s' = abs s) as Hold.
  { intros s' Hf' Hs. split; [by eapply recoverable_same|by rewrite Hs]. }
  destruct (streq (o_kind o) (js "terminal")).
  - eapply crash_trace; [by rewrite E|].
    destruct (finish_terminal_states n now o jobId r s Hi Hfin) as (Hmid & [Hend _] & Ha & Ha').
    apply crash_safe_bind.
    + apply crash_safe_atomicWrite; [done..| |split; [done|by right]].
      intros s' Hf' Hs. destruct (Hold s' Hf' Hs). split; [done|by left].
    + intros [] s'. rewrite run_atomicWrite by done. intros [= <-] [|k].
      * split; [done|by right].
      * split; [|right]; unfold crash, durableRemove; cbn [fst take]; rewrite take_nil; [done|].
        transitivity (abs (removed Pending (queueFile jobId)
          (written Archive (queueFile jobId) (terminal_record now o r) s))); [done|]. by rewrite Ha', Ha.
  - pose proof Hfin as (Hp & _).
    assert (archiveDirectory s !! queueFile jobId = None) by (apply Hd; [done|by eexists]).
    eapply crash_trace; [by rewrite E|]. apply crash_safe_atomicWrite; [done..| |].
    + intros s' Hf' Hs. destruct (Hold s' Hf' Hs). split; [done|by left].
    + split; [|right; by apply abs_written_pending].
      apply recoverable_written_pending; try done. apply file_ok_retry; [done..|]. by apply Hok.
Qed.

(** ** [initialize] *)
Definition settled (s : t) (name : jsstr) : Prop :=
  forall r, pendingDirectory s !! name = Some (Stored r) ->
    archiveDirectory s !! name = None /\ state r <> QRunning.

(** What is preserved through the repair: the state stays recoverable, and
    stands for the same queue up to the reset of running jobs. *)
Definition repairing (n : Z) (m : queue) (s : t) : Prop :=
  recoverable n s /\ spec_recover (abs s) = spec_recover m.

Lemma repairing_same n m s s' : repairing n m s -> fresh s' -> same_files s s' -> repairing n m s'.
Proof. intros [Hr Ha] Hf Hs. split; [by eapply recoverable_same|by rewrite <- Hs]. Qed.

(** What one turn of the repair leaves. *)
Definition turn_repaired (n : Z) (m : queue) (name : jsstr) (s s' : t) : Prop :=
  repairing n m s' /\ settled s' name /\
  forall name', name' <> name -> dir Pending s' !! name' = dir Pending s !! name' /\
                                 dir Archive s' !! name' = dir Archive s !! name'.

(** A finished job whose pending file was not removed. *)
Lemma repair_archived n m name r a s :
  repairing n m s -> json_name name = true -> pendingDirectory s !! name = Some (Stored r) ->
  archiveDirectory s !! name = Some (Stored a) -> turn_repaired n m name s (removed Pending name s).
Proof.
  intros [Hrec Habs] Hj Hp Ha. pose proof Hrec as (Hok & Hf & Hres).
  assert (file_ok n Archive name (Stored a)) as (_ & _ & _ & Ht & _)%file_ok_Stored by (by apply Hok). split_and!.
  - split; [split_and!; [by apply files_ok_removed|by apply fresh_removed|]|by rewrite (abs_removed_pending s name a)].
    intros name' r' a' Hn' Hp' Ha'. simpl in Hp', Ha'. apply lookup_delete_Some in Hp' as [_ Hp']. by apply (Hres name').
  - intros r'. simpl. by rewrite lookup_delete_eq.
  - intros name' Hne. simpl. by rewrite lookup_delete_ne.
Qed.

(** A job that was running becomes pending again. *)
Lemma repair_running n m now name r s :
  repairing n m s -> json_name name = true -> pendingDirectory s !! name = Some (Stored r) ->
  archiveDirectory s !! name = None -> is_running (state r) = true ->
  turn_repaired n m name s (written Pending name (with_state QPending now r) s).
Proof.
  intros [Hrec Habs] Hj Hp Ha Er. pose proof Hrec as (Hok & Hf & Hres). set (r' := with_state QPending now r) in *.
  assert (file_ok n Pending name (Stored r')) as Hfo by (apply file_ok_with_state; [by apply Hok|done]). split_and!.
  - split; [by apply recoverable_written_pending|]. rewrite abs_written_pending by done.
    rewrite <- Habs. unfold spec_recover. rewrite fmap_insert. apply insert_id.
    rewrite lookup_fmap, (fs_abs_lookup_pending s name r) by done. simpl. f_equal.
    unfold job_recover, r', to_job; simpl. apply bool_decide_eq_true in Er. by rewrite Er.
  - intros r0. simpl. rewrite lookup_insert_eq. intros [= <-]. done.
  - intros name' Hne. simpl. by rewrite lookup_insert_ne.
Qed.

Lemma repair_spec n m now name r s :
  repairing n m s -> json_name name = true -> pendingDirectory s !! name = Some (Stored r) ->
  (exists s', run (repair now name) s = (Ok tt, s') /\ turn_repaired n m name s s') /\
  crash_safe (repairing n m) (repair now name) s.
Proof.
  intros Hrep Hj Hp. pose proof Hrep as [Hrec _]. pose proof Hrec as (Hok & Hf & Hres).
  destruct (readIfPresent_spec n s Archive name Hok Hj) as (o & Era & Ea).
  assert (repair now name s = (match o with
    | Some a =>
      _ ← lift (assertSameIdentity (identity_of_record a) (identity_of_record r));
      if negb (bool_decide (state a = QTerminal))
      then lift (Throw (PlainError "invalid compiler queue archive state"))
      else durableRemove Pending name
    | None => if is_running (state r) then atomicWrite Pending name (with_state QPending now r)
              else lift (Ok tt)
    end) s) as E.
  { unfold repair. rewrite (bind_pure _ _ _ _ (readRecord_some n s Pending name r Hok Hj Hp)).
    by rewrite (bind_pure _ _ _ _ Era). }
  destruct o as [a|]; simpl in Ea.
  - rewrite (proj2 (assertSameIdentity_ok _ _) (Hres name r a Hj Hp Ea)) in E.
    rewrite (bind_pure _ _ _ tt) in E by done.
    assert (file_ok n Archive name (Stored a)) as (_ & _ & _ & Ht & _)%file_ok_Stored by (by apply Hok).
    rewrite bool_decide_eq_true_2 in E by (by apply Ht). cbn [negb] in E.
    pose proof (repair_archived n m name r a s Hrep Hj Hp Ea) as Hturn. split.
    + exists (removed Pending name s). split; [unfold run; by rewrite E|done].
    + intros [|k]; unfold crash; rewrite E; unfold durableRemove; cbn [fst take]; [done|].
      rewrite take_nil. apply Hturn.
  - destruct (is_running (state r)) eqn:Er; cbv iota in E.
    + pose proof (repair_running n m now name r s Hrep Hj Hp Ea Er) as Hturn. split.
      * exists (written Pending name (with_state QPending now r) s). split; [|done]. unfold run. rewrite E.
        change (run (atomicWrite Pending name (with_state QPending now r)) s = (Ok tt, written Pending name (with_state QPending now r) s)).
        by apply run_atomicWrite.
      * eapply crash_trace; [by rewrite E|]. apply crash_safe_atomicWrite; [done..| |apply Hturn].
        intros s' Hf' Hs. by apply (repairing_same n m s).
    + split; [|by eapply crash_safe_pure].
      exists s. split; [unfold run; by rewrite E|]. split_and!; [done| |done].
      intros r0 Hr0. assert (r0 = r) as -> by congruence. split; [done|].
      by apply bool_decide_eq_false in Er.
Qed.

Lemma repair_all_spec n m now names : forall s,
  repairing n m s -> NoDup names ->
  (forall name, name ∈ names -> json_name name = true /\ is_Some (pendingDirectory s !! name)) ->
  (forall name, json_name name = true -> name ∉ names -> settled s name) ->
  (exists s', run (repair_all now names) s = (Ok tt, s') /\ repairing n m s' /\
     forall name, json_name name = true -> settled s' name) /\
  crash_safe (repairing n m) (repair_all now names) s.
Proof.
  induction names as [|name names IH]; intros s Hrep Hnd Hin Hout.
  { split; [exists s; split_and!; try done|by eapply crash_safe_pure].
    intros name Hn. apply Hout; [done|]. apply not_elem_of_nil. }
  apply NoDup_cons in Hnd as [Hnin Hnd]. destruct (Hin name) as [Hj [c Hp]]; [left|].
  destruct (files_ok_get n s Pending name c (proj1 (proj1 Hrep)) Hj Hp) as (r & -> & _).
  destruct (repair_spec n m now name r s Hrep Hj Hp) as [(s1 & Hrun & Hrep1 & Hset & Hsame) Hcrash].
  destruct (IH s1 Hrep1 Hnd) as [(s2 & Hrun2 & Hrep2 & Hset2) Hcrash2].
  - intros name' Hin'. destruct (Hin name') as [Hj' Hp']; [by right|]. split; [done|].
    destruct (Hsame name') as [Hd _]; [intros ->; done|]. simpl in Hd. by rewrite Hd.
  - intros name' Hj' Hout'. destruct (decide (name' = name)) as [->|Hne]; [done|].
    destruct (Hsame name' Hne) as [Hd Ha]. simpl in Hd, Ha. intros r' Hr'. rewrite Ha. rewrite Hd in Hr'.
    apply Hout; [done| |done]. rewrite not_elem_of_cons. done.
  - split.
    + exists s2. split; [|done]. cbn [repair_all]. by rewrite run_bind, Hrun.
    + apply crash_safe_bind; [done|]. intros [] s'. rewrite Hrun. by intros [= <-].
Qed.

Lemma initialize_spec n now s :
  recoverable n s ->
  (exists s', run (initialize now) s = (Ok tt, s') /\ inv n s' /\ abs s' = spec_recover (abs s)) /\
  crash_safe (repairing n (abs s)) (initialize now) s.
Proof.
  intros Hrec. destruct (jsonFiles_spec Pending s) as (names & En & Hnd & Hnames).
  destruct (repair_all_spec n (abs s) now names s) as [(s' & Hrun & [Hrec' Habs] & Hset) Hcrash];
    [done|done|intros; by apply Hnames| |].
  { intros name Hj Hnin r Hr. exfalso. apply Hnin, Hnames. split; [done|by eexists]. }
  split.
  - exists s'. split_and!.
    + unfold initialize. rewrite run_bind. unfold run at 1. rewrite En. done.
    + split; [done|]. intros name Hj [c Hp].
      destruct (files_ok_get n s' Pending name c (proj1 Hrec') Hj Hp) as (r & -> & _).
      by destruct (Hset name Hj r Hp).
    + rewrite <- Habs. apply map_eq. intros name. unfold spec_recover. rewrite lookup_fmap.
      destruct (abs s' !! name) as [j|] eqn:Ej; [|done]. simpl. f_equal.
      destruct (abs_lookup_inv n s' name j (proj1 Hrec') Ej) as (Hj & d & r & Hr & -> & _).
      unfold job_recover. simpl. rewrite decide_False; [done|]. destruct d.
      * by destruct (Hset name Hj r Hr).
      * assert (file_ok n Archive name (Stored r)) as (_ & _ & _ & Ht & _)%file_ok_Stored
          by (by apply (proj1 Hrec')). rewrite (proj2 Ht eq_refl). done.
  - apply crash_safe_bind; [by eapply crash_safe_pure|]. intros a s1. unfold run. rewrite En.
    by intros [= <- <-].
Qed.

(** ** The filesystem queue implements the contract *)
Lemma fs_enqueue_law n now i s :
  inv n s -> 0 <= n -> clock_ok now ->
  let '(r, s') := run (enqueue now i) s in
  inv n s' /\ (r, abs s') = spec_enqueue queueFile now i (abs s).
Proof.
  intros Hi Hn Hc. pose proof (enqueue_writes n now i s Hi Hn Hc) as Hw.
  destruct (spec_enqueue queueFile now i (abs s)) as [r q].
  destruct (one_write_run n n s _ r q Hi ltac:(lia) Hw) as (s' & -> & ? & <-). done.
Qed.

Lemma fs_claim_law n now s :
  inv n s -> 0 <= n < MAX_SAFE_INTEGER -> clock_ok now ->
  exists c s', run (claim now) s = (Ok c, s') /\ inv (n + 1) s' /\ spec_claim now (abs s) c (abs s').
Proof.
  intros Hi Hn _. destruct (claim_writes n now s Hi ltac:(lia)) as (c & q & Hw & Hs).
  destruct (one_write_run (n + 1) n s _ _ q Hi ltac:(lia) Hw) as (s' & ? & ? & <-). by exists c, s'.
Qed.

Lemma fs_initialize_law n now s :
  inv n s ->
  exists s', run (initialize now) s = (Ok tt, s') /\ inv n s' /\ abs s' = spec_recover (abs s).
Proof. intros [Hrec _]. by apply initialize_spec. Qed.

Lemma fs_inv_keyed n s : inv n s -> keyed queueFile (abs s).
Proof.
  intros [(Hok & _) _] name j Hj. destruct (abs_lookup_inv n s name j Hok Hj) as (Hn & d & r & Hr & -> & _).
  assert (file_ok n d name (Stored r)) as (_ & Hname & _)%file_ok_Stored by (by apply Hok). done.
Qed.

(** The constructor accepts a delay between 100 and 300000 milliseconds. *)
Definition valid_retryDelayMs (retryDelayMs : Z) : bool :=
  is_safe retryDelayMs && (100 <=? retryDelayMs) && (retryDelayMs <=? 300000).

Lemma valid_retryDelayMs_nonneg b : valid_retryDelayMs b = true -> 0 <= b.
Proof. unfold valid_retryDelayMs. rewrite !andb_true_iff, !Z.leb_le. lia. Qed.

Definition queue (base : Z) (Hbase : valid_retryDelayMs base = true) : JobQueue t base := {|
  q_key := queueFile;
  q_initialize now := run (initialize now);
  q_enqueue now i := run (enqueue now i);
  q_claim now := run (claim now);
  q_finish now jobId o := run (finish base now jobId o);
  q_inv := inv;
  q_abs := abs;
  q_inv_mono := fs_inv_mono;
  q_keyed_law := fs_inv_keyed;
  q_initialize_law := fs_initialize_law;
  q_enqueue_law := fs_enqueue_law;
  q_claim_law := fs_claim_law;
  q_finish_law n now jobId o s := fs_finish_law n base now jobId o s (valid_retryDelayMs_nonneg _ Hbase);
|}.

Definition empty : t := mkFs ∅ ∅ 0.

Lemma fs_empty_inv : inv 0 empty.
Proof.
  split; [split_and!|].
  - intros [] name c _ Hc; simpl in Hc; by rewrite lookup_empty in Hc.
  - intros [] name k _ _; apply lookup_empty.
  - intros name r a _ Hc. simpl in Hc; by rewrite lookup_empty in Hc.
  - intros name _ [c Hc]. simpl in Hc; by rewrite lookup_empty in Hc.
Qed.
End states.
End Fs.
