(* ===== verification/QueueFaults.v ===== *)
(** * File system calls that fail ([job-queue.mjs])

    [FsQueue] runs the calls of an operation to their end, or crashes among them.
    Here a call rejects while the process goes on.  The first calls have taken
    effect; the handler of [atomicWrite] removes the temporary file it had opened,
    or fails to, which it swallows; and the operation rejects.  When all calls have
    taken effect, it is the last [syncDirectory] that rejects.

    The theorems say what this does to the queue: nothing the queue can see, or the
    whole operation, which is what [WorkerLoops] and [ServerProcess] assume of a
    rejected call; and, for a terminal [finish] only, a job that is archived and
    running at once. *)

From S2P Require Import Prelude JsText JsNum JsValue Regex Validators Node QueueSpec FsQueue.

Module FsFaults.
Import Fs.

(** ** The handler of [atomicWrite] *)

(** The temporary file that exists after the calls [ps]. *)
Definition open_temporary (ps : list prim) : option (dirname * jsstr) :=
  fold_left (fun o p => match p with
    | OpenNew d name => Some (d, name)
    | Rename _ _ _ => None
    | _ => o
    end) ps None.

(** [rm(temporary, { force: true }).catch(() => undefined)] *)
Definition cleanup (cleaned : bool) (ps : list prim) : list prim :=
  match open_temporary ps with
  | Some (d, name) => if cleaned then [Remove d name] else []
  | None => []
  end.

(** The state after the call that follows the first [k] ones has rejected. *)
Definition rejected {A} (m : io A) (s : t) (k : nat) (cleaned : bool) : t :=
  let ps := take k (m s).1 in exec (ps ++ cleanup cleaned ps) s.

Section faults.
Context `{Sha256} `{Base64} `{Uuid}.
Context (base : Z) (Hbase : valid_retryDelayMs base = true).
#[local] Instance fs_queue : JobQueue t base := Fs.queue base Hbase.

Lemma same_unaffected s s' : same_files s s' -> (fresh s -> fresh s') -> unaffected s s'.
Proof.
  intros Hs Hf. split; [symmetry; by apply abs_proper|]. intros n [Hrec Hd]. split.
  - eapply recoverable_same; [done| |done]. apply Hf, Hrec.
  - intros name Hn Hp.
    pose proof (Hs Pending name Hn : pendingDirectory s !! name = pendingDirectory s' !! name) as Ep.
    pose proof (Hs Archive name Hn : archiveDirectory s !! name = archiveDirectory s' !! name) as Ea.
    rewrite <- Ea. apply Hd; [done|]. by rewrite Ep.
Qed.

Lemma same_removed d name s : json_name name = false -> same_files s (removed d name s).
Proof.
  intros Hn d' name' Hn'. unfold removed. destruct (decide (d' = d)) as [->|].
  - rewrite dir_set_eq, lookup_delete_ne; [done|]. congruence.
  - by rewrite dir_set_ne.
Qed.

(** What the handler removes is not the file of a job. *)
Lemma cleanup_safe (P : t -> Prop) cleaned ps s :
  (forall d name, open_temporary ps = Some (d, name) -> json_name name = false) ->
  (forall d name s', json_name name = false -> P s' -> P (removed d name s')) ->
  P (exec ps s) -> P (exec (ps ++ cleanup cleaned ps) s).
Proof.
  intros Ho Hr Hp. rewrite exec_app. unfold cleanup. destruct (open_temporary ps) as [[d name]|]; [|done].
  destruct cleaned; [|done]. apply (Hr d name); [by eapply Ho|done].
Qed.

(** As far as the queue can see, the directories are those of [s]. *)
Definition like (s s' : t) : Prop := same_files s s' /\ fresh s'.

Lemma like_removed s d name s' : json_name name = false -> like s s' -> like s (removed d name s').
Proof. intros Hn [Hs Hf]. split; [|by apply fresh_removed]. etrans; [exact Hs|by apply same_removed]. Qed.

Lemma like_unaffected s s' : like s s' -> unaffected s s'.
Proof. intros [Hs Hf]. by apply same_unaffected. Qed.

Lemma rejected_like {A} (m : io A) s k cleaned (l : t -> Prop) :
  (forall d name, open_temporary (take k (m s).1) = Some (d, name) -> json_name name = false) ->
  crash_safe (fun s' => exists s0, l s0 /\ like s0 s') m s -> exists s0, l s0 /\ like s0 (rejected m s k cleaned).
Proof.
  intros Ho Hc. apply (cleanup_safe (fun s' => exists s0, l s0 /\ like s0 s')); [done| |apply Hc].
  intros d name s' Hn (s0 & Hl & Hs). exists s0. split; [done|by apply like_removed].
Qed.

Lemma write_temporary d name r s k d' tmp :
  fresh s -> json_name name = true -> open_temporary (take k (atomicWrite d name r s).1) = Some (d', tmp) ->
  json_name tmp = false.
Proof.
  intros Hf Hn. unfold atomicWrite. rewrite (Hf d name (draws s) Hn) by lia.
  destruct k as [|[|[|[|k]]]]; cbn [fst take]; unfold open_temporary; cbn [fold_left]; try done;
    [intros [= _ <-]; by apply temporary_json..|]. by rewrite take_nil.
Qed.

(** An operation that makes the calls of one [atomicWrite]. *)
Lemma rejected_write {A} (m : io A) d name r s k cleaned :
  fresh s -> json_name name = true -> (m s).1 = (atomicWrite d name r s).1 ->
  like s (rejected m s k cleaned) \/ like (written d name r s) (rejected m s k cleaned).
Proof.
  intros Hf Hn E.
  destruct (rejected_like m s k cleaned (fun s0 => s0 = s \/ s0 = written d name r s)) as (s0 & [-> | ->] & Hl); [| |by left|by right].
  - rewrite E. intros d' tmp. by apply write_temporary.
  - eapply crash_trace; [exact E|]. apply crash_safe_atomicWrite; [done..| |].
    + intros s' Hf' Hs. exists s. split; [by left|done].
    + eexists. split; [by right|]. split; [done|by apply fresh_written].
Qed.

(** An operation that writes at most one file has no effect, or all of it. *)
Lemma rejected_one_write {A} n s (m : io A) r q k cleaned :
  inv n s -> one_write n s m r q ->
  unaffected s (rejected m s k cleaned) \/ exists s1, run m s = (r, s1) /\ unaffected s1 (rejected m s k cleaned).
Proof.
  intros [(_ & Hf & _) _] Hw. destruct Hw as [r E|name rec a E Hn Hok Ha].
  - left. unfold rejected. rewrite E. cbn [fst]. rewrite take_nil. reflexivity.
  - destruct (rejected_write m Pending name rec s k cleaned) as [Hl|Hl]; [done..|by rewrite E|left|right].
    + by apply like_unaffected.
    + exists (written Pending name rec s). split; [|by apply like_unaffected].
      pose proof (run_atomicWrite Pending name rec s Hf Hn) as Hr. unfold run in *. rewrite E.
      destruct (atomicWrite Pending name rec s) as [p r]. injection Hr as -> Hr. cbn [fst]. by rewrite Hr.
Qed.

(** ** The operations *)

(** A [claim] that finds no job writes nothing. *)
Lemma claim_loop_nothing now names : forall s p, claim_loop now names s = (p, Ok None) -> p = [].
Proof.
  induction names as [|name names IH]; intros s p; cbn [claim_loop]; [by intros [= <-]|].
  unfold mbind at 1, io_bind at 1. unfold readRecord. destruct (match dir Pending s !! name with Some _ => _ | None => _ end) as [r|e]; [|done].
  change (exec [] s) with s. destruct (_ || _).
  - destruct (claim_loop now names s) as [p' x] eqn:E. intros [= <- ->]. by eapply IH.
  - cbv zeta. unfold mbind, io_bind. destruct (atomicWrite _ _ _ s) as [p1 [[]|e]]; [|done].
    unfold lift. by destruct (decodeBody _).
Qed.

Lemma claim_none now s s1 : run (claim now) s = (Ok None, s1) -> (claim now s).1 = [].
Proof.
  destruct (jsonFiles_spec Pending s) as (names & En & _).
  assert (claim now s = claim_loop now names s) as -> by (unfold claim; by rewrite (bind_pure _ _ _ _ En)).
  unfold run. assert (claim now s = claim_loop now names s) as -> by (unfold claim; by rewrite (bind_pure _ _ _ _ En)).
  destruct (claim_loop now names s) as [p x] eqn:Ec. intros [= -> _]. cbn [fst]. by eapply claim_loop_nothing.
Qed.

(** A rejected [claim] changed nothing, or took a job. *)
Theorem fs_claim_rejects n now s k cleaned :
  inv n s -> 0 <= n < MAX_SAFE_INTEGER ->
  exists lost, claim_fault now s lost (rejected (claim now) s k cleaned).
Proof.
  intros Hi Hn. destruct (claim_writes n now s Hi ltac:(lia)) as (c & q & Hw & _).
  destruct (rejected_one_write (n + 1) s _ _ _ k cleaned (fs_inv_mono n (n + 1) s Hi ltac:(lia)) Hw) as [Hu|(s1 & E & Hu)].
  { exists []. by apply claim_untouched. }
  destruct c as [c|]; [exists [c_id c]; by eapply claim_taken|]. exists []. apply claim_untouched.
  apply claim_none in E. unfold rejected. rewrite E, take_nil. reflexivity.
Qed.

(** A rejected [enqueue] stored nothing, or the job. *)
Theorem fs_enqueue_rejects n now i s k cleaned :
  inv n s -> 0 <= n -> clock_ok now -> enqueue_fault now i s (rejected (enqueue now i) s k cleaned).
Proof.
  intros Hi Hn Hc. pose proof (enqueue_writes n now i s Hi Hn Hc) as Hw.
  destruct (spec_enqueue queueFile now i (abs s)) as [r q].
  destruct (rejected_one_write n s _ r q k cleaned Hi Hw) as [Hu|(s1 & E & Hu)]; [by left|by eapply enqueue_taken].
Qed.

(** A rejected [finish] that asks for a retry has no effect, or all of it. *)
Theorem fs_retry_rejects n now jobId o s k cleaned :
  inv n s -> clock_ok now -> o_kind o = js "retry" ->
  unaffected s (rejected (finish base now jobId o) s k cleaned) \/
  exists s1, run (finish base now jobId o) s = (Ok tt, s1) /\ unaffected s1 (rejected (finish base now jobId o) s k cleaned).
Proof.
  intros Hi Hc Hk. pose proof Hi as [(Hok & Hf & _) Hd]. pose proof (queueFile_json jobId) as Hj.
  assert (valid_kind o = true) as Hv by (unfold valid_kind; by rewrite Hk).
  destruct (finish_cases n base now jobId o s Hi Hv) as [[[e E] _]|(r & Hfin & Ej & E)].
  { left. unfold rejected. rewrite E. cbn [fst]. rewrite take_nil. reflexivity. }
  rewrite Hk in E. change (streq (js "retry") (js "terminal")) with false in E. cbv iota in E.
  eapply (rejected_one_write n s _ (Ok tt)); [done|].
  pose proof (run_atomicWrite Pending (queueFile jobId) (retry_record base now o r) s Hf Hj) as Hrun. unfold run in Hrun.
  pose proof Hfin as (Hp & _). eapply (writes_file _ _ _ (queueFile jobId) (retry_record base now o r)); [|done| |].
  - rewrite E. destruct (atomicWrite _ _ _ s) as [p x]. by injection Hrun as -> _.
  - apply file_ok_retry; [by apply valid_retryDelayMs_nonneg|done|]. by apply Hok.
  - apply Hd; [done|by eexists].
Qed.

(** ** A terminal [finish] *)

(** The archive has the job and its pending file is still there. *)
Definition half_finished (now : Z) (jobId : jsstr) (o : outcome) (s : t) : t -> Prop := fun s' =>
  exists r, finishable s jobId r /\ like (written Archive (queueFile jobId) (terminal_record now o r) s) s'.

Lemma finish_temporary d name r s k d' tmp :
  fresh s -> json_name name = true ->
  open_temporary (take k ((atomicWrite d name r s).1 ++ [Remove Pending name])) = Some (d', tmp) -> json_name tmp = false.
Proof.
  intros Hf Hn. unfold atomicWrite. rewrite (Hf d name (draws s) Hn) by lia.
  destruct k as [|[|[|[|[|k]]]]]; cbn [fst take app]; unfold open_temporary; cbn [fold_left]; try done;
    [intros [= _ <-]; by apply temporary_json..|]. by rewrite take_nil.
Qed.

(** A rejected terminal [finish] has no effect, or all of it, or it archived the
    job and left it running. *)
Theorem fs_terminal_rejects n now jobId o s k cleaned :
  inv n s -> clock_ok now -> o_kind o = js "terminal" ->
  let s' := rejected (finish base now jobId o) s k cleaned in
  unaffected s s' \/ half_finished now jobId o s s' \/
  exists s1, run (finish base now jobId o) s = (Ok tt, s1) /\ unaffected s1 s'.
Proof.
  intros Hi Hc Hk s'. pose proof Hi as [(Hok & Hf & _) Hd]. pose proof (queueFile_json jobId) as Hj.
  assert (valid_kind o = true) as Hv by (unfold valid_kind; by rewrite Hk).
  destruct (finish_cases n base now jobId o s Hi Hv) as [[[e E] _]|(r & Hfin & Ej & E)].
  { left. unfold s', rejected. rewrite E. cbn [fst]. rewrite take_nil. reflexivity. }
  rewrite Hk in E. change (streq (js "terminal") (js "terminal")) with true in E. cbv iota in E.
  set (name := queueFile jobId) in *. set (rec := terminal_record now o r) in *.
  pose proof (run_atomicWrite Archive name rec s Hf Hj) as Hrun.
  destruct (rejected_like (finish base now jobId o) s k cleaned
    (fun s0 => s0 = s \/ s0 = written Archive name rec s \/ s0 = removed Pending name (written Archive name rec s)))
    as (s0 & Hs0 & Hl).
  - intros d tmp. rewrite E. unfold mbind, io_bind. unfold run in Hrun.
    destruct (atomicWrite Archive name rec s) as [p x] eqn:Ea. injection Hrun as -> _. cbn [durableRemove fst].
    intros Ht. eapply (finish_temporary Archive name rec s k); [done..|]. by rewrite Ea.
  - eapply crash_trace; [by rewrite E|]. apply crash_safe_bind.
    + apply crash_safe_atomicWrite; [done..| |].
      * intros s2 Hf2 Hs2. exists s. split; [by left|done].
      * eexists. split; [by right; left|]. split; [done|by apply fresh_written].
    + intros [] s2. rewrite Hrun. intros [= <-] [|k2].
      * eexists. split; [by right; left|]. split; [done|]. exact (fresh_written Archive name rec s Hf Hj).
      * eexists. split; [by right; right|]. unfold crash, durableRemove. cbn [fst take]. rewrite take_nil.
        split; [done|]. exact (fresh_removed Pending name _ (fresh_written Archive name rec s Hf Hj)).
  - destruct Hs0 as [-> |[-> | ->]].
    + left. by apply like_unaffected.
    + right. left. by exists r.
    + right. right. eexists. split; [|by apply like_unaffected]. unfold run. rewrite E.
      change (let '(p, r) := ?m s in (r, exec p s)) with (run m s). by rewrite run_bind, Hrun.
Qed.

(** What the worker does next: it asks for a retry.  The archived job becomes
    claimable again, and the next [claim] whose turn it is hands it out, until a
    restart removes its pending file. *)
Theorem archived_job_runs_again n now now' now'' jobId o e s s' rest :
  inv n s -> clock_ok now' -> half_finished now jobId o s s' -> o_kind e = js "retry" ->
  exists s2 r a c p, run (finish base now' jobId e) s' = (Ok tt, s2) /\
    pendingDirectory s2 !! queueFile jobId = Some (Stored r) /\ state r = QRetry /\
    archiveDirectory s2 !! queueFile jobId = Some (Stored a) /\ state a = QTerminal /\
    terminalResult a = Some (o_result o) /\
    (nextAttemptAt r <= now'' -> claim_loop now'' (queueFile jobId :: rest) s2 = (p, Ok (Some c)) /\ c_id c = jobId).
Proof.
  intros Hi Hc (r & Hfin & Hs & Hf') Hk. pose proof Hi as [(Hok & Hf & _) Hd]. pose proof (queueFile_json jobId) as Hj.
  destruct (finish_terminal_states n now o jobId r s Hi Hfin) as (Hmid & _).
  pose proof Hfin as (Hp & Hid & Hr & Hne). set (name := queueFile jobId) in *. set (a := terminal_record now o r) in *.
  pose proof (recoverable_same _ _ _ Hs Hf' Hmid) as (Hok' & _ & _).
  assert (pendingDirectory s' !! name = Some (Stored r)) as Hp'
    by (rewrite <- (Hs Pending name Hj : pendingDirectory _ !! name = pendingDirectory s' !! name); exact Hp).
  assert (archiveDirectory s' !! name = Some (Stored a)) as Ha'
    by (rewrite <- (Hs Archive name Hj : archiveDirectory _ !! name = archiveDirectory s' !! name); apply lookup_insert_eq).
  set (rr := retry_record base now' e r).
  assert (file_ok n Pending name (Stored rr)) as Hrr
    by (apply file_ok_retry; [by apply valid_retryDelayMs_nonneg|done|by apply Hok]).
  assert (run (finish base now' jobId e) s' = (Ok tt, written Pending name rr s')) as Hrun.
  { unfold finish. rewrite (proj2 (streq_false _ _) Hne). unfold valid_kind. rewrite Hk.
    change (str_in (js "retry") [js "terminal"; js "retry"]) with true. cbn [negb orb].
    fold name. rewrite run_bind. unfold run at 1. rewrite (readRecord_some n s' Pending name r Hok' Hj Hp'). cbn [exec fold_left].
    rewrite Hid, streq_refl, Hr. change (is_running QRunning) with true. cbn [negb orb].
    change (streq (js "retry") (js "terminal")) with false. cbv iota. by apply run_atomicWrite. }
  set (s2 := written Pending name rr s') in *.
  assert (files_ok n s2) as Hok2 by (by apply files_ok_written).
  assert (pendingDirectory s2 !! name = Some (Stored rr)) as Hp2 by apply lookup_insert_eq.
  exists s2, rr, a. eexists _, _. split_and!; try done. intros Hle. split.
  - cbn [claim_loop]. rewrite (bind_pure _ _ _ _ (readRecord_some n s2 Pending name rr Hok2 Hj Hp2)).
    change (is_running (state rr)) with false. cbn [orb]. rewrite (proj2 (Z.ltb_ge _ _) Hle). cbv zeta.
    apply (bind_write Pending name (claimed_record now'' rr) s2); [by apply fresh_written|done| |reflexivity].
    intros s3. rewrite (bind_pure _ _ _ (base64_decode (body rr))); [reflexivity|].
    unfold lift. f_equal. apply file_ok_Stored in Hrr as [Hv _]. exact (decodeBody_valid rr Hv).
  - done.
Qed.
End faults.
End FsFaults.
