(* ===== verification/QueueTheorems.v ===== *)
(** * Theorems about the job queues

    The contract's consequences for every implementation, the two refinements,
    and the crash behaviour of the filesystem queue. *)

From S2P Require Import Prelude JsText JsNum JsValue Regex Validators Node QueueSpec MemoryQueue FsQueue.

(** ** For every implementation of the interface *)
Section interface.
Context {Q : Type} {base : Z} `{JobQueue Q base}.

(** C12: No history of calls loses a job: whatever is in the queue stays there
    under the same id, deployment and fingerprint, its attempts never go down,
    and a finished job keeps its result for ever. *)
Theorem queue_never_loses_jobs n q cs es q' :
  q_inv n q -> 0 <= n -> n + Z.of_nat (length cs) <= MAX_SAFE_INTEGER -> Forall call_ok cs ->
  q_history cs q = (es, q') -> queue_grows (q_abs q) (q_abs q').
Proof.
  intros Hi Hn Hl Hc E. eapply qsteps_grow. by eapply (q_history_refines cs n).
Qed.

(** A job handed to a worker is handed out to nobody else until its
    [finish] succeeds or the process restarts, in any history of calls. *)
Theorem queue_claim_exclusive n q cs es q' id :
  q_inv n q -> 0 <= n -> n + Z.of_nat (length cs) <= MAX_SAFE_INTEGER -> Forall call_ok cs ->
  running q_key (q_abs q) id ->
  q_history cs q = (es, q') -> Forall (fun e => ~ releases id e) es ->
  running q_key (q_abs q') id /\ Forall (fun e => ~ claims id e) es.
Proof.
  intros Hi Hn Hl Hc Hr E Hrel. eapply running_steps; [by eapply q_keyed_law| |done|done].
  by eapply (q_history_refines cs n).
Qed.

(** [enqueue] is idempotent: a second delivery of a known job reports a
    duplicate and adds no job; one that reuses the id for another deployment or
    fingerprint is refused and changes nothing. *)
Theorem enqueue_idempotent n now i q j :
  q_inv n q -> 0 <= n -> clock_ok now -> validateEnqueue i = Ok tt ->
  q_abs q !! q_key (in_id i) = Some j ->
  let '(r, q') := q_enqueue now i q in
  if decide (identity_of j = identity_of_input i)
  then r = Ok true /\ dom (q_abs q') = dom (q_abs q)
  else r = Throw idempotency_conflict /\ q_abs q' = q_abs q.
Proof.
  intros Hi Hn Hc Hv Hj. pose proof (q_enqueue_law n now i q Hi Hn Hc) as Hl.
  destruct (q_enqueue now i q) as [r q']. destruct Hl as [_ Hl].
  unfold spec_enqueue in Hl. rewrite Hv, Hj in Hl.
  destruct (assertSameIdentity_cases (identity_of j) (identity_of_input i)) as [[E Ea]|[E Ea]];
    rewrite Ea in Hl.
  - rewrite decide_True by done. injection Hl as -> ->. split; [done|].
    assert (q_key (in_id i) ∈ dom (q_abs q)) by (by apply elem_of_dom).
    destruct (j_state j); rewrite ?dom_insert_L; set_solver.
  - rewrite decide_False by done. by injection Hl as -> ->.
Qed.

(** A delivery that arrives while the job is running is not lost: when the
    run ends in a retry, the next attempt carries the newer body. *)
Theorem redelivery_reaches_next_attempt n now now' i o q j :
  q_inv n q -> 0 <= n -> clock_ok now -> clock_ok now' -> validateEnqueue i = Ok tt ->
  q_abs q !! q_key (in_id i) = Some j -> identity_of j = identity_of_input i ->
  j_state j = QRunning -> o_kind o = js "retry" ->
  let '(_, q1) := q_enqueue now i q in
  let '(r, q2) := q_finish now' (in_id i) o q1 in
  r = Ok tt /\
  exists j', q_abs q2 !! q_key (in_id i) = Some j' /\ j_state j' = QRetry /\ j_body j' = in_body i /\
    j_attempts j' = j_attempts j /\ j_nextAttemptAt j' = now' + retryDelay base (j_attempts j).
Proof.
  intros Hi Hn Hc Hc' Hv Hj Hid Hs Ho. pose proof (q_enqueue_law n now i q Hi Hn Hc) as Hl.
  destruct (q_enqueue now i q) as [r q1]. destruct Hl as [Hi1 Hl].
  unfold spec_enqueue in Hl. rewrite Hv, Hj, (proj2 (assertSameIdentity_ok _ _) Hid), Hs in Hl.
  injection Hl as _ Ha1. assert (valid_kind o = true) as Hk by (unfold valid_kind; by rewrite Ho).
  pose proof (q_finish_law n now' (in_id i) o q1 Hi1 Hc' Hk) as Hf.
  destruct (q_finish now' (in_id i) o q1) as [r' q2]. destruct Hf as [_ Hf].
  unfold spec_finish in Hf. rewrite Ha1, lookup_insert_eq, decide_True in Hf.
  - rewrite Ho in Hf. destruct Hf as [-> ->]. split; [done|]. eexists. by rewrite lookup_insert_eq.
  - injection Hid as Hid _ _. split_and!; [done..|].
    unfold validateEnqueue in Hv. apply throw_if_ok in Hv. rewrite !orb_false_iff, streq_false in Hv. tauto.
Qed.
End interface.

(** ** The refinements *)

(** Every history of the in-memory queue, from an empty queue, is a history
    of the abstract queue. *)
Theorem memory_queue_refines base cs es q :
  Z.of_nat (length cs) <= MAX_SAFE_INTEGER -> Forall call_ok cs ->
  q_history (H := Memory.queue base) cs Memory.empty = (es, q) ->
  qsteps base (fun id => id) ∅ es (Memory.abs q).
Proof.
  intros Hl Hc E.
  destruct (q_history_refines (H := Memory.queue base) cs 0 Memory.empty es q) as [Hs _];
    [apply Memory.mem_empty_inv|lia|lia|done|done|exact Hs].
Qed.

Section filesystem.
Context `{Sha256} `{Base64} `{Uuid}.

(** C11: Every history of the filesystem queue, from empty directories, is a
    history of the same abstract queue, with jobs filed under the hash of their
    id. *)
Theorem filesystem_queue_refines base (Hb : Fs.valid_retryDelayMs base = true) cs es s :
  Z.of_nat (length cs) <= MAX_SAFE_INTEGER -> Forall call_ok cs ->
  q_history (H := Fs.queue base Hb) cs Fs.empty = (es, s) ->
  qsteps base Fs.queueFile ∅ es (Fs.abs s).
Proof.
  intros Hl Hc E.
  destruct (q_history_refines (H := Fs.queue base Hb) cs 0 Fs.empty es s) as [Hs _];
    [apply Fs.fs_empty_inv|lia|lia|done|done|exact Hs].
Qed.

(** The directories after the first [k] file system calls of an operation. *)
Definition crash_in (base : Z) (c : qcall) (s : Fs.t) (k : nat) : Fs.t :=
  match c with
  | CInitialize now => Fs.crash (Fs.initialize now) s k
  | CEnqueue now i => Fs.crash (Fs.enqueue now i) s k
  | CClaim now => Fs.crash (Fs.claim now) s k
  | CFinish now id o => Fs.crash (Fs.finish base now id o) s k
  end.

(** The directories after the whole operation. *)
Definition completed (base : Z) (c : qcall) (s : Fs.t) : Fs.t :=
  match c with
  | CInitialize now => (Fs.run (Fs.initialize now) s).2
  | CEnqueue now i => (Fs.run (Fs.enqueue now i) s).2
  | CClaim now => (Fs.run (Fs.claim now) s).2
  | CFinish now id o => (Fs.run (Fs.finish base now id o) s).2
  end.

(** Up to the reset of running jobs, a crash leaves the old or the new queue. *)
Lemma crash_old_or_new base n c s k :
  Fs.valid_retryDelayMs base = true -> Fs.inv n s -> 0 <= n < MAX_SAFE_INTEGER -> call_ok c ->
  let s' := crash_in base c s k in
  Fs.recoverable (n + 1) s' /\
  (spec_recover (Fs.abs s') = spec_recover (Fs.abs s) \/
   spec_recover (Fs.abs s') = spec_recover (Fs.abs (completed base c s))).
Proof.
  intros Hb Hi Hn Hc. apply Fs.valid_retryDelayMs_nonneg in Hb.
  destruct c as [now|now i|now|now id o]; simpl in *.
  - destruct (Fs.initialize_spec n now s (proj1 Hi)) as [_ Hcr]. destruct (Hcr k) as [Hr Ha].
    split; [eapply Fs.recoverable_mono; [|done]; lia|by left].
  - pose proof (Fs.enqueue_writes n now i s Hi ltac:(lia) Hc) as Hw.
    destruct (spec_enqueue Fs.queueFile now i (Fs.abs s)) as [r q].
    destruct (Fs.one_write_crash n n s _ r q Hi ltac:(lia) Hw k) as [Hr Ha].
    destruct (Fs.one_write_run n n s _ r q Hi ltac:(lia) Hw) as (s1 & -> & _ & <-).
    split; [eapply Fs.recoverable_mono; [|done]; lia|]. destruct Ha as [->| ->]; [by left|by right].
  - destruct (Fs.claim_writes n now s Hi ltac:(lia)) as (r & q & Hw & _).
    destruct (Fs.one_write_crash (n + 1) n s _ _ q Hi ltac:(lia) Hw k) as [Hr Ha].
    destruct (Fs.one_write_run (n + 1) n s _ _ q Hi ltac:(lia) Hw) as (s1 & -> & _ & <-).
    split; [done|]. destruct Ha as [->| ->]; [by left|by right].
  - destruct Hc as [Hc Hk]. destruct (Fs.finish_crash n base now id o s Hb Hi Hc Hk k) as [Hr Ha].
    split; [eapply Fs.recoverable_mono; [|done]; lia|]. destruct Ha as [->| ->]; [by left|by right].
Qed.

(** The filesystem queue survives a crash at any point: stop any operation
    after any number of its file system calls, restart, and [initialize]
    succeeds and leaves a well-formed queue that is exactly the one before the
    interrupted operation or the one after it, with running jobs made pending
    again. *)
Theorem filesystem_crash_atomic base n c s k now :
  Fs.valid_retryDelayMs base = true -> Fs.inv n s -> 0 <= n < MAX_SAFE_INTEGER -> call_ok c ->
  exists s', Fs.run (Fs.initialize now) (crash_in base c s k) = (Ok tt, s') /\ Fs.inv (n + 1) s' /\
    (Fs.abs s' = spec_recover (Fs.abs s) \/
     Fs.abs s' = spec_recover (Fs.abs (completed base c s))).
Proof.
  intros Hb Hi Hn Hc. destruct (crash_old_or_new base n c s k Hb Hi Hn Hc) as [Hr Ha].
  destruct (Fs.initialize_spec (n + 1) now _ Hr) as [(s' & Hrun & Hi' & Habs) _].
  exists s'. rewrite Habs. split_and!; [done..|]. exact Ha.
Qed.
End filesystem.

(** The retry schedule: the delay starts at the configured value, never
    decreases from one attempt to the next, doubles until the cap, never
    exceeds five minutes and is constant from the ninth attempt on. *)
Theorem retryDelay_schedule base attempts :
  100 <= base <= 300000 ->
  retryDelay base 1 = base /\
  retryDelay base attempts <= retryDelay base (attempts + 1) /\
  (1 <= attempts <= 8 -> retryDelay base (attempts + 1) = Z.min (2 * retryDelay base attempts) 300000) /\
  base <= retryDelay base attempts <= 300000 /\
  (9 <= attempts -> retryDelay base attempts = retryDelay base 9).
Proof.
  intros Hb. unfold retryDelay. change (2 ^ Z.min (Z.max (1 - 1) 0) 8) with 1.
  set (e := Z.min (Z.max (attempts - 1) 0) 8).
  assert (0 <= e <= 8) as He by lia. pose proof (Z.pow_pos_nonneg 2 e ltac:(lia) ltac:(lia)) as Hp.
  assert (e < 8 /\ 1 <= attempts /\ Z.min (Z.max (attempts + 1 - 1) 0) 8 = e + 1 \/
          (8 <= e \/ attempts <= 0) /\ Z.min (Z.max (attempts + 1 - 1) 0) 8 = e) as [(? & ? & ->)|(? & ->)] by lia.
  - rewrite Z.pow_add_r by lia. change (2 ^ 1) with 2. split_and!; try nia.
  - split_and!; try nia. intros. by replace e with 8 by lia.
Qed.

(** ** Witnesses *)
Definition demo_input : input :=
  mkInput (js "req-1") (js "dep-1") (replicate 64 97) [1; 2; 3].

Definition demo_redelivery : input :=
  mkInput (js "req-1") (js "dep-1") (replicate 64 97) [4; 5].

Definition demo_other : input :=
  mkInput (js "req-1") (js "dep-2") (replicate 64 97) [6].

Definition demo_retry : outcome := mkOutcome (js "retry") VUndef.
Definition demo_terminal : outcome := mkOutcome (js "terminal") (VText "published").

(** The in-memory queue with one waiting job, and with that job running. *)
Definition memory_waiting : Memory.t := (Memory.enqueue 1000 demo_input Memory.empty).2.
Definition memory_running : Memory.t := (Memory.claim 1000 memory_waiting).2.

Lemma demo_clock : clock_ok 1000.
Proof. by split. Qed.

Lemma memory_waiting_inv : Memory.inv 0 memory_waiting.
Proof.
  pose proof (Memory.mem_enqueue_law 0 1000 demo_input Memory.empty Memory.mem_empty_inv ltac:(lia) demo_clock) as Hl.
  unfold memory_waiting. destruct (Memory.enqueue 1000 demo_input Memory.empty). apply Hl.
Qed.

Lemma memory_running_inv : Memory.inv 1 memory_running.
Proof.
  destruct (Memory.mem_claim_law 0 1000 memory_waiting memory_waiting_inv) as (c & q & E & Hi & _);
    [done|apply demo_clock|]. unfold memory_running. by rewrite E.
Qed.

Lemma queue_never_loses_jobs_witness :
  queue_grows (Memory.abs memory_running)
    (Memory.abs (q_history (H := Memory.queue 100) [CFinish 2000 (js "req-1") demo_terminal;
       CEnqueue 3000 demo_redelivery; CInitialize 4000; CClaim 5000] memory_running).2).
Proof.
  apply (queue_never_loses_jobs (H := Memory.queue 100) 1 memory_running
    [CFinish 2000 (js "req-1") demo_terminal; CEnqueue 3000 demo_redelivery; CInitialize 4000; CClaim 5000]
    (q_history (H := Memory.queue 100) [CFinish 2000 (js "req-1") demo_terminal;
       CEnqueue 3000 demo_redelivery; CInitialize 4000; CClaim 5000] memory_running).1).
  - apply memory_running_inv.
  - lia.
  - vm_compute. discriminate.
  - repeat constructor; vm_compute; discriminate.
  - vm_compute. reflexivity.
Defined.

Definition demo_calls : list qcall :=
  [CEnqueue 2000 demo_redelivery; CClaim 3000; CFinish 3000 (js "req-2") demo_terminal; CClaim 4000].

Lemma queue_claim_exclusive_witness :
  running (fun id => id)
    (Memory.abs (q_history (H := Memory.queue 100) demo_calls memory_running).2) (js "req-1") /\
  Forall (fun e => ~ claims (js "req-1") e)
    (q_history (H := Memory.queue 100) demo_calls memory_running).1.
Proof.
  apply (queue_claim_exclusive (H := Memory.queue 100) 1 memory_running demo_calls).
  - apply memory_running_inv.
  - lia.
  - vm_compute. discriminate.
  - repeat constructor; vm_compute; discriminate.
  - eexists. split; [vm_compute; reflexivity|]. split; vm_compute; reflexivity.
  - destruct (q_history _ _); reflexivity.
  - vm_compute. repeat constructor; intros [E|[o E]]; discriminate E.
Defined.

Lemma enqueue_idempotent_witness :
  (Memory.enqueue 2000 demo_redelivery memory_running).1 = Ok true /\
  (Memory.enqueue 2000 demo_other memory_running).1 = Throw idempotency_conflict.
Proof.
  split.
  - refine (proj1 (enqueue_idempotent (H := Memory.queue 100) 1 2000 demo_redelivery memory_running
      (job_run (job_new 1000 demo_input)) memory_running_inv _ _ _ _));
      [lia|split; vm_compute; discriminate|vm_compute; reflexivity|vm_compute; reflexivity].
  - refine (proj1 (enqueue_idempotent (H := Memory.queue 100) 1 2000 demo_other memory_running
      (job_run (job_new 1000 demo_input)) memory_running_inv _ _ _ _));
      [lia|split; vm_compute; discriminate|vm_compute; reflexivity|vm_compute; reflexivity].
Defined.

Lemma redelivery_reaches_next_attempt_witness :
  (Memory.finish 100 3000 (js "req-1") demo_retry
     (Memory.enqueue 2000 demo_redelivery memory_running).2).1 = Ok tt.
Proof.
  refine (proj1 (redelivery_reaches_next_attempt (H := Memory.queue 100) 1 2000 3000 demo_redelivery
    demo_retry memory_running (job_run (job_new 1000 demo_input)) memory_running_inv _ _ _ _ _ _ _ _));
    try (split; vm_compute; discriminate); try (vm_compute; reflexivity). lia.
Defined.

Lemma memory_queue_refines_witness :
  qsteps 100 (fun id => id) ∅
    (q_history (H := Memory.queue 100) (CEnqueue 1000 demo_input :: CClaim 1500 :: demo_calls) Memory.empty).1
    (Memory.abs (q_history (H := Memory.queue 100)
      (CEnqueue 1000 demo_input :: CClaim 1500 :: demo_calls) Memory.empty).2).
Proof.
  apply (memory_queue_refines 100 (CEnqueue 1000 demo_input :: CClaim 1500 :: demo_calls)).
  - vm_compute. discriminate.
  - repeat constructor; vm_compute; discriminate.
  - destruct (q_history _ _); reflexivity.
Defined.

(** The filesystem queue over concrete hashing, encoding and UUIDs. *)
#[local] Existing Instance toy_sha256.
#[local] Existing Instance toy_base64.
#[local] Existing Instance toy_uuid.

Lemma filesystem_queue_refines_witness :
  qsteps 100 Fs.queueFile ∅
    (q_history (H := Fs.queue 100 eq_refl) (CEnqueue 1000 demo_input :: CClaim 1500 :: demo_calls) Fs.empty).1
    (Fs.abs (q_history (H := Fs.queue 100 eq_refl)
      (CEnqueue 1000 demo_input :: CClaim 1500 :: demo_calls) Fs.empty).2).
Proof.
  apply (filesystem_queue_refines 100 eq_refl (CEnqueue 1000 demo_input :: CClaim 1500 :: demo_calls)).
  - vm_compute. discriminate.
  - repeat constructor; vm_compute; discriminate.
  - destruct (q_history _ _); reflexivity.
Defined.

(** The directories with the job waiting, and with it running. *)
Definition fs_waiting : Fs.t := (Fs.run (Fs.enqueue 1000 demo_input) Fs.empty).2.
Definition fs_running : Fs.t := (Fs.run (Fs.claim 1000) fs_waiting).2.

Lemma fs_running_inv : Fs.inv 1 fs_running.
Proof.
  pose proof (Fs.fs_enqueue_law 0 1000 demo_input Fs.empty Fs.fs_empty_inv ltac:(lia) demo_clock) as Hl.
  assert (Fs.inv 0 fs_waiting) as Hw.
  { unfold fs_waiting. destruct (Fs.run (Fs.enqueue 1000 demo_input) Fs.empty). apply Hl. }
  destruct (Fs.fs_claim_law 0 1000 fs_waiting Hw) as (c & s & E & Hi & _); [done|apply demo_clock|].
  unfold fs_running. by rewrite E.
Qed.

(** A crash between the archive write and the removal of the pending file. *)
Lemma filesystem_crash_atomic_witness :
  exists s', Fs.run (Fs.initialize 9000)
      (crash_in 100 (CFinish 2000 (js "req-1") demo_terminal) fs_running 4) = (Ok tt, s') /\
    Fs.inv 2 s' /\
    (Fs.abs s' = spec_recover (Fs.abs fs_running) \/
     Fs.abs s' = spec_recover (Fs.abs (completed 100 (CFinish 2000 (js "req-1") demo_terminal) fs_running))).
Proof.
  apply (filesystem_crash_atomic 100 1 (CFinish 2000 (js "req-1") demo_terminal) fs_running 4 9000).
  - reflexivity.
  - apply fs_running_inv.
  - split; [lia|reflexivity].
  - split; [split; vm_compute; discriminate|reflexivity].
Defined.

Lemma retryDelay_schedule_witness : retryDelay 1000 1 = 1000 /\ retryDelay 1000 12 = retryDelay 1000 9.
Proof.
  split; [apply (retryDelay_schedule 1000 12); lia|].
  apply (retryDelay_schedule 1000 12); lia.
Defined.

(** ** A stale body

    A delivery that arrives during a run is kept in [redeliveryBody].  If the
    worker restarts, the job becomes pending with that field still set; a newer
    delivery then replaces [body] but not [redeliveryBody], and the next retry
    puts the older body back. *)
Section stale.
Context {Q : Type} {base : Z} `{JobQueue Q base}.

(** A claim of a given job. *)
Lemma claim_of_job n now q id c q' j :
  q_inv n q -> 0 <= n < MAX_SAFE_INTEGER -> clock_ok now -> q_abs q !! q_key id = Some j -> j_id j = id ->
  q_claim now q = (Ok (Some c), q') -> c_id c = id ->
  q_inv (n + 1) q' /\ c = claim_of (job_run j) /\ q_abs q' = <[q_key id := job_run j]> (q_abs q).
Proof.
  intros Hq Hn Hc Hj Hid E Hcid. destruct (q_claim_law n now q Hq Hn Hc) as (c0 & q0 & E0 & Hq' & Hs).
  rewrite E in E0. injection E0 as <- <-. split; [done|]. inversion Hs as [|k j' Hk Hd]; subst.
  pose proof (q_keyed_law n q Hq k j' Hk) as ->. cbn in Hcid. rewrite Hcid in *.
  by assert (j' = j) as -> by congruence.
Qed.

Lemma enqueue_same n now i q j :
  q_inv n q -> 0 <= n -> clock_ok now -> validateEnqueue i = Ok tt -> q_abs q !! q_key (in_id i) = Some j ->
  identity_of j = identity_of_input i -> j_state j <> QTerminal ->
  q_inv n (q_enqueue now i q).2 /\
  q_abs (q_enqueue now i q).2 =
    <[q_key (in_id i) := if decide (j_state j = QRunning) then job_redeliver (in_body i) j else job_replace now (in_body i) j]> (q_abs q).
Proof.
  intros Hq Hn Hc Hv Hj Hid Hst. pose proof (q_enqueue_law n now i q Hq Hn Hc) as Hl.
  destruct (q_enqueue now i q) as [r q']. destruct Hl as [Hq' Hl]. split; [done|]. unfold spec_enqueue in Hl.
  rewrite Hv, Hj, (proj2 (assertSameIdentity_ok _ _) Hid) in Hl. cbn [snd]. by destruct (j_state j); injection Hl as _ Hl; rewrite Hl.
Qed.

(** C19: A newer delivery is overwritten by an older one, in any queue that keeps the
    contract.  A job is running; [older] arrives; the worker restarts; [newer] arrives
    and is what the next attempt is given; that attempt ends with a retry.  Then every
    later attempt, as long as nothing else is delivered, is given [older]: the restart
    left it in [redeliveryBody], the delivery of [newer] did not clear it, and the retry
    puts it back. *)
Theorem stale_redelivery n q j older newer t1 t2 t3 t4 t5 t6 o q1 q2 q3 c q4 q5 c' q6 :
  q_inv n q -> 0 <= n -> n + 2 <= MAX_SAFE_INTEGER -> Forall clock_ok [t1; t2; t3; t4; t5; t6] ->
  q_abs q !! q_key (in_id older) = Some j -> j_state j = QRunning ->
  identity_of j = identity_of_input older -> identity_of j = identity_of_input newer ->
  validateEnqueue older = Ok tt -> validateEnqueue newer = Ok tt -> o_kind o = js "retry" ->
  (q_enqueue t1 older q).2 = q1 -> (q_initialize t2 q1).2 = q2 -> (q_enqueue t3 newer q2).2 = q3 ->
  q_claim t4 q3 = (Ok (Some c), q4) -> c_id c = in_id older -> (q_finish t5 (in_id older) o q4).2 = q5 ->
  q_claim t6 q5 = (Ok (Some c'), q6) -> c_id c' = in_id older ->
  c_body c = in_body newer /\ c_body c' = in_body older.
Proof.
  intros Hq Hn Hmax Hclk Hj Hrun Hid1 Hid2 Hv1 Hv2 Ho E1 E2 E3 E4 Hc4 E5 E6 Hc6.
  rewrite !Forall_cons in Hclk. destruct Hclk as (Hk1 & Hk2 & Hk3 & Hk4 & Hk5 & Hk6 & _).
  assert (in_id newer = in_id older /\ j_id j = in_id older) as [Hin Hji].
  { unfold identity_of, identity_of_input in *. split; congruence. }
  destruct (enqueue_same n t1 older q j Hq Hn Hk1 Hv1 Hj Hid1 ltac:(congruence)) as [Hq1 Ha1].
  rewrite E1, decide_True in * by done.
  destruct (q_initialize_law n t2 q1 Hq1) as (q2' & E2' & Hq2 & Ha2). rewrite E2' in E2. cbn in E2. subst q2'.
  set (j2 := job_recover (job_redeliver (in_body older) j)).
  assert (q_abs q2 !! q_key (in_id newer) = Some j2) as Hj2.
  { rewrite Ha2, Ha1, Hin. unfold spec_recover. by rewrite lookup_fmap, lookup_insert_eq. }
  assert (j_state j2 = QPending) as Hp2 by (cbn; by rewrite decide_True).
  destruct (enqueue_same n t3 newer q2 j2 Hq2 Hn Hk3 Hv2 Hj2 Hid2 ltac:(congruence)) as [Hq3 Ha3].
  rewrite E3, decide_False in * by congruence. set (j3 := job_replace t3 (in_body newer) j2) in *.
  assert (q_abs q3 !! q_key (in_id older) = Some j3) as Hj3 by (rewrite Ha3, Hin; apply lookup_insert_eq).
  destruct (claim_of_job n t4 q3 _ c q4 j3 Hq3 ltac:(lia) Hk4 Hj3 Hji E4 Hc4) as (Hq4 & -> & Ha4). split; [done|].
  assert (valid_kind o = true) as Hvk by (unfold valid_kind; by rewrite Ho).
  pose proof (q_finish_law (n + 1) t5 (in_id older) o q4 Hq4 Hk5 Hvk) as Hl. unfold spec_finish in Hl.
  rewrite Ha4, lookup_insert_eq in Hl. rewrite decide_True in Hl.
  2:{ split_and!; [done..|]. unfold validateEnqueue in Hv1. apply throw_if_ok in Hv1. rewrite !orb_false_iff, streq_false in Hv1. tauto. }
  rewrite Ho in Hl. change (streq (js "retry") (js "terminal")) with false in Hl. cbv iota in Hl.
  destruct (q_finish t5 (in_id older) o q4) as [r q5']. cbn in E5. subst q5'. destruct Hl as (Hq5 & -> & Ha5).
  assert (q_abs q5 !! q_key (in_id older) = Some (job_retry base t5 (job_run j3))) as Hj5 by (rewrite Ha5; apply lookup_insert_eq).
  by destruct (claim_of_job (n + 1) t6 q5 _ c' q6 _ Hq5 ltac:(lia) Hk6 Hj5 Hji E6 Hc6) as (_ & -> & _).
Qed.
End stale.

Definition demo_newer : input := mkInput (js "req-1") (js "dep-1") (replicate 64 97) [7; 8; 9].

Definition stale1 : Fs.t := (Fs.run (Fs.enqueue 2000 demo_redelivery) fs_running).2.
Definition stale2 : Fs.t := (Fs.run (Fs.initialize 3000) stale1).2.
Definition stale3 : Fs.t := (Fs.run (Fs.enqueue 4000 demo_newer) stale2).2.
Definition stale4 : Fs.t := (Fs.run (Fs.claim 4000) stale3).2.
Definition stale5 : Fs.t := (Fs.run (Fs.finish 100 5000 (js "req-1") demo_retry) stale4).2.
Definition stale_claim (b : bytes) (attempts : Z) : claimed := mkClaimed (js "req-1") (js "dep-1") b attempts.

Lemma stale_redelivery_witness : exists c', (Fs.run (Fs.claim 10000) stale5).1 = Ok (Some c') /\ c_body c' = [4; 5].
Proof.
  exists (stale_claim [4; 5] 3). split; [vm_compute; reflexivity|].
  refine (proj2 (stale_redelivery (H := Fs.queue 100 eq_refl) 1 fs_running (job_run (job_new 1000 demo_input))
    demo_redelivery demo_newer 2000 3000 4000 4000 5000 10000 demo_retry stale1 stale2 stale3 (stale_claim [7; 8; 9] 2) stale4 stale5
    (stale_claim [4; 5] 3) (Fs.run (Fs.claim 10000) stale5).2 fs_running_inv _ _ _ _ _ _ _ _ _ _ _ _ _ _ _ _ _ _)).
  1: lia.
  1: vm_compute; discriminate.
  1: repeat constructor; vm_compute; discriminate.
  1: vm_compute; reflexivity.
  1-6: vm_compute; reflexivity.
  1-3: reflexivity.
  1: vm_compute; reflexivity.
  1: reflexivity.
  1: reflexivity.
  1: vm_compute; reflexivity.
  reflexivity.
Defined.
