(* ===== verification/QueueLock.v ===== *)
(** * The lock of the filesystem queue ([job-queue.mjs], [lock])

    [lock(action)] chains every action to the end of the one before it:
    [this.tail] is a promise that settles when the last action has settled, either
    way.  Callers do not wait for each other; their actions suspend at every
    [await].  The model is a step relation over all jobs submitted so far, in which
    any job whose turn has come may take its next step at any time.

    The first part shows that the lock serialises its actions and never blocks;
    the second that the filesystem queue under concurrent callers, stopped at any
    moment, recovers to the queue in which every acknowledged call and at most one
    more has taken effect, in the order of the calls. *)

From S2P Require Import Prelude JsText JsNum JsValue Regex Validators Node QueueSpec FsQueue QueueTheorems.

(** ** Asynchronous actions

    An action runs from one [await] to the next; what it does in between reads and
    changes the store at that moment. *)
Inductive action (S R : Type) :=
  | Done (r : R)
  | Await (next : S -> S * action S R).
Arguments Done {S R} r.
Arguments Await {S R} next.

Section actions.
Context {S R : Type}.

(** The action alone, to its end. *)
Fixpoint run_alone (p : action S R) (s : S) : S * R :=
  match p with
  | Done r => (s, r)
  | Await next => match next s with (s', p') => run_alone p' s' end
  end.

(** Its first [k] steps. *)
Fixpoint steps_alone (k : nat) (p : action S R) (s : S) : S * action S R :=
  match k, p with
  | Datatypes.S k, Await next => let '(s', p') := next s in steps_alone k p' s'
  | _, _ => (s, p)
  end.

Lemma steps_next k : forall p s s1 next,
  steps_alone k p s = (s1, Await next) -> steps_alone (Datatypes.S k) p s = next s1.
Proof.
  induction k as [|k IH]; intros p s s1 next Hs.
  - injection Hs as -> ->. cbn [steps_alone]. by destruct (next s1) as [s' p'].
  - destruct p as [r|f]; [done|]. cbn [steps_alone] in Hs. change (steps_alone (Datatypes.S (Datatypes.S k)) (Await f) s)
      with (let '(s', p') := f s in steps_alone (Datatypes.S k) p' s'). destruct (f s) as [s' p']. by apply IH.
Qed.

Lemma steps_done k : forall p s s1 r, steps_alone k p s = (s1, Done r) -> run_alone p s = (s1, r).
Proof.
  induction k as [|k IH]; intros p s s1 r Hs.
  - by injection Hs as -> ->.
  - destruct p as [r'|f]; [by injection Hs as -> ->|]. cbn [steps_alone] in Hs. cbn [run_alone].
    destruct (f s) as [s' p']. by apply IH.
Qed.

(** One action after the other. *)
Fixpoint run_all (ps : list (action S R)) (s : S) : S * list R :=
  match ps with
  | [] => (s, [])
  | p :: rest =>
      let '(s1, r) := run_alone p s in
      let '(s2, rs) := run_all rest s1 in (s2, r :: rs)
  end.

Lemma run_all_snoc ps : forall p s,
  run_all (ps ++ [p]) s =
  (let '(s1, rs) := run_all ps s in let '(s2, r) := run_alone p s1 in (s2, rs ++ [r])).
Proof.
  induction ps as [|q ps IH]; intros p s; cbn [run_all app].
  - by destruct (run_alone p s).
  - destruct (run_alone q s) as [s1 r]. rewrite IH. destruct (run_all ps s1) as [s2 rs].
    by destruct (run_alone p s2).
Qed.

(** ** The lock *)
Inductive status :=
  | Waiting (p : action S R)
  | Running (p : action S R)
  | Settled (r : R).

(** A job waits for the promise that was [this.tail] when it was submitted:
    [None] is [Promise.resolve()], [Some i] the tail promise of job [i]. *)
Record job := mkJob { j_after : option nat; j_status : status }.

Record locked := mkLocked { l_jobs : list job; l_tail : option nat; l_store : S }.

(** [lock(action)]: [result = this.tail.then(action, action)] is the new job, and
    [this.tail = result.then(...)] its end. *)
Definition lock (p : action S R) (l : locked) : locked :=
  mkLocked (l_jobs l ++ [mkJob (l_tail l) (Waiting p)]) (Some (length (l_jobs l))) (l_store l).

Definition settled (l : locked) (after : option nat) : Prop :=
  match after with
  | None => True
  | Some i => exists a r, l_jobs l !! i = Some (mkJob a (Settled r))
  end.

Definition set_status (i : nat) (st : status) (s : S) (l : locked) : locked :=
  mkLocked (alter (fun j => mkJob (j_after j) st) i (l_jobs l)) (l_tail l) s.

(** The steps between two calls of [lock]: an action starts when the promise it
    waits for has settled, fulfilled or rejected; a running action takes a step; a
    finished one settles its promise. *)
Inductive lock_step : locked -> locked -> Prop :=
  | lock_start i after p l :
      l_jobs l !! i = Some (mkJob after (Waiting p)) -> settled l after ->
      lock_step l (set_status i (Running p) (l_store l) l)
  | lock_await i after next s' p' l :
      l_jobs l !! i = Some (mkJob after (Running (Await next))) -> next (l_store l) = (s', p') ->
      lock_step l (set_status i (Running p') s' l)
  | lock_done i after r l :
      l_jobs l !! i = Some (mkJob after (Running (Done r))) ->
      lock_step l (set_status i (Settled r) (l_store l) l).

(** The states reached by submitting the actions in this order, at any moments. *)
Inductive lock_reached (s0 : S) : list (action S R) -> locked -> Prop :=
  | reached_start : lock_reached s0 [] (mkLocked [] None s0)
  | reached_call ps p l : lock_reached s0 ps l -> lock_reached s0 (ps ++ [p]) (lock p l)
  | reached_step ps l l' : lock_reached s0 ps l -> lock_step l l' -> lock_reached s0 ps l'.

(** ** The invariant: settled jobs, at most one at work, waiting jobs *)
Definition turn (i : nat) : option nat := match i with O => None | Datatypes.S i => Some i end.

Inductive at_work (s : S) : list (action S R) -> list status -> S -> Prop :=
  | work_waiting ps : at_work s ps (map Waiting ps) s
  | work_running k p q ps s' : steps_alone k p s = (s', q) -> at_work s (p :: ps) (Running q :: map Waiting ps) s'.

Record serial (s0 : S) (ps : list (action S R)) (l : locked) (done : list (action S R)) (s1 : S) (rs : list R) : Prop := {
  sr_done : exists rest st, ps = done ++ rest /\ run_all done s0 = (s1, rs) /\
    map j_status (l_jobs l) = map Settled rs ++ st /\ at_work s1 rest st (l_store l);
  sr_after : forall i j, l_jobs l !! i = Some j -> j_after j = turn i;
  sr_tail : l_tail l = turn (length (l_jobs l));
}.

Lemma set_statuses i st s l :
  map j_status (l_jobs (set_status i st s l)) = <[i := st]> (map j_status (l_jobs l)).
Proof.
  unfold set_status. cbn [l_jobs]. generalize (l_jobs l) as js. intros js. revert i.
  induction js as [|j js IH]; intros [|i]; cbn; [done..|]. f_equal. apply IH.
Qed.

Lemma set_afters i st s l k j :
  l_jobs (set_status i st s l) !! k = Some j -> exists j0, l_jobs l !! k = Some j0 /\ j_after j = j_after j0.
Proof.
  unfold set_status. cbn [l_jobs]. destruct (decide (i = k)) as [->|Hne].
  - rewrite list_lookup_alter_eq. intros (j0 & Hj & ->)%fmap_Some. by exists j0.
  - rewrite list_lookup_alter_ne by done. intros Hj. by exists j.
Qed.

Lemma insert_middle {A} (a b : list A) x y : <[length a := y]> (a ++ x :: b) = a ++ y :: b.
Proof. induction a as [|z a IH]; [done|]. cbn. f_equal. exact IH. Qed.

Lemma status_at l i after st : l_jobs l !! i = Some (mkJob after st) -> map j_status (l_jobs l) !! i = Some st.
Proof. intros Hi. rewrite list_lookup_fmap, Hi. done. Qed.

(** The job at work is the first that has not settled. *)
Lemma at_work_settled s ps st s' k r : at_work s ps st s' -> st !! k <> Some (Settled r).
Proof.
  intros Hw Hk. destruct Hw as [ps|n p q ps s' _].
  - rewrite list_lookup_fmap in Hk. by destruct (ps !! k).
  - destruct k as [|k]; [done|]. change (map Waiting ps !! k = Some (Settled r)) in Hk. rewrite list_lookup_fmap in Hk.
    by destruct (ps !! k).
Qed.

Lemma at_work_running s ps st s' k q :
  at_work s ps st s' -> st !! k = Some (Running q) ->
  k = O /\ exists n p rest, ps = p :: rest /\ st = Running q :: map Waiting rest /\ steps_alone n p s = (s', q).
Proof.
  intros Hw Hk. destruct Hw as [ps|n p q' ps s' Hn].
  - rewrite list_lookup_fmap in Hk. by destruct (ps !! k).
  - destruct k as [|k]; [injection Hk as ->; split; [done|]; by exists n, p, ps|].
    change (map Waiting ps !! k = Some (Running q)) in Hk. rewrite list_lookup_fmap in Hk. by destruct (ps !! k).
Qed.

Lemma at_work_start s ps st s' p :
  at_work s ps st s' -> st !! O = Some (Waiting p) ->
  s' = s /\ exists rest, ps = p :: rest /\ st = Waiting p :: map Waiting rest.
Proof.
  intros Hw Hk. destruct Hw as [[|p' ps]|n p' q ps s' Hn]; try done. injection Hk as ->. split; [done|]. by exists ps.
Qed.

(** Only the job right after the settled ones has its turn. *)
Lemma turn_comes (rs : list R) (l : locked) st i after p s ps :
  map j_status (l_jobs l) = map Settled rs ++ st -> at_work s ps st (l_store l) ->
  l_jobs l !! i = Some (mkJob after (Waiting p)) -> after = turn i -> settled l after -> i = length rs.
Proof.
  intros Hst Hw Hi -> Hset. pose proof (status_at _ _ _ _ Hi) as Hsi. rewrite Hst in Hsi.
  destruct (decide (i < length rs)%nat) as [Hlt|Hge].
  { rewrite lookup_app_l in Hsi by (by rewrite length_map). rewrite list_lookup_fmap in Hsi. by destruct (rs !! i). }
  destruct (decide (i = length rs)) as [|Hne]; [done|]. exfalso. destruct i as [|i]; [lia|]. cbn [turn settled] in Hset.
  destruct Hset as (a & r & Hr). apply status_at in Hr. rewrite Hst, lookup_app_r in Hr by (rewrite length_map; lia).
  by eapply at_work_settled.
Qed.

Lemma running_first (rs : list R) (l : locked) st i after q s ps :
  map j_status (l_jobs l) = map Settled rs ++ st -> at_work s ps st (l_store l) ->
  l_jobs l !! i = Some (mkJob after (Running q)) ->
  i = length rs /\ exists n p rest, ps = p :: rest /\ st = Running q :: map Waiting rest /\ steps_alone n p s = (l_store l, q).
Proof.
  intros Hst Hw Hi%status_at. rewrite Hst in Hi. destruct (decide (i < length rs)%nat) as [Hlt|Hge].
  { rewrite lookup_app_l in Hi by (by rewrite length_map). rewrite list_lookup_fmap in Hi. by destruct (rs !! i). }
  rewrite lookup_app_r, length_map in Hi by (rewrite length_map; lia).
  destruct (at_work_running _ _ _ _ _ _ Hw Hi) as [Hz Hrest]. split; [lia|exact Hrest].
Qed.

Lemma serial_step s0 ps l l' done s1 rs :
  serial s0 ps l done s1 rs -> lock_step l l' -> exists done' s1' rs', serial s0 ps l' done' s1' rs'.
Proof.
  intros [(rest & st & Hps & Hrun & Hst & Hw) Haft Htail] Hstep.
  assert (forall i x s, (forall k j, l_jobs (set_status i x s l) !! k = Some j -> j_after j = turn k) /\
    l_tail (set_status i x s l) = turn (length (l_jobs (set_status i x s l)))) as Hkeep.
  { intros i x s. split; [intros k j (j0 & Hj & ->)%set_afters; by apply Haft|].
    cbn [l_tail set_status l_jobs]. by rewrite length_alter. }
  destruct Hstep as [i after p l Hi Hset|i after next s' p' l Hi Hn|i after r l Hi].
  - pose proof (turn_comes rs l st i after p s1 rest Hst Hw Hi (Haft _ _ Hi) Hset) as ->.
    pose proof (status_at _ _ _ _ Hi) as Hsi. rewrite Hst, lookup_app_r, length_map, Nat.sub_diag in Hsi by (by rewrite length_map).
    destruct (at_work_start _ _ _ _ _ Hw Hsi) as (Hs & rest' & -> & ->).
    exists done, s1, rs. destruct (Hkeep (length rs) (Running p) (l_store l)) as [K1 K2]. split; [|done..].
    exists (p :: rest'), (Running p :: map Waiting rest'). split_and!; [done..| |].
    + rewrite set_statuses, Hst, <- (length_map Settled rs). apply insert_middle.
    + cbn [set_status l_store]. rewrite Hs. by apply (work_running s1 O).
  - destruct (running_first rs l st i after _ s1 rest Hst Hw Hi) as (-> & n & p & rest' & -> & -> & Hk).
    exists done, s1, rs. destruct (Hkeep (length rs) (Running p') s') as [K1 K2]. split; [|done..].
    exists (p :: rest'), (Running p' :: map Waiting rest'). split_and!; [done..| |].
    + rewrite set_statuses, Hst, <- (length_map Settled rs). apply insert_middle.
    + cbn [set_status l_store]. apply (work_running s1 (Datatypes.S n)). by rewrite (steps_next _ _ _ _ _ Hk).
  - destruct (running_first rs l st i after _ s1 rest Hst Hw Hi) as (-> & n & p & rest' & -> & -> & Hk).
    exists (done ++ [p]), (l_store l), (rs ++ [r]). destruct (Hkeep (length rs) (Settled r) (l_store l)) as [K1 K2]. split; [|done..].
    exists rest', (map Waiting rest'). split_and!.
    + by rewrite <- app_assoc.
    + by rewrite run_all_snoc, Hrun, (steps_done _ _ _ _ _ Hk).
    + rewrite set_statuses, Hst, <- (length_map Settled rs), insert_middle, map_app, <- app_assoc. done.
    + apply work_waiting.
Qed.

Lemma serial_call s0 ps p l done s1 rs : serial s0 ps l done s1 rs -> serial s0 (ps ++ [p]) (lock p l) done s1 rs.
Proof.
  intros [(rest & st & -> & Hrun & Hst & Hw) Haft Htail]. split.
  - exists (rest ++ [p]), (st ++ [Waiting p]). split_and!; [by rewrite app_assoc|done| |].
    + cbn [lock l_jobs]. rewrite map_app, Hst, <- app_assoc. done.
    + cbn [lock l_store]. destruct Hw as [ps|n q x ps s' Hn].
      * change [Waiting p] with (map Waiting [p]). rewrite <- map_app. constructor.
      * change [Waiting p] with (map Waiting [p]). cbn [app]. rewrite <- map_app. by econstructor.
  - intros i j. cbn [lock l_jobs]. intros [Hi|[Hi Hj]]%lookup_app_Some; [by apply Haft|].
    apply list_lookup_singleton_Some in Hj as [Hz <-]. cbn [j_after]. rewrite Htail. f_equal. lia.
  - cbn [lock l_jobs l_tail]. rewrite length_app. cbn [length]. by rewrite Nat.add_1_r.
Qed.

(** The lock serialises: whatever the interleaving, the settled jobs are the first
    ones, their effects and results are those of running them one after the other
    in the order of the calls, and only the next one may have begun. *)
Lemma lock_serial s0 ps l : lock_reached s0 ps l -> exists done s1 rs, serial s0 ps l done s1 rs.
Proof.
  induction 1 as [|ps p l _ (done & s1 & rs & IH)|ps l l' _ (done & s1 & rs & IH) Hstep].
  - exists [], s0, []. split; [|done..]. exists [], []. split_and!; [done..|]. apply (work_waiting s0 []).
  - exists done, s1, rs. by apply serial_call.
  - by eapply serial_step.
Qed.

(** It never blocks: while a job has not settled, some job can take a step. *)
Lemma lock_progress s0 ps l : lock_reached s0 ps l ->
  (forall i j, l_jobs l !! i = Some j -> exists r, j_status j = Settled r) \/ exists l', lock_step l l'.
Proof.
  intros (done & s1 & rs & [(rest & st & _ & _ & Hst & Hw) Haft _])%lock_serial.
  assert (forall x, map j_status (l_jobs l) !! length rs = Some x -> exists j, l_jobs l !! length rs = Some j /\ j_status j = x) as Hat.
  { intros x Hx. rewrite list_lookup_fmap in Hx. apply fmap_Some in Hx as (j & Hj & ->). by exists j. }
  assert (map j_status (l_jobs l) !! length rs = st !! O) as Hhead.
  { rewrite Hst, lookup_app_r, length_map, Nat.sub_diag by (by rewrite length_map). done. }
  destruct Hw as [[|p rest']|n p q rest' s' Hn].
  - left. intros i j Hj. assert (map j_status (l_jobs l) !! i = Some (j_status j)) as Hs by (by rewrite list_lookup_fmap, Hj).
    rewrite Hst, app_nil_r, list_lookup_fmap in Hs. apply fmap_Some in Hs as (r & _ & Hr). by exists r.
  - right. destruct (Hat (Waiting p)) as ([after x] & Hj & Hx); [by rewrite Hhead|]. cbn in Hx. subst x.
    eexists. eapply lock_start; [exact Hj|]. pose proof (Haft _ _ Hj) as Ha. cbn in Ha. subst after.
    destruct rs as [|r rs _] using rev_ind; [exact I|]. rewrite length_app, Nat.add_1_r. cbn [turn settled].
    assert (map j_status (l_jobs l) !! length rs = Some (Settled r)) as Hs.
    { rewrite Hst, map_app, <- app_assoc, lookup_app_r, length_map, Nat.sub_diag by (by rewrite length_map). done. }
    rewrite list_lookup_fmap in Hs. apply fmap_Some in Hs as ([a x] & Hj' & Hx). cbn in Hx. subst x. by exists a, r.
  - right. destruct (Hat (Running q)) as ([after x] & Hj & Hx); [by rewrite Hhead|]. cbn in Hx. subst x.
    destruct q as [r|next]; [eexists; by eapply lock_done|].
    destruct (next (l_store l)) as [s2 p2] eqn:En. eexists. by eapply lock_await.
Qed.
End actions.

(** ** The filesystem queue under its lock *)
Section queue.
Context `{Sha256} `{Base64} `{Uuid} (base : Z) (Hb : Fs.valid_retryDelayMs base = true).

(** The file system calls of an operation, from the directories it finds. *)
Definition calls_of (c : qcall) (s : Fs.t) : list Fs.prim :=
  match c with
  | CInitialize now => (Fs.initialize now s).1
  | CEnqueue now i => (Fs.enqueue now i s).1
  | CClaim now => (Fs.claim now s).1
  | CFinish now id o => (Fs.finish base now id o s).1
  end.

(** An action that does what the operation does when nobody interferes: it goes
    through states the operation goes through, to the state it ends in. *)
Definition implements {R} (c : qcall) (p : action Fs.t R) : Prop :=
  (forall s k, exists k', (steps_alone k p s).1 = Fs.exec (take k' (calls_of c s)) s) /\
  forall s, (run_alone p s).1 = Fs.exec (calls_of c s) s.

(** The plainest such action: it looks at the directories when its turn comes, and
    then makes one call after the other. *)
Fixpoint emit (ps : list Fs.prim) : action Fs.t unit :=
  match ps with
  | [] => Done tt
  | p :: rest => Await (fun s => (Fs.exec_prim p s, emit rest))
  end.

Definition action_of (c : qcall) : action Fs.t unit := Await (fun s => (s, emit (calls_of c s))).

Lemma emit_steps ps : forall k s, exists k', (steps_alone k (emit ps) s).1 = Fs.exec (take k' ps) s.
Proof.
  induction ps as [|p ps IH]; intros k s; [exists O; by destruct k|]. destruct k as [|k]; [by exists O|].
  destruct (IH k (Fs.exec_prim p s)) as (k' & Hk). exists (Datatypes.S k'). exact Hk.
Qed.

Lemma emit_runs ps : forall s, (run_alone (emit ps) s).1 = Fs.exec ps s.
Proof. induction ps as [|p ps IH]; intros s; [done|]. cbn [emit run_alone]. by rewrite IH. Qed.

Lemma action_implements c : implements c (action_of c).
Proof.
  split; [|intros s; apply emit_runs]. intros s [|k]; [by exists O|]. cbn [steps_alone action_of]. apply emit_steps.
Qed.

Lemma crash_calls c s k : crash_in base c s k = Fs.exec (take k (calls_of c s)) s.
Proof. by destruct c. Qed.

Lemma completed_calls c s : completed base c s = Fs.exec (calls_of c s) s.
Proof. destruct c; cbn [completed calls_of]; unfold Fs.run; match goal with |- context [let '(_, _) := ?x in _] => by destruct x end. Qed.

(** The queue after the calls, one after the other. *)
Definition after (cs : list qcall) (s : Fs.t) : Fs.t := (q_history (H := Fs.queue base Hb) cs s).2.

Lemma call_completed c s : (q_call (H := Fs.queue base Hb) c s).2 = completed base c s.
Proof. destruct c; cbn; by destruct (Fs.run _ s). Qed.

Lemma after_cons c cs s : after (c :: cs) s = after cs (completed base c s).
Proof.
  unfold after. cbn [q_history]. rewrite <- call_completed. destruct (q_call c s) as [e s1]. cbn [snd].
  by destruct (q_history cs s1).
Qed.

Lemma after_app cs cs' : forall s, after (cs ++ cs') s = after cs' (after cs s).
Proof. induction cs as [|c cs IH]; intros s; [done|]. cbn [app]. by rewrite !after_cons, IH. Qed.

Lemma after_inv n cs s :
  Fs.inv n s -> 0 <= n -> n + Z.of_nat (length cs) <= MAX_SAFE_INTEGER -> Forall call_ok cs ->
  Fs.inv (n + Z.of_nat (length cs)) (after cs s).
Proof.
  intros Hi Hn Hl Hc. unfold after. destruct (q_history cs s) as [es s'] eqn:E.
  by apply (q_history_refines (H := Fs.queue base Hb) cs n s es s') in E as [_ ?].
Qed.

Lemma run_all_after {R} cs (ps : list (action Fs.t R)) :
  Forall2 implements cs ps -> forall s, (run_all ps s).1 = after cs s.
Proof.
  induction 1 as [|c p cs ps [_ Hp] _ IH]; intros s; [done|]. rewrite after_cons, completed_calls. cbn [run_all].
  specialize (Hp s). destruct (run_alone p s) as [s1 r]. cbn [fst] in Hp. subst s1.
  specialize (IH (Fs.exec (calls_of c s) s)). by destruct (run_all ps _).
Qed.

Definition is_settled {R} (st : @status Fs.t R) : bool := match st with Settled _ => true | _ => false end.

(** The calls whose promise has been fulfilled or rejected. *)
Definition acknowledged {R} (l : @locked Fs.t R) : nat := length (List.filter is_settled (map j_status (l_jobs l))).

Lemma acknowledged_serial {R} s0 (ps : list (action Fs.t R)) l done s1 rs :
  serial s0 ps l done s1 rs -> acknowledged l = length rs /\ length rs = length done.
Proof.
  intros [(rest & st & _ & Hrun & Hst & Hw) _ _]. split.
  - unfold acknowledged. rewrite Hst, List.filter_app, length_app.
    assert (List.filter is_settled (map Settled rs) = map (@Settled Fs.t R) rs) as -> by (clear; induction rs; [done|]; cbn; by f_equal).
    assert (List.filter is_settled st = []) as ->; [|rewrite length_map; cbn; lia].
    assert (forall l : list (action Fs.t R), List.filter is_settled (map Waiting l) = []) as Hwait by (induction l0; done).
    destruct Hw as [ps'|k p q ps' s' _]; [apply Hwait|]. cbn. apply Hwait.
  - clear Hst Hw. revert s0 s1 rs Hrun. induction done as [|p done IH]; intros s0 s1 rs Hrun; cbn [run_all] in Hrun; [by injection Hrun as <- <-|].
    destruct (run_alone p s0) as [s2 r]. destruct (run_all done s2) as [s3 rs'] eqn:E. injection Hrun as <- <-.
    cbn. f_equal. by eapply IH.
Qed.

(** C10: The filesystem queue under concurrent callers is durable and atomic.  Let
    any number of calls be submitted to the lock, at any moments and with their
    steps interleaved in any way the lock allows, and stop the process at any
    moment: [initialize] then succeeds, and the queue is the one left by a prefix
    of the calls, run one after the other in the order of submission, that holds
    every acknowledged call and at most one more.  And while a call is not
    acknowledged, some call can take a step, also after calls that failed. *)
Theorem concurrent_queue_recovers {R} n s0 cs (ps : list (action Fs.t R)) l now :
  Fs.inv n s0 -> 0 <= n -> n + Z.of_nat (length cs) < MAX_SAFE_INTEGER -> Forall call_ok cs ->
  Forall2 implements cs ps -> lock_reached s0 ps l ->
  (exists m s', (acknowledged l <= m <= acknowledged l + 1)%nat /\ (m <= length cs)%nat /\
     Fs.run (Fs.initialize now) (l_store l) = (Ok tt, s') /\ Fs.inv (n + Z.of_nat (length cs) + 1) s' /\
     Fs.abs s' = spec_recover (Fs.abs (after (take m cs) s0))) /\
  ((forall i j, l_jobs l !! i = Some j -> exists r, j_status j = Settled r) \/ exists l', lock_step l l').
Proof.
  intros Hi Hn Hl Hc Hp Hr. split; [|by eapply lock_progress].
  destruct (lock_serial _ _ _ Hr) as (done & s1 & rs & Hs). destruct (acknowledged_serial _ _ _ _ _ _ Hs) as [Hack Hlen].
  destruct Hs as [(rest & st & -> & Hrun & _ & Hw) _ _].
  apply Forall2_app_inv_r in Hp as (cs1 & cs2 & Hp1 & Hp2 & ->). pose proof (Forall2_length _ _ _ Hp1) as Hl1.
  apply Forall_app in Hc as [Hc1 Hc2]. rewrite length_app in *.
  assert (s1 = after cs1 s0) as -> by (rewrite <- (run_all_after _ _ Hp1), Hrun; done).
  pose proof (after_inv n cs1 s0 Hi Hn ltac:(lia) Hc1) as Hi1.
  assert (acknowledged l = length cs1) as -> by lia.
  destruct Hw as [ps'|k p q ps' s' Hk].
  - destruct (q_initialize_law (JobQueue := Fs.queue base Hb) _ now _ Hi1) as (s' & Hinit & Hi' & Ha).
    exists (length cs1), s'. rewrite take_app_length. split_and!; [lia..|done| |done].
    eapply (q_inv_mono (JobQueue := Fs.queue base Hb)); [exact Hi'|lia].
  - inversion Hp2 as [|c ? cs2' ? [Hpk _] _]; subst. destruct (Hpk (after cs1 s0) k) as (k' & Hk'). rewrite Hk in Hk'. cbn [fst] in Hk'.
    rewrite <- crash_calls in Hk'. apply Forall_cons in Hc2 as [Hc _]. cbn [length] in Hl |- *.
    destruct (crash_old_or_new base _ c (after cs1 s0) k' Hb Hi1 ltac:(lia) Hc) as [Hrec Ha].
    rewrite <- Hk' in Hrec, Ha. destruct (Fs.initialize_spec _ now _ Hrec) as [(s2 & Hinit & Hi2 & Habs) _].
    assert (Fs.inv (n + Z.of_nat (length cs1 + Datatypes.S (length cs2')) + 1) s2) as Hi3
      by (eapply (q_inv_mono (JobQueue := Fs.queue base Hb)); [exact Hi2|lia]).
    destruct Ha as [Ha|Ha].
    + exists (length cs1), s2. rewrite take_app_length. split_and!; [lia..|done|done|]. by rewrite Habs, Ha.
    + exists (length cs1 + 1)%nat, s2. split_and!; [lia..|done|done|]. rewrite Habs, Ha. do 2 f_equal.
      change (c :: cs2') with ([c] ++ cs2'). rewrite app_assoc.
      rewrite take_app_length' by (rewrite length_app; cbn; lia). by rewrite after_app, after_cons.
Qed.
End queue.

(** ** A run: two calls at once, stopped while the first one writes *)
#[local] Existing Instance toy_sha256.
#[local] Existing Instance toy_base64.
#[local] Existing Instance toy_uuid.

Definition both_calls : list qcall := [CEnqueue 1000 demo_input; CClaim 1500].
Definition submitted : locked (S := Fs.t) (R := unit) :=
  lock (action_of 100 (CClaim 1500)) (lock (action_of 100 (CEnqueue 1000 demo_input)) (mkLocked [] None Fs.empty)).
Definition started : locked := set_status 0 (Running (action_of 100 (CEnqueue 1000 demo_input))) Fs.empty submitted.
Definition looked : locked := set_status 0 (Running (emit (calls_of 100 (CEnqueue 1000 demo_input) Fs.empty))) Fs.empty started.

Lemma looked_reached : lock_reached Fs.empty (map (action_of 100) both_calls) looked.
Proof.
  apply (reached_step _ _ started).
  - apply (reached_step _ _ submitted).
    + change (map (action_of 100) both_calls) with (([] ++ [action_of 100 (CEnqueue 1000 demo_input)]) ++ [action_of 100 (CClaim 1500)]).
      apply reached_call, reached_call, reached_start.
    + apply (lock_start 0 None (action_of 100 (CEnqueue 1000 demo_input)) submitted); [reflexivity|exact I].
  - apply (lock_await 0 None (fun s => (s, emit (calls_of 100 (CEnqueue 1000 demo_input) s)))); reflexivity.
Qed.

Lemma concurrent_queue_recovers_witness :
  acknowledged looked = 0%nat /\ exists m s', (m <= 1)%nat /\
    Fs.run (Fs.initialize 9000) (l_store looked) = (Ok tt, s') /\
    Fs.abs s' = spec_recover (Fs.abs (after 100 eq_refl (take m both_calls) Fs.empty)).
Proof.
  split; [reflexivity|].
  destruct (concurrent_queue_recovers 100 eq_refl 0 Fs.empty both_calls (map (action_of 100) both_calls) looked 9000)
    as [(m & s' & Hm & _ & Hrun & _ & Ha) _].
  - apply Fs.fs_empty_inv.
  - lia.
  - reflexivity.
  - repeat constructor; vm_compute; discriminate.
  - repeat constructor; apply action_implements.
  - exact looked_reached.
  - exists m, s'. split; [exact (proj2 Hm)|]. split; [exact Hrun|exact Ha].
Defined.
