(* ===== verification/Identity.v ===== *)
(** * Service identity and replay protection ([compiler/src/service-identity.mjs])

    Requests between the control plane and the worker carry a timestamp, a
    nonce and a signature.  [verifyIncoming] checks their shape and age, then
    the signature, then consumes the nonce in a replay store.  The identities
    are proved against the interface [ReplayStore]; the filesystem store
    implements it.  The in-memory store does not, by one millisecond: the last
    section shows the replay it accepts. *)

From S2P Require Import Prelude JsText JsNum JsValue Regex Validators Node.
From Stdlib Require Import Ascii.

(** ** Requests *)
Inductive header_value := HString (s : jsstr) | HArray.

Record request := mkRequest {
  r_method : jsstr;
  r_target : jsstr;
  r_headers : list (jsstr * header_value);
  r_body : bytes;
}.

(** [header(headers, name)] for the lower-case names the module uses; a
    repeated header (an array) counts as absent. *)
Definition header (headers : list (jsstr * header_value)) (name : string) : option jsstr :=
  match map_get (js name) headers with
  | Some (HString s) => Some s
  | _ => None
  end.

Definition identity_rejected : exn := ServiceIdentityError "request_identity_rejected".
Definition request_replayed : exn := ServiceIdentityError "request_replayed".
Definition store_rejected : exn := ServiceIdentityError "replay_store_rejected".

(** [/^[A-Za-z0-9_-]{16,128}$/] *)
Definition noncePattern : re := rep (Cls url_char) 16 112.

(** [/^[1-9]\d{0,15}$/] *)
Definition timestampPattern : re := Seq (Cls (rng "1" "9")) (rep (Cls digit) 0 15).

(** [NaN] is [None]. *)
Definition parseTimestamp (value : option jsstr) : option Z :=
  match value with
  | None => None
  | Some v =>
      if negb (matches timestampPattern v) then None
      else
        let timestamp := parse_radix 10 v in
        if is_safe timestamp then Some timestamp else None
  end.

(** [validateSignedRequest]; the result is the checked timestamp and nonce. *)
Definition validateSignedRequest (method target : jsstr) (body : bytes) (timestamp : option Z)
    (nonce : option jsstr) (now maxAgeMs : Z) : res (Z * jsstr) :=
  let n := match nonce with Some n => n | None => [] end in
  match timestamp with
  | None => Throw identity_rejected
  | Some ts =>
      if negb (matches (plus (Cls (rng "A" "Z"))) method) ||
         negb (starts_with (js "/") target) || (2048 <? zlen target) ||
         negb (forallb is_byte body) || negb (is_safe ts) ||
         negb (matches noncePattern n) || negb (is_safe now) ||
         ((0 <? maxAgeMs) && (maxAgeMs <? Z.abs (now - ts)))
      then Throw identity_rejected
      else Ok (ts, n)
  end.

Section identity.
Context `{Sha256} `{Base64Url} `{Hmac} `{Ed25519}.

Definition bodyDigest (body : bytes) : jsstr := sha256 body.

(** The text both schemes sign. *)
Definition payload_text (method target : jsstr) (timestamp : Z) (nonce : jsstr) (body : bytes) : jsstr :=
  method ++ [10] ++ target ++ [10] ++ to_radix 10 timestamp ++ [10] ++ nonce ++ [10] ++ bodyDigest body.

Definition signedPayload (method target : jsstr) (timestamp : Z) (nonce : jsstr) (body : bytes) : bytes :=
  utf8_encode (payload_text method target timestamp nonce body).

(** ** The replay store interface *)
Class NonceStore (S : Type) := consume : jsstr -> Z -> Z -> S -> res bool * S.

(** What the identities rely on.  [holds s key expiresAt]: the store remembers
    that [key] was consumed, to be remembered until [expiresAt]. *)
Class ReplayStore (S : Type) `{NonceStore S} := {
  holds : S -> jsstr -> Z -> Prop;
  consume_accepts key expiresAt now s s' :
    consume key expiresAt now s = (Ok true, s') -> now < expiresAt /\ holds s' key expiresAt;
  consume_keeps key expiresAt now key' expiresAt' s r s' :
    holds s key expiresAt -> now < expiresAt ->
    consume key' expiresAt' now s = (r, s') -> holds s' key expiresAt /\ (key' = key -> r <> Ok true);
}.

(** ** HMAC *)
Record hmac_config := mkHmac { h_keyId : jsstr; h_key : bytes; h_maxAgeMs : Z }.

(** The constructor's checks. *)
Definition hmac_valid (c : hmac_config) : bool :=
  validIdentifier (h_keyId c) && (32 <=? zlen (h_key c)) &&
  is_safe (h_maxAgeMs c) && (1000 <=? h_maxAgeMs c) && (h_maxAgeMs c <=? 300000).

(** [toSecret(value)] *)
Definition toSecret (value : jsval) : option bytes :=
  match value with
  | VBytes b => Some b
  | VStr s => Some (utf8_encode s)
  | _ => None
  end.

(** [new HmacServiceIdentity({ keyId, secret, nonceStore, maxAgeMs, requireDurableReplay })]
    over a store that is or is not [durable]: the configuration and its
    [replayProtected] property. *)
Definition new_HmacServiceIdentity (keyId secret maxAgeMs requireDurableReplay : jsval) (durable : bool) :
    res (hmac_config * bool) :=
  match toSecret secret, keyId,
        (if maxAgeMs is VUndef then VInt 60000 else maxAgeMs),
        (if requireDurableReplay is VUndef then VBool false else requireDurableReplay) with
  | Some key, VStr id, VNum (NInt age), VBool required =>
      if hmac_valid (mkHmac id key age) && negb (required && negb durable)
      then Ok (mkHmac id key age, durable)
      else Throw (TypeError "invalid HMAC service identity configuration")
  | _, _, _, _ => Throw (TypeError "invalid HMAC service identity configuration")
  end.

Definition hmac_prefix (keyId : jsstr) : jsstr := js "HMAC " ++ keyId ++ js ":".

Definition parseAuthorization (value : option jsstr) (keyId : jsstr) : option bytes :=
  match value with
  | None => None
  | Some v =>
      if negb (starts_with (hmac_prefix keyId) v) then None
      else
        let signature := base64url_decode (zdrop (zlen (hmac_prefix keyId)) v) in
        if zlen signature =? 32 then Some signature else None
  end.

Definition hmac_signature (c : hmac_config) (method target : jsstr) (timestamp : Z) (nonce : jsstr)
    (body : bytes) : bytes :=
  hmac_sha256 (h_key c) (payload_text method target timestamp nonce body).

(** [timingSafeEqual] after the length test. *)
Definition equal_bytes (a b : bytes) : bool := bool_decide (a = b).

Definition nonce_key (keyId nonce : jsstr) : jsstr := keyId ++ js ":" ++ nonce.

Section verify.
Context {S : Type} `{NonceStore S}.

Definition consume_nonce (keyId nonce : jsstr) (expiresAt now : Z) (s : S) : res unit * S :=
  match consume (nonce_key keyId nonce) expiresAt now s with
  | (Ok true, s') => (Ok tt, s')
  | (Ok false, s') => (Throw request_replayed, s')
  | (Throw e, s') => (Throw e, s')
  end.

Definition hmac_verifyIncoming (c : hmac_config) (now : Z) (q : request) (s : S) : res unit * S :=
  let timestamp := parseTimestamp (header (r_headers q) "x-xmcl-timestamp") in
  let nonce := header (r_headers q) "x-xmcl-nonce" in
  let authorization := header (r_headers q) "authorization" in
  match validateSignedRequest (r_method q) (r_target q) (r_body q) timestamp nonce now (h_maxAgeMs c) with
  | Throw e => (Throw e, s)
  | Ok (ts, n) =>
      let expected := hmac_signature c (r_method q) (r_target q) ts n (r_body q) in
      match parseAuthorization authorization (h_keyId c) with
      | None => (Throw identity_rejected, s)
      | Some actual =>
          if negb (zlen actual =? zlen expected) || negb (equal_bytes actual expected)
          then (Throw identity_rejected, s)
          else consume_nonce (h_keyId c) n (ts + h_maxAgeMs c) now s
      end
  end.
End verify.

(** [random] is the value of [randomBytes(24)]. *)
Definition hmac_signOutgoing (c : hmac_config) (now : Z) (random : bytes) (method target : jsstr)
    (body : bytes) : res (list (jsstr * header_value)) :=
  let nonce := base64url_encode random in
  _ ← validateSignedRequest method target body (Some now) (Some nonce) now 0;
  Ok [(js "authorization", HString (hmac_prefix (h_keyId c) ++
         base64url_encode (hmac_signature c method target now nonce body)));
      (js "x-xmcl-timestamp", HString (to_radix 10 now));
      (js "x-xmcl-nonce", HString nonce)].

(** ** Ed25519 *)
Record ed_config := mkEd {
  e_verificationKeyId : jsstr;
  e_signingKeyId : jsstr;
  e_verificationKey : public_key;
  e_signingKey : private_key;
  e_maxAgeMs : Z;
}.

Definition ed_valid (c : ed_config) : bool :=
  validIdentifier (e_verificationKeyId c) && validIdentifier (e_signingKeyId c) &&
  is_safe (e_maxAgeMs c) && (1000 <=? e_maxAgeMs c) && (e_maxAgeMs c <=? 300000).

Definition ed_prefix (keyId : jsstr) : jsstr := js "Signature Ed25519 " ++ keyId ++ js ":".

Definition parseEd25519Authorization (value : option jsstr) (keyId : jsstr) : option bytes :=
  match value with
  | None => None
  | Some v =>
      if negb (starts_with (ed_prefix keyId) v) then None
      else
        let signature := base64url_decode (zdrop (zlen (ed_prefix keyId)) v) in
        if zlen signature =? 64 then Some signature else None
  end.

Definition ed_verifyIncoming {S} `{NonceStore S} (c : ed_config) (now : Z) (q : request) (s : S) :
    res unit * S :=
  let timestamp := parseTimestamp (header (r_headers q) "x-xmcl-timestamp") in
  let nonce := header (r_headers q) "x-xmcl-nonce" in
  let authorization := header (r_headers q) "authorization" in
  match validateSignedRequest (r_method q) (r_target q) (r_body q) timestamp nonce now (e_maxAgeMs c) with
  | Throw e => (Throw e, s)
  | Ok (ts, n) =>
      match parseEd25519Authorization authorization (e_verificationKeyId c) with
      | None => (Throw identity_rejected, s)
      | Some actual =>
          if negb (ed_verify (e_verificationKey c)
                     (signedPayload (r_method q) (r_target q) ts n (r_body q)) actual)
          then (Throw identity_rejected, s)
          else consume_nonce (e_verificationKeyId c) n (ts + e_maxAgeMs c) now s
      end
  end.

Definition ed_signOutgoing (c : ed_config) (now : Z) (random : bytes) (method target : jsstr)
    (body : bytes) : res (list (jsstr * header_value)) :=
  let nonce := base64url_encode random in
  _ ← validateSignedRequest method target body (Some now) (Some nonce) now 0;
  Ok [(js "authorization", HString (ed_prefix (e_signingKeyId c) ++
         base64url_encode (ed_sign (e_signingKey c) (signedPayload method target now nonce body))));
      (js "x-xmcl-timestamp", HString (to_radix 10 now));
      (js "x-xmcl-nonce", HString nonce)].
End identity.

(** ** The generic adapter ([ServiceIdentity])

    [plainStringRecord]: an object whose keys are lower-case header names and
    whose values are strings without line breaks. *)
Definition plainStringRecord (v : jsval) : bool :=
  match v with
  | VObj fields =>
      forallb (fun f =>
        matches (plus (Cls (rng "a" "z" ∪c rng "0" "9" ∪c chr1 "-"))) f.1 &&
        match f.2 with
        | VStr s => negb (includes_char 13 s) && negb (includes_char 10 s)
        | _ => false
        end) fields
  | VBytes b => match b with [] => true | _ => false end
  | _ => false
  end.

(** [new ServiceIdentity({ verifyIncoming, signOutgoing, replayProtected })]; a
    callback is [None] when it is not a function. *)
Record adapter := mkAdapter { ad_verify : request -> res jsval; ad_sign : request -> res jsval }.

Definition new_ServiceIdentity (verifyIncoming signOutgoing : option (request -> res jsval))
    (replayProtected : jsval) : res adapter :=
  match verifyIncoming, signOutgoing with
  | Some verify, Some sign =>
      if strict_eq replayProtected (VBool true) then Ok (mkAdapter verify sign)
      else Throw (TypeError "invalid service identity configuration")
  | _, _ => Throw (TypeError "invalid service identity configuration")
  end.

Definition adapter_verifyIncoming (accepted : res jsval) : res unit :=
  v ← accepted;
  throw_if (strict_eq v (VBool false)) identity_rejected.

Definition adapter_signOutgoing (headers : res jsval) : res jsval :=
  h ← headers;
  if negb (plainStringRecord h) then Throw (ServiceIdentityError "callback_identity_rejected") else Ok h.

(** ** The filesystem replay store *)
Module FsReplay.

(** The directory: file name to text; [private] is the result of the [stat]
    test on its mode. *)
Record t := mkStore { files : gmap jsstr jsstr; private : bool }.

(** [readdir] lists the directory in some order. *)
Class Readdir := {
  readdir : gmap jsstr jsstr -> list jsstr;
  readdir_perm : forall m, readdir m ≡ₚ map fst (map_to_list m);
}.

Section store.
Context `{Sha256} `{Readdir} (maxEntries : Z).

(** [/^[1-9]\d{0,15}\n$/] *)
Definition entryPattern : re :=
  Seq (Cls (rng "1" "9")) (Seq (rep (Cls digit) 0 15) (Cls (Z.eqb 10))).

Definition expired (now : Z) (text : jsstr) : bool :=
  matches entryPattern text && (parse_radix 10 (trim text) <=? now).

(** [#removeExpired(entries, now)] *)
Definition removeExpired (entries : list jsstr) (now : Z) (m : gmap jsstr jsstr) : gmap jsstr jsstr :=
  fold_left (fun m name =>
    if negb (lowerSha256 name) then m
    else
      match m !! name with
      | Some text => if expired now text then delete name m else m
      | None => m
      end) (take 1024 entries) m.

Definition entry_text (expiresAt : Z) : jsstr := to_radix 10 expiresAt ++ [10].

(** [consume({ key, expiresAt, now })]; the exclusive open decides. *)
Definition consume (key : jsstr) (expiresAt now : Z) (s : t) : res bool * t :=
  if (512 <? zlen key) || negb (is_safe expiresAt) || negb (is_safe now) || (expiresAt <=? now)
  then (Throw store_rejected, s)
  else if negb (private s) then (Throw store_rejected, s)
  else
    let entries := readdir (files s) in
    let full := maxEntries <=? zlen entries in
    let m := if full then removeExpired entries now (files s) else files s in
    if full && (maxEntries <=? zlen (readdir m)) then (Ok false, mkStore m (private s))
    else
      let name := sha256_text key in
      match m !! name with
      | Some _ => (Ok false, mkStore m (private s))
      | None => (Ok true, mkStore (<[name := entry_text expiresAt]> m) (private s))
      end.
End store.
End FsReplay.

(** ** The in-memory replay cache *)
Module MemReplay.

Definition t : Type := list (jsstr * Z).

(** [new InMemoryReplayCache(options)]: the capacity and the empty cache. *)
Definition create (options : jsval) : res (Z * t) :=
  match match opt_prop options "maxEntries" with VUndef => VInt 100000 | v => v end with
  | VNum (NInt maxEntries) =>
      if negb (plainObject options) || negb (keys_within options ["maxEntries"%string]) || negb (is_safe maxEntries) ||
         (maxEntries <? 1) || (1000000 <? maxEntries)
      then Throw (TypeError "invalid replay cache configuration") else Ok (maxEntries, [])
  | _ => Throw (TypeError "invalid replay cache configuration")
  end.

Definition consume (maxEntries : Z) (key : jsstr) (expiresAt now : Z) (s : t) : res bool * t :=
  if negb (is_safe expiresAt) || negb (is_safe now) then (Throw store_rejected, s)
  else
    let s := filter (fun e => ~ (e.2 <= now)) s in
    if map_has key s || (maxEntries <=? zlen s) then (Ok false, s)
    else (Ok true, map_set key expiresAt s).
End MemReplay.

(** ** Numbers and texts *)
Lemma timestamp_roundtrip t : 0 < t -> is_safe t = true -> parseTimestamp (Some (to_radix 10 t)) = Some t.
Proof.
  intros Hpos Hs. unfold parseTimestamp.
  assert (matches timestampPattern (to_radix 10 t) = true) as ->.
  { pose proof (to_radix_digits 10 t ltac:(lia) ltac:(lia)) as Hd.
    apply is_safe_spec in Hs. unfold MAX_SAFE_INTEGER in Hs.
    pose proof (to_radix_length 10 t 16 ltac:(lia) ltac:(lia) ltac:(lia)) as Hlen.
    destruct (radix_digits_head (S (Z.to_nat (Z.log2 t))) 10 t [] ltac:(lia)) as (d & rest & E & Hd0).
    { split; [lia|]. apply log2_fuel. lia. }
    unfold to_radix in *. rewrite (proj2 (Z.ltb_ge t 0)) in * by lia. rewrite E in *.
    unfold timestampPattern. rewrite matches_seq_cls, andb_true_iff. split.
    - unfold rng, digit_char. change (ch "1") with 49. change (ch "9") with 57.
      rewrite (proj2 (Z.ltb_lt d 10)), andb_true_iff, !Z.leb_le by lia. lia.
    - rewrite matches_rep_cls. split; [|unfold zlen in Hlen; simpl in Hlen; lia].
      apply Forall_cons in Hd as [_ Hd]. eapply Forall_impl; [done|]. intros c Hc.
      unfold is_digit_of, digit, rng in *. change (ch "0") with 48. change (ch "9") with 57.
      rewrite andb_true_iff, orb_true_iff, !andb_true_iff, !Z.leb_le, !Z.ltb_lt in Hc.
      unfold digit_value in Hc. rewrite andb_true_iff, !Z.leb_le.
      destruct (Z.ltb_spec c 58); [lia|]. destruct (Z.ltb_spec c 91); lia. }
  cbn [negb]. by rewrite parse_to_radix, Hs by lia.
Qed.

Lemma trim_newline s : s <> [] -> Forall (fun c => is_space c = false) s -> trim (s ++ [10]) = s.
Proof.
  intros Hne Hs. unfold trim.
  assert (trim_start (s ++ [10]) = s ++ [10]) as ->.
  { destruct s as [|c s]; [done|]. apply Forall_cons in Hs as [Hc _]. simpl. by rewrite Hc. }
  rewrite reverse_snoc. cbn [trim_start]. change (is_space 10) with true. cbv iota.
  rewrite trim_start_id; [apply reverse_involutive|]. by rewrite reverse_Permutation.
Qed.

(** A recorded expiry is not expired before its time. *)
Lemma entry_not_expired now e : now < e -> FsReplay.expired now (FsReplay.entry_text e) = false.
Proof.
  intros Hlt. unfold FsReplay.expired, FsReplay.entry_text.
  destruct (Z.lt_ge_cases e 0) as [Hneg|Hpos].
  - unfold to_radix. rewrite (proj2 (Z.ltb_lt e 0)) by lia. cbn [app].
    unfold FsReplay.entryPattern. rewrite matches_seq_cls. done.
  - rewrite trim_newline, parse_to_radix; [|lia..|apply to_radix_nonempty|].
    2:{ eapply Forall_impl; [apply (to_radix_digits 10 e); lia|]. intros c. apply digit_not_space. }
    rewrite (proj2 (Z.leb_gt e now)) by lia. apply andb_false_r.
Qed.

(** ** The filesystem store implements the interface *)
Section fs_replay.
Context `{Sha256} `{FsReplay.Readdir} (maxEntries : Z).

Definition fs_holds (s : FsReplay.t) (key : jsstr) (expiresAt : Z) : Prop :=
  FsReplay.files s !! sha256_text key = Some (FsReplay.entry_text expiresAt).

Lemma removeExpired_keeps entries now m name text :
  m !! name = Some text -> FsReplay.expired now text = false ->
  FsReplay.removeExpired entries now m !! name = Some text.
Proof.
  unfold FsReplay.removeExpired. revert m. induction (take 1024 entries) as [|x l IH]; intros m Hm He; [done|].
  simpl. apply IH; [|done]. destruct (negb (lowerSha256 x)); [done|].
  destruct (m !! x) as [t'|] eqn:E; [|done]. destruct (FsReplay.expired now t') eqn:Et; [|done].
  destruct (decide (x = name)) as [->|]; [congruence|]. by rewrite lookup_delete_ne.
Qed.

(** What [consume] does after the cleanup. *)
Lemma fs_consume_inv key expiresAt now s r s' :
  FsReplay.consume maxEntries key expiresAt now s = (r, s') ->
  (s' = s /\ r = Throw store_rejected) \/
  (now < expiresAt /\ exists m,
     (m = FsReplay.files s \/ m = FsReplay.removeExpired (FsReplay.readdir (FsReplay.files s)) now (FsReplay.files s)) /\
     ((r = Ok false /\ s' = FsReplay.mkStore m (FsReplay.private s)) \/
      (r = Ok true /\ m !! sha256_text key = None /\
       s' = FsReplay.mkStore (<[sha256_text key := FsReplay.entry_text expiresAt]> m) (FsReplay.private s)))).
Proof.
  unfold FsReplay.consume. destruct (_ || _) eqn:Eg; [intros [= <- <-]; by left|].
  apply orb_false_iff in Eg as [_ Hlt%Z.leb_gt].
  destruct (negb (FsReplay.private s)); [intros [= <- <-]; by left|].
  set (full := maxEntries <=? _).
  set (m := if full then FsReplay.removeExpired _ now _ else FsReplay.files s). intros E. right. split; [done|]. exists m. split.
  { unfold m. destruct full; auto. }
  destruct (_ && _); [injection E as <- <-; by left|].
  destruct (m !! sha256_text key) eqn:Em; injection E as <- <-; [by left|by right].
Qed.

Lemma fs_consume_accepts key expiresAt now s s' :
  FsReplay.consume maxEntries key expiresAt now s = (Ok true, s') ->
  now < expiresAt /\ fs_holds s' key expiresAt.
Proof.
  intros [[_ [=]]|(Hlt & m & _ & [[[=] _]|(_ & _ & ->)])]%fs_consume_inv.
  split; [done|]. unfold fs_holds. simpl. apply lookup_insert_eq.
Qed.

Lemma fs_consume_keeps key expiresAt now key' expiresAt' s r s' :
  fs_holds s key expiresAt -> now < expiresAt ->
  FsReplay.consume maxEntries key' expiresAt' now s = (r, s') ->
  fs_holds s' key expiresAt /\ (key' = key -> r <> Ok true).
Proof.
  intros Hh Hlt [[-> ->]|(_ & m & Hm & Hr)]%fs_consume_inv; [done|].
  assert (m !! sha256_text key = Some (FsReplay.entry_text expiresAt)) as Hk.
  { destruct Hm as [->| ->]; [done|]. apply removeExpired_keeps; [done|by apply entry_not_expired]. }
  destruct Hr as [[-> ->]|(-> & Hnone & ->)]; [done|]. unfold fs_holds. simpl.
  split; [|intros ->; congruence]. rewrite lookup_insert_ne; [done|]. intros E. rewrite E in Hnone. congruence.
Qed.

#[export] Instance fs_nonce_store : NonceStore FsReplay.t := FsReplay.consume maxEntries.

#[export] Instance fs_replay_store : ReplayStore FsReplay.t := {|
  holds := fs_holds;
  consume_accepts := fs_consume_accepts;
  consume_keeps := fs_consume_keeps;
|}.
End fs_replay.

(** ** No replay, for any scheme that consumes a nonce *)
Section no_replay.
Context {S : Type} `{ReplayStore S} (keyId : jsstr) (maxAgeMs : Z).
Context (verify : Z -> request -> S -> res unit * S).

Definition checked (now : Z) (q : request) : res (Z * jsstr) :=
  validateSignedRequest (r_method q) (r_target q) (r_body q)
    (parseTimestamp (header (r_headers q) "x-xmcl-timestamp"))
    (header (r_headers q) "x-xmcl-nonce") now maxAgeMs.

Definition consumes_nonce : Prop := forall now q s r s',
  verify now q s = (r, s') ->
  (r <> Ok tt /\ s' = s) \/
  exists ts n, checked now q = Ok (ts, n) /\ consume_nonce keyId n (ts + maxAgeMs) now s = (r, s').

Hypothesis Hverify : consumes_nonce.

(** The calls made in between, each with its clock reading. *)
Definition verify_all (l : list (Z * request)) (s : S) : S :=
  fold_left (fun s c => (verify c.1 c.2 s).2) l s.

Lemma consume_nonce_inv n e now s r s' :
  consume_nonce keyId n e now s = (r, s') ->
  exists b, consume (nonce_key keyId n) e now s = (b, s') /\ (r = Ok tt <-> b = Ok true).
Proof.
  unfold consume_nonce. destruct (consume _ e now s) as [[[]|x] s1]; intros [= <- <-];
    eexists; (split; [reflexivity|]); split; congruence.
Qed.

Lemma verify_keeps key e now q s :
  holds s key e -> now < e -> holds (verify now q s).2 key e.
Proof.
  intros Hh Hlt. destruct (verify now q s) as [r s'] eqn:E. simpl.
  apply Hverify in E as [[_ ->]|(ts & n & _ & E)]; [done|].
  apply consume_nonce_inv in E as (b & Eb & _). by eapply consume_keeps in Eb as [? _].
Qed.

Lemma verify_all_keeps key e l : forall s,
  holds s key e -> Forall (fun c => c.1 < e) l -> holds (verify_all l s) key e.
Proof.
  induction l as [|[now q] l IH]; intros s Hh Hl; [done|]. apply Forall_cons in Hl as [H1 Hl].
  apply IH; [|done]. by apply verify_keeps.
Qed.

Lemma checked_inv now q ts n :
  checked now q = Ok (ts, n) ->
  parseTimestamp (header (r_headers q) "x-xmcl-timestamp") = Some ts /\
  n = default [] (header (r_headers q) "x-xmcl-nonce").
Proof.
  unfold checked, validateSignedRequest. destruct (parseTimestamp _); [|done].
  destruct (_ || _); [done|]. intros [= <- <-]. split; [done|]. by destruct (header _ _).
Qed.

Lemma replay_rejected now1 q1 s s1 mid now2 q2 :
  verify now1 q1 s = (Ok tt, s1) ->
  header (r_headers q2) "x-xmcl-timestamp" = header (r_headers q1) "x-xmcl-timestamp" ->
  header (r_headers q2) "x-xmcl-nonce" = header (r_headers q1) "x-xmcl-nonce" ->
  Forall (fun c => c.1 <= now2) mid ->
  (verify now2 q2 (verify_all mid s1)).1 <> Ok tt.
Proof.
  intros E1 Ht Hn Hmid E2.
  apply Hverify in E1 as [[? _]|(ts & n & Hc & E1)]; [done|].
  apply consume_nonce_inv in E1 as (b & E1 & Hb). rewrite (proj1 Hb eq_refl) in E1.
  apply consume_accepts in E1 as [_ Hh].
  destruct (verify now2 q2 (verify_all mid s1)) as [r s3] eqn:E. simpl in E2. subst r.
  apply Hverify in E as [[? _]|(ts' & n' & Hc' & E)]; [done|].
  apply checked_inv in Hc as [Hts Hnn], Hc' as [Hts' Hnn']. rewrite Ht in Hts'. rewrite Hn in Hnn'.
  assert (ts' = ts) as -> by congruence. assert (n' = n) as -> by congruence.
  apply consume_nonce_inv in E as (b' & E & Hb'). rewrite (proj1 Hb' eq_refl) in E.
  pose proof E as [Hlt _]%consume_accepts.
  assert (holds (verify_all mid s1) (nonce_key keyId n) (ts + maxAgeMs)) as Hh2.
  { apply verify_all_keeps; [done|]. eapply Forall_impl; [done|]. simpl. intros; lia. }
  eapply consume_keeps in E as [_ Hno]; [|exact Hh2|exact Hlt]. by apply Hno.
Qed.
End no_replay.

(** ** The two schemes *)
Section schemes.
Context `{Sha256} `{Base64Url} `{Hmac} `{Ed25519}.

Lemma hmac_consumes {S} `{NonceStore S} c :
  consumes_nonce (h_keyId c) (h_maxAgeMs c) (hmac_verifyIncoming c).
Proof.
  intros now q s r s'. unfold hmac_verifyIncoming. fold (checked (h_maxAgeMs c) now q).
  destruct (checked _ now q) as [[ts n]|e]; [|intros [= <- <-]; by left].
  destruct (parseAuthorization _ _) as [actual|]; [|intros [= <- <-]; by left].
  destruct (_ || _); [intros [= <- <-]; by left|]. intros E. right. by exists ts, n.
Qed.

Lemma ed_consumes {S} `{NonceStore S} c :
  consumes_nonce (e_verificationKeyId c) (e_maxAgeMs c) (ed_verifyIncoming c).
Proof.
  intros now q s r s'. unfold ed_verifyIncoming. fold (checked (e_maxAgeMs c) now q).
  destruct (checked _ now q) as [[ts n]|e]; [|intros [= <- <-]; by left].
  destruct (parseEd25519Authorization _ _) as [actual|]; [|intros [= <- <-]; by left].
  destruct (negb _); [intros [= <- <-]; by left|]. intros E. right. by exists ts, n.
Qed.

(** *** What is signed determines the request *)
Lemma sep_inj_l (c : Z) a b x y : c ∉ a -> c ∉ b -> a ++ c :: x = b ++ c :: y -> a = b /\ x = y.
Proof.
  revert b. induction a as [|d a IH]; intros [|e b] Ha Hb E; simpl in *.
  - by injection E as <-.
  - injection E as <- _. exfalso. apply Hb. left.
  - injection E as -> _. exfalso. apply Ha. left.
  - injection E as -> E. rewrite not_elem_of_cons in Ha, Hb.
    destruct (IH b) as [-> ->]; tauto.
Qed.

Lemma sep_inj_r (c : Z) a b x y : c ∉ a -> c ∉ b -> x ++ c :: a = y ++ c :: b -> x = y /\ a = b.
Proof.
  intros Ha Hb E. apply (f_equal reverse) in E. rewrite !reverse_app, !reverse_cons, <- !app_assoc in E.
  apply (sep_inj_l c) in E as [E1 E2].
  - split; [by apply (inj reverse)|by apply (inj reverse)].
  - by rewrite elem_of_reverse.
  - by rewrite elem_of_reverse.
Qed.

Lemma class_no_newline (p : Z -> bool) s : p 10 = false -> Forall (fun c => p c = true) s -> 10 ∉ s.
Proof. intros Hp Hs Hin. rewrite Forall_forall in Hs. specialize (Hs _ Hin). congruence. Qed.

Lemma to_radix_no_newline t : 0 <= t -> 10 ∉ to_radix 10 t.
Proof. intros Ht. eapply class_no_newline; [|apply to_radix_digits; lia]. done. Qed.

Lemma digest_no_newline b : 10 ∉ bodyDigest b.
Proof.
  pose proof (sha256_hex b) as Hh. unfold lowerSha256 in Hh. apply matches_rep_cls in Hh as [Hh _].
  by eapply class_no_newline; [|exact Hh].
Qed.

(** The fields [verifyIncoming] has checked before it computes a signature. *)
Definition signable (method : jsstr) (timestamp : Z) (nonce : jsstr) : Prop :=
  matches (plus (Cls (rng "A" "Z"))) method = true /\ 0 <= timestamp /\ matches noncePattern nonce = true.

(** The signed text is unambiguous: two requests that pass the shape checks
    and have the same signed text have the same method, target, timestamp,
    nonce and body hash, even when a target contains line breaks. *)
Theorem signed_text_injective m t ts n b m' t' ts' n' b' :
  signable m ts n -> signable m' ts' n' ->
  payload_text m t ts n b = payload_text m' t' ts' n' b' ->
  m = m' /\ t = t' /\ ts = ts' /\ n = n' /\ bodyDigest b = bodyDigest b'.
Proof.
  intros (Hm & Hts & Hn) (Hm' & Hts' & Hn') E. unfold payload_text in E.
  apply matches_plus_cls in Hm as [Hm _], Hm' as [Hm' _].
  apply matches_rep_cls in Hn as [Hn _], Hn' as [Hn' _].
  apply (sep_inj_l 10) in E as [-> E]; [|by eapply class_no_newline; [|done]..].
  assert (forall a c d e : jsstr, a ++ [10] ++ c ++ [10] ++ d ++ [10] ++ e =
            ((a ++ [10] ++ c) ++ [10] ++ d) ++ [10] ++ e) as Hassoc by (intros; by rewrite <- !app_assoc).
  rewrite !Hassoc in E.
  apply (sep_inj_r 10) in E as [E ->]; [|apply digest_no_newline..].
  apply (sep_inj_r 10) in E as [E ->]; [|by eapply class_no_newline; [|done]..].
  apply (sep_inj_r 10) in E as [-> E]; [|by apply to_radix_no_newline..].
  apply (f_equal (parse_radix 10)) in E. rewrite !parse_to_radix in E by lia. done.
Qed.

(** *** Replay *)

(** C14: Over a replay store that keeps the promise of [ReplayStore] (the durable
    filesystem store does; the in-memory cache, the default of the constructor, does
    not, see [memory_cache_replay]), and as long as the clock does not go back, a
    request accepted by the HMAC identity is never accepted again: any later request
    with the same timestamp and nonce headers is rejected, whatever requests come in
    between. *)
Theorem hmac_no_replay {S} `{ReplayStore S} c now1 q1 s s1 mid now2 q2 :
  hmac_verifyIncoming c now1 q1 s = (Ok tt, s1) ->
  header (r_headers q2) "x-xmcl-timestamp" = header (r_headers q1) "x-xmcl-timestamp" ->
  header (r_headers q2) "x-xmcl-nonce" = header (r_headers q1) "x-xmcl-nonce" ->
  Forall (fun c => c.1 <= now2) mid ->
  (hmac_verifyIncoming c now2 q2 (verify_all (hmac_verifyIncoming c) mid s1)).1 <> Ok tt.
Proof. intros E. by apply (replay_rejected _ _ _ (hmac_consumes c) now1 q1 s). Qed.

(** The same for the Ed25519 identity. *)
Theorem ed25519_no_replay {S} `{ReplayStore S} c now1 q1 s s1 mid now2 q2 :
  ed_verifyIncoming c now1 q1 s = (Ok tt, s1) ->
  header (r_headers q2) "x-xmcl-timestamp" = header (r_headers q1) "x-xmcl-timestamp" ->
  header (r_headers q2) "x-xmcl-nonce" = header (r_headers q1) "x-xmcl-nonce" ->
  Forall (fun c => c.1 <= now2) mid ->
  (ed_verifyIncoming c now2 q2 (verify_all (ed_verifyIncoming c) mid s1)).1 <> Ok tt.
Proof. intros E. by apply (replay_rejected _ _ _ (ed_consumes c) now1 q1 s). Qed.

(** *** Signing and verifying agree *)
Lemma nonce_valid random :
  bytes_ok random -> zlen random = 24 -> matches noncePattern (base64url_encode random) = true.
Proof.
  intros Hb Hl. unfold noncePattern. rewrite matches_rep_cls. split; [by apply base64url_alphabet|].
  pose proof (base64url_length random) as Hlen. rewrite Hl in Hlen.
  change ((4 * 24 + 2) / 3) with 32 in Hlen. unfold zlen in Hlen. lia.
Qed.

(** A request that passed at its own time passes within its age. *)
Lemma validate_later method target body now now' nonce maxAgeMs x :
  validateSignedRequest method target body (Some now) (Some nonce) now 0 = Ok x ->
  is_safe now' = true -> Z.abs (now' - now) <= maxAgeMs ->
  validateSignedRequest method target body (Some now) (Some nonce) now' maxAgeMs = Ok (now, nonce).
Proof.
  intros Hv Hs Ha. unfold validateSignedRequest in *. destruct (_ || _) eqn:E; [done|].
  rewrite !orb_false_iff in E. destruct E as [[[[[[[-> ->] ->] ->] ->] ->] _] _].
  rewrite Hs, (proj2 (Z.ltb_ge maxAgeMs _)) by lia. by rewrite andb_false_r.
Qed.

Lemma validate_safe method target body now nonce now' maxAgeMs x :
  validateSignedRequest method target body (Some now) nonce now' maxAgeMs = Ok x -> is_safe now = true.
Proof.
  unfold validateSignedRequest. destruct (_ || _) eqn:E; [done|].
  rewrite !orb_false_iff, !negb_false_iff in E. tauto.
Qed.

Lemma authorization_parses prefix sig :
  bytes_ok sig -> base64url_decode (zdrop (zlen prefix) (prefix ++ base64url_encode sig)) = sig.
Proof. intros Hb. rewrite zdrop_app_exact by done. by apply base64url_roundtrip. Qed.

(** What the HMAC identity signs, a peer with the same key accepts within
    the age limit, subject only to its replay store. *)
Theorem hmac_sign_verify {S} `{NonceStore S} c now now' random method target body headers (s : S) :
  bytes_ok random -> zlen random = 24 -> 0 < now ->
  hmac_signOutgoing c now random method target body = Ok headers ->
  is_safe now' = true -> Z.abs (now' - now) <= h_maxAgeMs c ->
  hmac_verifyIncoming c now' (mkRequest method target headers body) s =
  consume_nonce (h_keyId c) (base64url_encode random) (now + h_maxAgeMs c) now' s.
Proof.
  intros Hr Hl Hpos Hsign Hs Ha. unfold hmac_signOutgoing in Hsign.
  apply bind_ok in Hsign as (x & Hv & [= <-]).
  pose proof (validate_safe _ _ _ _ _ _ _ _ Hv) as Hsn.
  unfold hmac_verifyIncoming, header. cbn [r_headers r_method r_target r_body].
  change (map_get (js "x-xmcl-timestamp") _) with (Some (HString (to_radix 10 now))).
  change (map_get (js "x-xmcl-nonce") _) with (Some (HString (base64url_encode random))).
  cbv iota beta. rewrite timestamp_roundtrip by done. rewrite (validate_later _ _ _ _ _ _ _ x Hv) by done.
  change (map_get (js "authorization") _) with (Some (HString (hmac_prefix (h_keyId c) ++
         base64url_encode (hmac_signature c method target now (base64url_encode random) body)))).
  unfold parseAuthorization, hmac_signature.
  rewrite starts_with_app, authorization_parses by apply hmac_bytes.
  cbn [negb]. rewrite hmac_length. cbn [Z.eqb Pos.eqb negb orb]. unfold equal_bytes.
  by rewrite hmac_length, bool_decide_eq_true_2.
Qed.

(** What the Ed25519 identity signs, a peer that holds the matching public
    key and key id accepts within the age limit, subject only to its replay
    store. *)
Theorem ed25519_sign_verify {S} `{NonceStore S} c peer now now' random method target body headers (s : S) :
  e_verificationKey peer = public_of (e_signingKey c) -> e_verificationKeyId peer = e_signingKeyId c ->
  bytes_ok random -> zlen random = 24 -> 0 < now ->
  ed_signOutgoing c now random method target body = Ok headers ->
  is_safe now' = true -> Z.abs (now' - now) <= e_maxAgeMs peer ->
  ed_verifyIncoming peer now' (mkRequest method target headers body) s =
  consume_nonce (e_verificationKeyId peer) (base64url_encode random) (now + e_maxAgeMs peer) now' s.
Proof.
  intros Hk Hid Hr Hl Hpos Hsign Hs Ha. unfold ed_signOutgoing in Hsign.
  apply bind_ok in Hsign as (x & Hv & [= <-]).
  pose proof (validate_safe _ _ _ _ _ _ _ _ Hv) as Hsn.
  unfold ed_verifyIncoming, header. cbn [r_headers r_method r_target r_body].
  change (map_get (js "x-xmcl-timestamp") _) with (Some (HString (to_radix 10 now))).
  change (map_get (js "x-xmcl-nonce") _) with (Some (HString (base64url_encode random))).
  cbv iota beta. rewrite timestamp_roundtrip by done. rewrite (validate_later _ _ _ _ _ _ _ x Hv) by done.
  change (map_get (js "authorization") _) with (Some (HString (ed_prefix (e_signingKeyId c) ++
         base64url_encode (ed_sign (e_signingKey c) (signedPayload method target now (base64url_encode random) body))))).
  unfold parseEd25519Authorization. rewrite Hid.
  rewrite starts_with_app, authorization_parses by apply ed_sign_bytes.
  cbn [negb]. rewrite ed_sign_length. change (64 =? 64) with true. cbv iota beta.
  by rewrite Hk, ed_sign_verify.
Qed.
End schemes.

(** The filesystem replay store respects its capacity: below it, a call
    never takes it above; at or above it, a call never adds an entry without
    making room first. *)
Theorem replay_store_capacity `{Sha256} `{FsReplay.Readdir} maxEntries key expiresAt now s :
  let s' := (FsReplay.consume maxEntries key expiresAt now s).2 in
  Z.of_nat (size (FsReplay.files s')) <= Z.max maxEntries (Z.of_nat (size (FsReplay.files s))).
Proof.
  assert (forall m, zlen (FsReplay.readdir m) = Z.of_nat (size m)) as Hsize.
  { intros m. unfold zlen. by rewrite FsReplay.readdir_perm, length_map, length_map_to_list. }
  assert (forall l now m, (size (FsReplay.removeExpired l now m) <= size m)%nat) as Hrem.
  { intros l nw. unfold FsReplay.removeExpired. induction (take 1024 l) as [|x l' IH]; intros m; simpl; [lia|].
    etrans; [apply IH|]. destruct (negb _); [lia|]. destruct (m !! x) as [t|] eqn:E; [|lia].
    destruct (FsReplay.expired nw t); [|lia]. rewrite map_size_delete, E. simpl. lia. }
  unfold FsReplay.consume. destruct (_ || _); [simpl; lia|]. destruct (negb _); [simpl; lia|].
  rewrite !Hsize. destruct (Z.leb_spec maxEntries (Z.of_nat (size (FsReplay.files s)))) as [Hfull|Hroom].
  - specialize (Hrem (FsReplay.readdir (FsReplay.files s)) now (FsReplay.files s)).
    set (m := FsReplay.removeExpired _ _ _) in *. cbn [andb].
    destruct (Z.leb_spec maxEntries (Z.of_nat (size m))); [simpl; lia|].
    destruct (m !! sha256_text key) eqn:E; simpl; [lia|]. rewrite map_size_insert_None by done. lia.
  - cbn [andb]. destruct (FsReplay.files s !! sha256_text key) eqn:E; simpl; [lia|].
    rewrite map_size_insert_None by done. lia.
Qed.

(** ** Witnesses *)
#[local] Existing Instance toy_sha256.
#[local] Existing Instance rfc_base64url.
#[local] Existing Instance toy_hmac.
#[local] Existing Instance toy_ed25519.

#[local] Instance listing : FsReplay.Readdir := {|
  FsReplay.readdir m := map fst (map_to_list m); FsReplay.readdir_perm m := reflexivity _ |}.

#[local] Instance demo_nonces : NonceStore FsReplay.t := fs_nonce_store 1000.
#[local] Instance demo_store : ReplayStore FsReplay.t := fs_replay_store 1000.

Definition demo_fs : FsReplay.t := FsReplay.mkStore ∅ true.
Definition demo_hmac : hmac_config := mkHmac (js "control-plane") (replicate 32 7) 60000.
Definition demo_ed : ed_config := mkEd (js "worker") (js "worker") [1; 2; 3] [1; 2; 3] 60000.
Definition demo_random : bytes := replicate 24 5.
Definition demo_target : jsstr := js "/v1/compile".

Definition demo_headers : list (jsstr * header_value) := Eval vm_compute in
  match hmac_signOutgoing demo_hmac 1000000 demo_random (js "POST") demo_target [1; 2] with
  | Ok h => h | Throw _ => [] end.

Definition demo_ed_headers : list (jsstr * header_value) := Eval vm_compute in
  match ed_signOutgoing demo_ed 1000000 demo_random (js "POST") demo_target [1; 2] with
  | Ok h => h | Throw _ => [] end.

Definition demo_request : request := mkRequest (js "POST") demo_target demo_headers [1; 2].
Definition demo_ed_request : request := mkRequest (js "POST") demo_target demo_ed_headers [1; 2].

Lemma signed_text_injective_witness :
  js "POST" = js "POST" /\ demo_target = demo_target /\ 5 = 5 /\
  replicate 16 97 = replicate 16 97 /\ bodyDigest [1] = bodyDigest [1].
Proof.
  apply (signed_text_injective (js "POST") demo_target 5 (replicate 16 97) [1]
           (js "POST") demo_target 5 (replicate 16 97) [1]);
    [split; [|split]; vm_compute; congruence|split; [|split]; vm_compute; congruence|reflexivity].
Defined.

(** The store after the first acceptance. *)
Definition demo_hmac_after : FsReplay.t := Eval vm_compute in
  (hmac_verifyIncoming demo_hmac 1010000 demo_request demo_fs).2.
Definition demo_ed_after : FsReplay.t := Eval vm_compute in
  (ed_verifyIncoming demo_ed 1010000 demo_ed_request demo_fs).2.

Lemma demo_hmac_accepts :
  hmac_verifyIncoming demo_hmac 1010000 demo_request demo_fs = (Ok tt, demo_hmac_after).
Proof. vm_cast_no_check (eq_refl (Ok tt, demo_hmac_after)). Qed.

Lemma demo_ed_accepts :
  ed_verifyIncoming demo_ed 1010000 demo_ed_request demo_fs = (Ok tt, demo_ed_after).
Proof. vm_cast_no_check (eq_refl (Ok tt, demo_ed_after)). Qed.

Lemma hmac_no_replay_witness :
  (hmac_verifyIncoming demo_hmac 1060000 demo_request
     (verify_all (hmac_verifyIncoming demo_hmac) [(1020000, demo_request)] demo_hmac_after)).1 <> Ok tt.
Proof.
  apply (hmac_no_replay demo_hmac 1010000 demo_request demo_fs demo_hmac_after).
  - exact demo_hmac_accepts.
  - reflexivity.
  - reflexivity.
  - repeat constructor; simpl; lia.
Defined.

Lemma ed25519_no_replay_witness :
  (ed_verifyIncoming demo_ed 1059999 demo_ed_request
     (verify_all (ed_verifyIncoming demo_ed) [(1020000, demo_ed_request)] demo_ed_after)).1 <> Ok tt.
Proof.
  apply (ed25519_no_replay demo_ed 1010000 demo_ed_request demo_fs demo_ed_after).
  - exact demo_ed_accepts.
  - reflexivity.
  - reflexivity.
  - repeat constructor; simpl; lia.
Defined.

Lemma demo_random_ok : bytes_ok demo_random.
Proof. apply Forall_replicate. reflexivity. Qed.

Lemma hmac_sign_verify_witness :
  hmac_verifyIncoming demo_hmac 1030000 demo_request demo_fs =
  consume_nonce (js "control-plane") (base64url_encode demo_random) 1060000 1030000 demo_fs.
Proof.
  apply (hmac_sign_verify demo_hmac 1000000 1030000 demo_random (js "POST") demo_target [1; 2] demo_headers demo_fs).
  - apply demo_random_ok.
  - reflexivity.
  - lia.
  - vm_compute. reflexivity.
  - reflexivity.
  - vm_compute. discriminate.
Defined.

Lemma ed25519_sign_verify_witness :
  ed_verifyIncoming demo_ed 1030000 demo_ed_request demo_fs =
  consume_nonce (js "worker") (base64url_encode demo_random) 1060000 1030000 demo_fs.
Proof.
  apply (ed25519_sign_verify demo_ed demo_ed 1000000 1030000 demo_random (js "POST") demo_target [1; 2]
    demo_ed_headers demo_fs).
  - reflexivity.
  - reflexivity.
  - apply demo_random_ok.
  - reflexivity.
  - lia.
  - vm_compute. reflexivity.
  - reflexivity.
  - vm_compute. discriminate.
Defined.

(** ** The boundary the in-memory cache misses

    A request is still young enough when [now = timestamp + maxAgeMs], but the
    cache has already dropped a nonce whose expiry is that instant, so the
    same request is accepted twice. *)
Section memory_cache.
Context `{Sha256} `{Base64Url} `{Hmac} (maxEntries : Z).

Definition memory_nonces : NonceStore MemReplay.t := MemReplay.consume maxEntries.
#[local] Existing Instance memory_nonces.

(** What an acceptance says of the other times within the age limit. *)
Lemma hmac_accepted c now1 q (s s1 : MemReplay.t) :
  0 < h_maxAgeMs c -> hmac_verifyIncoming c now1 q s = (Ok tt, s1) ->
  exists ts n, parseTimestamp (header (r_headers q) "x-xmcl-timestamp") = Some ts /\ Z.abs (now1 - ts) <= h_maxAgeMs c /\
    is_safe now1 = true /\ MemReplay.consume maxEntries (nonce_key (h_keyId c) n) (ts + h_maxAgeMs c) now1 s = (Ok true, s1) /\
    forall now s', is_safe now = true -> Z.abs (now - ts) <= h_maxAgeMs c ->
      hmac_verifyIncoming c now q s' = consume_nonce (h_keyId c) n (ts + h_maxAgeMs c) now s'.
Proof.
  intros Hage. unfold hmac_verifyIncoming. destruct (parseTimestamp _) as [ts|]; [|done].
  set (nonce := header (r_headers q) "x-xmcl-nonce"). unfold validateSignedRequest. cbv zeta. set (n := match nonce with Some n => n | None => [] end).
  destruct (_ || _) eqn:E; [done|]. rewrite !orb_false_iff, andb_false_iff, !Z.ltb_ge in E.
  destruct E as [[[[[[[-> ->] Ht] ->] ->] ->] Hs] Ha]. apply negb_false_iff in Hs.
  destruct (parseAuthorization _ _) as [actual|]; [|done]. destruct (_ || _) eqn:Es; [done|]. intros Hc.
  exists ts, n. split; [done|]. split; [lia|]. split; [done|]. split.
  - unfold consume_nonce, consume, memory_nonces in Hc. by destruct (MemReplay.consume _ _ _ _ s) as [[[]|] ?]; simplify_eq.
  - intros now s' Hsn Han. rewrite Hsn, (proj2 (Z.ltb_ge 2048 _) Ht), (proj2 (Z.ltb_ge (h_maxAgeMs c) _)) by lia.
    rewrite andb_false_r. cbn [orb negb]. by rewrite Es.
Qed.

Lemma filter_gone (key : jsstr) e now (s : MemReplay.t) :
  map_get key s = None -> e <= now ->
  map_get key (filter (fun x => ~ (x.2 <= now)) (s ++ [(key, e)])) = None /\
  zlen (filter (fun x => ~ (x.2 <= now)) (s ++ [(key, e)])) <= zlen s.
Proof.
  intros Hk He. rewrite filter_app, (filter_cons_False _ (key, e)), filter_nil, app_nil_r by (cbn; lia). split.
  - apply map_get_None. apply map_get_None in Hk. intros Hin. apply Hk. unfold map_keys in *.
    apply list_elem_of_fmap in Hin as (x & -> & [_ Hx]%list_elem_of_filter). by apply list_elem_of_fmap_2.
  - unfold zlen. pose proof (length_filter (fun x : jsstr * Z => ~ (x.2 <= now)) s). lia.
Qed.

Lemma filter_there (key : jsstr) e now (s : MemReplay.t) :
  now < e -> is_Some (map_get key (filter (fun x => ~ (x.2 <= now)) (s ++ [(key, e)]))).
Proof.
  intros He. destruct (map_get key _) as [v|] eqn:E; [by eexists|]. exfalso. apply map_get_None in E. apply E.
  unfold map_keys. apply (list_elem_of_fmap_2 fst _ (key, e)), list_elem_of_filter. split; [cbn; lia|].
  apply elem_of_app. right. apply list_elem_of_singleton. done.
Qed.

(** C18: With the in-memory cache, of any capacity and content, the HMAC identity
    accepts a signed request twice.  Whatever request of whatever configuration it has
    accepted, the same request is refused as a replay at every later time before the
    age limit, and accepted again at [timestamp + maxAgeMs] itself, which is still
    within the limit. *)
Theorem memory_cache_replay c now1 q (s s1 : MemReplay.t) :
  hmac_valid c = true -> hmac_verifyIncoming c now1 q s = (Ok tt, s1) ->
  exists ts, parseTimestamp (header (r_headers q) "x-xmcl-timestamp") = Some ts /\
    let limit := ts + h_maxAgeMs c in
    (forall now, now1 <= now < limit -> (hmac_verifyIncoming c now q s1).1 = Throw request_replayed) /\
    (hmac_verifyIncoming c limit q s1).1 = Ok tt.
Proof.
  intros Hc Hv. unfold hmac_valid in Hc. rewrite !andb_true_iff, !Z.leb_le in Hc.
  destruct (hmac_accepted c now1 q s s1 ltac:(lia) Hv) as (ts & n & Hts & Hage & Hs1 & Hcon & Hlater).
  exists ts. split; [done|]. cbv zeta. set (limit := ts + h_maxAgeMs c) in *. set (key := nonce_key (h_keyId c) n) in *.
  unfold MemReplay.consume in Hcon. destruct (_ || _) eqn:Esafe in Hcon; [done|].
  rewrite orb_false_iff, !negb_false_iff in Esafe. destruct Esafe as [Hsl _].
  set (kept := filter _ s) in *. destruct (_ || _) eqn:Ek in Hcon; [done|]. injection Hcon as <-.
  rewrite orb_false_iff, Z.leb_gt in Ek. destruct Ek as [Hk Hcap]. apply bool_decide_eq_false in Hk.
  assert (map_get key kept = None) as Hnone by (destruct (map_get key kept); [exfalso; apply Hk; by eexists|done]).
  rewrite map_set_fresh by done. split.
  - intros now Hn. rewrite Hlater by (rewrite ?is_safe_spec in *; lia).
    unfold consume_nonce, consume, memory_nonces, MemReplay.consume. fold key.
    rewrite Hsl, (proj2 (is_safe_spec now)) by (rewrite ?is_safe_spec in *; lia). cbn [negb orb].
    unfold map_has. rewrite bool_decide_true by (apply filter_there; lia). done.
  - rewrite Hlater by (try done; lia). unfold consume_nonce, consume, memory_nonces, MemReplay.consume. fold key.
    rewrite Hsl. cbn [negb orb]. destruct (filter_gone key limit limit kept Hnone ltac:(lia)) as [Hgone Hlen].
    unfold map_has. rewrite bool_decide_false; [|intros [v Hg]; assert (None = Some v) by (rewrite <- Hg; symmetry; exact Hgone); done].
    rewrite (proj2 (Z.leb_gt _ _)) by (eapply Z.le_lt_trans; [exact Hlen|exact Hcap]). done.
Qed.
End memory_cache.

Lemma memory_cache_replay_witness :
  exists s1 : MemReplay.t, hmac_verifyIncoming (H3 := memory_nonces 100000) demo_hmac 1010000 demo_request [] = (Ok tt, s1) /\
    (hmac_verifyIncoming (H3 := memory_nonces 100000) demo_hmac 1060000 demo_request s1).1 = Ok tt.
Proof.
  eexists. split; [vm_compute; reflexivity|].
  edestruct (memory_cache_replay 100000 demo_hmac 1010000 demo_request []) as (ts & Hts & _ & Hlast);
    [vm_compute; reflexivity|vm_compute; reflexivity|].
  assert (ts = 1000000) as -> by (vm_compute in Hts; congruence). exact Hlast.
Defined.
