(* ===== verification/ReplayConcurrent.v ===== *)
(** * The filesystem replay store under concurrent callers
    ([compiler/src/service-identity.mjs], [FilesystemReplayStore])

    The replay directory is shared by every replica of the worker, and nothing
    serialises the calls of [consume]: each one suspends at every file system
    call, and the calls of all replicas interleave in any order.  [Identity]
    treats a call as one atomic function; here it is a state machine with one
    step per file system call, run beside any number of other calls, any of
    which may fail at any step or never take another one (a replica that
    stopped).

    The first theorem shows that a call left alone is the atomic function of
    [Identity]; the second that no interleaving accepts a nonce twice, as long as
    every call comes before its expiry and the exclusive [open] for it fails for no
    other reason than that the file exists; the third is what happens when it
    does. *)

From S2P Require Import Prelude JsText JsNum JsValue Regex Validators Node Identity.

(** ** The directory

    Names point to files; a file that was unlinked stays readable for those who
    opened it, so the texts are kept by file, in the order of creation. *)
Record disk := mkDisk {
  d_names : gmap jsstr nat;
  d_texts : list jsstr;
  d_private : bool;
}.

Definition text_at (d : disk) (id : nat) : jsstr := default [] (d_texts d !! id).

(** The directory as [Identity] sees it. *)
Definition view (d : disk) : gmap jsstr jsstr := text_at d <$> d_names d.

Definition create (name : jsstr) (d : disk) : disk :=
  mkDisk (<[name := length (d_texts d)]> (d_names d)) (d_texts d ++ [[]]) (d_private d).

Definition unlink (name : jsstr) (d : disk) : disk :=
  mkDisk (delete name (d_names d)) (d_texts d) (d_private d).

Definition write (id : nat) (text : jsstr) (d : disk) : disk :=
  mkDisk (d_names d) (<[id := text]> (d_texts d)) (d_private d).

(** ** One call of [consume] *)
Record nonce_request := mkNonce { q_key : jsstr; q_expiresAt : Z; q_now : Z }.

(** What follows the write, none of which changes the directory. *)
Inductive finishing := SyncFile | CloseFile | OpenDirectory | SyncDirectory | CloseDirectory.

Definition next_finishing (f : finishing) : option finishing :=
  match f with
  | SyncFile => Some CloseFile
  | CloseFile => Some OpenDirectory
  | OpenDirectory => Some SyncDirectory
  | SyncDirectory => Some CloseDirectory
  | CloseDirectory => None
  end.

(** Where a call stands: the file system call it makes next. *)
Inductive pc :=
  | Start
  | Initialize
  | List
  | Clean (names : list jsstr)
  | Read (name : jsstr) (id : nat) (names : list jsstr)
  | Unlink (name : jsstr) (names : list jsstr)
  | Recount
  | Open
  | Write (id : nat)
  | Finish (f : finishing)
  | Cleanup
  | Returned (accepted : bool)
  | Rejected (e : exn).

(** How the file system answers: it does what was asked; it has written a part
    of the text so far; or it fails. *)
Inductive outcome := Fine | Partial (k : nat) | Fails (e : exn).

Section call.
Context `{Sha256} `{FsReplay.Readdir} (maxEntries : Z).

Definition name_of (q : nonce_request) : jsstr := sha256_text (q_key q).

Definition full (d : disk) : bool := maxEntries <=? zlen (FsReplay.readdir (view d)).

(** The first condition of [consume]. *)
Definition malformed (q : nonce_request) : bool :=
  (512 <? zlen (q_key q)) || negb (is_safe (q_expiresAt q)) || negb (is_safe (q_now q)) ||
  (q_expiresAt q <=? q_now q).

(** The next step of a call, [None] when the answer does not fit it or the call
    is over.  Errors of [mkdir], [stat] and [readdir] reject the call as they
    are; errors while cleaning skip the entry; errors from the exclusive [open]
    on go through the [catch]. *)
Definition call_step (q : nonce_request) (p : pc) (o : outcome) (d : disk) : option (pc * disk) :=
  match p, o with
  | Start, Fine => Some (if malformed q then Rejected store_rejected else Initialize, d)
  | Initialize, Fine => Some (if d_private d then List else Rejected store_rejected, d)
  | Initialize, Fails e => Some (Rejected e, d)
  | List, Fine => Some (if full d then Clean (take 1024 (FsReplay.readdir (view d))) else Open, d)
  | List, Fails e => Some (Rejected e, d)
  | Clean [], Fine => Some (Recount, d)
  | Clean (x :: rest), Fine =>
      Some (if negb (lowerSha256 x) then Clean rest
            else match d_names d !! x with Some id => Read x id rest | None => Clean rest end, d)
  | Clean (x :: rest), Fails _ => Some (Clean rest, d)
  | Read x id rest, Fine =>
      Some (if FsReplay.expired (q_now q) (text_at d id) then Unlink x rest else Clean rest, d)
  | Read _ _ rest, Fails _ => Some (Clean rest, d)
  | Unlink x rest, Fine => Some (Clean rest, unlink x d)
  | Unlink _ rest, Fails _ => Some (Clean rest, d)
  | Recount, Fine => Some (if full d then Returned false else Open, d)
  | Recount, Fails e => Some (Rejected e, d)
  | Open, Fine =>
      match d_names d !! name_of q with
      | Some _ => Some (Returned false, d)
      | None => Some (Write (length (d_texts d)), create (name_of q) d)
      end
  | Open, Fails _ => Some (Cleanup, d)
  | Write id, Fine => Some (Finish SyncFile, write id (FsReplay.entry_text (q_expiresAt q)) d)
  | Write id, Partial k =>
      let text := FsReplay.entry_text (q_expiresAt q) in
      if (length (text_at d id) <=? k)%nat && (k <? length text)%nat
      then Some (Write id, write id (take k text) d) else None
  | Write _, Fails _ => Some (Cleanup, d)
  | Finish f, Fine => Some (match next_finishing f with Some f => Finish f | None => Returned true end, d)
  | Finish _, Fails _ => Some (Cleanup, d)
  | Cleanup, Fine => Some (Rejected store_rejected, unlink (name_of q) d)
  | Cleanup, Fails _ => Some (Rejected store_rejected, d)
  | _, _ => None
  end.
End call.

(** ** A call left alone *)
Section alone.
Context `{Sha256} `{FsReplay.Readdir} (maxEntries : Z).

(** The call runs to its end without faults and without other calls. *)
Fixpoint alone (fuel : nat) (q : nonce_request) (p : pc) (d : disk) : pc * disk :=
  match fuel with
  | O => (p, d)
  | S fuel =>
      match call_step maxEntries q p Fine d with
      | Some (p', d') => alone fuel q p' d'
      | None => (p, d)
      end
  end.

Definition result (p : pc) : option (res bool) :=
  match p with
  | Returned b => Some (Ok b)
  | Rejected e => Some (Throw e)
  | _ => None
  end.

(** Every name points to a file. *)
Definition disk_ok (d : disk) : Prop := map_Forall (fun _ id => (id < length (d_texts d))%nat) (d_names d).

Lemma view_lookup d name : view d !! name = text_at d <$> d_names d !! name.
Proof. apply lookup_fmap. Qed.

Lemma view_unlink name d : view (unlink name d) = delete name (view d).
Proof. apply (fmap_delete (text_at d)). Qed.

Lemma view_written name text d : disk_ok d ->
  view (write (length (d_texts d)) text (create name d)) = <[name := text]> (view d).
Proof.
  intros Hok. apply map_eq. intros x. rewrite view_lookup. cbn [write create d_names].
  destruct (decide (x = name)) as [->|Hne].
  - rewrite !lookup_insert_eq. cbn. unfold text_at. cbn [write create d_texts].
    rewrite list_lookup_insert_eq; [done|]. rewrite length_app. cbn. lia.
  - rewrite !lookup_insert_ne, view_lookup by done. destruct (d_names d !! x) as [id|] eqn:E; [|done].
    cbn. f_equal. pose proof (Hok _ _ E : (id < length (d_texts d))%nat). unfold text_at. cbn [write create d_texts].
    rewrite list_lookup_insert_ne, lookup_app_l by lia. done.
Qed.

Lemma unlink_ok name d : disk_ok d -> disk_ok (unlink name d).
Proof. intros Hok x id Hx. cbn [unlink d_names] in Hx. apply lookup_delete_Some in Hx as [_ Hx]. exact (Hok x id Hx). Qed.

Lemma alone_step q p d p' d' fuel :
  call_step maxEntries q p Fine d = Some (p', d') -> alone (S fuel) q p d = alone fuel q p' d'.
Proof. intros E. cbn [alone]. by rewrite E. Qed.

Lemma alone_over q p d fuel : is_Some (result p) -> alone fuel q p d = (p, d).
Proof. destruct fuel; [done|]. destruct p; cbn; try done; by intros [? [=]]. Qed.

(** One entry of the cleaning loop takes at most three steps. *)
Lemma alone_clean_one q x rest d : disk_ok d ->
  exists n d', (n <= 3)%nat /\ (forall fuel, alone (n + fuel) q (Clean (x :: rest)) d = alone fuel q (Clean rest) d') /\
    disk_ok d' /\ d_private d' = d_private d /\
    view d' = (if negb (lowerSha256 x) then view d
               else match view d !! x with
                    | Some text => if FsReplay.expired (q_now q) text then delete x (view d) else view d
                    | None => view d
                    end).
Proof.
  intros Hok. rewrite view_lookup. destruct (negb (lowerSha256 x)) eqn:Ex.
  { exists 1%nat, d. split_and!; [lia| |done..]. intros fuel. apply alone_step. cbn [call_step]. by rewrite Ex. }
  destruct (d_names d !! x) as [id|] eqn:Ed; cbn [fmap option_fmap option_map].
  2:{ exists 1%nat, d. split_and!; [lia| |done..]. intros fuel. apply alone_step. cbn [call_step]. by rewrite Ex, Ed. }
  destruct (FsReplay.expired (q_now q) (text_at d id)) eqn:Et.
  - exists 3%nat, (unlink x d). split_and!; [lia| |by apply unlink_ok|done|apply view_unlink].
    intros fuel. cbn [Nat.add]. rewrite (alone_step _ _ _ (Read x id rest) d) by (cbn [call_step]; by rewrite Ex, Ed).
    rewrite (alone_step _ _ _ (Unlink x rest) d) by (cbn [call_step]; by rewrite Et). done.
  - exists 2%nat, d. split_and!; [lia| |done..].
    intros fuel. cbn [Nat.add]. rewrite (alone_step _ _ _ (Read x id rest) d) by (cbn [call_step]; by rewrite Ex, Ed).
    by rewrite (alone_step _ _ _ (Clean rest) d) by (cbn [call_step]; by rewrite Et).
Qed.

(** The whole loop is [#removeExpired]. *)
Lemma alone_clean q names : forall d, disk_ok d -> (length names <= 1024)%nat ->
  exists n d', (n <= 3 * length names)%nat /\
    (forall fuel, alone (n + fuel) q (Clean names) d = alone fuel q (Clean []) d') /\
    disk_ok d' /\ d_private d' = d_private d /\ view d' = FsReplay.removeExpired names (q_now q) (view d).
Proof.
  induction names as [|x rest IH]; intros d Hok Hlen.
  - exists O, d. split_and!; done.
  - cbn [length] in *. destruct (alone_clean_one q x rest d Hok) as (n1 & d1 & Hn1 & Hr1 & Hok1 & Hp1 & Hv1).
    destruct (IH d1 Hok1 ltac:(lia)) as (n2 & d2 & Hn2 & Hr2 & Hok2 & Hp2 & Hv2).
    exists (n1 + n2)%nat, d2. split_and!; [lia| |done|congruence|].
    + intros fuel. by rewrite <- Nat.add_assoc, Hr1, Hr2.
    + rewrite Hv2, Hv1. unfold FsReplay.removeExpired. rewrite !take_ge by (cbn; lia). done.
Qed.

(** From the exclusive [open] on: at most seven steps. *)
Lemma alone_open q d fuel : disk_ok d -> d_private d = true -> (7 <= fuel)%nat ->
  let out := match view d !! sha256_text (q_key q) with
    | Some _ => (Ok false, FsReplay.mkStore (view d) true)
    | None => (Ok true, FsReplay.mkStore (<[sha256_text (q_key q) := FsReplay.entry_text (q_expiresAt q)]> (view d)) true)
    end in
  exists p d', alone fuel q Open d = (p, d') /\ result p = Some out.1 /\ FsReplay.mkStore (view d') (d_private d') = out.2.
Proof.
  intros Hok Hp Hf. destruct fuel as [|fuel]; [lia|]. rewrite view_lookup. fold (name_of q).
  destruct (d_names d !! name_of q) as [id|] eqn:Ed; cbn [fmap option_fmap option_map fst snd].
  - exists (Returned false), d. rewrite (alone_step _ _ _ (Returned false) d) by (cbn [call_step]; by rewrite Ed).
    by rewrite alone_over, Hp.
  - rewrite (alone_step _ _ _ (Write (length (d_texts d))) (create (name_of q) d)) by (cbn [call_step]; by rewrite Ed).
    do 6 (destruct fuel as [|fuel]; [lia|]). do 6 (erewrite alone_step by reflexivity).
    rewrite alone_over by done. eexists _, _. split; [reflexivity|]. split; [done|]. rewrite view_written by done.
    cbn [write create d_private]. by rewrite Hp.
Qed.

(** C16: A call of [consume] that no fault and no other call disturbs is the atomic
    function of [Identity]: it ends within 3100 file system calls with that
    function's result, and leaves the directory that function leaves, whichever
    branch it takes. *)
Theorem replay_call_alone q d : disk_ok d ->
  let out := FsReplay.consume maxEntries (q_key q) (q_expiresAt q) (q_now q) (FsReplay.mkStore (view d) (d_private d)) in
  exists p d', alone 3100 q Start d = (p, d') /\ result p = Some out.1 /\
    FsReplay.mkStore (view d') (d_private d') = out.2.
Proof.
  intros Hok. unfold FsReplay.consume. cbn [FsReplay.private FsReplay.files].
  change 3100%nat with (S (S (S 3097))). destruct (_ || _) eqn:Em.
  { erewrite alone_step by (cbn [call_step]; unfold malformed; by rewrite Em). rewrite alone_over by done. by eexists _, _. }
  erewrite alone_step by (cbn [call_step]; unfold malformed; by rewrite Em).
  destruct (d_private d) eqn:Ep; cbn [negb].
  2:{ erewrite alone_step by (cbn [call_step]; by rewrite Ep). rewrite alone_over by done. eexists _, _.
      split; [done|]. by rewrite Ep. }
  erewrite alone_step by (cbn [call_step]; by rewrite Ep).
  fold (full maxEntries d). destruct (full maxEntries d) eqn:Ef; cbn [andb].
  2:{ erewrite alone_step by (cbn [call_step]; by rewrite Ef). apply alone_open; [done..|lia]. }
  erewrite alone_step by (cbn [call_step]; by rewrite Ef).
  set (entries := FsReplay.readdir (view d)).
  destruct (alone_clean q (take 1024 entries) d Hok) as (n & d1 & Hn & Hr & Hok1 & Hp1 & Hv1); [rewrite length_take; lia|].
  assert (view d1 = FsReplay.removeExpired entries (q_now q) (view d)) as <-.
  { rewrite Hv1. unfold FsReplay.removeExpired. by rewrite take_take. }
  rewrite length_take in Hn. replace 3097%nat with (n + S (S (3095 - n)))%nat by lia. rewrite Hr.
  rewrite (alone_step q (Clean []) d1 Recount d1) by done. fold (full maxEntries d1). destruct (full maxEntries d1) eqn:Ef1.
  - erewrite alone_step by (cbn [call_step]; by rewrite Ef1). rewrite alone_over by done. eexists _, _. split; [done|].
    by rewrite Hp1, Ep.
  - erewrite alone_step by (cbn [call_step]; by rewrite Ef1). apply alone_open; [done|congruence|lia].
Qed.
End alone.

(** ** Any number of calls *)
Record call := mkCall { c_request : nonce_request; c_pc : pc }.

Record state := mkState { s_disk : disk; s_calls : list call }.

(** A replica calls [consume], or a call gets the answer to its file system call. *)
Inductive event := Arrive (q : nonce_request) | Answer (i : nat) (o : outcome).

Section calls.
Context `{Sha256} `{FsReplay.Readdir} (maxEntries : Z).

Definition replay_step (e : event) (s : state) : option state :=
  match e with
  | Arrive q => Some (mkState (s_disk s) (s_calls s ++ [mkCall q Start]))
  | Answer i o =>
      c ← s_calls s !! i;
      '(p, d) ← call_step maxEntries (c_request c) (c_pc c) o (s_disk s);
      Some (mkState d (<[i := mkCall (c_request c) p]> (s_calls s)))
  end.

Fixpoint replay_run (es : list event) (s : state) : option state :=
  match es with
  | [] => Some s
  | e :: es => s' ← replay_step e s; replay_run es s'
  end.

(** The states reached by events of some kind, in any order. *)
Inductive reached (allowed : state -> event -> bool) (d0 : disk) : state -> Prop :=
  | reached_start : reached allowed d0 (mkState d0 [])
  | reached_step s e s' : reached allowed d0 s -> allowed s e = true -> replay_step e s = Some s' -> reached allowed d0 s'.

(** The calls that accepted the nonce with this file name. *)
Definition accepts (name : jsstr) (c : call) : bool :=
  bool_decide (name_of (c_request c) = name) && match c_pc c with Returned b => b | _ => false end.

Definition accepted (name : jsstr) (s : state) : nat := length (List.filter (accepts name) (s_calls s)).
End calls.

(** ** No interleaving accepts a nonce twice *)

(** What a torn or a complete write leaves is not an expired entry. *)
Lemma written_not_expired now e k :
  now < e -> FsReplay.expired now (take k (FsReplay.entry_text e)) = false.
Proof.
  intros Hlt. destruct (decide (length (FsReplay.entry_text e) <= k)%nat) as [Hge|Hk].
  { rewrite take_ge by done. by apply entry_not_expired. }
  unfold FsReplay.expired. apply andb_false_iff. left. apply not_true_iff_false. intros Hm. revert Hm Hk.
  unfold FsReplay.entry_text. rewrite length_app. cbn [length]. intros Hm Hk. rewrite take_app_le in Hm by lia.
  apply matches_spec in Hm. unfold FsReplay.entryPattern in Hm.
  rewrite lang_seq_inv in Hm. destruct Hm as (s1 & s2 & Es & Hs1 & Hs2).
  rewrite lang_seq_inv in Hs2. destruct Hs2 as (s3 & s4 & -> & _ & Hs4).
  apply lang_cls_inv in Hs1 as (c1 & -> & Hc1). apply lang_cls_inv in Hs4 as (c4 & -> & <-%Z.eqb_eq).
  destruct (Z.lt_ge_cases e 0) as [Hneg|Hpos].
  - unfold to_radix in Es. rewrite (proj2 (Z.ltb_lt e 0)) in Es by lia. destruct k; [done|]. by injection Es as <- _.
  - apply (to_radix_no_newline e Hpos). rewrite <- (take_drop k (to_radix 10 e)), Es. set_solver.
Qed.

Section once.
Context `{Sha256} `{FsReplay.Readdir} (maxEntries : Z) (name : jsstr) (limit : Z).

(** Every call comes before [limit], and those for [name] ask to remember it at
    least until then; their exclusive [open] fails only because the file exists. *)
Definition window (s : state) (e : event) : bool :=
  match e with
  | Arrive q => (q_now q <? limit) && (negb (bool_decide (name_of q = name)) || (limit <=? q_expiresAt q))
  | Answer i (Fails _) =>
      match s_calls s !! i with
      | Some (mkCall q Open) => negb (bool_decide (name_of q = name))
      | _ => true
      end
  | Answer _ _ => true
  end.

Definition lasting (text : jsstr) : Prop := forall now, now < limit -> FsReplay.expired now text = false.

(** A call that owns the file of [name]: it has created it and not removed it. *)
Definition owns (c : call) : bool :=
  bool_decide (name_of (c_request c) = name) &&
  match c_pc c with Write _ | Finish _ | Cleanup => true | Returned b => b | _ => false end.

(** The files that have been under [name] ([mine]) never look expired, and no
    call is about to unlink [name] as expired. *)
Record disk_inv (mine : nat -> Prop) (d : disk) : Prop := {
  di_mine : forall id, mine id -> exists text, d_texts d !! id = Some text /\ lasting text;
  di_name : forall id, d_names d !! name = Some id -> mine id;
}.

Definition pc_inv (mine : nat -> Prop) (d : disk) (c : call) : Prop :=
  match c_pc c with
  | Read x id _ => x = name -> mine id
  | Unlink x _ => x <> name
  | Write id => (id < length (d_texts d))%nat /\ (mine id <-> name_of (c_request c) = name)
  | _ => True
  end.

Record call_inv (mine : nat -> Prop) (d : disk) (c : call) : Prop := {
  ci_now : q_now (c_request c) < limit;
  ci_expiry : name_of (c_request c) = name -> limit <= q_expiresAt (c_request c);
  ci_pc : pc_inv mine d c;
  ci_owns : owns c = true -> is_Some (d_names d !! name);
}.

(** A later disk: files are only added, and only new ones become [mine]. *)
Definition later (mine mine' : nat -> Prop) (d d' : disk) : Prop :=
  (length (d_texts d) <= length (d_texts d'))%nat /\
  forall id, (id < length (d_texts d))%nat -> (mine' id <-> mine id).

Lemma mine_range mine d id : disk_inv mine d -> mine id -> (id < length (d_texts d))%nat.
Proof. intros [Hm _] (text & Ht & _)%Hm. by apply lookup_lt_Some in Ht. Qed.

Lemma call_later mine mine' d d' c :
  disk_inv mine d -> later mine mine' d d' -> (owns c = true -> is_Some (d_names d' !! name)) ->
  call_inv mine d c -> call_inv mine' d' c.
Proof.
  intros Hd [Hlen Hm] Ho [Hn He Hp _]. split; [done..| |done]. unfold pc_inv in *.
  destruct (c_pc c); try done.
  - intros Hx. specialize (Hp Hx). apply Hm; [by eapply mine_range|done].
  - destruct Hp as [Hid Hp]. split; [lia|]. rewrite Hm by done. done.
Qed.

(** What a step does to the ownership of [name]. *)
Definition transfer (c c' : call) (d d' : disk) : Prop :=
  ((owns c' = true -> owns c = true) /\ (is_Some (d_names d !! name) -> is_Some (d_names d' !! name))) \/
  d_names d !! name = None \/
  (owns c = true /\ owns c' = false).

(** Steps that leave the directory as it is and do not take the name. *)
Lemma quiet_step mine d q p p' :
  disk_inv mine d -> call_inv mine d (mkCall q p) ->
  (owns (mkCall q p') = true -> owns (mkCall q p) = true) -> pc_inv mine d (mkCall q p') ->
  exists mine', disk_inv mine' d /\ later mine mine' d d /\ call_inv mine' d (mkCall q p') /\
    transfer (mkCall q p) (mkCall q p') d d.
Proof.
  intros Hd [Hn He _ Ho] Howns Hp. exists mine. split; [done|]. split; [done|]. split; [|by left].
  split; [done..|]. auto.
Qed.

Lemma owns_other q p : name_of q <> name -> owns (mkCall q p) = false.
Proof. intros Hne. unfold owns. cbn [c_request]. by rewrite bool_decide_false. Qed.

(** Unlinking another name. *)
Lemma unlink_step mine d q p p' x :
  disk_inv mine d -> call_inv mine d (mkCall q p) -> x <> name ->
  (owns (mkCall q p') = true -> owns (mkCall q p) = true) -> pc_inv mine d (mkCall q p') ->
  exists mine', disk_inv mine' (unlink x d) /\ later mine mine' d (unlink x d) /\
    call_inv mine' (unlink x d) (mkCall q p') /\ transfer (mkCall q p) (mkCall q p') d (unlink x d).
Proof.
  intros [Hm Hn] [Hnow He _ Ho] Hx Howns Hp.
  assert (d_names (unlink x d) !! name = d_names d !! name) as Hname by (by apply lookup_delete_ne).
  exists mine. split; [split; [done|]; rewrite Hname; apply Hn|]. split; [done|].
  split; [|left; split; [done|]; by rewrite Hname]. split; [done..|]. rewrite Hname. auto.
Qed.

(** Removing the own file, at the end of a failed call. *)
Lemma cleanup_step mine d q :
  disk_inv mine d -> call_inv mine d (mkCall q Cleanup) ->
  exists mine', disk_inv mine' (unlink (name_of q) d) /\ later mine mine' d (unlink (name_of q) d) /\
    call_inv mine' (unlink (name_of q) d) (mkCall q (Rejected store_rejected)) /\
    transfer (mkCall q Cleanup) (mkCall q (Rejected store_rejected)) d (unlink (name_of q) d).
Proof.
  intros Hd Hc. destruct (decide (name_of q = name)) as [Hq|Hq].
  2:{ apply unlink_step; try done. by rewrite (owns_other q (Rejected _)). }
  destruct Hd as [Hm Hn], Hc as [Hnow He _ Ho]. exists mine. split; [split; [done|]|split; [done|split]].
  - intros id Hid. cbn [unlink d_names] in Hid. apply lookup_delete_Some in Hid as [_ Hid]. by apply Hn.
  - split; [done..|]. unfold owns. cbn [c_pc]. by rewrite andb_false_r.
  - right. right. unfold owns. cbn [c_request c_pc]. by rewrite bool_decide_true, andb_false_r.
Qed.

(** The exclusive create. *)
Lemma create_step mine d q :
  disk_inv mine d -> call_inv mine d (mkCall q Open) -> d_names d !! name_of q = None ->
  exists mine', disk_inv mine' (create (name_of q) d) /\ later mine mine' d (create (name_of q) d) /\
    call_inv mine' (create (name_of q) d) (mkCall q (Write (length (d_texts d)))) /\
    transfer (mkCall q Open) (mkCall q (Write (length (d_texts d)))) d (create (name_of q) d).
Proof.
  intros Hd [Hnow He _ Ho] Hfree. pose proof (mine_range mine d) as Hrange. destruct Hd as [Hm Hn].
  set (n := length (d_texts d)) in *.
  exists (fun id => mine id \/ (id = n /\ name_of q = name)). split; [split|split; [split|split; [split|]]]; cbn [create d_names d_texts c_request].
  - intros id [(text & Ht & Hl)%Hm|[-> _]]; [exists text; split; [by apply lookup_app_l_Some|done]|].
    exists []. rewrite lookup_app_r, Nat.sub_diag by (unfold n; lia). by split.
  - intros id. destruct (decide (name_of q = name)) as [<-|Hq].
    + rewrite lookup_insert_eq. intros [= <-]. by right.
    + rewrite lookup_insert_ne by done. auto.
  - rewrite length_app. lia.
  - intros id Hid. split; [|by left]. intros [?|[-> _]]; [done|unfold n in Hid; lia].
  - done.
  - done.
  - unfold pc_inv. cbn [c_pc c_request create d_texts]. rewrite length_app. cbn. split; [lia|].
    split; [|intros ?; by right]. intros [Hmine|[_ ?]]; [|done]. pose proof (Hrange _ (Build_disk_inv _ _ Hm Hn) Hmine). lia.
  - intros Howns. destruct (decide (name_of q = name)) as [<-|Hq]; [rewrite lookup_insert_eq; by eexists|].
    by rewrite owns_other in Howns.
  - destruct (decide (name_of q = name)) as [Hq|Hq]; [right; left; by rewrite <- Hq|]. left. rewrite owns_other by done.
    split; [done|]. cbn [create d_names]. by rewrite lookup_insert_ne.
Qed.

(** A write, torn or complete. *)
Lemma write_step mine d q id k p' :
  disk_inv mine d -> call_inv mine d (mkCall q (Write id)) -> p' = Write id \/ p' = Finish SyncFile ->
  let d' := write id (take k (FsReplay.entry_text (q_expiresAt q))) d in
  exists mine', disk_inv mine' d' /\ later mine mine' d d' /\ call_inv mine' d' (mkCall q p') /\
    transfer (mkCall q (Write id)) (mkCall q p') d d'.
Proof.
  intros [Hm Hn] [Hnow He [Hid Hmine] Ho] Hp d'. cbn [c_request c_pc] in *.
  assert (length (d_texts d') = length (d_texts d)) as Hlen by apply length_insert.
  exists mine. split; [split; [|exact Hn]|split; [|split; [split|]]]; cbn [c_request].
  - intros x Hx. cbn [d' write d_texts]. destruct (decide (id = x)) as [<-|Hne].
    + eexists. split; [by apply list_lookup_insert_eq|]. intros now Hlt. apply written_not_expired.
      specialize (He (proj1 Hmine Hx)). lia.
    + destruct (Hm x Hx) as (text & Ht & Hl). exists text. by rewrite list_lookup_insert_ne.
  - split; [lia|done].
  - done.
  - done.
  - unfold pc_inv. destruct Hp as [-> | ->]; cbn [c_pc c_request]; [|done]. by rewrite Hlen.
  - intros Howns. apply Ho. revert Howns. unfold owns. cbn [c_request c_pc]. by destruct Hp as [-> | ->].
  - left. split; [|done]. unfold owns. cbn [c_request c_pc]. by destruct Hp as [-> | ->].
Qed.

(** Every step of a call keeps the invariant and hands the name over as it should. *)
Lemma call_step_inv mine d q p o p' d' :
  disk_inv mine d -> call_inv mine d (mkCall q p) ->
  (forall e, o = Fails e -> p = Open -> name_of q <> name) ->
  call_step maxEntries q p o d = Some (p', d') ->
  exists mine', disk_inv mine' d' /\ later mine mine' d d' /\ call_inv mine' d' (mkCall q p') /\
    transfer (mkCall q p) (mkCall q p') d d'.
Proof.
  intros Hd Hc Hopen Hs. pose proof (ci_now _ _ _ Hc) as Hnow. pose proof (ci_pc _ _ _ Hc) as Hpc.
  unfold pc_inv in Hpc. cbn [c_pc c_request] in Hnow, Hpc.
  destruct p as [| | |[|x rest]|x id rest|x rest| | |id|f| |b|e0]; destruct o as [|k|e]; cbn [call_step] in Hs; try discriminate Hs.
  all: try (injection Hs as <- <-; apply quiet_step; [done..| |];
    repeat case_match; unfold owns, pc_inv; cbn [c_request c_pc]; rewrite ?andb_false_r; done).
  - injection Hs as <- <-. apply quiet_step; [done..| |]; unfold owns, pc_inv; cbn [c_request c_pc];
      destruct (negb _), (d_names d !! x) as [id|] eqn:Ed; rewrite ?andb_false_r; try done.
    intros Hx. apply (di_name _ _ Hd). by rewrite <- Hx.
  - injection Hs as <- <-. apply quiet_step; [done..| |]; unfold owns, pc_inv; cbn [c_request c_pc];
      destruct (FsReplay.expired _ _) eqn:Ex; rewrite ?andb_false_r; try done. intros Hx.
    destruct (di_mine _ _ Hd id (Hpc Hx)) as (text & Ht & Hl). unfold text_at in Ex. rewrite Ht in Ex. cbn in Ex.
    by rewrite Hl in Ex.
  - injection Hs as <- <-. by apply unlink_step.
  - destruct (d_names d !! name_of q) eqn:Ed; injection Hs as <- <-; [|by apply create_step].
    by apply quiet_step.
  - injection Hs as <- <-. apply quiet_step; try done. by rewrite owns_other by (by eapply Hopen).
  - injection Hs as <- <-. rewrite <- (firstn_all (FsReplay.entry_text _)). apply write_step; auto.
  - destruct (_ && _); [|done]. injection Hs as <- <-. apply write_step; auto.
  - injection Hs as <- <-. by apply cleanup_step.
Qed.

(** ** All calls *)
Record state_inv (occupied : Prop) (s : state) : Prop := {
  si_calls : exists mine, disk_inv mine (s_disk s) /\ Forall (call_inv mine (s_disk s)) (s_calls s);
  si_unique : forall i j ci cj, s_calls s !! i = Some ci -> s_calls s !! j = Some cj ->
    owns ci = true -> owns cj = true -> i = j;
  si_occupied : occupied -> is_Some (d_names (s_disk s) !! name) /\ forall c, c ∈ s_calls s -> owns c = false;
}.

Lemma arrive_inv occupied s q : q_now q < limit -> (name_of q = name -> limit <= q_expiresAt q) ->
  state_inv occupied s -> state_inv occupied (mkState (s_disk s) (s_calls s ++ [mkCall q Start])).
Proof.
  intros Hnow He [(mine & Hd & Hc) Hu Ho].
  assert (owns (mkCall q Start) = false) as Hnew by (unfold owns; cbn; apply andb_false_r).
  split; cbn [s_disk s_calls].
  - exists mine. split; [done|]. apply Forall_app. split; [done|]. constructor; [|done].
    split; [done..|]. by rewrite Hnew.
  - intros i j ci cj [Hi|[_ Hi]]%lookup_app_Some [Hj|[_ Hj]]%lookup_app_Some; [by eapply Hu|..];
      (try apply list_lookup_singleton_Some in Hi as [_ <-]); (try apply list_lookup_singleton_Some in Hj as [_ <-]); congruence.
  - intros Hocc. destruct (Ho Hocc) as [Hn Hf]. split; [done|]. intros c [Hc'|Hc']%elem_of_app; [by apply Hf|].
    apply list_elem_of_singleton in Hc' as ->. done.
Qed.

Lemma answer_inv occupied s i c p' d' mine mine' :
  state_inv occupied s -> s_calls s !! i = Some c ->
  disk_inv mine (s_disk s) -> Forall (call_inv mine (s_disk s)) (s_calls s) ->
  disk_inv mine' d' -> later mine mine' (s_disk s) d' -> call_inv mine' d' (mkCall (c_request c) p') ->
  transfer c (mkCall (c_request c) p') (s_disk s) d' ->
  state_inv occupied (mkState d' (<[i := mkCall (c_request c) p']> (s_calls s))).
Proof.
  intros [_ Hu Ho] Hi Hd Hcs Hd' Hlater Hc' Htr. set (c' := mkCall (c_request c) p') in *.
  assert (forall j cj, j <> i -> s_calls s !! j = Some cj -> owns cj = true ->
    is_Some (d_names d' !! name) /\ owns c' = false) as Hother.
  { intros j cj Hji Hj Hown. pose proof (Forall_lookup_1 _ _ _ _ Hcs Hj) as Hcj. pose proof (ci_owns _ _ _ Hcj Hown) as Hsome.
    destruct Htr as [[Hk Hs]|[Hnone|[Hrel _]]]; [|rewrite Hnone in Hsome; by destruct Hsome|by destruct (Hji (Hu j i cj c Hj Hi Hown Hrel))].
    split; [auto|]. destruct (owns c') eqn:E; [|done]. by destruct (Hji (Hu j i cj c Hj Hi Hown (Hk eq_refl))). }
  split; cbn [s_disk s_calls].
  - exists mine'. split; [done|]. apply Forall_lookup_2. intros j cj Hj. destruct (decide (i = j)) as [<-|Hne].
    + rewrite list_lookup_insert_eq in Hj by (by eapply lookup_lt_Some). by injection Hj as <-.
    + rewrite list_lookup_insert_ne in Hj by done. apply (call_later mine mine' (s_disk s) d'); [done..| |by eapply Forall_lookup_1].
      intros Hown. apply (Hother j cj); auto.
  - intros j k cj ck Hj Hk Hoj Hok. destruct (decide (i = j)) as [<-|Hij], (decide (i = k)) as [<-|Hik]; [done|..].
    + rewrite list_lookup_insert_eq in Hj by (by eapply lookup_lt_Some). injection Hj as <-.
      rewrite list_lookup_insert_ne in Hk by done. destruct (Hother k ck) as [_ ?]; auto. congruence.
    + rewrite list_lookup_insert_eq in Hk by (by eapply lookup_lt_Some). injection Hk as <-.
      rewrite list_lookup_insert_ne in Hj by done. destruct (Hother j cj) as [_ ?]; auto. congruence.
    + rewrite list_lookup_insert_ne in Hj, Hk by done. by eapply Hu.
  - intros Hocc. destruct (Ho Hocc) as [Hsome Hf]. pose proof (Hf c (list_elem_of_lookup_2 _ _ _ Hi)) as Hfree.
    destruct Htr as [[Hk Hs]|[Hnone|[Hrel _]]]; [|rewrite Hnone in Hsome; by destruct Hsome|congruence].
    split; [auto|]. intros x (j & Hj)%list_elem_of_lookup. destruct (decide (i = j)) as [<-|Hne].
    + rewrite list_lookup_insert_eq in Hj by (by eapply lookup_lt_Some). injection Hj as <-.
      destruct (owns c'); [|done]. rewrite <- Hfree. symmetry. auto.
    + rewrite list_lookup_insert_ne in Hj by done. by eapply Hf, list_elem_of_lookup_2.
Qed.

Lemma step_inv occupied s e s' :
  state_inv occupied s -> window s e = true -> replay_step maxEntries e s = Some s' -> state_inv occupied s'.
Proof.
  intros Hi Hw Hs. destruct e as [q|i o]; cbn [replay_step] in Hs.
  { injection Hs as <-. cbn [window] in Hw. apply andb_true_iff in Hw as [Hnow%Z.ltb_lt Hw]. apply arrive_inv; [done| |done].
    intros Hq. rewrite bool_decide_true in Hw by done. by apply Z.leb_le in Hw. }
  destruct (s_calls s !! i) as [c|] eqn:Ec; [|done]. cbn [mbind option_bind] in Hs.
  destruct (call_step maxEntries (c_request c) (c_pc c) o (s_disk s)) as [[p' d']|] eqn:Ep; [|done].
  injection Hs as <-. destruct (si_calls _ _ Hi) as (mine & Hd & Hcs).
  destruct (call_step_inv mine (s_disk s) (c_request c) (c_pc c) o p' d') as (mine' & Hd' & Hl & Hc' & Ht); [done| | |done|].
  - pose proof (Forall_lookup_1 _ _ _ _ Hcs Ec). by destruct c.
  - intros e -> Hopen. cbn [window] in Hw. rewrite Ec in Hw. destruct c as [q p]. cbn in Hopen. subst p.
    by apply negb_true_iff, bool_decide_eq_false in Hw.
  - by eapply answer_inv.
Qed.

Lemma reached_inv d0 s :
  disk_ok d0 -> (forall text, view d0 !! name = Some text -> lasting text) ->
  reached maxEntries window d0 s -> state_inv (is_Some (d_names d0 !! name)) s.
Proof.
  intros Hok Hl Hr. induction Hr as [|s e s' _ IH Hw Hs]; [|by eapply step_inv].
  split; cbn [s_disk s_calls]; [|done|].
  - exists (fun id => d_names d0 !! name = Some id). split; [|done]. split; [|done].
    intros id Hid. pose proof (Hok _ _ Hid : (id < _)%nat) as Hlt. apply lookup_lt_is_Some_2 in Hlt as [text Ht].
    exists text. split; [done|]. apply Hl. rewrite view_lookup, Hid. cbn. unfold text_at. by rewrite Ht.
  - intros Hs. split; [done|]. intros c Hc. by apply elem_of_nil in Hc.
Qed.

Lemma accepts_owns c : accepts name c = true -> owns c = true.
Proof. unfold accepts, owns. rewrite !andb_true_iff. intros [-> Hp]. split; [done|]. by destruct (c_pc c). Qed.

Lemma at_most_one {A} (P : A -> bool) (l : list A) :
  (forall i j x y, l !! i = Some x -> l !! j = Some y -> P x = true -> P y = true -> i = j) ->
  (length (List.filter P l) <= 1)%nat.
Proof.
  induction l as [|a l IH]; intros Hu; [cbn; lia|]. cbn [List.filter].
  assert (forall i j x y, l !! i = Some x -> l !! j = Some y -> P x = true -> P y = true -> i = j) as Hu'.
  { intros i j x y Hx Hy Px Py. pose proof (Hu (S i) (S j) x y Hx Hy Px Py). lia. }
  destruct (P a) eqn:Pa; [|by apply IH]. destruct (List.filter P l) as [|b r] eqn:E; [cbn; lia|].
  assert (In b (List.filter P l)) as [Hb Pb]%List.filter_In by (rewrite E; by left).
  apply list_elem_of_In, list_elem_of_lookup in Hb as (j & Hj). specialize (Hu O (S j) a b eq_refl Hj Pa Pb). lia.
Qed.
End once.

(** C15: A nonce is accepted at most once, under two conditions.  Any number of calls
    of [consume], for this and other nonces, run on one directory, their file system
    calls interleaved in any order; a file system call may fail, a write may stop
    half-way, and a call may stop for good at any point.  When (1) every call, for
    whatever nonce, comes before the expiry that the calls for this nonce ask for, and
    (2) no exclusive open for this nonce fails for another reason than that the file
    exists, at most one of the calls for it returns true, and none does when the
    directory already held an unexpired entry.  [stalled_replay_accepted] and
    [refused_open_forgets_nonce] show that neither condition can be left out. *)
Theorem replay_accepted_once `{Sha256} `{FsReplay.Readdir} maxEntries name limit d0 s :
  disk_ok d0 -> (forall text, view d0 !! name = Some text -> lasting limit text) ->
  reached maxEntries (window name limit) d0 s ->
  (accepted name s <= 1)%nat /\ (is_Some (d_names d0 !! name) -> accepted name s = 0%nat).
Proof.
  intros Hok Hl Hr. destruct (reached_inv maxEntries name limit d0 s Hok Hl Hr) as [_ Hu Ho]. split.
  - apply at_most_one. intros i j x y Hi Hj Hx%accepts_owns Hy%accepts_owns. by eapply Hu.
  - intros Hsome. destruct (Ho Hsome) as [_ Hf]. unfold accepted. destruct (List.filter _ _) as [|c l] eqn:E; [done|].
    assert (In c (List.filter (accepts name) (s_calls s))) as [Hc Ha]%List.filter_In by (rewrite E; by left).
    apply accepts_owns in Ha. by rewrite Hf in Ha by (by apply list_elem_of_In).
Qed.

(** ** Runs *)
#[local] Existing Instance toy_sha256.

#[local] Instance directory_order : FsReplay.Readdir := {|
  FsReplay.readdir m := map fst (map_to_list m); FsReplay.readdir_perm m := reflexivity _ |}.

(** The events of a run are all of some kind. *)
Fixpoint along (maxEntries : Z) (allowed : state -> event -> bool) (es : list event) (s : state) : bool :=
  match es with
  | [] => true
  | e :: es =>
      allowed s e && match replay_step maxEntries e s with Some s' => along maxEntries allowed es s' | None => true end
  end.

Lemma run_reached maxEntries allowed d0 es : forall s s',
  reached maxEntries allowed d0 s -> along maxEntries allowed es s = true -> replay_run maxEntries es s = Some s' ->
  reached maxEntries allowed d0 s'.
Proof.
  induction es as [|e es IH]; intros s s' Hr Ha Hrun; cbn [replay_run along] in *; [by injection Hrun as <-|].
  apply andb_true_iff in Ha as [He Ha]. destruct (replay_step maxEntries e s) as [s1|] eqn:Es; [|done].
  by eapply (IH s1); [eapply reached_step| |].
Qed.

Definition empty_directory : disk := mkDisk ∅ [] true.
Definition demo_nonce (now : Z) : nonce_request := mkNonce (js "control-plane:nonce") 1060000 now.

Definition answers (i : nat) (os : list outcome) : list event := map (Answer i) os.

Definition system_error : exn := PlainError "EMFILE".

(** The first call creates the file; the second finds it; the first fails while it
    writes and removes the file; the third call accepts. *)
Definition torn_run : list event :=
  [Arrive (demo_nonce 1010000); Arrive (demo_nonce 1010001)] ++
  answers 0 [Fine; Fine; Fine; Fine] ++ answers 1 [Fine; Fine; Fine; Fine] ++
  answers 0 [Partial 3; Fails system_error; Fine] ++
  [Arrive (demo_nonce 1010002)] ++ answers 2 (replicate 10 Fine).

Definition torn_state : state :=
  Eval vm_compute in default (mkState empty_directory []) (replay_run 1000 torn_run (mkState empty_directory [])).

Lemma torn_run_ends : replay_run 1000 torn_run (mkState empty_directory []) = Some torn_state.
Proof. vm_cast_no_check (eq_refl (Some torn_state)). Qed.

Lemma torn_run_allowed :
  along 1000 (window (name_of (demo_nonce 0)) 1060000) torn_run (mkState empty_directory []) = true.
Proof. vm_cast_no_check (eq_refl true). Qed.

Lemma replay_accepted_once_witness :
  map c_pc (s_calls torn_state) = [Rejected store_rejected; Returned false; Returned true] /\
  (accepted (name_of (demo_nonce 0)) torn_state <= 1)%nat.
Proof.
  split; [reflexivity|].
  apply (replay_accepted_once 1000 (name_of (demo_nonce 0)) 1060000 empty_directory torn_state).
  - intros x id. discriminate.
  - intros text. rewrite view_lookup. discriminate.
  - apply (run_reached 1000 _ _ torn_run (mkState empty_directory [])); [constructor|exact torn_run_allowed|exact torn_run_ends].
Defined.

Lemma replay_call_alone_witness :
  exists p d', alone 1000 3100 (demo_nonce 1010000) Start empty_directory = (p, d') /\ result p = Some (Ok true).
Proof.
  destruct (replay_call_alone 1000 (demo_nonce 1010000) empty_directory) as (p & d' & Ha & Hr & _).
  - intros x id. discriminate.
  - exists p, d'. split; [exact Ha|]. rewrite Hr. reflexivity.
Defined.

(** ** When the exclusive open fails for another reason

    The [catch] of [consume] removes the file whenever the error is not [EEXIST],
    also when the failing call is the [open] itself and the file is another call's
    acceptance. *)
Section refused.
Context `{Sha256} `{FsReplay.Readdir} (maxEntries : Z).

Lemma run_answer es i o s q p p' d' :
  s_calls s !! i = Some (mkCall q p) -> call_step maxEntries q p o (s_disk s) = Some (p', d') ->
  replay_run maxEntries (Answer i o :: es) s = replay_run maxEntries es (mkState d' (<[i := mkCall q p']> (s_calls s))).
Proof. intros Hi Hs. cbn [replay_run replay_step]. rewrite Hi. cbn [mbind option_bind c_request c_pc]. by rewrite Hs. Qed.

Lemma accepted_insert name calls (i : nat) c c' :
  calls !! i = Some c -> accepts name c = false ->
  length (List.filter (accepts name) (<[i := c']> calls)) =
    ((if accepts name c' then 1 else 0) + length (List.filter (accepts name) calls))%nat.
Proof.
  intros Hi Hc. revert i Hi. induction calls as [|x l IH]; intros [|i]; cbn [lookup list_lookup]; [done..| |].
  - intros [= ->]. change (<[0%nat := c']> (c :: l)) with (c' :: l). cbn [List.filter]. rewrite Hc. by destruct (accepts name c').
  - intros Hi. change (<[S i := c']> (x :: l)) with (x :: <[i := c']> l). cbn [List.filter].
    destruct (accepts name x); cbn [length]; rewrite (IH i Hi); lia.
Qed.

(** C17: A failed open makes the store forget a nonce.  In any state of any number of
    calls, let the nonce be stored, and let two more calls for it be about to open its
    file.  When the file system serves both, both are refused.  When the open of the
    first fails with any other error than [EEXIST] (too many open files, say), the
    handler removes the file, the second call is accepted, and the number of
    acceptances of this nonce has grown. *)
Theorem refused_open_forgets_nonce s i j q q' id e :
  i <> j -> s_calls s !! i = Some (mkCall q Open) -> s_calls s !! j = Some (mkCall q' Open) ->
  name_of q = name_of q' -> d_names (s_disk s) !! name_of q' = Some id ->
  (exists s1, replay_run maxEntries [Answer i Fine; Answer j Fine] s = Some s1 /\
     c_pc <$> s_calls s1 !! i = Some (Returned false) /\ c_pc <$> s_calls s1 !! j = Some (Returned false) /\
     accepted (name_of q') s1 = accepted (name_of q') s) /\
  (exists s2, replay_run maxEntries ([Answer i (Fails e); Answer i Fine] ++ answers j (replicate 7 Fine)) s = Some s2 /\
     c_pc <$> s_calls s2 !! i = Some (Rejected store_rejected) /\ c_pc <$> s_calls s2 !! j = Some (Returned true) /\
     accepted (name_of q') s2 = S (accepted (name_of q') s)).
Proof.
  intros Hij Hi Hj Hq Hid. pose proof (lookup_lt_Some _ _ _ Hi) as Hli. pose proof (lookup_lt_Some _ _ _ Hj) as Hlj. split.
  - eexists. split.
    { erewrite run_answer; [|done|cbn [call_step]; rewrite Hq, Hid; done].
      erewrite run_answer; [|cbn [s_calls]; rewrite list_lookup_insert_ne by done; done|cbn [call_step s_disk]; rewrite Hid; done].
      reflexivity. }
    unfold accepted. cbn [s_calls]. rewrite !list_lookup_insert_eq by (by rewrite ?length_insert).
    rewrite list_lookup_insert_ne, list_lookup_insert_eq by done. split; [done|]. split; [done|].
    erewrite accepted_insert; [|rewrite list_lookup_insert_ne by done; exact Hj|unfold accepts; apply andb_false_r].
    erewrite accepted_insert; [|exact Hi|unfold accepts; apply andb_false_r]. unfold accepts. cbn [c_pc]. by rewrite !andb_false_r.
  - eexists. split.
    { cbn [app]. erewrite run_answer; [|done|reflexivity]. cbn [s_disk s_calls].
      erewrite run_answer; [|cbn [s_calls]; by apply list_lookup_insert_eq|reflexivity]. cbn [s_disk s_calls].
      rewrite list_insert_insert_eq. cbn [replicate answers map].
      assert (d_names (unlink (name_of q) (s_disk s)) !! name_of q' = None) as Hnone by (rewrite Hq; apply lookup_delete_eq).
      erewrite run_answer; [|cbn [s_calls]; rewrite list_lookup_insert_ne by done; exact Hj|cbn [call_step s_disk]; by rewrite Hnone].
      do 6 (cbn [s_disk s_calls]; erewrite run_answer;
        [|cbn [s_calls]; apply list_lookup_insert_eq; by rewrite ?length_insert|reflexivity]; rewrite ?list_insert_insert_eq).
      reflexivity. }
    unfold accepted. cbn [s_calls]. rewrite ?list_insert_insert_eq.
    rewrite list_lookup_insert_ne, list_lookup_insert_eq by done. rewrite list_lookup_insert_eq by (by rewrite length_insert).
    split; [done|]. split; [done|].
    erewrite accepted_insert; [|rewrite list_lookup_insert_ne by done; exact Hj|unfold accepts; apply andb_false_r].
    erewrite accepted_insert; [|exact Hi|unfold accepts; apply andb_false_r]. unfold accepts. cbn [c_pc c_request].
    rewrite bool_decide_true, andb_false_r by done. done.
Qed.
End refused.

(** A first call has accepted the nonce; two more are about to open its file. *)
Definition refused_state : state := Eval vm_compute in
  default (mkState empty_directory []) (replay_run 1000
    ([Arrive (demo_nonce 1010000)] ++ answers 0 (replicate 10 Fine) ++
     [Arrive (demo_nonce 1010001)] ++ answers 1 [Fine; Fine; Fine] ++
     [Arrive (demo_nonce 1010002)] ++ answers 2 [Fine; Fine; Fine]) (mkState empty_directory [])).

Lemma refused_open_forgets_nonce_witness :
  exists s2, replay_run 1000 ([Answer 1 (Fails system_error); Answer 1 Fine] ++ answers 2 (replicate 7 Fine)) refused_state = Some s2 /\
    accepted (name_of (demo_nonce 0)) s2 = 2%nat.
Proof.
  destruct (refused_open_forgets_nonce 1000 refused_state 1 2 (demo_nonce 1010001) (demo_nonce 1010002) 0 system_error
    ltac:(lia) eq_refl eq_refl eq_refl ltac:(vm_compute; reflexivity)) as [_ (s2 & Hrun & _ & _ & Ha)].
  exists s2. split; [exact Hrun|]. etransitivity; [exact Ha|]. vm_compute. reflexivity.
Defined.

(** The bound on the clock of all calls is needed too.  A replay that was
    checked one millisecond before the expiry stops before its exclusive open; two
    other nonces fill the store, and the second of them, at the expiry, removes the
    entry as expired; the replay goes on and is accepted. *)
Definition stalled_run : list event :=
  let other k now := mkNonce (js "control-plane:" ++ k) 1090000 now in
  [Arrive (demo_nonce 1010000)] ++ answers 0 (replicate 10 Fine) ++
  [Arrive (demo_nonce 1059999)] ++ answers 1 [Fine; Fine; Fine] ++
  [Arrive (other (js "a") 1059999)] ++ answers 2 (replicate 10 Fine) ++
  [Arrive (other (js "b") 1060000)] ++ answers 3 (replicate 17 Fine) ++
  answers 1 (replicate 7 Fine).

Example stalled_replay_accepted :
  (fun s => map c_pc (s_calls s)) <$> replay_run 2 stalled_run (mkState empty_directory []) =
  Some [Returned true; Returned true; Returned true; Returned true].
Proof. vm_cast_no_check (eq_refl (Some [Returned true; Returned true; Returned true; Returned true])). Qed.
