(* ===== verification/Bundle.v ===== *)
(** * The input bundle ([compiler/src/bundle.mjs])

    [validateBundle] re-validates the ZIP archive a launcher uploaded: the
    central directory, every entry's path, size and checksum, the manifest
    inside it, and the agreement of manifest, entries, resolved metadata and the
    frozen manifest of the job. *)

From S2P Require Import Prelude JsText JsNum JsValue Regex Validators Limits Node.
From Stdlib Require Import Ascii.

Definition MAX_BUNDLE_BYTES : Z := maxBundleArchiveBytes.
Definition MAX_BUNDLE_ENTRIES : Z := 4096.
Definition MAX_BUNDLE_LOGICAL_BYTES : Z := maxPackageInputBytes.
Definition MAX_ENTRY_BYTES : Z := 64 * 1024 * 1024.

Definition failure (code : string) : exn := CompilerFailure code.

Definition is_failure (e : exn) : Prop := exists code, e = CompilerFailure code.

Lemma is_failure_code code : is_failure (failure code).
Proof. by exists code. Qed.
#[export] Hint Resolve is_failure_code : throws.

Lemma only_throws_throw_if (P : exn -> Prop) b e : P e -> only_throws P (throw_if b e).
Proof. destruct b; simpl; auto. Qed.

Lemma only_throws_rethrow {A} (P : exn -> Prop) (m : res A) e : P e -> only_throws P (rethrow m e).
Proof. destruct m; simpl; auto. Qed.
#[export] Hint Resolve only_throws_throw_if only_throws_rethrow : throws.

(** ** Reading a ZIP archive *)

(** [getUint16] and [getUint32], little-endian, in range at every use. *)
Definition u16 (b : bytes) (o : Z) : Z := byte_at b o + 256 * byte_at b (o + 1).
Definition u32 (b : bytes) (o : Z) : Z := u16 b o + 65536 * u16 b (o + 2).

(** [crc32(bytes)] *)
Fixpoint crc_bits (n : nat) (crc : Z) : Z :=
  match n with
  | O => crc
  | S n =>
      crc_bits n (if js_and crc 1 =? 0 then js_ushr crc 1 else js_xor 0xedb88320 (js_ushr crc 1))
  end.

Definition crc_byte (crc byte : Z) : Z := crc_bits 8 (js_xor crc byte).

Definition crc32 (b : bytes) : Z := js_ushr (js_xor (fold_left crc_byte b 0xffffffff) 0xffffffff) 0.

(** The backwards search for the end record; [count] offsets from [offset]
    down. *)
Fixpoint find_eocd (count : nat) (archive : bytes) (offset : Z) : option Z :=
  match count with
  | O => None
  | S count =>
      if u32 archive offset =? 0x06054b50 then Some offset else find_eocd count archive (offset - 1)
  end.

Definition eocd_count (archive : bytes) : nat :=
  Z.to_nat (zlen archive - 22 - Z.max 0 (zlen archive - 65557) + 1).

Section zip.
Context `{InflateRaw}.

(** One record of the central directory: the new cursor, logical size and
    entries. *)
Definition read_entry (archive : bytes) (centralOffset cursor logicalBytes : Z)
    (entries : list (jsstr * bytes)) : res (Z * Z * list (jsstr * bytes)) :=
  if (zlen archive <? cursor + 46) || negb (u32 archive cursor =? 0x02014b50)
  then Throw (failure "invalid_bundle")
  else
    let flags := u16 archive (cursor + 8) in
    let method := u16 archive (cursor + 10) in
    let expectedCrc := u32 archive (cursor + 16) in
    let compressedSize := u32 archive (cursor + 20) in
    let size := u32 archive (cursor + 24) in
    let nameLength := u16 archive (cursor + 28) in
    let extraLength := u16 archive (cursor + 30) in
    let commentLength := u16 archive (cursor + 32) in
    let localOffset := u32 archive (cursor + 42) in
    let stop := cursor + 46 + nameLength + extraLength + commentLength in
    let logicalBytes := logicalBytes + size in
    if (zlen archive <? stop) || negb (js_and flags 1 =? 0) ||
       (negb (method =? 0) && negb (method =? 8)) || (MAX_ENTRY_BYTES <? size) ||
       (MAX_BUNDLE_LOGICAL_BYTES <? logicalBytes) ||
       ((0 <? size) && ((compressedSize =? 0) || (100 * compressedSize <? size)))
    then Throw (failure "invalid_bundle")
    else
      match text_decode (subarray archive (cursor + 46) (cursor + 46 + nameLength)) with
      | None => Throw (failure "invalid_bundle")
      | Some path =>
          if negb (safeZipPath path) || map_has path entries || (centralOffset <? localOffset + 30) ||
             negb (u32 archive localOffset =? 0x04034b50)
          then Throw (failure "invalid_bundle")
          else
            let localNameLength := u16 archive (localOffset + 26) in
            let localExtraLength := u16 archive (localOffset + 28) in
            let dataOffset := localOffset + 30 + localNameLength + localExtraLength in
            if centralOffset <? dataOffset + compressedSize then Throw (failure "invalid_bundle")
            else
              let compressed := subarray archive dataOffset (dataOffset + compressedSize) in
              match (if method =? 0 then Some compressed else inflateRawSync compressed) with
              | None => Throw (failure "invalid_bundle")
              | Some b =>
                  if negb (zlen b =? size) || negb (crc32 b =? expectedCrc)
                  then Throw (failure "invalid_bundle")
                  else Ok (stop, logicalBytes, map_set path b entries)
              end
      end.

Fixpoint read_entries (count : nat) (archive : bytes) (centralOffset cursor logicalBytes : Z)
    (entries : list (jsstr * bytes)) : res (Z * list (jsstr * bytes)) :=
  match count with
  | O => Ok (cursor, entries)
  | S count =>
      r ← read_entry archive centralOffset cursor logicalBytes entries;
      let '(cursor, logicalBytes, entries) := r in
      read_entries count archive centralOffset cursor logicalBytes entries
  end.

Definition readZip (archive : bytes) : res (list (jsstr * bytes)) :=
  if zlen archive <? 22 then Throw (failure "invalid_bundle")
  else
    match find_eocd (eocd_count archive) archive (zlen archive - 22) with
    | None => Throw (failure "invalid_bundle")
    | Some eocd =>
        if negb (u16 archive (eocd + 4) =? 0) || negb (u16 archive (eocd + 6) =? 0)
        then Throw (failure "invalid_bundle")
        else
          let count := u16 archive (eocd + 10) in
          let centralSize := u32 archive (eocd + 12) in
          let centralOffset := u32 archive (eocd + 16) in
          if (MAX_BUNDLE_ENTRIES <? count) || (eocd <? centralOffset + centralSize)
          then Throw (failure "invalid_bundle")
          else
            r ← read_entries (Z.to_nat count) archive centralOffset centralOffset 0 [];
            let '(cursor, entries) := r in
            if negb (cursor =? centralOffset + centralSize) then Throw (failure "invalid_bundle")
            else Ok entries
    end.
End zip.

(** ** Paths *)
Definition allowed_prefixes : list string :=
  ["instance/mods/"; "instance/config/"; "instance/defaultconfigs/"; "instance/kubejs/";
   "instance/scripts/"; "instance/datapacks/"; "instance/global_packs/"; "instance/openloader/";
   "instance/paxi/"; "instance/resourcepacks/"]%string.

Definition allowed_files : list string :=
  ["resolved/version.json"; "resolved/loader.json"; "resolved/artifacts.json"; "resolved/mods.json";
   "instance/server.properties"; "instance/pack.toml"; "instance/pack.mcmeta";
   "instance/server-icon.png"]%string.

(** [/(?:^|\/)(?:server|start)\.(?:sh|bat|cmd)$/i] *)
Definition launch_script : re :=
  seqs [at_component; Alt (liti "server") (liti "start"); lit ".";
        alts [liti "sh"; liti "bat"; liti "cmd"]].

Definition allowedPath (path : jsstr) : bool :=
  if negb (safeZipPath path) || matches launch_script path then false
  else str_in path (map js allowed_files) || existsb (fun p => starts_with (js p) path) allowed_prefixes.

Definition artifactIntent (path : jsstr) : jsstr :=
  if starts_with (js "instance/mods/") path then js "mod"
  else if starts_with (js "instance/config/") path || starts_with (js "instance/defaultconfigs/") path
  then js "config"
  else if starts_with (js "instance/kubejs/") path then js "kubejs"
  else if starts_with (js "instance/scripts/") path then js "script"
  else if starts_with (js "instance/datapacks/") path then js "datapack"
  else if starts_with (js "instance/global_packs/") path then js "global-pack"
  else if starts_with (js "instance/openloader/") path then js "openloader"
  else if starts_with (js "instance/paxi/") path then js "paxi"
  else if starts_with (js "instance/resourcepacks/") path then js "resourcepack"
  else js "data".

(** ** The manifest *)
Record mfile := mkMfile { mf_path : jsstr; mf_sha256 : jsstr; mf_sizeBytes : Z }.

Record manifest := mkManifest {
  m_instanceName : jsstr;
  m_minecraftVersion : jsstr;
  m_loader_kind : jsstr;
  m_loader_version : jsstr;
  m_java_component : jsstr;
  m_java_major : Z;
  m_runtimeCatalog_sha256 : jsstr;
  m_files : list mfile;
}.

Definition get_str (v : jsval) : jsstr := match v with VStr s => s | _ => [] end.
Definition get_int (v : jsval) : Z := match v with VNum (NInt z) => z | _ => 0 end.
Definition get_list (v : jsval) : list jsval := match v with VArr l => l | _ => [] end.

Section manifest.
Context `{Unicode} `{JsonParse}.

(** The loop over [value.files]; [previous] is the last path. *)
Fixpoint parse_files (previous : jsstr) (files : list jsval) : res (list mfile) :=
  match files with
  | [] => Ok []
  | f :: rest =>
      let path := opt_prop f "path" in
      if negb (plainObject f) || negb (keys_within f ["path"; "sha256"; "sizeBytes"]%string) ||
         negb (vstr allowedPath path) || negb (vstr validSha256 (opt_prop f "sha256")) ||
         negb (vint (Z.leb 0) (opt_prop f "sizeBytes")) ||
         (negb (streq previous []) && (0 <=? comparePath previous (get_str path)))
      then Throw (failure "invalid_bundle_manifest")
      else
        files ← parse_files (get_str path) rest;
        Ok (mkMfile (get_str path) (toLowerCase (get_str (opt_prop f "sha256")))
              (get_int (opt_prop f "sizeBytes")) :: files)
  end.

Definition parseManifest (b : bytes) : res manifest :=
  match parse_bytes b with
  | None => Throw (failure "invalid_bundle_manifest")
  | Some value =>
      let loader := opt_prop value "loader" in
      let java := opt_prop value "javaRequirement" in
      let catalog := opt_prop value "runtimeCatalog" in
      if negb (plainObject value) || negb (strict_eq (opt_prop value "schemaVersion") (VInt 1)) ||
         negb (vstr (fun s => 1 <=? zlen s) (opt_prop value "instanceName")) ||
         negb (vstr validMinecraftVersion (opt_prop value "minecraftVersion")) ||
         negb (plainObject loader) || negb (plainObject java) || negb (plainObject catalog) ||
         negb (is_array (opt_prop value "files")) ||
         negb (keys_within value ["schemaVersion"; "instanceName"; "minecraftVersion"; "loader";
                 "javaRequirement"; "runtimeCatalog"; "files"]%string) ||
         negb (val_in (opt_prop loader "kind") ["forge"; "fabric"; "neoforge"; "quilt"]%string) ||
         negb (vstr validLoaderVersion (opt_prop loader "version")) ||
         negb (is_string (opt_prop java "component")) ||
         negb (is_safe_integer (opt_prop java "major")) ||
         negb (vstr validSha256 (opt_prop catalog "sha256"))
      then Throw (failure "invalid_bundle_manifest")
      else
        files ← parse_files [] (get_list (opt_prop value "files"));
        Ok (mkManifest (get_str (opt_prop value "instanceName"))
              (get_str (opt_prop value "minecraftVersion"))
              (get_str (opt_prop loader "kind")) (get_str (opt_prop loader "version"))
              (get_str (opt_prop java "component")) (get_int (opt_prop java "major"))
              (toLowerCase (get_str (opt_prop catalog "sha256"))) files)
  end.

(** ** Agreement with the frozen manifest of the job *)
Definition verifyCompatibility (bundle : manifest) (frozen : jsval) : res unit :=
  let compatibility := opt_prop frozen "compatibility" in
  let java := opt_prop compatibility "java" in
  throw_if
    (negb (plainObject frozen) || negb (strict_eq (opt_prop frozen "schemaVersion") (VInt 1)) ||
     negb (plainObject compatibility) ||
     negb (strict_eq (opt_prop compatibility "minecraftVersion") (VStr (m_minecraftVersion bundle))) ||
     negb (strict_eq (opt_prop compatibility "loader") (VStr (m_loader_kind bundle))) ||
     negb (strict_eq (opt_prop compatibility "loaderVersion") (VStr (m_loader_version bundle))) ||
     negb (strict_eq (opt_prop (opt_prop compatibility "runtimeCatalog") "sha256")
             (VStr (m_runtimeCatalog_sha256 bundle))) ||
     (truthy java &&
      (negb (strict_eq (opt_prop java "component") (VStr (m_java_component bundle))) ||
       negb (strict_eq (opt_prop java "major") (VInt (m_java_major bundle))))))
    (failure "frozen_compatibility_mismatch").

(** ** The resolved metadata files *)
Definition entry_json (entries : list (jsstr * bytes)) (path : string) : option jsval :=
  map_get (js path) entries ≫= parse_bytes.

Definition instance_files (m : manifest) : list mfile :=
  List.filter (fun f => starts_with (js "instance/") (mf_path f)) (m_files m).

Definition artifact_matches (f : mfile) (artifact : jsval) : bool :=
  plainObject artifact &&
  keys_within artifact ["intent"; "path"; "sha256"; "sizeBytes"]%string &&
  strict_eq (opt_prop artifact "path") (VStr (mf_path f)) &&
  strict_eq (opt_prop artifact "sha256") (VStr (mf_sha256 f)) &&
  strict_eq (opt_prop artifact "sizeBytes") (VInt (mf_sizeBytes f)) &&
  strict_eq (opt_prop artifact "intent") (VStr (artifactIntent (mf_path f))).

Fixpoint all2 {A B} (f : A -> B -> bool) (l : list A) (k : list B) : bool :=
  match l, k with
  | [], [] => true
  | x :: l, y :: k => f x y && all2 f l k
  | _, _ => false
  end.

Definition validArtifactMetadata (value : jsval) (m : manifest) : bool :=
  plainObject value && strict_eq (opt_prop value "schemaVersion") (VInt 1) &&
  keys_within value ["schemaVersion"; "artifacts"]%string &&
  is_array (opt_prop value "artifacts") &&
  all2 artifact_matches (instance_files m) (get_list (opt_prop value "artifacts")).

Definition verifyResolvedMetadata (entries : list (jsstr * bytes)) (m : manifest) : res unit :=
  let mismatch := failure "resolved_metadata_mismatch" in
  match entry_json entries "resolved/loader.json", entry_json entries "resolved/version.json",
        entry_json entries "resolved/artifacts.json" with
  | Some loader, Some version, Some artifacts =>
      rethrow
        (lmc ← prop loader "minecraftVersion";
         lloader ← prop loader "loader";
         ljava ← prop loader "javaRequirement";
         lcatalog ← prop loader "runtimeCatalog";
         vmc ← prop version "minecraftVersion";
         vjava ← prop version "javaVersion";
         throw_if
           (negb (strict_eq lmc (VStr (m_minecraftVersion m))) ||
            negb (strict_eq (opt_prop lloader "kind") (VStr (m_loader_kind m))) ||
            negb (strict_eq (opt_prop lloader "version") (VStr (m_loader_version m))) ||
            negb (strict_eq (opt_prop ljava "component") (VStr (m_java_component m))) ||
            negb (strict_eq (opt_prop ljava "major") (VInt (m_java_major m))) ||
            negb (strict_eq (opt_prop lcatalog "sha256") (VStr (m_runtimeCatalog_sha256 m))) ||
            negb (strict_eq vmc (VStr (m_minecraftVersion m))) ||
            negb (strict_eq (opt_prop vjava "component") (VStr (m_java_component m))) ||
            negb (strict_eq (opt_prop vjava "majorVersion") (VInt (m_java_major m))) ||
            negb (validArtifactMetadata artifacts m))
           (PlainError "")) mismatch
  | _, _, _ => Throw mismatch
  end.

(** ** Mods *)
Definition validateFrozenRemoteMod (mod_ : jsval) : res unit :=
  throw_if
    (negb (plainObject mod_) ||
     negb (sameKeys mod_ ["downloadUrl"; "fileId"; "filename"; "projectId"; "provider"; "sha256";
             "sizeBytes"]%string) ||
     negb (val_in (opt_prop mod_ "provider") ["modrinth"; "curseforge"]%string) ||
     negb (vstr (fun s => negb (streq s [])) (opt_prop mod_ "projectId")) ||
     negb (vstr (fun s => negb (streq s [])) (opt_prop mod_ "fileId")) ||
     negb (vstr safeModFilename (opt_prop mod_ "filename")) ||
     negb (vstr validSha256 (opt_prop mod_ "sha256")) ||
     negb (vint (Z.leb 1) (opt_prop mod_ "sizeBytes")) ||
     negb (is_string (opt_prop mod_ "downloadUrl")))
    (failure "invalid_remote_mod").

Definition mod_path (filename : jsval) : jsstr := js "instance/mods/" ++ to_string filename.

(** The loop that fills [remote]. *)
Fixpoint collect_remote (local : list (jsstr * mfile)) (mods : list jsval)
    (remote : list (jsstr * jsval)) : res (list (jsstr * jsval)) :=
  match mods with
  | [] => Ok remote
  | m :: rest =>
      _ ← validateFrozenRemoteMod m;
      let path := mod_path (opt_prop m "filename") in
      if map_has path remote || map_has path local then Throw (failure "remote_mod_collision")
      else collect_remote local rest (map_set path m remote)
  end.

(** [declaration.source] agrees with the frozen mod. *)
Definition matches_source (expected source : jsval) : bool :=
  if strict_eq (opt_prop expected "provider") (VText "modrinth") then
    sameKeys source ["projectId"; "provider"; "versionId"]%string &&
    strict_eq (opt_prop source "provider") (VText "modrinth") &&
    strict_eq (opt_prop source "projectId") (opt_prop expected "projectId") &&
    strict_eq (opt_prop source "versionId") (opt_prop expected "fileId")
  else if strict_eq (opt_prop expected "provider") (VText "curseforge") then
    sameKeys source ["fileId"; "projectId"; "provider"]%string &&
    strict_eq (opt_prop source "provider") (VText "curseforge") &&
    strict_eq (VStr (to_string (opt_prop source "projectId"))) (opt_prop expected "projectId") &&
    strict_eq (VStr (to_string (opt_prop source "fileId"))) (opt_prop expected "fileId")
  else false.

(** One declaration, checked against the local files and the frozen mods. *)
Definition check_declaration (local : list (jsstr * mfile)) (remote : list (jsstr * jsval))
    (seen : list jsstr) (d : jsval) : res jsstr :=
  let mismatch := failure "resolved_mods_mismatch" in
  let path := get_str (opt_prop d "path") in
  let digest := toLowerCase (get_str (opt_prop d "sha256")) in
  if negb (plainObject d) || negb (is_string (opt_prop d "path")) || str_in path seen ||
     negb (vstr validSha256 (opt_prop d "sha256")) || negb (vint (Z.leb 1) (opt_prop d "sizeBytes"))
  then Throw mismatch
  else if is_undef (opt_prop d "source") then
    if negb (sameKeys d ["path"; "sha256"; "sizeBytes"]%string) then Throw mismatch
    else
      match map_get path local with
      | Some f =>
          if negb (streq (mf_sha256 f) digest) || negb (strict_eq (opt_prop d "sizeBytes") (VInt (mf_sizeBytes f)))
          then Throw mismatch else Ok path
      | None => Throw mismatch
      end
  else if negb (sameKeys d ["filename"; "path"; "sha256"; "sizeBytes"; "source"]%string) ||
          negb (streq path (mod_path (opt_prop d "filename"))) ||
          negb (vstr safeModFilename (opt_prop d "filename")) || negb (plainObject (opt_prop d "source"))
  then Throw mismatch
  else
    match map_get path remote with
    | None => Throw mismatch
    | Some e =>
        if negb (matches_source e (opt_prop d "source")) ||
           negb (strict_eq (opt_prop e "filename") (opt_prop d "filename")) ||
           negb (strict_eq (opt_prop e "sha256") (VStr digest)) ||
           negb (strict_eq (opt_prop e "sizeBytes") (opt_prop d "sizeBytes"))
        then Throw mismatch else Ok path
    end.

Fixpoint check_declarations (local : list (jsstr * mfile)) (remote : list (jsstr * jsval))
    (declarations : list jsval) (seen : list jsstr) : res (list jsstr) :=
  match declarations with
  | [] => Ok seen
  | d :: rest =>
      path ← check_declaration local remote seen d;
      check_declarations local remote rest (seen ++ [path])
  end.

Definition local_mods (m : manifest) : list (jsstr * mfile) :=
  fold_left (fun acc f => map_set (mf_path f) f acc)
    (List.filter (fun f => starts_with (js "instance/mods/") (mf_path f)) (m_files m)) [].

Definition verifyResolvedMods (entries : list (jsstr * bytes)) (m : manifest) (frozen : jsval) : res unit :=
  let mismatch := failure "resolved_mods_mismatch" in
  match entry_json entries "resolved/mods.json" with
  | None => Throw mismatch
  | Some declarations =>
      if negb (is_array declarations) || negb (is_array (opt_prop frozen "mods")) then Throw mismatch
      else
        let local := local_mods m in
        remote ← collect_remote local (get_list (opt_prop frozen "mods")) [];
        seen ← check_declarations local remote (get_list declarations) [];
        throw_if (negb (zlen seen =? zlen local + zlen remote) ||
                  negb (forallb (fun p => str_in p seen) (map_keys local ++ map_keys remote)))
          mismatch
  end.

Section validate.
Context `{Sha256} `{InflateRaw}.

Definition requiredResolvedFiles : list string :=
  ["resolved/version.json"; "resolved/loader.json"; "resolved/artifacts.json"; "resolved/mods.json"]%string.

Definition listed_files (m : manifest) : list (jsstr * mfile) :=
  fold_left (fun acc f => map_set (mf_path f) f acc) (m_files m) [].

(** The test of one entry against the manifest. *)
Definition entry_listed (listed : list (jsstr * mfile)) (e : jsstr * bytes) : bool :=
  let '(path, b) := e in
  streq path (js "bundle.json") ||
  match map_get path listed with
  | None => false
  | Some f => allowedPath path && (mf_sizeBytes f =? zlen b) && streq (mf_sha256 f) (sha256 b)
  end.

Definition validateBundle (archive : bytes) (frozenManifest : jsval) :
    res (manifest * list (jsstr * bytes)) :=
  if MAX_BUNDLE_BYTES <? zlen archive then Throw (failure "bundle_too_large")
  else
    entries ← readZip archive;
    match map_get (js "bundle.json") entries with
    | None => Throw (failure "invalid_bundle")
    | Some manifestBytes =>
        if MAX_BUNDLE_ENTRIES <? zlen entries then Throw (failure "invalid_bundle")
        else
          m ← parseManifest manifestBytes;
          _ ← verifyCompatibility m frozenManifest;
          let listed := listed_files m in
          if negb (forallb (entry_listed listed) entries)
          then Throw (failure "bundle_hash_or_path_mismatch")
          else if negb (zlen listed =? zlen entries - 1) then Throw (failure "bundle_manifest_mismatch")
          else if negb (forallb (fun r => map_has (js r) entries) requiredResolvedFiles)
          then Throw (failure "missing_resolved_metadata")
          else
            _ ← verifyResolvedMetadata entries m;
            _ ← verifyResolvedMods entries m frozenManifest;
            Ok (m, entries)
    end.
End validate.
End manifest.

(** ** What [readZip] accepts *)
Definition total_bytes (entries : list (jsstr * bytes)) : Z :=
  foldr (fun e acc => zlen e.2 + acc) 0 entries.

Lemma total_bytes_app a b : total_bytes (a ++ b) = total_bytes a + total_bytes b.
Proof. induction a as [|e a IH]; simpl; lia. Qed.

Definition zip_ok (entries : list (jsstr * bytes)) : Prop :=
  map_wf entries /\
  Forall (fun e => safeZipPath e.1 = true /\ zlen e.2 <= MAX_ENTRY_BYTES) entries /\
  total_bytes entries <= MAX_BUNDLE_LOGICAL_BYTES.

Section zip_proofs.
Context `{InflateRaw}.

Lemma read_entry_ok archive central cursor logical entries cursor' logical' entries' :
  read_entry archive central cursor logical entries = Ok (cursor', logical', entries') ->
  zip_ok entries -> total_bytes entries = logical ->
  zip_ok entries' /\ total_bytes entries' = logical' /\ zlen entries' = zlen entries + 1.
Proof.
  unfold read_entry. destruct (_ || _); [done|]. cbv zeta.
  set (size := u32 archive (cursor + 24)). destruct (_ || _) eqn:Eg; [done|].
  rewrite !orb_false_iff, !Z.ltb_ge in Eg. destruct Eg as [[[[[_ _] _] Hs] Hl] _].
  destruct (text_decode _) as [path|]; [|done].
  destruct (_ || _) eqn:Ep; [done|].
  rewrite !orb_false_iff, negb_false_iff in Ep. destruct Ep as [[[Hpath Hnew] _] _].
  destruct (_ <? _); [done|]. destruct (if _ =? 0 then _ else _) as [b|]; [|done].
  destruct (_ || _) eqn:Eb; [done|]. intros [= <- <- <-] (Hwf & Hall & Htot) <-.
  rewrite orb_false_iff, negb_false_iff, Z.eqb_eq in Eb. destruct Eb as [Hlen _].
  unfold map_has in Hnew. apply bool_decide_eq_false, eq_None_not_Some in Hnew.
  unfold zip_ok. rewrite map_set_fresh, total_bytes_app, zlen_app by done. simpl total_bytes.
  split_and!; [|apply Forall_app; split; [done|]; apply Forall_singleton; simpl; split; [done|lia]|lia|lia|done].
  rewrite <- map_set_fresh by done. by apply map_wf_set.
Qed.

Lemma read_entries_ok count archive central cursor logical entries cursor' entries' :
  read_entries count archive central cursor logical entries = Ok (cursor', entries') ->
  zip_ok entries -> total_bytes entries = logical ->
  zip_ok entries' /\ zlen entries' = zlen entries + Z.of_nat count.
Proof.
  revert cursor logical entries. induction count as [|count IH]; intros cursor logical entries; cbn [read_entries].
  { intros [= <- <-] ? _. split; [done|lia]. }
  intros ([[c l] es] & Hr & Hrest)%bind_ok Hok Ht.
  destruct (read_entry_ok _ _ _ _ _ _ _ _ Hr Hok Ht) as (Hok' & Ht' & Hl).
  destruct (IH _ _ _ Hrest Hok' Ht') as [? ?]. split; [done|lia].
Qed.

Lemma readZip_ok archive entries :
  readZip archive = Ok entries -> zip_ok entries /\ zlen entries <= MAX_BUNDLE_ENTRIES.
Proof.
  unfold readZip. destruct (_ <? 22); [done|]. destruct (find_eocd _ _ _) as [eocd|]; [|done].
  destruct (_ || _); [done|]. destruct (_ || _) eqn:Eg; [done|].
  apply orb_false_iff in Eg as [Hc _]. apply Z.ltb_ge in Hc.
  intros ([cursor es] & Hr & Hend)%bind_ok. destruct (negb _); [done|]. injection Hend as <-.
  apply read_entries_ok in Hr as [Hok Hl]; [|split_and!; [constructor|constructor|done]|done].
  split; [done|]. rewrite Hl, zlen_nil. unfold MAX_BUNDLE_ENTRIES in *. lia.
Qed.
End zip_proofs.

(** ** What [parseManifest] accepts *)
Section manifest_proofs.
Context `{Unicode} `{JsonParse}.

Definition path_lt (a b : mfile) : Prop := comparePath (mf_path a) (mf_path b) < 0.

Lemma allowedPath_nonempty p : allowedPath p = true -> p <> [].
Proof. by intros Hp ->. Qed.

Lemma parse_files_ok files : forall previous fs,
  parse_files previous files = Ok fs ->
  Forall (fun f => allowedPath (mf_path f) = true /\ 0 <= mf_sizeBytes f) fs /\
  StronglySorted path_lt fs /\
  (previous <> [] -> Forall (fun f => comparePath previous (mf_path f) < 0) fs).
Proof.
  induction files as [|f files IH]; intros previous fs; cbn [parse_files].
  { intros [= <-]. split_and!; constructor. }
  cbv zeta. destruct (_ || _) eqn:Eg; [done|]. intros (fs' & Hfs & [= <-])%bind_ok.
  rewrite !orb_false_iff, !negb_false_iff, andb_false_iff, negb_false_iff, streq_true, Z.leb_gt in Eg.
  destruct Eg as [[[[[_ _] (path & Hp & Hallow)%vstr_true] _] (z & Hz & _ & Hz0)%vint_true] Hprev].
  rewrite Hp in *. rewrite Hz. cbn [get_str get_int VInt] in *.
  destruct (IH path fs' Hfs) as (Hall & Hsort & Hlt).
  specialize (Hlt (allowedPath_nonempty _ Hallow)). apply Z.leb_le in Hz0. split_and!.
  - constructor; [|done]. by split.
  - constructor; [done|]. eapply Forall_impl; [done|]. by intros.
  - intros Hne. destruct Hprev as [?|Hprev]; [done|]. constructor; [done|].
    eapply Forall_impl; [done|]. intros x Hx. simpl in Hx. rewrite comparePath_lt in *.
    by eapply str_ltb_trans.
Qed.

Lemma sorted_paths_NoDup fs : StronglySorted path_lt fs -> NoDup (map mf_path fs).
Proof.
  induction 1 as [|f fs _ IH Hlt]; simpl; constructor; [|done].
  intros (g & Hg & Hin)%list_elem_of_fmap. rewrite Forall_forall in Hlt.
  specialize (Hlt g Hin). unfold path_lt in Hlt. rewrite Hg, comparePath_lt, str_ltb_irrefl in Hlt. done.
Qed.

Lemma parseManifest_ok b m :
  parseManifest b = Ok m ->
  Forall (fun f => allowedPath (mf_path f) = true /\ 0 <= mf_sizeBytes f) (m_files m) /\
  StronglySorted path_lt (m_files m).
Proof.
  unfold parseManifest. destruct (parse_bytes b); [|done]. cbv zeta. destruct (_ || _); [done|].
  intros (fs & Hfs & [= <-])%bind_ok. simpl. by apply parse_files_ok in Hfs as (? & ? & _).
Qed.

(** A [Map] built from files with distinct paths lists them in order. *)
Lemma file_map_spec fs acc :
  NoDup (map_keys acc ++ map mf_path fs) ->
  fold_left (fun acc f => map_set (mf_path f) f acc) fs acc = acc ++ map (fun f => (mf_path f, f)) fs.
Proof.
  revert acc. induction fs as [|f fs IH]; intros acc Hnd; simpl; [by rewrite app_nil_r|].
  assert (map_get (mf_path f) acc = None) as Hnone.
  { destruct (map_get (mf_path f) acc) as [g|] eqn:E; [|done]. apply map_get_In in E.
    apply NoDup_app in Hnd as (_ & Hd & _). exfalso. eapply (Hd (mf_path f)).
    - apply list_elem_of_fmap. by exists (mf_path f, g).
    - simpl. left. }
  rewrite map_set_fresh by done. rewrite IH.
  - by rewrite <- app_assoc.
  - unfold map_keys in *. rewrite fmap_app. simpl. by rewrite <- app_assoc.
Qed.

Lemma listed_files_eq m :
  StronglySorted path_lt (m_files m) -> listed_files m = map (fun f => (mf_path f, f)) (m_files m).
Proof. intros Hs. apply (file_map_spec (m_files m) []). by apply sorted_paths_NoDup. Qed.

Lemma listed_keys m :
  StronglySorted path_lt (m_files m) -> map_keys (listed_files m) = map mf_path (m_files m).
Proof. intros Hs. rewrite listed_files_eq by done. unfold map_keys. by rewrite <- list_fmap_compose. Qed.
End manifest_proofs.

(** ** Mods *)
Section mods_proofs.
Context `{Unicode} `{JsonParse}.

Lemma map_has_false {V} k (l : list (jsstr * V)) : map_has k l = false <-> k ∉ map_keys l.
Proof. unfold map_has. by rewrite bool_decide_eq_false, <- eq_None_not_Some, map_get_None. Qed.

Definition frozen_paths (mods : list jsval) : list jsstr :=
  map (fun m => mod_path (opt_prop m "filename")) mods.

Lemma collect_remote_ok local mods : forall remote remote',
  collect_remote local mods remote = Ok remote' ->
  map_keys remote' = map_keys remote ++ frozen_paths mods /\
  (NoDup (map_keys remote) -> NoDup (map_keys remote')) /\
  (forall p, p ∈ frozen_paths mods -> p ∉ map_keys local).
Proof.
  induction mods as [|m mods IH]; intros remote remote'; cbn [collect_remote].
  { intros [= <-]. rewrite app_nil_r. split_and!; [done..|]. by intros p ?%not_elem_of_nil. }
  intros ([] & _ & Hr)%bind_ok. set (path := mod_path (opt_prop m "filename")) in *.
  destruct (_ || _) eqn:E; [done|]. apply orb_false_iff in E as [Hr1 Hl1].
  apply map_has_false in Hl1. pose proof Hr1 as Hr2. apply map_has_false in Hr2.
  unfold map_has in Hr1. apply bool_decide_eq_false, eq_None_not_Some in Hr1.
  apply IH in Hr as (Hk & Hnd & Hd). rewrite map_set_fresh in * by done.
  unfold map_keys in *. rewrite fmap_app in *. simpl in *. split_and!.
  - by rewrite Hk, <- app_assoc.
  - intros Hn. apply Hnd. apply NoDup_app. split_and!; [done| |apply NoDup_singleton].
    intros x Hx ->%list_elem_of_singleton. done.
  - intros p [->|Hp]%elem_of_cons; [done|by apply Hd].
Qed.

Lemma check_declarations_ok local remote ds : forall seen seen',
  check_declarations local remote ds seen = Ok seen' ->
  exists paths, seen' = seen ++ paths /\ paths = map (fun d => get_str (opt_prop d "path")) ds /\
    (NoDup seen -> NoDup seen') /\ (forall p, p ∈ paths -> p ∈ map_keys local \/ p ∈ map_keys remote).
Proof.
  induction ds as [|d ds IH]; intros seen seen'; cbn [check_declarations].
  { intros [= <-]. exists []. rewrite app_nil_r. split_and!; [done..|]. by intros p ?%not_elem_of_nil. }
  intros (path & Hc & Hr)%bind_ok. apply IH in Hr as (paths & -> & -> & Hnd & Hin).
  assert (path = get_str (opt_prop d "path") /\ path ∉ seen /\ (path ∈ map_keys local \/ path ∈ map_keys remote))
    as (-> & Hns & Hk).
  { unfold check_declaration in Hc. cbv zeta in Hc. destruct (_ || _) eqn:Eg; [done|].
    rewrite !orb_false_iff in Eg. destruct Eg as [[[_ Hseen] _] _].
    assert (get_str (opt_prop d "path") ∉ seen) as Hns
      by (intros Hin'%str_in_spec; congruence).
    destruct (is_undef _).
    - destruct (negb _); [done|]. destruct (map_get _ local) as [f|] eqn:El; [|done].
      destruct (_ || _); [done|]. injection Hc as <-. split_and!; [done..|]. left.
      apply map_get_In in El. apply list_elem_of_fmap. eexists. by split; [|exact El].
    - destruct (_ || _); [done|]. destruct (map_get _ remote) as [e|] eqn:Er; [|done].
      destruct (_ || _); [done|]. injection Hc as <-. split_and!; [done..|]. right.
      apply map_get_In in Er. apply list_elem_of_fmap. eexists. by split; [|exact Er]. }
  eexists. split; [by rewrite <- app_assoc|]. split; [done|]. split.
  - intros Hn. apply Hnd. apply NoDup_app. split_and!; [done| |apply NoDup_singleton].
    intros x Hx ->%list_elem_of_singleton. done.
  - intros p [->|Hp]%elem_of_cons; [done|by apply Hin].
Qed.

(** A bundle whose mod declarations are accepted declares each mod exactly
    once, and the declared mods are precisely the mod files of the bundle
    together with the remote mods the job froze; no remote mod repeats or
    collides with a bundled one. *)
Theorem resolved_mods_exact entries m frozen :
  verifyResolvedMods entries m frozen = Ok tt ->
  exists declarations mods,
    entry_json entries "resolved/mods.json" = Some (VArr declarations) /\
    opt_prop frozen "mods" = VArr mods /\
    let declared := map (fun d => get_str (opt_prop d "path")) declarations in
    NoDup declared /\ NoDup (frozen_paths mods) /\
    (forall p, p ∈ frozen_paths mods -> p ∉ map_keys (local_mods m)) /\
    (forall p, p ∈ declared <-> p ∈ map_keys (local_mods m) \/ p ∈ frozen_paths mods).
Proof.
  unfold verifyResolvedMods. destruct (entry_json _ _) as [v|]; [|done].
  destruct (_ || _) eqn:Ea; [done|]. rewrite orb_false_iff, !negb_false_iff in Ea. destruct Ea as [Hv Hf].
  destruct v as [| | | | |ds| |]; try done. destruct (opt_prop frozen "mods") as [| | | | |mods| |]; try done.
  intros (remote & Hr & Hc)%bind_ok. apply bind_ok in Hc as (seen & Hs & Ht).
  apply collect_remote_ok in Hr as (Hk & Hnd & Hd). simpl in Hk.
  apply check_declarations_ok in Hs as (paths & -> & -> & Hnds & Hin). rewrite app_nil_l in *.
  apply throw_if_ok, orb_false_iff in Ht as [_ Hall]. apply negb_false_iff in Hall.
  exists ds, mods. rewrite Hk in *. split_and!; try done.
  - apply Hnds, NoDup_nil_2.
  - apply Hnd, NoDup_nil_2.
  - intros p. split; [apply Hin|]. intros Hp. apply (str_in_spec p).
    apply (proj1 (forallb_forall _ _) Hall). apply list_elem_of_In, elem_of_app. done.
Qed.
End mods_proofs.

(** ** [validateBundle] *)
Section validate_proofs.
Context `{Unicode} `{JsonParse} `{Sha256} `{InflateRaw}.

(** Distinct elements included in a list no longer than theirs are all of it. *)
Lemma NoDup_incl_full (l k : list jsstr) :
  NoDup l -> (forall x, x ∈ l -> x ∈ k) -> (length k <= length l)%nat -> forall x, x ∈ k -> x ∈ l.
Proof.
  intros Hnd Hin Hlen x Hx. apply list_elem_of_In.
  apply (List.NoDup_length_incl (l := l) (l' := k)).
  - by apply NoDup_ListNoDup.
  - done.
  - intros y Hy%list_elem_of_In. apply list_elem_of_In. by apply Hin.
  - by apply list_elem_of_In.
Qed.

Lemma map_get_file m f :
  StronglySorted path_lt (m_files m) -> f ∈ m_files m -> map_get (mf_path f) (listed_files m) = Some f.
Proof.
  intros Hs Hf. apply map_wf_get.
  - unfold map_wf. rewrite listed_keys by done. by apply sorted_paths_NoDup.
  - rewrite listed_files_eq by done. apply list_elem_of_fmap. by exists f.
Qed.

(** C21: A bundle that validates is exactly what its manifest says: the entries
    are [bundle.json] and the listed files, nothing more and nothing less, each
    with the listed size and hash under an allowed path; the manifest is
    sorted without repetition and agrees with the frozen compatibility; the
    total size is within the limit. *)
Theorem validateBundle_exact archive frozen m entries :
  validateBundle archive frozen = Ok (m, entries) ->
  (forall path, path ∈ map_keys entries <-> path = js "bundle.json" \/ path ∈ map mf_path (m_files m)) /\
  (forall f, f ∈ m_files m -> exists b, map_get (mf_path f) entries = Some b /\
     zlen b = mf_sizeBytes f /\ sha256 b = mf_sha256 f /\ allowedPath (mf_path f) = true) /\
  StronglySorted path_lt (m_files m) /\ verifyCompatibility m frozen = Ok tt /\
  zip_ok entries /\ zlen entries <= MAX_BUNDLE_ENTRIES.
Proof.
  unfold validateBundle. destruct (_ <? zlen archive); [done|].
  intros (es & Hzip & Hrest)%bind_ok. apply readZip_ok in Hzip as [Hok Hcount].
  destruct (map_get (js "bundle.json") es) as [mb|] eqn:Emb; [|done].
  destruct (_ <? zlen es); [done|]. apply bind_ok in Hrest as (m' & Hm & Hrest).
  apply bind_ok in Hrest as ([] & Hcomp & Hrest). cbv zeta in Hrest.
  destruct (forallb (entry_listed _) es) eqn:Hlisted; cbn [negb] in Hrest; [|done].
  destruct (zlen (listed_files m') =? zlen es - 1) eqn:Hsize; cbn [negb] in Hrest; [|done].
  destruct (negb _); [done|]. apply bind_ok in Hrest as ([] & _ & Hrest).
  apply bind_ok in Hrest as ([] & _ & [= <- <-]). apply Z.eqb_eq in Hsize.
  apply parseManifest_ok in Hm as [Hfiles Hsorted]. pose proof Hok as (Hwf & _ & _).
  pose proof (proj1 (forallb_forall _ _) Hlisted) as Hent.
  assert (forall p, p ∈ map_keys es -> p = js "bundle.json" \/ p ∈ map mf_path (m_files m')) as Hsub.
  { intros p (e & -> & Hin)%list_elem_of_fmap. apply list_elem_of_In in Hin. specialize (Hent e Hin).
    destruct e as [path b]. simpl in *. apply orb_true_iff in Hent as [->%streq_true|Hl]; [by left|right].
    destruct (map_get path (listed_files m')) as [f|] eqn:E; [|done].
    rewrite <- listed_keys by done. apply map_get_In in E. apply list_elem_of_fmap. by exists (path, f). }
  assert (js "bundle.json" ∈ map_keys es) as Hbundle.
  { apply map_get_In in Emb. apply list_elem_of_fmap. by exists (js "bundle.json", mb). }
  assert (forall p, p ∈ map mf_path (m_files m') -> p ∈ map_keys es) as Hsup.
  { intros p Hp. apply (NoDup_incl_full _ (js "bundle.json" :: map mf_path (m_files m')) Hwf).
    - intros x Hx. apply elem_of_cons. by apply Hsub.
    - simpl. rewrite <- listed_keys by done. unfold map_keys, zlen in *. rewrite !length_fmap. lia.
    - by right. }
  split_and!; try done; [intros p; split; [apply Hsub|intros [->|?]; auto]|].
  intros f Hf. assert (mf_path f ∈ map_keys es) as Hk by (apply Hsup, list_elem_of_fmap; by exists f).
  apply list_elem_of_fmap in Hk as ([path b] & Hp & Hin). simpl in Hp. subst path.
  exists b. split; [by apply map_wf_get|]. apply list_elem_of_In in Hin. specialize (Hent _ Hin).
  cbn [entry_listed] in Hent. rewrite (map_get_file m' f) in Hent by done.
  apply Forall_forall with (x := f) in Hfiles as [Ha _]; [|done].
  apply orb_true_iff in Hent as [E%streq_true|Hent]; [by rewrite E in Ha|].
  rewrite !andb_true_iff, Z.eqb_eq, streq_true in Hent. destruct Hent as [[_ ->] ->]. done.
Qed.

(** ** Failures *)

Lemma read_entries_throws count archive : forall central cursor logical entries,
  only_throws is_failure (read_entries count archive central cursor logical entries).
Proof.
  induction count as [|count IH]; intros; cbn [read_entries]; [exact I|].
  apply only_throws_bind; [unfold read_entry; cbv zeta; throws|]. intros [[? ?] ?] _. apply IH.
Qed.

Lemma parse_files_throws files : forall previous, only_throws is_failure (parse_files previous files).
Proof. induction files as [|f files IH]; intros; cbn [parse_files]; cbv zeta; throws. Qed.

Lemma collect_remote_throws local mods : forall remote, only_throws is_failure (collect_remote local mods remote).
Proof.
  induction mods as [|m mods IH]; intros; cbn [collect_remote]; [exact I|].
  apply only_throws_bind; [unfold validateFrozenRemoteMod; throws|]. intros. cbv zeta. throws.
Qed.

Lemma check_declarations_throws local remote ds : forall seen,
  only_throws is_failure (check_declarations local remote ds seen).
Proof.
  induction ds as [|d ds IH]; intros; cbn [check_declarations]; [exact I|].
  apply only_throws_bind; [unfold check_declaration; cbv zeta; throws|]. auto.
Qed.
#[local] Hint Resolve read_entries_throws parse_files_throws collect_remote_throws
  check_declarations_throws : throws.


Lemma readZip_throws archive : only_throws is_failure (readZip archive).
Proof. unfold readZip. cbv zeta. throws. Qed.

Lemma parseManifest_throws b : only_throws is_failure (parseManifest b).
Proof. unfold parseManifest. cbv zeta. throws. Qed.

Lemma verifyCompatibility_throws m frozen : only_throws is_failure (verifyCompatibility m frozen).
Proof. unfold verifyCompatibility. auto with throws. Qed.

Lemma verifyResolvedMetadata_throws entries m : only_throws is_failure (verifyResolvedMetadata entries m).
Proof. unfold verifyResolvedMetadata. cbv zeta. throws. Qed.

Lemma verifyResolvedMods_throws entries m frozen : only_throws is_failure (verifyResolvedMods entries m frozen).
Proof. unfold verifyResolvedMods. cbv zeta. throws. Qed.
#[local] Hint Resolve readZip_throws parseManifest_throws verifyCompatibility_throws
  verifyResolvedMetadata_throws verifyResolvedMods_throws : throws.

(** On every archive and every frozen manifest, [validateBundle] returns or
    fails with a [CompilerFailure]: no other exception escapes it, whatever the
    JSON files contain. *)
Theorem validateBundle_fails_closed archive frozen :
  only_throws is_failure (validateBundle archive frozen).
Proof.
  unfold validateBundle. cbv zeta. throws.
Qed.
End validate_proofs.

(** ** Witnesses

    A stored ZIP archive written byte by byte, and a JSON table for its texts. *)
Example crc32_check : crc32 (js "123456789") = 0xcbf43926.
Proof. vm_compute. reflexivity. Qed.

Definition le16 (v : Z) : bytes := [v mod 256; v / 256 mod 256].

Definition zip_local (e : jsstr * bytes) : bytes :=
  littleEndian32 0x04034b50 ++ zeros 22 ++ le16 (zlen e.1) ++ le16 0 ++ e.1 ++ e.2.

Definition zip_central (offset : Z) (e : jsstr * bytes) : bytes :=
  littleEndian32 0x02014b50 ++ zeros 12 ++ littleEndian32 (crc32 e.2) ++ littleEndian32 (zlen e.2) ++
  littleEndian32 (zlen e.2) ++ le16 (zlen e.1) ++ zeros 12 ++ littleEndian32 offset ++ e.1.

Fixpoint zip_directory (offset : Z) (es : list (jsstr * bytes)) : bytes :=
  match es with
  | [] => []
  | e :: es => zip_central offset e ++ zip_directory (offset + zlen (zip_local e)) es
  end.

Definition store_zip (es : list (jsstr * bytes)) : bytes :=
  let locals := concat (map zip_local es) in
  let central := zip_directory 0 es in
  locals ++ central ++ littleEndian32 0x06054b50 ++ zeros 4 ++ le16 (zlen es) ++ le16 (zlen es) ++
  littleEndian32 (zlen central) ++ littleEndian32 (zlen locals) ++ le16 0.

Definition demo_jar : bytes := [80; 75; 5; 6; 7].
Definition demo_digest : jsstr := toy_digest [104].
Definition demo_remote : bytes := [1; 2; 3; 4; 5; 6; 7; 8; 9].

Definition demo_entries : list (jsstr * bytes) :=
  [(js "bundle.json", js "manifest"); (js "instance/mods/a.jar", demo_jar);
   (js "resolved/artifacts.json", js "artifacts"); (js "resolved/loader.json", js "loader");
   (js "resolved/mods.json", js "mods"); (js "resolved/version.json", js "version")].

Definition demo_java : jsval := obj [("component", VText "java-runtime"); ("major", VInt 21)]%string.

Definition demo_file (e : jsstr * bytes) : jsval :=
  obj [("path", VStr e.1); ("sha256", VStr (toy_digest e.2)); ("sizeBytes", VInt (zlen e.2))]%string.

Definition demo_texts : list (jsstr * jsval) :=
  [(js "manifest", obj [("schemaVersion", VInt 1); ("instanceName", VText "demo");
      ("minecraftVersion", VText "1.21.1");
      ("loader", obj [("kind", VText "fabric"); ("version", VText "0.16.9")]);
      ("javaRequirement", demo_java); ("runtimeCatalog", obj [("sha256", VStr demo_digest)]);
      ("files", VArr (map demo_file (drop 1 demo_entries)))]%string);
   (js "artifacts", obj [("schemaVersion", VInt 1); ("artifacts", VArr
      [obj [("intent", VText "mod"); ("path", VText "instance/mods/a.jar");
            ("sha256", VStr (toy_digest demo_jar)); ("sizeBytes", VInt 5)]])]%string);
   (js "loader", obj [("minecraftVersion", VText "1.21.1");
      ("loader", obj [("kind", VText "fabric"); ("version", VText "0.16.9")]);
      ("javaRequirement", demo_java); ("runtimeCatalog", obj [("sha256", VStr demo_digest)])]%string);
   (js "version", obj [("minecraftVersion", VText "1.21.1");
      ("javaVersion", obj [("component", VText "java-runtime"); ("majorVersion", VInt 21)])]%string);
   (js "mods", VArr [demo_file (js "instance/mods/a.jar", demo_jar);
      obj [("filename", VText "b.jar"); ("path", VText "instance/mods/b.jar");
           ("sha256", VStr (toy_digest demo_remote)); ("sizeBytes", VInt 9);
           ("source", obj [("projectId", VInt 7); ("fileId", VInt 8); ("provider", VText "curseforge")])]%string])].

Definition demo_frozen : jsval :=
  obj [("schemaVersion", VInt 1);
       ("compatibility", obj [("minecraftVersion", VText "1.21.1"); ("loader", VText "fabric");
          ("loaderVersion", VText "0.16.9"); ("runtimeCatalog", obj [("sha256", VStr demo_digest)]);
          ("java", demo_java)]);
       ("mods", VArr [obj [("downloadUrl", VText "https://edge.forgecdn.net/b.jar"); ("fileId", VText "8");
          ("filename", VText "b.jar"); ("projectId", VText "7"); ("provider", VText "curseforge");
          ("sha256", VStr (toy_digest demo_remote)); ("sizeBytes", VInt 9)]])]%string.

#[local] Existing Instance ascii_unicode.
#[local] Existing Instance toy_sha256.
#[local] Instance demo_json : JsonParse := {| json_parse s := map_get s demo_texts |}.
#[local] Instance demo_inflate : InflateRaw := {| inflateRawSync _ := None |}.

Definition demo_validated : manifest * list (jsstr * bytes) := Eval vm_compute in
  get_ok (mkManifest [] [] [] [] [] 0 [] [], []) (validateBundle (store_zip demo_entries) demo_frozen).

Lemma demo_validates : validateBundle (store_zip demo_entries) demo_frozen = Ok demo_validated.
Proof. vm_cast_no_check (eq_refl (Ok demo_validated)). Qed.

Lemma validateBundle_exact_witness :
  demo_validated.2 = demo_entries /\ StronglySorted path_lt (m_files demo_validated.1).
Proof.
  split; [vm_compute; reflexivity|].
  apply (validateBundle_exact (store_zip demo_entries) demo_frozen demo_validated.1 demo_validated.2).
  exact demo_validates.
Defined.

Lemma demo_mods_validate :
  verifyResolvedMods demo_validated.2 demo_validated.1 demo_frozen = Ok tt.
Proof. vm_cast_no_check (eq_refl (Ok tt)). Qed.

Lemma resolved_mods_exact_witness :
  exists declarations mods,
    entry_json demo_validated.2 "resolved/mods.json" = Some (VArr declarations) /\
    opt_prop demo_frozen "mods" = VArr mods /\
    NoDup (map (fun d => get_str (opt_prop d "path")) declarations) /\ NoDup (frozen_paths mods).
Proof.
  destruct (resolved_mods_exact demo_validated.2 demo_validated.1 demo_frozen demo_mods_validate)
    as (ds & mods & H1 & H2 & H3 & H4 & _).
  exists ds, mods. split_and!; assumption.
Defined.
