(* ===== verification/Content.v ===== *)
(** * The published content ([reviewed-builder.mjs], validation)

    The launcher and the runtime descriptor the worker generates, the
    description of the files that go into the archive, and
    [validateImmutableContent], which checks the finished archive against that
    description before anything is uploaded. *)

From S2P Require Import Prelude JsText JsNum JsValue Regex Validators Limits Node TarZst Bundle.
From Stdlib Require Import Ascii.

Definition MAX_ARTIFACT_BYTES : Z := 512 * 1024 * 1024.
Definition MAX_OUTPUT_FILES : Z := maxFiles.

Definition RUNTIME_JSON : jsstr := js ".xmcl/runtime.json".
Definition LAUNCH_SH : jsstr := js ".xmcl/launch.sh".

(** ** Launch arguments *)
Definition loaderTemplates : list (jsstr * jsstr) :=
  [(js "forge", js "forge-unix-args-v1"); (js "fabric", js "fabric-server-jar-v1");
   (js "neoforge", js "neoforge-unix-args-v1"); (js "quilt", js "quilt-server-jar-v1")].

(** [Object.hasOwn(loaderTemplates, kind)]: the key is converted to a string. *)
Definition has_template (kind : jsval) : bool := map_has (to_string kind) loaderTemplates.

(** The arguments [createAssemblyPlan] derives from the loader. *)
Definition launchArguments (kind : jsval) (minecraftVersion version : jsstr) : list jsstr :=
  if strict_eq kind (VText "forge") then
    [js "@libraries/net/minecraftforge/forge/" ++ minecraftVersion ++ js "-" ++ version ++ js "/unix_args.txt";
     js "nogui"]
  else if strict_eq kind (VText "neoforge") then
    [js "@libraries/net/neoforged/neoforge/" ++ version ++ js "/unix_args.txt"; js "nogui"]
  else [js "-jar"; js "server.jar"; js "nogui"].

(** [/^[A-Za-z0-9_@./:+-]+$/] *)
Definition argument_char : Z -> bool :=
  alnum ∪c chr1 "_" ∪c chr1 "@" ∪c chr1 "." ∪c chr1 "/" ∪c chr1 ":" ∪c chr1 "+" ∪c chr1 "-".

Definition shellQuote (value : jsstr) : jsstr := value.

(** A double quote, written as a code unit. *)
Definition QUOTE : jsstr := [34].

Definition launcher_text (arguments : list jsstr) : jsstr :=
  js "#!/bin/sh" ++ [10] ++ js "set -eu" ++ [10] ++ js ": " ++ QUOTE ++
  js "${XMCL_JAVA:?XMCL_JAVA is required}" ++ QUOTE ++ [10] ++
  js "exec " ++ QUOTE ++ js "$XMCL_JAVA" ++ QUOTE ++ js " " ++
  join (js " ") (map shellQuote arguments) ++ [10].

Definition generatedLauncher (arguments : list jsstr) : res bytes :=
  if negb (forallb (matches (plus (Cls argument_char))) arguments) then Throw invalid_builder_output
  else Ok (utf8_encode (launcher_text arguments)).

(** ** Descriptors *)
Definition validLoader (v : jsval) : bool :=
  plainObject v && sameKeys v ["kind"; "version"]%string && has_template (opt_prop v "kind") &&
  vstr validLoaderVersion (opt_prop v "version").

Definition validJava (v : jsval) : bool :=
  plainObject v && sameKeys v ["component"; "major"]%string &&
  vstr validIdentifier (opt_prop v "component") &&
  vint (fun z => (1 <=? z) && (z <=? 255)) (opt_prop v "major").

Definition validGeneratedDescriptor (v : jsval) : bool :=
  let runtime := opt_prop v "runtime" in
  let launch := opt_prop v "launch" in
  plainObject v && strict_eq (opt_prop v "schemaVersion") (VInt 1) && plainObject runtime &&
  strict_eq (opt_prop runtime "path") (VStr RUNTIME_JSON) && vstr validSha256 (opt_prop runtime "sha256") &&
  plainObject launch && strict_eq (opt_prop launch "path") (VStr LAUNCH_SH) &&
  strict_eq (opt_prop launch "kind") (VText "generated-server-launcher") &&
  match opt_prop launch "arguments" with VArr [] => true | _ => false end.

(** ** The description of the files *)
Record entry := mkEntry { en_path : jsstr; en_sha256 : jsstr; en_sizeBytes : Z; en_mode : Z }.

Definition entry_value (e : entry) : jsval :=
  obj [("path", VStr (en_path e)); ("sha256", VStr (en_sha256 e)); ("sizeBytes", VInt (en_sizeBytes e));
       ("mode", VInt (en_mode e))]%string.

Definition reserved_output (path : jsstr) : bool := streq path RUNTIME_JSON || streq path LAUNCH_SH.

Section content.
Context `{Unicode} `{Sha256}.

(** [validateOutputFiles(files)] *)
Definition validateOutputFiles (files : list (jsstr * file)) : res (list entry) :=
  if (zlen files <? 2) || (MAX_OUTPUT_FILES <? zlen files) then Throw invalid_builder_output
  else
    let sorted := sort_entries files in
    entries ← mapM_res (fun pf =>
      let '(path, f) := pf in
      if negb (safeOutputPath path) || (negb (reserved_output path) && forbiddenOutputPath path) ||
         negb (validOutputMode (f_mode f))
      then Throw invalid_builder_output
      else Ok (mkEntry path (sha256 (f_bytes f)) (zlen (f_bytes f)) (f_mode f))) sorted;
    match map_get RUNTIME_JSON files, map_get LAUNCH_SH files with
    | Some _, Some launcher =>
        if negb (f_mode launcher =? MODE_755) ||
           negb (outputSizeWithinLimit (map (fun e => Some (en_sizeBytes e)) entries) (Some maxPackageInputBytes))
        then Throw invalid_builder_output
        else Ok entries
    | _, _ => Throw invalid_builder_output
    end.

(** The [map] callback of [validateEntryMetadata], threading [previous]. *)
Fixpoint check_entries (previous : jsstr) (entries : list jsval) : res (list entry) :=
  match entries with
  | [] => Ok []
  | e :: rest =>
      let path := get_str (opt_prop e "path") in
      if negb (plainObject e) || negb (sameKeys e ["path"; "sha256"; "sizeBytes"; "mode"]%string) ||
         negb (vstr safeOutputPath (opt_prop e "path")) ||
         (negb (reserved_output path) && forbiddenOutputPath path) ||
         negb (vstr validSha256 (opt_prop e "sha256")) ||
         negb (vint (Z.leb 0) (opt_prop e "sizeBytes")) ||
         negb (vint validOutputMode (opt_prop e "mode")) ||
         (negb (streq previous []) && (0 <=? comparePath previous path))
      then Throw invalid_builder_output
      else
        normalized ← check_entries path rest;
        Ok (mkEntry path (toLowerCase (get_str (opt_prop e "sha256")))
              (get_int (opt_prop e "sizeBytes")) (get_int (opt_prop e "mode")) :: normalized)
  end.

Definition validateEntryMetadata (entries : list jsval) : res (list entry) :=
  if (zlen entries <? 2) || (MAX_OUTPUT_FILES <? zlen entries) then Throw invalid_builder_output
  else
    normalized ← check_entries [] entries;
    if negb (outputSizeWithinLimit (map (fun e => Some (en_sizeBytes e)) normalized) (Some maxPackageInputBytes))
    then Throw invalid_builder_output
    else Ok normalized.

(** [entryHash(entries, path)] *)
Definition entryHash (entries : list entry) (path : jsstr) : res jsstr :=
  match List.find (fun e => streq (en_path e) path) entries with
  | Some e => Ok (en_sha256 e)
  | None => Throw invalid_builder_output
  end.

(** [validateGeneratedRuntimeAndLauncher]: [runtime] and [launcher] are the
    bytes of the two generated files. *)
Section generated.
Context `{JsonParse} `{JsonStringify}.

Definition validateGeneratedRuntimeAndLauncher (runtime launcher : bytes) : res unit :=
  match parse_bytes runtime with
  | None => Throw invalid_builder_output
  | Some value =>
      let java := opt_prop value "java" in
      let launch := opt_prop value "launch" in
      let loader := opt_prop value "loader" in
      if negb (plainObject value) ||
         negb (sameKeys value ["schemaVersion"; "runtimeCatalogRevision"; "minecraftVersion"; "loader";
                 "java"; "launch"]%string) ||
         negb (strict_eq (opt_prop value "schemaVersion") (VInt 1)) ||
         negb (vstr validSha256 (opt_prop value "runtimeCatalogRevision")) ||
         negb (vstr validMinecraftVersion (opt_prop value "minecraftVersion")) ||
         negb (validLoader loader) || negb (plainObject java) ||
         negb (sameKeys java ["component"; "major"; "jreId"]%string) ||
         negb (vstr validIdentifier (opt_prop java "component")) ||
         negb (is_safe_integer (opt_prop java "major")) ||
         negb (vstr validIdentifier (opt_prop java "jreId")) ||
         negb (plainObject launch) || negb (sameKeys launch ["path"; "kind"; "arguments"]%string) ||
         negb (strict_eq (opt_prop launch "path") (VStr LAUNCH_SH)) ||
         negb (strict_eq (opt_prop launch "kind") (VText "generated-server-launcher")) ||
         negb (is_array (opt_prop launch "arguments"))
      then Throw invalid_builder_output
      else
        let expected := launchArguments (opt_prop loader "kind") (get_str (opt_prop value "minecraftVersion"))
                          (get_str (opt_prop loader "version")) in
        if negb (streq (json_stringify (opt_prop launch "arguments"))
                       (json_stringify (VArr (map VStr expected))))
        then Throw invalid_builder_output
        else
          match text_decode launcher with
          | None => Throw (TypeError "invalid UTF-8")
          | Some text =>
              l ← generatedLauncher expected;
              throw_if (negb (bool_decide (Some text = text_decode l))) invalid_builder_output
          end
  end.

(** [validateImmutableContent({ archive, content, descriptor })] *)
Definition entry_matches (unpacked : list (jsstr * unpacked)) (e : entry) : bool :=
  match map_get (en_path e) unpacked with
  | None => false
  | Some a => (u_sizeBytes a =? en_sizeBytes e) && streq (u_sha256 a) (en_sha256 e) && (u_mode a =? en_mode e)
  end.

Definition validateImmutableContent (archive : bytes) (content descriptor : jsval) : res unit :=
  if negb (plainObject content) || negb (strict_eq (opt_prop content "format") (VText "tar.zst")) ||
     negb (vstr validContentKey (opt_prop content "key")) ||
     negb (vstr validSha256 (opt_prop content "sha256")) ||
     negb (strict_eq (opt_prop content "sha256") (VStr (sha256 archive))) ||
     negb (vint (Z.eqb (zlen archive)) (opt_prop content "sizeBytes")) ||
     negb (is_array (opt_prop content "entries")) || negb (validGeneratedDescriptor descriptor)
  then Throw invalid_builder_output
  else
    expected ← validateEntryMetadata (get_list (opt_prop content "entries"));
    unpacked ← unpackDeterministicTarZst archive;
    if negb (zlen unpacked =? zlen expected) then Throw invalid_builder_output
    else if negb (forallb (entry_matches unpacked) expected) then Throw invalid_builder_output
    else
      match map_get RUNTIME_JSON unpacked, map_get LAUNCH_SH unpacked with
      | Some runtime, Some launcher =>
          if negb (strict_eq (opt_prop (opt_prop descriptor "runtime") "sha256") (VStr (u_sha256 runtime)))
          then Throw invalid_builder_output
          else validateGeneratedRuntimeAndLauncher (u_bytes runtime) (u_bytes launcher)
      | _, _ => Throw invalid_builder_output
      end.
End generated.
End content.

(** ** The launcher runs exactly the arguments

    Every character an accepted pattern matches is one of its classes', so a
    version that passes its validator brings no shell syntax into the launcher. *)
Fixpoint classes_within (p : Z -> Prop) (r : re) : Prop :=
  match r with
  | Void | Eps => True
  | Cls q => forall c, q c = true -> p c
  | Seq a b | Alt a b => classes_within p a /\ classes_within p b
  | Star a => classes_within p a
  end.

Lemma lang_classes p r s : lang r s -> classes_within p r -> Forall p s.
Proof. induction 1; cbn [classes_within]; rewrite ?Forall_app; try tauto; [constructor|auto|constructor]. Qed.

Lemma classes_within_rep p q lo extra :
  classes_within p (Cls q) -> classes_within p (rep (Cls q) lo extra).
Proof.
  intros Hq. induction lo as [|lo IH]; cbn [rep classes_within]; [|done].
  induction extra; cbn [upto classes_within]; done.
Qed.

Definition shell_inert (c : Z) : Prop := argument_char c = true.

(** Decide a class inclusion by the bounds of the ranges. *)
Ltac class_incl :=
  let c := fresh "c" in
  intros c;
  unfold shell_inert, argument_char, alnum, digit, ident_char, por, chr1, rng, ch;
  cbv -[Z.leb Z.eqb orb andb];
  rewrite ?orb_true_iff, ?andb_true_iff, ?Z.leb_le, ?Z.eqb_eq; lia.

Lemma validLoaderVersion_inert v : validLoaderVersion v = true -> Forall shell_inert v.
Proof.
  unfold validLoaderVersion. rewrite !andb_true_iff, matches_spec. intros [_ Hl].
  eapply lang_classes; [exact Hl|]. cbn [classes_within]. split; class_incl.
Qed.

Lemma upto3_inert : classes_within shell_inert upto3.
Proof.
  cbn [upto3 classes_within lit]. split; [cbn; class_incl|]. split; [class_incl|].
  apply classes_within_rep. cbn [classes_within]. class_incl.
Qed.

Lemma validMinecraftVersion_inert v : validMinecraftVersion v = true -> Forall shell_inert v.
Proof.
  unfold validMinecraftVersion. rewrite matches_spec. intros Hl.
  eapply lang_classes; [exact Hl|]. cbn [classes_within seqs foldr opt].
  split_and!; try exact upto3_inert; try done;
    first [class_incl | apply classes_within_rep; cbn [classes_within]; class_incl | split; class_incl].
Qed.

Lemma js_inert s : forallb argument_char (js s) = true -> Forall shell_inert (js s).
Proof. rewrite forallb_forall. intros Hs. apply Forall_forall. intros c Hc. by apply Hs, list_elem_of_In. Qed.

Lemma launchArguments_inert kind mc v :
  Forall shell_inert mc -> Forall shell_inert v ->
  Forall (fun a => Forall shell_inert a /\ a <> []) (launchArguments kind mc v).
Proof.
  intros Hmc Hv. unfold launchArguments.
  repeat case_match; repeat constructor; rewrite ?Forall_app; split_and?;
    first [assumption|done|by apply js_inert|by rewrite app_nil].
Qed.

Lemma launcher_generated kind mc version :
  validMinecraftVersion mc = true -> validLoaderVersion version = true ->
  generatedLauncher (launchArguments kind mc version) =
    Ok (utf8_encode (launcher_text (launchArguments kind mc version))).
Proof.
  intros Hmc%validMinecraftVersion_inert Hv%validLoaderVersion_inert.
  unfold generatedLauncher. rewrite (proj2 (forallb_forall _ _)); [done|].
  pose proof (launchArguments_inert kind mc version Hmc Hv) as Ha.
  intros a Hin%list_elem_of_In. rewrite Forall_forall in Ha. by apply matches_plus_cls, Ha.
Qed.

(** For every loader and every pair of versions the validators accept, the
    launcher is generated, and its command line splits at blanks into exactly
    the launch arguments: no accepted version can add an argument or any shell
    syntax to the script. *)
Theorem launcher_runs_exact_arguments kind mc version :
  validMinecraftVersion mc = true -> validLoaderVersion version = true ->
  let arguments := launchArguments kind mc version in
  generatedLauncher arguments = Ok (utf8_encode (launcher_text arguments)) /\
  split_on 32 (join (js " ") (map shellQuote arguments)) = arguments /\
  Forall (Forall shell_inert) arguments.
Proof.
  intros Hmc Hv. cbv zeta.
  pose proof (launchArguments_inert kind mc version (validMinecraftVersion_inert _ Hmc)
    (validLoaderVersion_inert _ Hv)) as Ha. split_and!.
  - by apply launcher_generated.
  - change (js " ") with [32]. unfold shellQuote. rewrite map_id. apply split_join_words.
    + unfold launchArguments. by repeat case_match.
    + eapply Forall_impl; [exact Ha|]. intros a [Hin _] Hc. rewrite Forall_forall in Hin.
      by specialize (Hin 32 Hc).
  - eapply Forall_impl; [exact Ha|]. by intros a [? _].
Qed.

Lemma launcher_runs_exact_arguments_witness :
  let arguments := launchArguments (VText "forge") (js "1.20.1") (js "47.2.0") in
  generatedLauncher arguments = Ok (utf8_encode (launcher_text arguments)) /\
  split_on 32 (join (js " ") (map shellQuote arguments)) = arguments /\
  Forall (Forall shell_inert) arguments.
Proof. apply launcher_runs_exact_arguments; vm_compute; reflexivity. Defined.

(** ** What the final validation establishes *)
Section content_proofs.
Context `{Unicode} `{Sha256}.

Definition entry_lt (a b : entry) : Prop := comparePath (en_path a) (en_path b) < 0.

(** The declaration [v] and its normalised form [e]. *)
Definition declares (v : jsval) (e : entry) : Prop :=
  opt_prop v "path" = VStr (en_path e) /\
  (exists h, opt_prop v "sha256" = VStr h /\ toLowerCase h = en_sha256 e) /\
  opt_prop v "sizeBytes" = VInt (en_sizeBytes e) /\ opt_prop v "mode" = VInt (en_mode e).

Definition entry_ok (e : entry) : Prop :=
  safeOutputPath (en_path e) = true /\
  (reserved_output (en_path e) = true \/ forbiddenOutputPath (en_path e) = false) /\
  validOutputMode (en_mode e) = true /\ 0 <= en_sizeBytes e.

Lemma check_entries_ok values : forall previous es,
  check_entries previous values = Ok es ->
  Forall2 declares values es /\ Forall entry_ok es /\ StronglySorted entry_lt es /\
  (previous <> [] -> Forall (fun e => comparePath previous (en_path e) < 0) es).
Proof.
  induction values as [|v values IH]; intros previous es; cbn [check_entries].
  { intros [= <-]. split_and!; constructor. }
  cbv zeta. destruct (_ || _) eqn:Eg; [done|]. intros (es' & Hes & [= <-])%bind_ok.
  rewrite !orb_false_iff, !negb_false_iff, !andb_false_iff, !negb_false_iff, streq_true, Z.leb_gt in Eg.
  destruct Eg as [[[[[[[_ _] (path & Hp & Hsafe)%vstr_true] Hres] (h & Hh & _)%vstr_true]
    (z & Hz & _ & Hz0)%vint_true] (m & Hm & _ & Hmode)%vint_true] Hprev].
  rewrite Hp, Hh, Hz, Hm in *. cbn [get_str get_int VInt] in *.
  destruct (IH path es' Hes) as (Hd & Hok & Hsort & Hlt).
  specialize (Hlt (safe_relative_nonempty _ _ Hsafe)). apply Z.leb_le in Hz0. split_and!.
  - constructor; [|done]. split_and!; simpl; eauto.
  - constructor; [|done]. split_and!; done.
  - constructor; [done|]. eapply Forall_impl; [done|]. by intros.
  - intros Hne. destruct Hprev as [?|Hprev]; [done|]. constructor; [done|].
    eapply Forall_impl; [done|]. intros x Hx. simpl in Hx. rewrite comparePath_lt in *.
    by eapply str_ltb_trans.
Qed.

Lemma sorted_entries_NoDup es : StronglySorted entry_lt es -> NoDup (map en_path es).
Proof.
  induction 1 as [|e es _ IH Hlt]; simpl; constructor; [|done].
  intros (g & Hg & Hin)%list_elem_of_fmap. rewrite Forall_forall in Hlt.
  specialize (Hlt g Hin). unfold entry_lt in Hlt. rewrite Hg, comparePath_lt, str_ltb_irrefl in Hlt. done.
Qed.

Lemma validateEntryMetadata_ok values es :
  validateEntryMetadata values = Ok es ->
  Forall2 declares values es /\ Forall entry_ok es /\ NoDup (map en_path es) /\
  size_sum (map (fun e => Some (en_sizeBytes e)) es) <= maxPackageInputBytes.
Proof.
  unfold validateEntryMetadata. destruct (_ || _); [done|].
  intros (es' & Hc & Hs)%bind_ok. destruct (outputSizeWithinLimit _ _) eqn:El; cbn [negb] in Hs; [|done].
  injection Hs as <-. apply check_entries_ok in Hc as (Hd & Hok & Hsort & _).
  apply outputSizeWithinLimit_true in El as (_ & _ & _ & Hsum).
  split_and!; [done|done|by apply sorted_entries_NoDup|done].
Qed.

(** When every declared entry matches a distinct unpacked file and there are as
    many files as entries, the two sets of paths are the same. *)
Lemma matching_entries_cover files es :
  NoDup (map en_path es) -> zlen files = zlen es -> forallb (entry_matches files) es = true ->
  forall p, p ∈ map_keys files -> p ∈ map en_path es.
Proof.
  intros Hnd Hlen Hall p Hp. apply (NoDup_incl_full _ (map_keys files) Hnd).
  - intros x (e & -> & He)%list_elem_of_fmap. rewrite forallb_forall in Hall.
    apply list_elem_of_In in He. specialize (Hall e He). unfold entry_matches in Hall.
    destruct (map_get (en_path e) files) as [a|] eqn:E; [|done].
    apply map_get_In in E. apply list_elem_of_fmap. by exists (en_path e, a).
  - unfold map_keys, zlen in *. rewrite !length_fmap. lia.
  - done.
Qed.

Context `{JsonParse} `{JsonStringify}.

(** C22: Content that validates is described exactly: its hash and size are those
    of the archive, the archive unpacks, every unpacked file is declared, and
    every declared entry is an unpacked file with the declared mode, size and
    hash (case aside), under a safe and allowed path. *)
Theorem content_described_exactly archive content descriptor :
  validateImmutableContent archive content descriptor = Ok tt ->
  exists files entries,
    unpackDeterministicTarZst archive = Ok files /\
    opt_prop content "sha256" = VStr (sha256 archive) /\
    opt_prop content "sizeBytes" = VInt (zlen archive) /\
    Forall2 declares (get_list (opt_prop content "entries")) entries /\
    Forall entry_ok entries /\ NoDup (map en_path entries) /\
    (forall path, path ∈ map_keys files <-> path ∈ map en_path entries) /\
    (forall e, e ∈ entries -> exists a, map_get (en_path e) files = Some a /\
       en_sha256 e = sha256 (u_bytes a) /\ en_sizeBytes e = zlen (u_bytes a) /\ en_mode e = u_mode a).
Proof.
  unfold validateImmutableContent. destruct (_ || _) eqn:Eg; [done|].
  intros (es & Hes & (files & Hu & Hrest)%bind_ok)%bind_ok.
  destruct (zlen files =? zlen es) eqn:Elen; cbn [negb] in Hrest; [|done].
  destruct (forallb (entry_matches files) es) eqn:Eall; cbn [negb] in Hrest; [|done]. clear Hrest.
  rewrite !orb_false_iff, !negb_false_iff in Eg.
  destruct Eg as [[[[_ Hsha%strict_eq_str] (z & Hz & _ & Hzl)%vint_true] _] _].
  apply Z.eqb_eq in Hzl as <-.
  apply Z.eqb_eq in Elen. apply validateEntryMetadata_ok in Hes as (Hd & Hok & Hnd & _).
  pose proof (unpack_files_ok _ _ Hu) as [_ Hfiles]. exists files, es.
  assert (forall e, e ∈ es -> exists a, map_get (en_path e) files = Some a /\
    en_sha256 e = sha256 (u_bytes a) /\ en_sizeBytes e = zlen (u_bytes a) /\ en_mode e = u_mode a) as Hmatch.
  { intros e He%list_elem_of_In. pose proof (proj1 (forallb_forall _ _) Eall e He) as Hm.
    unfold entry_matches in Hm. destruct (map_get (en_path e) files) as [a|] eqn:E; [|done].
    rewrite !andb_true_iff, !Z.eqb_eq, streq_true in Hm. destruct Hm as [[Hs Hh] Hmode].
    exists a. rewrite Forall_forall in Hfiles. specialize (Hfiles _ (map_get_In _ _ _ E)).
    destruct Hfiles as (_ & _ & Hsh & Hsz). simpl in Hsh, Hsz. split_and!; [done|congruence..]. }
  split_and!; try done. intros p. split; [by apply matching_entries_cover|].
  intros (e & -> & He)%list_elem_of_fmap. destruct (Hmatch e He) as (a & Ha & _).
  apply map_get_In in Ha. apply list_elem_of_fmap. by exists (en_path e, a).
Qed.
End content_proofs.

(** ** The builder's own output passes *)
Section packaged.
Context `{Unicode} `{Sha256}.

Lemma entry_value_keys e : sameKeys (entry_value e) ["path"; "sha256"; "sizeBytes"; "mode"]%string = true.
Proof. by apply sameKeys_obj. Qed.

Lemma sha256_lower b : toLowerCase (sha256 b) = sha256 b.
Proof.
  pose proof (sha256_hex b) as Hh. unfold lowerSha256 in Hh. apply matches_rep_cls in Hh as [Hh _].
  assert (forall c, hex_lower c = true -> 48 <= c <= 57 \/ 97 <= c <= 102) as Hrange.
  { intros c. unfold hex_lower, por, rng. change (ch "a") with 97. change (ch "f") with 102.
    change (ch "0") with 48. change (ch "9") with 57.
    rewrite orb_true_iff, !andb_true_iff, !Z.leb_le. lia. }
  rewrite toLowerCase_ascii.
  - unfold ascii_lower. induction Hh as [|c s Hc%Hrange Hs IH]; [done|]. cbn [map]. rewrite IH. f_equal.
    unfold ascii_lower_unit. zcases; simpl; lia.
  - unfold is_ascii. apply forallb_forall. intros c Hc. rewrite Forall_forall in Hh.
    apply list_elem_of_In in Hc. specialize (Hrange c (Hh c Hc)).
    rewrite andb_true_iff, Z.leb_le, Z.ltb_lt. lia.
Qed.

(** The entry the builder writes for a file. *)
Definition entry_of (pf : jsstr * file) : entry :=
  mkEntry pf.1 (sha256 (f_bytes pf.2)) (zlen (f_bytes pf.2)) (f_mode pf.2).

Definition output_ok (pf : jsstr * file) : Prop :=
  safeOutputPath pf.1 = true /\
  (reserved_output pf.1 = true \/ forbiddenOutputPath pf.1 = false) /\ validOutputMode (f_mode pf.2) = true.

Lemma validateOutputFiles_ok files es :
  validateOutputFiles files = Ok es ->
  2 <= zlen files <= MAX_OUTPUT_FILES /\ es = map entry_of (sort_entries files) /\
  Forall output_ok (sort_entries files) /\
  outputSizeWithinLimit (map (fun e => Some (en_sizeBytes e)) es) (Some maxPackageInputBytes) = true /\
  is_Some (map_get RUNTIME_JSON files) /\
  exists launcher, map_get LAUNCH_SH files = Some launcher /\ f_mode launcher = MODE_755.
Proof.
  unfold validateOutputFiles. destruct (_ || _) eqn:En; [done|].
  apply orb_false_iff in En as [Hn1%Z.ltb_ge Hn2%Z.ltb_ge].
  intros (es' & Hes & Hr)%bind_ok. apply mapM_res_ok in Hes.
  assert (es' = map entry_of (sort_entries files) /\ Forall output_ok (sort_entries files)) as [-> Hok].
  { clear -Hes. induction Hes as [|[p f] e l l' Hf _ [-> IH]]; [by split|].
    destruct (_ || _) eqn:Eg; [done|]. injection Hf as <-.
    rewrite !orb_false_iff, !negb_false_iff, andb_false_iff, negb_false_iff in Eg.
    split; [done|]. constructor; [|done]. unfold output_ok. simpl. tauto. }
  destruct (map_get RUNTIME_JSON files); [|done]. destruct (map_get LAUNCH_SH files) as [l|]; [|done].
  destruct (_ || _) eqn:El; [done|]. injection Hr as <-.
  rewrite orb_false_iff, !negb_false_iff, Z.eqb_eq in El. destruct El.
  split_and!; try done. by eexists.
Qed.

Lemma sort_entries_strict (files : list (jsstr * file)) :
  map_wf files -> StronglySorted entry_lt (map entry_of (sort_entries files)).
Proof.
  intros Hwf. pose proof (map_wf_perm _ _ (symmetry (sort_entries_perm files)) Hwf) as Hnd.
  pose proof (sort_entries_sorted files) as Hs. clear Hwf. unfold map_wf, map_keys in Hnd.
  induction Hs as [|[p f] l _ IH Hle]; simpl in *; [constructor|].
  apply NoDup_cons in Hnd as [Hp Hnd]. constructor; [by apply IH|]. apply Forall_map, Forall_forall.
  intros [p' f'] Hin. rewrite Forall_forall in Hle. specialize (Hle _ Hin).
  unfold entry_lt, entry_le in *. simpl in *. destruct (Z.eq_dec (comparePath p p') 0) as [E|]; [|lia].
  exfalso. apply Hp. assert (p = p') as ->; [|by apply (list_elem_of_fmap_2 fst _ (p', f'))].
  unfold comparePath in E. destruct (str_ltb p p') eqn:E1; [done|]. destruct (str_ltb p' p) eqn:E2; [done|].
  by apply str_ltb_total.
Qed.

Lemma check_entries_values es : forall previous,
  Forall (fun e => entry_ok e /\ validSha256 (en_sha256 e) = true /\ toLowerCase (en_sha256 e) = en_sha256 e /\
    is_safe (en_sizeBytes e) = true /\ is_safe (en_mode e) = true) es ->
  StronglySorted entry_lt es ->
  (previous = [] \/ Forall (fun e => comparePath previous (en_path e) < 0) es) ->
  check_entries previous (map entry_value es) = Ok es.
Proof.
  induction es as [|e es IH]; intros previous Hok Hs Hp; [done|].
  apply Forall_cons in Hok as [((Hsafe & Hres & Hmode & Hsize) & Hsha & Hlow & Hzs & Hms) Hok].
  inversion Hs as [|? ? Hs' Hlt]; subst. cbn [map check_entries].
  change (opt_prop (entry_value e) "path") with (VStr (en_path e)).
  change (opt_prop (entry_value e) "sha256") with (VStr (en_sha256 e)).
  change (opt_prop (entry_value e) "sizeBytes") with (VInt (en_sizeBytes e)).
  change (opt_prop (entry_value e) "mode") with (VInt (en_mode e)).
  rewrite entry_value_keys. cbn [get_str get_int vstr vint VInt plainObject entry_value obj negb orb].
  rewrite Hsafe, Hsha, Hzs, Hms, Hmode, (proj2 (Z.leb_le _ _) Hsize), Hlow. cbn [negb orb andb].
  replace (negb (reserved_output (en_path e)) && forbiddenOutputPath (en_path e)) with false
    by (destruct Hres as [-> | ->]; [done|by rewrite andb_false_r]).
  replace (negb (streq previous []) && (0 <=? comparePath previous (en_path e))) with false
    by (destruct Hp as [-> | [Hlt' _]%Forall_cons]; [done|];
        rewrite (proj2 (Z.leb_gt _ _) Hlt'); by rewrite andb_false_r).
  cbn [orb]. rewrite IH; [by destruct e|done|done|]. by right.
Qed.

Lemma packaged_validates files entries archive :
  map_wf files -> Forall (fun e => tar_clean e.1 = true) files ->
  validateOutputFiles files = Ok entries -> packageDeterministicTarZst files = Ok archive ->
  validateEntryMetadata (map entry_value entries) = Ok entries /\
  let unpacked := map (fun e => (e.1, unpacked_of e.2)) (sort_entries files) in
  unpackDeterministicTarZst archive = Ok unpacked /\
  zlen unpacked = zlen entries /\ forallb (entry_matches unpacked) entries = true.
Proof.
  intros Hwf Hclean (Hlen & -> & Hok & Hlim & _)%validateOutputFiles_ok Hpack.
  pose proof (sort_entries_perm files) as Hperm. split.
  - unfold validateEntryMetadata. unfold zlen in *. rewrite !length_map, (Permutation_length Hperm).
    rewrite (proj2 (Z.ltb_ge _ _)), (proj2 (Z.ltb_ge _ _)) by lia. cbn [orb].
    rewrite check_entries_values; [cbn [mbind res_bind]; by rewrite Hlim| |by apply sort_entries_strict|by left].
    apply outputSizeWithinLimit_true in Hlim as (_ & _ & Hsz & _).
    rewrite !Forall_map in Hsz. apply Forall_map, Forall_forall. intros [p f] Hin.
    rewrite Forall_forall in Hok, Hsz. destruct (Hok _ Hin) as (? & ? & Hm).
    destruct (Hsz _ Hin) as (z & [= <-] & Hz). simpl in *.
    unfold entry_ok. cbn [entry_of en_path en_sha256 en_sizeBytes en_mode fst snd].
    split_and!; try done; [by apply zlen_nonneg|by apply sha256_valid|by apply sha256_lower| |].
    + apply is_safe_spec. unfold maxFileBytes, MAX_SAFE_INTEGER in *. lia.
    + by apply validOutputMode_cases in Hm as [-> | ->].
  - cbv zeta. split; [|split].
    + apply unpack_package; [done| |done]. rewrite Forall_forall in *. intros e He.
      split; [by apply Hclean|]. apply Hok. by rewrite Hperm.
    + unfold zlen. by rewrite !length_map.
    + apply forallb_forall. intros e (pf & <- & Hin)%in_map_iff. unfold entry_matches.
      rewrite map_get_map. cbn [en_path entry_of].
      rewrite (map_wf_get pf.1 pf.2); [| |by destruct pf; apply list_elem_of_In].
      * cbn. by rewrite !Z.eqb_refl, streq_refl.
      * by eapply map_wf_perm; [symmetry; apply sort_entries_perm|].
Qed.

(** What the builder describes is what it packages: for every file set the
    output check accepts, the entries it computes are themselves accepted by
    the final metadata check, and the packaged archive unpacks to exactly as
    many files, each matching its entry in size, hash and mode. *)
Theorem packaged_output_validates files entries archive :
  map_wf files -> Forall (fun e => tar_clean e.1 = true) files ->
  validateOutputFiles files = Ok entries -> packageDeterministicTarZst files = Ok archive ->
  validateEntryMetadata (map entry_value entries) = Ok entries /\
  exists unpacked, unpackDeterministicTarZst archive = Ok unpacked /\
    zlen unpacked = zlen entries /\ forallb (entry_matches unpacked) entries = true.
Proof. intros Hwf Hc Ho Hp. destruct (packaged_validates files entries archive Hwf Hc Ho Hp). eauto. Qed.
End packaged.

(** ** A run: one mod, the descriptor and the launcher *)
Definition run_java : jsval :=
  obj [("component", VText "java-runtime"); ("major", VInt 21); ("jreId", VText "temurin-21")]%string.

Definition run_arguments : list jsstr := launchArguments (VText "fabric") (js "1.21.1") (js "0.16.9").

Definition run_runtime : jsval :=
  obj [("schemaVersion", VInt 1); ("runtimeCatalogRevision", VStr (toy_digest [104]));
       ("minecraftVersion", VText "1.21.1");
       ("loader", obj [("kind", VText "fabric"); ("version", VText "0.16.9")]); ("java", run_java);
       ("launch", obj [("path", VStr LAUNCH_SH); ("kind", VText "generated-server-launcher");
          ("arguments", VArr (map VStr run_arguments))])]%string.

#[local] Existing Instance ascii_unicode.
#[local] Existing Instance toy_sha256.
#[local] Instance run_json : JsonParse := {| json_parse s := map_get s [(js "runtime", run_runtime)] |}.
#[local] Instance run_stringify : JsonStringify := {| json_stringify := to_string |}.

Definition run_files : list (jsstr * file) :=
  [(js "mods/a.jar", mkFile [80; 75; 5] MODE_644); (LAUNCH_SH, mkFile (utf8_encode (launcher_text run_arguments)) MODE_755);
   (RUNTIME_JSON, mkFile (js "runtime") MODE_644)].

Definition run_archive : bytes := Eval vm_compute in get_ok [] (packageDeterministicTarZst run_files).
Definition run_entries : list entry := Eval vm_compute in get_ok [] (validateOutputFiles run_files).

Definition run_content : jsval :=
  obj [("format", VText "tar.zst"); ("key", VText "content/demo.tar.zst"); ("sha256", VStr (toy_digest run_archive));
       ("sizeBytes", VInt (zlen run_archive)); ("entries", VArr (map entry_value run_entries))]%string.

Definition run_descriptor : jsval :=
  obj [("schemaVersion", VInt 1);
       ("runtime", obj [("path", VStr RUNTIME_JSON); ("sha256", VStr (toy_digest (js "runtime")))]);
       ("launch", obj [("path", VStr LAUNCH_SH); ("kind", VText "generated-server-launcher");
          ("arguments", VArr [])])]%string.

Lemma run_packages : packageDeterministicTarZst run_files = Ok run_archive.
Proof. vm_cast_no_check (eq_refl (Ok run_archive)). Qed.

Lemma run_outputs : validateOutputFiles run_files = Ok run_entries.
Proof. vm_cast_no_check (eq_refl (Ok run_entries)). Qed.

Lemma run_content_validates : validateImmutableContent run_archive run_content run_descriptor = Ok tt.
Proof. vm_cast_no_check (eq_refl (Ok tt)). Qed.

Lemma run_files_clean : map_wf run_files /\ Forall (fun e => tar_clean e.1 = true) run_files.
Proof. split; [by_decide|]. repeat constructor. Qed.

Lemma content_described_exactly_witness :
  exists files, unpackDeterministicTarZst run_archive = Ok files /\
    opt_prop run_content "sha256" = VStr (sha256 run_archive).
Proof.
  destruct (content_described_exactly run_archive run_content run_descriptor run_content_validates)
    as (files & es & Hu & Hs & _).
  exists files. split; assumption.
Defined.

Lemma packaged_output_validates_witness :
  validateEntryMetadata (map entry_value run_entries) = Ok run_entries.
Proof.
  apply (packaged_output_validates run_files run_entries run_archive (proj1 run_files_clean)
    (proj2 run_files_clean) run_outputs run_packages).
Defined.
