(* ===== verification/Effects.v ===== *)
(** * Asynchronous code over an outside world

    The worker's [async] functions await calls into services it does not
    implement (storage, the control plane, the sandbox, [fetch]).  A computation
    is a function of the state of that outside world, which it passes on; a
    rejected promise is a [Throw].  What the services do is left to the classes
    of the files that call them: the world type is a parameter everywhere. *)

From S2P Require Import Prelude.

Definition eff (W A : Type) : Type := W -> res A * W.

#[global] Instance eff_ret {W} : MRet (eff W) := fun A a w => (Ok a, w).
#[global] Instance eff_bind {W} : MBind (eff W) := fun A B k m w =>
  match m w with
  | (Ok a, w') => k a w'
  | (Throw e, w') => (Throw e, w')
  end.

(** A synchronous call. *)
Definition lift {W A} (r : res A) : eff W A := fun w => (r, w).

Definition throw {W A} (e : exn) : eff W A := lift (Throw e).

(** [try { m } catch (error) { h(error) }] *)
Definition try_catch {W A} (m : eff W A) (h : exn -> eff W A) : eff W A := fun w =>
  match m w with
  | (Ok a, w') => (Ok a, w')
  | (Throw e, w') => h e w'
  end.

(** [for (const x of l) s = await f(s, x)] *)
Fixpoint foldM_eff {W A S} (f : S -> A -> eff W S) (s : S) (l : list A) : eff W S :=
  match l with
  | [] => mret s
  | x :: t => s' ← f s x; foldM_eff f s' t
  end.

(** ** Reasoning about one run *)
Section laws.
Context {W : Type}.
Implicit Types w : W.

Lemma eff_bind_ok {A B} (m : eff W A) (f : A -> eff W B) w b w' :
  (m ≫= f) w = (Ok b, w') <-> exists a w1, m w = (Ok a, w1) /\ f a w1 = (Ok b, w').
Proof.
  unfold mbind, eff_bind. destruct (m w) as [[a|e] w1]; [naive_solver|].
  split; [done|]. by intros (? & ? & ? & ?).
Qed.

Lemma lift_ok {A} (r : res A) w a w' : lift r w = (Ok a, w') <-> r = Ok a /\ w' = w.
Proof. unfold lift. naive_solver. Qed.

Lemma mret_ok {A} (a : A) w b w' : (mret a : eff W A) w = (Ok b, w') <-> b = a /\ w' = w.
Proof. unfold mret, eff_ret. naive_solver. Qed.

(** The exceptions a computation may throw, whatever the world. *)
Definition eff_throws {A} (P : exn -> Prop) (m : eff W A) : Prop :=
  forall w, only_throws P (m w).1.

Lemma eff_throws_bind {A B} P (m : eff W A) (f : A -> eff W B) :
  eff_throws P m -> (forall a, eff_throws P (f a)) -> eff_throws P (m ≫= f).
Proof.
  intros Hm Hf w. specialize (Hm w). unfold mbind, eff_bind.
  destruct (m w) as [[a|e] w']; [apply Hf|done].
Qed.

Lemma eff_throws_lift {A} P (r : res A) : only_throws P r -> eff_throws P (lift r).
Proof. intros Hr w. exact Hr. Qed.

Lemma eff_throws_lift_bind {A B} P (r : res A) (f : A -> eff W B) :
  only_throws P r -> (forall a, r = Ok a -> eff_throws P (f a)) -> eff_throws P (lift r ≫= f).
Proof. intros Hr Hf w. unfold mbind, eff_bind, lift. destruct r as [a|e]; [by apply Hf|done]. Qed.

Lemma eff_throws_ret {A} P (a : A) : eff_throws P (mret a).
Proof. intros w. exact I. Qed.

Lemma eff_throws_try {A} P (m : eff W A) h :
  (forall e, eff_throws P (h e)) -> eff_throws P (try_catch m h).
Proof. intros Hh w. unfold try_catch. destruct (m w) as [[a|e] w']; [done|apply Hh]. Qed.

Lemma eff_throws_foldM {A S} P (f : S -> A -> eff W S) l : forall s,
  (forall s x, eff_throws P (f s x)) -> eff_throws P (foldM_eff f s l).
Proof.
  induction l as [|x l IH]; intros s Hf; cbn [foldM_eff]; [apply eff_throws_ret|].
  apply eff_throws_bind; [done|]. auto.
Qed.

(** An invariant of the accumulator of a loop. *)
Lemma foldM_eff_ind {A S} (f : S -> A -> eff W S) (Q : S -> Prop) l : forall s w s' w',
  Q s -> (forall x s w s' w', x ∈ l -> Q s -> f s x w = (Ok s', w') -> Q s') ->
  foldM_eff f s l w = (Ok s', w') -> Q s'.
Proof.
  induction l as [|x l IH]; intros s w s' w' Hs Hf; cbn [foldM_eff].
  { intros [-> _]%mret_ok. done. }
  intros (s1 & w1 & H1 & H2)%eff_bind_ok. eapply IH; [|intros; eapply Hf; [|done..]; by right|done].
  eapply Hf; [left|done|done].
Qed.
End laws.

(** ** Invariants of the outside world

    [preserves I m]: whatever [m] returns or throws, it keeps [I]. *)
Section preserves.
Context {S : Type} (I : S -> Prop).

Definition preserves {A} (m : eff S A) : Prop := forall s, I s -> I (m s).2.

Lemma preserves_lift {A} (r : res A) : preserves (lift r).
Proof. by intros s Hs. Qed.

Lemma preserves_ret {A} (a : A) : preserves (mret a).
Proof. by intros s Hs. Qed.

Lemma preserves_bind {A B} (m : eff S A) (f : A -> eff S B) :
  preserves m -> (forall a, preserves (f a)) -> preserves (m ≫= f).
Proof.
  intros Hm Hf s Hs. specialize (Hm s Hs). unfold mbind, eff_bind.
  destruct (m s) as [[a|e] s1]; [by apply Hf|done].
Qed.

Lemma preserves_lift_bind {A B} (r : res A) (f : A -> eff S B) :
  (forall a, r = Ok a -> preserves (f a)) -> preserves (lift r ≫= f).
Proof. intros Hf s Hs. unfold mbind, eff_bind, lift. destruct r as [a|e]; [by apply Hf|done]. Qed.

Lemma preserves_try {A} (m : eff S A) h :
  preserves m -> (forall e, preserves (h e)) -> preserves (try_catch m h).
Proof.
  intros Hm Hh s Hs. specialize (Hm s Hs). unfold try_catch.
  destruct (m s) as [[a|e] s1]; [done|by apply Hh].
Qed.
End preserves.

Create HintDb preserves.
#[export] Hint Resolve preserves_lift preserves_ret : preserves.

(** Follow the control flow of a computation that keeps an invariant. *)
Ltac preserves :=
  repeat first
    [ solve [eauto with preserves]
    | apply preserves_bind; [|intros ?]
    | apply preserves_try; [|intros ?]
    | match goal with
      | |- preserves _ (match ?x with _ => _ end) => destruct x eqn:?
      | |- preserves _ (if ?x then _ else _) => destruct x eqn:?
      end ].

(** ** A log of calls *)

(** Call [m], noting it in the log whatever it answers. *)
Definition logged {W E A} (e : E) (m : eff W A) : eff (W * list E) A := fun s =>
  let '(r, w) := m s.1 in (r, (w, s.2 ++ [e])).

(** ** Which calls a computation makes *)
Section calls.
Context {W E : Type}.
Abbreviation M := (eff (W * list E)).

(** From any log, [m] appends only events of [ok]. *)
Definition only_calls {A} (ok : E -> Prop) (m : M A) : Prop :=
  forall s, exists l, (m s).2.2 = s.2 ++ l /\ Forall ok l.

Lemma only_calls_lift {A} ok (r : res A) : only_calls ok (lift r).
Proof. intros s. exists []. by rewrite app_nil_r. Qed.

Lemma only_calls_ret {A} ok (a : A) : only_calls ok (mret a).
Proof. apply only_calls_lift. Qed.

Lemma only_calls_bind {A B} ok (m : M A) (f : A -> M B) :
  only_calls ok m -> (forall a, only_calls ok (f a)) -> only_calls ok (m ≫= f).
Proof.
  intros Hm Hf s. destruct (Hm s) as (l & Hl & Hok). unfold mbind, eff_bind.
  destruct (m s) as [[a|e] s1]; cbn [snd] in *; [|by exists l].
  destruct (Hf a s1) as (l' & Hl' & Hok'). exists (l ++ l').
  split; [by rewrite Hl', Hl, app_assoc|]. by apply Forall_app.
Qed.

Lemma only_calls_try {A} ok (m : M A) h :
  only_calls ok m -> (forall e, only_calls ok (h e)) -> only_calls ok (try_catch m h).
Proof.
  intros Hm Hh s. destruct (Hm s) as (l & Hl & Hok). unfold try_catch.
  destruct (m s) as [[a|e] s1]; cbn [snd] in *; [by exists l|].
  destruct (Hh e s1) as (l' & Hl' & Hok'). exists (l ++ l').
  split; [by rewrite Hl', Hl, app_assoc|]. by apply Forall_app.
Qed.

Lemma only_calls_logged {A} (ok : E -> Prop) e (m : eff W A) : ok e -> only_calls ok (logged e m).
Proof.
  intros He s. exists [e]. unfold logged. destruct (m s.1) as [r w]. split; [done|]. by constructor.
Qed.

Lemma logged_log {A} (e : E) (m : eff W A) s : (logged e m s).2.2 = s.2 ++ [e].
Proof. unfold logged. by destruct (m s.1). Qed.

Lemma logged_ok {A} (e : E) (m : eff W A) s a s' :
  logged e m s = (Ok a, s') -> exists w w', m w = (Ok a, w').
Proof. unfold logged. destruct (m s.1) as [r w'] eqn:Em. intros [= -> _]. eauto. Qed.

Lemma only_calls_impl {A} (ok ok' : E -> Prop) (m : M A) :
  (forall e, ok e -> ok' e) -> only_calls ok m -> only_calls ok' m.
Proof. intros Hi Hm s. destruct (Hm s) as (l & Hl & Hok). exists l. eauto using Forall_impl. Qed.

(** A loop whose turns append only allowed calls. *)
Lemma only_calls_foldM {A S} ok (f : S -> A -> M S) l :
  (forall s x, x ∈ l -> only_calls ok (f s x)) -> forall s, only_calls ok (foldM_eff f s l).
Proof.
  induction l as [|x l IH]; intros Hf s; cbn [foldM_eff]; [apply only_calls_ret|].
  apply only_calls_bind; [apply Hf; left|]. intros s'. apply IH. intros. apply Hf. by right.
Qed.
End calls.

Create HintDb calls.
#[export] Hint Resolve only_calls_lift only_calls_ret : calls.

Ltac calls :=
  repeat first
    [ solve [eauto with calls]
    | apply only_calls_bind; [|intros ?]
    | apply only_calls_try; [|intros ?]
    | match goal with
      | |- only_calls _ (match ?x with _ => _ end) => destruct x eqn:?
      | |- only_calls _ (if ?x then _ else _) => destruct x eqn:?
      end ];
  eauto with calls.

(** Invert the binds of a successful run. *)
Ltac eff_inv :=
  repeat match goal with
  | H : (_ ≫= _) _ = (Ok _, _) |- _ => apply eff_bind_ok in H; destruct H as (? & ? & ? & ?)
  | H : lift _ _ = (Ok _, _) |- _ => apply lift_ok in H; destruct H as [? ?]; subst
  | H : (mret _ : eff _ _) _ = (Ok _, _) |- _ => apply mret_ok in H; destruct H as [? ?]; subst
  | H : (Throw _, _) = (Ok _, _) |- _ => discriminate H
  end.

(** The guard at the head of a successful run was not taken. *)
Tactic Notation "guard" hyp(H) "as" ident(E) :=
  match type of H with
  | (if ?b then _ else _) = _ => destruct b eqn:E; [discriminate H|]
  | (if ?b then _ else _) _ = _ => destruct b eqn:E; [discriminate H|]
  end;
  rewrite ?orb_false_iff, ?negb_false_iff in E.

(** Follow the control flow down to the exceptions, as [throws] does for [res]. *)
Ltac effthrows :=
  repeat first
    [ assumption
    | apply eff_throws_bind; [|intros ?]
    | apply eff_throws_ret
    | apply eff_throws_lift; throws
    | apply eff_throws_try; intros ?
    | match goal with
      | |- eff_throws _ (match ?x with _ => _ end) => destruct x eqn:?
      | |- eff_throws _ (if ?x then _ else _) => destruct x eqn:?
      end ];
  eauto with throws.
