(* ===== verification/Catalog.v ===== *)
(** * The reviewed toolchain catalog ([reviewed-builder.mjs], [toolchain-catalog.mjs])

    [ReviewedToolchainCatalog]: parsing of the catalog document, resolution of a
    compatibility tuple to one toolchain, and the assembly plan derived from it.
    The theorems show that a parsed catalog holds only artifacts with a hash and
    a size on an approved HTTPS host, that a request resolves to the one
    toolchain with exactly the requested tuple, and that the plan names exactly
    the toolchain's artifacts. *)

From S2P Require Import Prelude JsText JsNum JsValue Regex Validators Limits Node Bundle TarZst Content.
From Stdlib Require Import Ascii.

Record jre := mkJre {
  j_id : jsstr; j_sha256 : jsstr; j_component : jsstr; j_major : Z; j_runtimeCatalogRevision : jsstr }.

Record artifact := mkArtifact {
  a_role : jsstr; a_coordinate : jsstr; a_url : jsstr; a_sha256 : jsstr; a_sizeBytes : Z }.

Record toolchain := mkToolchain {
  t_minecraftVersion : jsstr;
  t_kind : jsstr;
  t_version : jsstr;
  t_component : jsstr;
  t_major : Z;
  t_jre : jre;
  t_artifacts : list artifact;
  t_launchTemplate : jsstr;
}.

Record catalog := mkCatalog {
  c_catalogVersion : jsstr;
  c_catalogRevision : option jsstr;
  c_runtimeCatalogRevision : jsstr;
  c_approvedArtifactHosts : list jsstr;
  c_toolchains : list toolchain;
}.

Definition invalid_reviewed_catalog : exn := failure "invalid_reviewed_catalog".

(** [loaderTemplates[kind]] *)
Definition template_of (kind : jsval) : jsval :=
  match map_get (to_string kind) loaderTemplates with Some t => VStr t | None => VUndef end.

Definition expectedPrimaryCoordinate (minecraftVersion : jsstr) (loader : jsval) : res jsstr :=
  let kind := opt_prop loader "kind" in
  let version := get_str (opt_prop loader "version") in
  if strict_eq kind (VText "forge")
  then Ok (js "net.minecraftforge:forge:" ++ minecraftVersion ++ js "-" ++ version ++ js ":installer")
  else if strict_eq kind (VText "fabric") then Ok (js "net.fabricmc:fabric-loader:" ++ version)
  else if strict_eq kind (VText "neoforge")
  then Ok (js "net.neoforged:neoforge:" ++ version ++ js ":installer")
  else if strict_eq kind (VText "quilt") then Ok (js "org.quiltmc:quilt-loader:" ++ version)
  else Throw invalid_reviewed_catalog.

(** ** [canonicalize(value)] and the revision of a document *)
Definition key_le {V} (a b : jsstr * V) : Prop := str_le a.1 b.1.
#[export] Instance key_le_dec {V} : RelDecision (@key_le V).
Proof. intros a b. unfold key_le. apply _. Defined.

Definition catalog_malformed : exn := ToolchainCatalogFailure "catalog_malformed".

Fixpoint canonicalize (v : jsval) : res jsval :=
  match v with
  | VNull | VStr _ | VBool _ => Ok v
  | VNum NNaN => Throw catalog_malformed
  | VNum (NReal t) =>
      if streq t (js "Infinity") || streq t (js "-Infinity") then Throw catalog_malformed else Ok v
  | VNum (NInt _) => Ok v
  | VArr l =>
      l' ← (fix go l := match l with
            | [] => Ok []
            | x :: t => y ← canonicalize x; ys ← go t; Ok (y :: ys)
            end) l;
      Ok (VArr l')
  | VObj fields =>
      fields' ← (fix go l := match l with
                 | [] => Ok []
                 | (k, x) :: t => y ← canonicalize x; ys ← go t; Ok ((k, y) :: ys)
                 end) fields;
      Ok (VObj (merge_sort key_le fields'))
  | VUndef | VBytes _ => Throw catalog_malformed
  end.

Definition ZERO_SHA256 : jsstr := replicate 64 48.

Section catalog.
Context `{Unicode} `{Sha256} `{JsonStringify} `{UrlParser}.

(** [canonicalJsonBytes(value)] *)
Definition canonicalJsonBytes (value : jsval) : res bytes :=
  v ← canonicalize value; Ok (utf8_encode (json_stringify v)).

Definition catalogRevisionFor (document : jsval) : res jsstr :=
  match document with
  | VObj fields =>
      b ← canonicalJsonBytes (VObj (map_set (js "catalogRevision") (VStr ZERO_SHA256) fields));
      Ok (sha256 b)
  | _ => Throw catalog_malformed
  end.

(** ** Parsing *)
Definition parseJre (value java : jsval) (revision : jsval) : res jre :=
  if negb (sameKeys value ["id"; "sha256"; "component"; "major"; "runtimeCatalogRevision"]%string) ||
     negb (vstr validIdentifier (opt_prop value "id")) || negb (vstr validSha256 (opt_prop value "sha256")) ||
     negb (strict_eq (opt_prop value "component") (opt_prop java "component")) ||
     negb (strict_eq (opt_prop value "major") (opt_prop java "major")) ||
     negb (strict_eq (opt_prop value "runtimeCatalogRevision") revision)
  then Throw invalid_reviewed_catalog
  else Ok (mkJre (get_str (opt_prop value "id")) (toLowerCase (get_str (opt_prop value "sha256")))
             (get_str (opt_prop value "component")) (get_int (opt_prop value "major"))
             (toLowerCase (get_str (opt_prop value "runtimeCatalogRevision")))).

(** The host check of [parseArtifact]. *)
Definition approved_url (u : url) (approvedHosts : list jsstr) : bool :=
  streq (u_protocol u) (js "https:") && streq (u_username u) [] && streq (u_password u) [] &&
  streq (u_hash u) [] && streq (u_port u) [] && str_in (toLowerCase (u_hostname u)) approvedHosts.

Definition parseArtifact (approvedHosts : list jsstr) (value : jsval) : res artifact :=
  if negb (plainObject value) ||
     negb (sameKeys value ["role"; "coordinate"; "url"; "sha256"; "sizeBytes"]%string) ||
     negb (val_in (opt_prop value "role") ["primary"; "dependency"]%string) ||
     negb (vstr validCoordinate (opt_prop value "coordinate")) || negb (is_string (opt_prop value "url")) ||
     negb (vstr validSha256 (opt_prop value "sha256")) ||
     negb (vint (fun z => (1 <=? z) && (z <=? MAX_ARTIFACT_BYTES)) (opt_prop value "sizeBytes"))
  then Throw invalid_reviewed_catalog
  else
    match parse_url (get_str (opt_prop value "url")) with
    | None => Throw invalid_reviewed_catalog
    | Some u =>
        if negb (approved_url u approvedHosts) then Throw invalid_reviewed_catalog
        else Ok (mkArtifact (get_str (opt_prop value "role")) (get_str (opt_prop value "coordinate"))
               (get_str (opt_prop value "url")) (toLowerCase (get_str (opt_prop value "sha256")))
               (get_int (opt_prop value "sizeBytes")))
    end.

Definition is_primary (a : artifact) : bool := streq (a_role a) (js "primary").

Definition parseToolchain (revision : jsval) (approvedHosts : list jsstr) (value : jsval) : res toolchain :=
  let loader := opt_prop value "loader" in
  let java := opt_prop value "java" in
  let artifacts := get_list (opt_prop value "artifacts") in
  if negb (plainObject value) ||
     negb (sameKeys value ["minecraftVersion"; "loader"; "java"; "jre"; "artifacts"; "launchTemplate"]%string) ||
     negb (vstr validMinecraftVersion (opt_prop value "minecraftVersion")) || negb (validLoader loader) ||
     negb (validJava java) || negb (plainObject (opt_prop value "jre")) ||
     negb (is_array (opt_prop value "artifacts")) || (zlen artifacts <? 1) || (256 <? zlen artifacts) ||
     negb (strict_eq (opt_prop value "launchTemplate") (template_of (opt_prop loader "kind")))
  then Throw invalid_reviewed_catalog
  else
    j ← parseJre (opt_prop value "jre") java revision;
    parsed ← mapM_res (parseArtifact approvedHosts) artifacts;
    let minecraftVersion := get_str (opt_prop value "minecraftVersion") in
    match List.filter is_primary parsed with
    | [p] =>
        expected ← expectedPrimaryCoordinate minecraftVersion loader;
        if negb (streq (a_coordinate p) expected) then Throw invalid_reviewed_catalog
        else if negb (bool_decide (NoDup (map a_coordinate parsed))) then Throw invalid_reviewed_catalog
        else Ok (mkToolchain minecraftVersion (get_str (opt_prop loader "kind"))
               (get_str (opt_prop loader "version")) (get_str (opt_prop java "component"))
               (get_int (opt_prop java "major")) j parsed (get_str (opt_prop value "launchTemplate")))
    | _ => Throw invalid_reviewed_catalog
    end.

(** [/^[a-z0-9](?:[a-z0-9.-]*[a-z0-9])?$/] *)
Definition host_char : Z -> bool := rng "a" "z" ∪c rng "0" "9".
Definition valid_host (h : jsstr) : bool :=
  streq h (toLowerCase h) &&
  matches (Seq (Cls host_char)
    (opt (Seq (Star (Cls (host_char ∪c chr1 "." ∪c chr1 "-"))) (Cls host_char)))) h.

Definition NUL : jsstr := [0].

Definition toolchain_key (t : toolchain) : jsstr :=
  t_minecraftVersion t ++ NUL ++ t_kind t ++ NUL ++ t_version t ++ NUL ++ t_component t ++ NUL ++
  to_radix 10 (t_major t).

(** The inner loop over the artifacts of a toolchain. *)
Fixpoint add_coordinates (key : jsstr) (coordinates : list jsstr) (artifacts : list artifact) :
    res (list jsstr) :=
  match artifacts with
  | [] => Ok coordinates
  | a :: rest =>
      let coordinateKey := key ++ NUL ++ a_coordinate a in
      if str_in coordinateKey coordinates then Throw invalid_reviewed_catalog
      else add_coordinates key (coordinateKey :: coordinates) rest
  end.

(** [value.toolchains.map(...)] with the two sets it updates. *)
Fixpoint parse_toolchains (revision : jsval) (hosts : list jsstr) (keys coordinates : list jsstr)
    (values : list jsval) : res (list toolchain) :=
  match values with
  | [] => Ok []
  | v :: rest =>
      parsed ← parseToolchain revision hosts v;
      let key := toolchain_key parsed in
      if str_in key keys then Throw invalid_reviewed_catalog
      else
        coordinates' ← add_coordinates key coordinates (t_artifacts parsed);
        ts ← parse_toolchains revision hosts (key :: keys) coordinates' rest;
        Ok (parsed :: ts)
  end.

Definition parseCatalog (value : jsval) : res catalog :=
  let legacy := plainObject value && sameKeys value ["schemaVersion"; "catalogVersion";
    "runtimeCatalogRevision"; "approvedArtifactHosts"; "toolchains"]%string in
  let generated := plainObject value && sameKeys value ["schemaVersion"; "catalogRevision";
    "runtimeCatalogRevision"; "approvedArtifactHosts"; "toolchains"]%string in
  let revision := opt_prop value "catalogRevision" in
  let hosts := get_list (opt_prop value "approvedArtifactHosts") in
  let values := get_list (opt_prop value "toolchains") in
  if negb (plainObject value) || (negb legacy && negb generated) ||
     negb (strict_eq (opt_prop value "schemaVersion") (VInt 1)) ||
     (legacy && negb (vstr validIdentifier (opt_prop value "catalogVersion"))) ||
     (generated && negb (vstr validSha256 revision))
  then Throw invalid_reviewed_catalog
  else
    expected ← (if generated then catalogRevisionFor value else Ok []);
    if (generated && negb (streq expected (toLowerCase (get_str revision)))) ||
       negb (vstr validSha256 (opt_prop value "runtimeCatalogRevision")) ||
       negb (is_array (opt_prop value "approvedArtifactHosts")) || (zlen hosts <? 1) ||
       negb (is_array (opt_prop value "toolchains")) || (zlen values <? 1) || (256 <? zlen values)
    then Throw invalid_reviewed_catalog
    else
      approvedArtifactHosts ← mapM_res (fun host =>
        if vstr valid_host host then Ok (get_str host) else Throw invalid_reviewed_catalog) hosts;
      if negb (bool_decide (NoDup approvedArtifactHosts)) then Throw invalid_reviewed_catalog
      else
        ts ← parse_toolchains (opt_prop value "runtimeCatalogRevision") approvedArtifactHosts [] [] values;
        Ok (mkCatalog (if legacy then get_str (opt_prop value "catalogVersion") else toLowerCase (get_str revision))
              (if generated then Some (toLowerCase (get_str revision)) else None)
              (toLowerCase (get_str (opt_prop value "runtimeCatalogRevision")))
              approvedArtifactHosts ts).

(** [new ReviewedToolchainCatalog(document, { supportedFamilies })] *)
Definition ReviewedToolchainCatalog (document : jsval) (supportedFamilies : option (list jsstr)) :
    res catalog :=
  c ← parseCatalog document;
  match supportedFamilies with
  | None => if zlen (c_toolchains c) <? 1 then Throw invalid_reviewed_catalog else Ok c
  | Some families =>
      if (zlen families <? 1) || negb (bool_decide (NoDup families)) ||
         negb (forallb (fun f => has_template (VStr f)) families)
      then Throw invalid_reviewed_catalog
      else
        let ts := List.filter (fun t => str_in (t_kind t) families) (c_toolchains c) in
        if zlen ts <? 1 then Throw invalid_reviewed_catalog
        else Ok (mkCatalog (c_catalogVersion c) (c_catalogRevision c) (c_runtimeCatalogRevision c)
                   (c_approvedArtifactHosts c) ts)
  end.
End catalog.

(** ** Resolution and the plan *)
Definition unsupported_compatibility : exn := failure "unsupported_compatibility".

(** The compatibility tuple of a bundle manifest. *)
Definition selects (m : manifest) (t : toolchain) : bool :=
  streq (t_minecraftVersion t) (m_minecraftVersion m) && streq (t_kind t) (m_loader_kind m) &&
  streq (t_version t) (m_loader_version m) && streq (t_component t) (m_java_component m) &&
  (t_major t =? m_java_major m).

(** [catalog.resolve({ runtimeCatalogRevision, minecraftVersion, loader, java })] on
    the fields of a parsed manifest, whose [loader] and [javaRequirement] are
    objects. *)
Definition resolve_toolchain (c : catalog) (m : manifest) : res toolchain :=
  if negb (streq (m_runtimeCatalog_sha256 m) (c_runtimeCatalogRevision c)) ||
     negb (validMinecraftVersion (m_minecraftVersion m))
  then Throw unsupported_compatibility
  else
    match List.find (selects m) (c_toolchains c) with
    | Some t => Ok t
    | None => Throw unsupported_compatibility
    end.

Record plan := mkPlan {
  p_family : jsstr;
  p_minecraftVersion : jsstr;
  p_version : jsstr;
  p_component : jsstr;
  p_major : Z;
  p_jre : jre;
  p_artifacts : list (jsstr * jsstr * Z);
  p_template : jsstr;
  p_arguments : list jsstr;
}.

Definition createAssemblyPlan (t : toolchain) : res plan :=
  match map_get (t_kind t) loaderTemplates with
  | None => Throw unsupported_compatibility
  | Some template =>
      Ok (mkPlan (t_kind t) (t_minecraftVersion t) (t_version t) (t_component t) (t_major t) (t_jre t)
            (map (fun a => (a_coordinate a, a_sha256 a, a_sizeBytes a)) (t_artifacts t)) template
            (launchArguments (VStr (t_kind t)) (t_minecraftVersion t) (t_version t)))
  end.

(** ** What a parsed catalog holds *)
Section catalog_proofs.
Context `{Unicode} `{Sha256} `{JsonStringify} `{UrlParser}.

Definition artifact_ok (hosts : list jsstr) (a : artifact) : Prop :=
  validCoordinate (a_coordinate a) = true /\ 1 <= a_sizeBytes a <= MAX_ARTIFACT_BYTES /\
  (exists h, validSha256 h = true /\ a_sha256 a = toLowerCase h) /\
  exists u, parse_url (a_url a) = Some u /\ approved_url u hosts = true.

Definition loader_object (kind version : jsstr) : jsval :=
  obj [("kind", VStr kind); ("version", VStr version)]%string.

Definition toolchain_ok (hosts : list jsstr) (revision : jsstr) (t : toolchain) : Prop :=
  (validMinecraftVersion (t_minecraftVersion t) = true /\ validLoaderVersion (t_version t) = true) /\
  map_get (t_kind t) loaderTemplates = Some (t_launchTemplate t) /\
  (validIdentifier (t_component t) = true /\ 1 <= t_major t <= 255) /\
  (j_component (t_jre t) = t_component t /\ j_major (t_jre t) = t_major t /\
   validIdentifier (j_id (t_jre t)) = true /\ j_runtimeCatalogRevision (t_jre t) = revision /\
   lowerSha256 (j_sha256 (t_jre t)) = true) /\
  Forall (artifact_ok hosts) (t_artifacts t) /\ NoDup (map a_coordinate (t_artifacts t)) /\
  (exists p, List.filter is_primary (t_artifacts t) = [p] /\
     expectedPrimaryCoordinate (t_minecraftVersion t) (loader_object (t_kind t) (t_version t)) =
       Ok (a_coordinate p)).

Lemma sha256_lowered h : validSha256 h = true -> lowerSha256 (toLowerCase h) = true.
Proof.
  unfold validSha256, lowerSha256. rewrite !matches_rep_cls. intros [Hh Hl].
  assert (forall c, hex_any c = true -> 48 <= c <= 57 \/ 65 <= c <= 70 \/ 97 <= c <= 102) as Hr.
  { intros c Hc. cbv -[Z.leb orb andb] in Hc. rewrite !orb_true_iff, !andb_true_iff, !Z.leb_le in Hc. lia. }
  rewrite toLowerCase_ascii.
  - unfold ascii_lower. rewrite length_map. split; [|done]. apply Forall_map.
    eapply Forall_impl; [exact Hh|]. intros c Hc. specialize (Hr c Hc).
    assert (48 <= ascii_lower_unit c <= 57 \/ 97 <= ascii_lower_unit c <= 102) as Hl'.
    { unfold ascii_lower_unit. destruct (Z.leb_spec 65 c), (Z.leb_spec c 90); cbn [andb]; lia. }
    revert Hl'. generalize (ascii_lower_unit c). intros d Hd. unfold hex_lower, por, rng, ch.
    cbv -[Z.leb orb andb]. rewrite !orb_true_iff, !andb_true_iff, !Z.leb_le. lia.
  - unfold is_ascii. apply forallb_forall. intros c Hc%list_elem_of_In. rewrite Forall_forall in Hh.
    specialize (Hr c (Hh c Hc)). rewrite andb_true_iff, Z.leb_le, Z.ltb_lt. lia.
Qed.

(** A lower-case digest is its own lower case. *)
Lemma lowerSha256_fixed h : lowerSha256 h = true -> toLowerCase h = h.
Proof.
  unfold lowerSha256. rewrite matches_rep_cls. intros [Hh _]. rewrite Forall_forall in Hh.
  assert (forall c, c ∈ h -> 48 <= c <= 57 \/ 97 <= c <= 102) as Hr.
  { intros c Hc%Hh. cbv -[Z.leb orb andb] in Hc. rewrite !orb_true_iff, !andb_true_iff, !Z.leb_le in Hc. lia. }
  rewrite toLowerCase_ascii.
  - clear Hh. unfold ascii_lower. induction h as [|c h IH]; [done|]. cbn. f_equal.
    + specialize (Hr c). unfold ascii_lower_unit. destruct (Z.leb_spec 65 c), (Z.leb_spec c 90); cbn [andb]; try lia.
      destruct Hr; [left|lia..].
    + apply IH. intros d Hd. apply Hr. by right.
  - unfold is_ascii. apply forallb_forall. intros c Hc%list_elem_of_In%Hr.
    rewrite andb_true_iff, Z.leb_le, Z.ltb_lt. lia.
Qed.

Lemma parseArtifact_ok hosts v a : parseArtifact hosts v = Ok a -> artifact_ok hosts a.
Proof.
  unfold parseArtifact. destruct (_ || _) eqn:Eg; [done|].
  destruct (parse_url _) as [u|] eqn:Eu; [|done]. destruct (approved_url u hosts) eqn:Ea; [|done].
  intros [= <-]. rewrite !orb_false_iff, !negb_false_iff in Eg.
  destruct Eg as [[[[_ (co & Hc & Hco)%vstr_true] (s & Hs)%is_string_spec] (h & Hh & Hhv)%vstr_true]
    (z & Hz & _ & Hzr)%vint_true].
  rewrite andb_true_iff, !Z.leb_le in Hzr. unfold artifact_ok.
  rewrite Hc, Hs, Hh, Hz in *. cbn in *. split_and!; [done|lia|lia|eauto|eauto].
Qed.

Lemma expectedPrimary_string mc loader co :
  expectedPrimaryCoordinate mc loader = Ok co ->
  exists k, opt_prop loader "kind" = VStr k /\
    expectedPrimaryCoordinate mc (loader_object k (get_str (opt_prop loader "version"))) = Ok co.
Proof.
  unfold expectedPrimaryCoordinate. cbn [loader_object]. intros Hc.
  assert (exists k, opt_prop loader "kind" = VStr k) as [k Hk].
  { repeat match type of Hc with
    | (if ?b then _ else _) = _ => let E := fresh in destruct b eqn:E; [apply strict_eq_str in E; eauto|] end.
    discriminate Hc. }
  exists k. split; [done|]. by rewrite Hk in Hc.
Qed.

Lemma parseJre_ok v java revision j c n :
  parseJre v java revision = Ok j -> opt_prop java "component" = VStr c -> opt_prop java "major" = VInt n ->
  j_component j = c /\ j_major j = n /\ validIdentifier (j_id j) = true /\
  (is_string revision = true -> j_runtimeCatalogRevision j = toLowerCase (get_str revision)) /\
  lowerSha256 (j_sha256 j) = true.
Proof.
  unfold parseJre. destruct (_ || _) eqn:Eg; [done|]. intros [= <-] Hc Hn.
  rewrite !orb_false_iff, !negb_false_iff, Hc, Hn in Eg.
  destruct Eg as [[[[[_ (i & Hi & Hiv)%vstr_true] (h & Hh & Hhv)%vstr_true] Hec%strict_eq_str] Hen%strict_eq_int] Her].
  rewrite Hi, Hh, Hec, Hen. cbn. split_and!; try done; [|by apply sha256_lowered].
  intros (r & ->)%is_string_spec. by apply strict_eq_str in Her as ->.
Qed.

Lemma validJava_ok v : validJava v = true ->
  exists c n, opt_prop v "component" = VStr c /\ opt_prop v "major" = VInt n /\
    validIdentifier c = true /\ 1 <= n <= 255.
Proof.
  unfold validJava. rewrite !andb_true_iff.
  intros [[_ (c & Hc & Hcv)%vstr_true] (n & Hn & _ & Hnr)%vint_true].
  rewrite andb_true_iff, !Z.leb_le in Hnr. eauto 10.
Qed.

Lemma validLoader_ok v k : validLoader v = true -> opt_prop v "kind" = VStr k ->
  exists version t, opt_prop v "version" = VStr version /\ validLoaderVersion version = true /\
    map_get k loaderTemplates = Some t /\ template_of (VStr k) = VStr t.
Proof.
  unfold validLoader. rewrite !andb_true_iff. intros [[_ Ht] (version & Hv & Hvv)%vstr_true] Hk.
  rewrite Hk in Ht. unfold has_template, map_has in Ht. apply bool_decide_eq_true in Ht as [t Ht].
  cbn [to_string] in Ht. exists version, t. split_and!; try done. unfold template_of. cbn [to_string]. by rewrite Ht.
Qed.

Lemma parseToolchain_ok revision hosts v t :
  is_string revision = true -> parseToolchain revision hosts v = Ok t ->
  toolchain_ok hosts (toLowerCase (get_str revision)) t.
Proof.
  intros Hrev. unfold parseToolchain. cbv zeta. destruct (_ || _) eqn:Eg; [done|].
  intros (j & Hj & (parsed & Ha & Hr)%bind_ok)%bind_ok.
  destruct (List.filter is_primary parsed) as [|p [|]] eqn:Ep; [done| |done].
  apply bind_ok in Hr as (co & Hco & Hr). destruct (streq _ co) eqn:Eco; cbn [negb] in Hr; [|done].
  destruct (bool_decide _) eqn:End; cbn [negb] in Hr; [|done]. injection Hr as <-.
  apply streq_true in Eco as <-. apply bool_decide_eq_true in End.
  apply expectedPrimary_string in Hco as (k & Hk & Hco).
  rewrite !orb_false_iff, !negb_false_iff in Eg.
  destruct Eg as [[[[[[[[_ (mc & Hmc & Hmcv)%vstr_true] Hl] Hja] _] _] _] _] Htp].
  destruct (validLoader_ok _ _ Hl Hk) as (version & tpl & Hv & Hvv & Htpl & Hto).
  rewrite Hk, Hto in Htp. apply strict_eq_str in Htp.
  destruct (validJava_ok _ Hja) as (c & n & Hc & Hn & Hcv & Hnr).
  destruct (parseJre_ok _ _ _ _ _ _ Hj Hc Hn) as (Hjc & Hjn & Hji & Hjr & Hjs).
  unfold toolchain_ok. rewrite Hmc, Hk, Hv, Hc, Hn, Htp in *. cbn in *.
  split_and!; auto; try lia; [|eauto].
  apply mapM_res_ok in Ha. clear -Ha. induction Ha; constructor; eauto using parseArtifact_ok.
Qed.

Lemma parse_toolchains_ok revision hosts values : forall keys coordinates ts,
  is_string revision = true -> parse_toolchains revision hosts keys coordinates values = Ok ts ->
  Forall (toolchain_ok hosts (toLowerCase (get_str revision))) ts /\
  NoDup (map toolchain_key ts) /\ Forall (fun t => toolchain_key t ∉ keys) ts.
Proof.
  induction values as [|v values IH]; intros keys coordinates ts Hrev; cbn [parse_toolchains].
  { intros [= <-]. split_and!; constructor. }
  intros (t & Ht & Hr)%bind_ok. destruct (str_in _ keys) eqn:Ek; [done|].
  apply bind_ok in Hr as (cs & _ & (ts' & Hts & [= <-])%bind_ok).
  destruct (IH _ _ _ Hrev Hts) as (Hok & Hnd & Hfresh).
  assert (toolchain_key t ∉ keys) as Hk by (rewrite <- str_in_spec; congruence). split_and!.
  - constructor; [by eapply parseToolchain_ok|done].
  - cbn. constructor; [|done]. intros (t' & E & Hin)%list_elem_of_fmap. rewrite Forall_forall in Hfresh.
    apply (Hfresh t' Hin). rewrite E. left.
  - constructor; [done|]. eapply Forall_impl; [done|]. cbn. intros t' Hn Hin. apply Hn. by right.
Qed.

Definition catalog_ok (c : catalog) : Prop :=
  lowerSha256 (c_runtimeCatalogRevision c) = true /\
  Forall (toolchain_ok (c_approvedArtifactHosts c) (c_runtimeCatalogRevision c)) (c_toolchains c) /\
  NoDup (map toolchain_key (c_toolchains c)) /\ c_toolchains c <> [].

Lemma parseCatalog_ok v c :
  parseCatalog v = Ok c -> lowerSha256 (c_runtimeCatalogRevision c) = true /\
  Forall (toolchain_ok (c_approvedArtifactHosts c) (c_runtimeCatalogRevision c)) (c_toolchains c) /\
  NoDup (map toolchain_key (c_toolchains c)).
Proof.
  unfold parseCatalog. cbv zeta. destruct (_ || _); [done|]. intros (expected & _ & Hr)%bind_ok.
  match type of Hr with (if ?b then _ else _) = _ => destruct b eqn:Eg; [done|] end. apply bind_ok in Hr as (hosts & _ & Hr).
  destruct (negb (bool_decide (NoDup hosts))); [done|]. apply bind_ok in Hr as (ts & Hts & [= <-]). cbn.
  rewrite !orb_false_iff, !negb_false_iff in Eg.
  destruct Eg as [[[[[[_ (r & Hr & Hrv)%vstr_true] _] _] _] _] _]. rewrite Hr in *.
  split; [by apply sha256_lowered|]. by apply parse_toolchains_ok in Hts as (? & ? & _).
Qed.

Lemma elem_of_filter_bool {A} (f : A -> bool) l x : x ∈ List.filter f l <-> x ∈ l /\ f x = true.
Proof. by rewrite !list_elem_of_In, List.filter_In. Qed.

Lemma NoDup_map_filter {A B} (g : A -> B) (f : A -> bool) l : NoDup (map g l) -> NoDup (map g (List.filter f l)).
Proof.
  induction l as [|x l IH]; cbn; [done|]. intros [Hx Hnd]%NoDup_cons. destruct (f x); cbn; [|auto].
  constructor; [|auto]. intros (y & E & [Hy _]%elem_of_filter_bool)%list_elem_of_fmap.
  apply Hx, list_elem_of_fmap. eauto.
Qed.

Lemma catalog_constructed document families c :
  ReviewedToolchainCatalog document families = Ok c -> catalog_ok c.
Proof.
  unfold ReviewedToolchainCatalog. intros (c0 & Hc & Hr)%bind_ok. apply parseCatalog_ok in Hc as (Hrev & Hok & Hnd).
  assert (forall ts : list toolchain, zlen ts <? 1 = false -> ts <> []) as Hne by (by intros [|]).
  destruct families as [families|].
  - destruct (_ || _); [done|]. destruct (_ <? 1) eqn:El; [done|]. injection Hr as <-. cbn.
    split_and!; [done| |by apply NoDup_map_filter|by apply Hne].
    rewrite Forall_forall in *. intros t [Ht _]%elem_of_filter_bool. by apply Hok.
  - destruct (_ <? 1) eqn:El; [done|]. injection Hr as <-. split_and!; auto.
Qed.

Lemma selects_key m t t' : selects m t = true -> selects m t' = true -> toolchain_key t = toolchain_key t'.
Proof.
  unfold selects, toolchain_key. rewrite !andb_true_iff, !streq_true, !Z.eqb_eq.
  intros [[[[-> ->] ->] ->] ->] [[[[-> ->] ->] ->] ->]. done.
Qed.

Lemma NoDup_map_inj {A B} (f : A -> B) l x y : NoDup (map f l) -> x ∈ l -> y ∈ l -> f x = f y -> x = y.
Proof.
  induction l as [|z l IH]; cbn; [by intros _ ?%not_elem_of_nil|].
  intros [Hz Hnd]%NoDup_cons Hx Hy E.
  apply elem_of_cons in Hx as [->|Hx], Hy as [->|Hy]; auto; exfalso; apply Hz;
    apply list_elem_of_fmap; eauto.
Qed.

Lemma resolve_toolchain_ok c m t :
  resolve_toolchain c m = Ok t -> t ∈ c_toolchains c /\ selects m t = true.
Proof.
  unfold resolve_toolchain. destruct (_ || _); [done|].
  destruct (List.find _ _) as [t'|] eqn:Ef; [|done]. intros [= <-].
  apply List.find_some in Ef as [Hin%list_elem_of_In ?]. done.
Qed.

(** C23: A constructed catalog is reviewed data only: each of its toolchains has
    valid versions, a JRE of the same Java version and catalog revision,
    artifacts with a valid coordinate, size and hash on an approved HTTPS host,
    distinct coordinates and one primary artifact, the installer of its own
    loader version; no two toolchains share a compatibility tuple. *)
Theorem catalog_reviewed document families c :
  ReviewedToolchainCatalog document families = Ok c -> catalog_ok c.
Proof. apply catalog_constructed. Qed.

(** On a constructed catalog, resolution is exact and complete: a manifest
    resolves to a toolchain if and only if it names the catalog's revision and
    the toolchain has exactly the requested tuple; since no two toolchains share
    a tuple, the answer is unique. *)
Theorem resolve_exact document families c m t :
  ReviewedToolchainCatalog document families = Ok c ->
  resolve_toolchain c m = Ok t <->
  m_runtimeCatalog_sha256 m = c_runtimeCatalogRevision c /\ t ∈ c_toolchains c /\ selects m t = true.
Proof.
  intros (_ & Hok & Hnd & _)%catalog_constructed. split.
  - intros Hr. pose proof (resolve_toolchain_ok _ _ _ Hr) as [? ?]. unfold resolve_toolchain in Hr.
    destruct (streq _ _) eqn:E; [|done]. by apply streq_true in E.
  - intros (Hrev & Hin & Hsel). unfold resolve_toolchain. rewrite Hrev, streq_refl.
    rewrite Forall_forall in Hok. destruct (Hok t Hin) as [[Hmc _] _].
    assert (t_minecraftVersion t = m_minecraftVersion m) as <-.
    { unfold selects in Hsel. rewrite !andb_true_iff, !streq_true in Hsel. tauto. }
    rewrite Hmc. cbn [negb orb]. destruct (List.find (selects m) (c_toolchains c)) as [t'|] eqn:Ef.
    + apply List.find_some in Ef as [Hin'%list_elem_of_In Hsel']. f_equal.
      eapply NoDup_map_inj; [exact Hnd|done|done|]. by eapply selects_key.
    + apply list_elem_of_In in Hin. by rewrite (List.find_none _ _ Ef t Hin) in Hsel.
Qed.

(** A toolchain of a constructed catalog has a plan, and its launcher exists. *)
Lemma plan_exists hosts revision t :
  toolchain_ok hosts revision t ->
  exists p, createAssemblyPlan t = Ok p /\
    p_arguments p = launchArguments (VStr (t_kind t)) (t_minecraftVersion t) (t_version t) /\
    generatedLauncher (p_arguments p) = Ok (utf8_encode (launcher_text (p_arguments p))).
Proof.
  intros ([Hmc Hv] & Ht & _). unfold createAssemblyPlan. rewrite Ht. eexists. split; [done|]. cbn.
  split; [done|]. by apply launcher_generated.
Qed.
End catalog_proofs.

(** ** A run: a catalog with one Fabric toolchain *)
Definition cat_url : jsstr := js "https://maven.fabricmc.net/loader.jar".
Definition cat_sha : jsstr := toy_digest [104].
Definition cat_java : jsval := obj [("component", VText "java-runtime"); ("major", VInt 21)]%string.

Definition cat_toolchain : jsval :=
  obj [("minecraftVersion", VText "1.21.1"); ("loader", loader_object (js "fabric") (js "0.16.9"));
       ("java", cat_java);
       ("jre", obj [("id", VText "temurin-21"); ("sha256", VStr cat_sha); ("component", VText "java-runtime");
          ("major", VInt 21); ("runtimeCatalogRevision", VStr cat_sha)]);
       ("artifacts", VArr [obj [("role", VText "primary"); ("coordinate", VText "net.fabricmc:fabric-loader:0.16.9");
          ("url", VStr cat_url); ("sha256", VStr (toy_digest [1; 2; 3])); ("sizeBytes", VInt 3)]]);
       ("launchTemplate", VText "fabric-server-jar-v1")]%string.

Definition cat_document : jsval :=
  obj [("schemaVersion", VInt 1); ("catalogVersion", VText "v1"); ("runtimeCatalogRevision", VStr cat_sha);
       ("approvedArtifactHosts", VArr [VText "maven.fabricmc.net"]); ("toolchains", VArr [cat_toolchain])]%string.

Definition cat_manifest : manifest :=
  mkManifest (js "demo") (js "1.21.1") (js "fabric") (js "0.16.9") (js "java-runtime") 21 cat_sha [].

#[local] Existing Instance ascii_unicode.
#[local] Existing Instance toy_sha256.
#[local] Instance cat_stringify : JsonStringify := {| json_stringify := to_string |}.

(** A parser for the URLs of the run. *)
Definition cat_urls : UrlParser := {| parse_url s :=
  if streq s cat_url then Some (mkUrl (js "https:") [] [] (js "maven.fabricmc.net") [] (js "/loader.jar") [] []
    cat_url (js "https://maven.fabricmc.net"))
  else None |}.
#[local] Existing Instance cat_urls.

Definition cat_families : option (list jsstr) := Some [js "fabric"].
Definition cat_empty : catalog := mkCatalog [] None [] [] [].
Definition cat_catalog : catalog := Eval vm_compute in
  get_ok cat_empty (ReviewedToolchainCatalog cat_document cat_families).

Lemma cat_constructed : ReviewedToolchainCatalog cat_document cat_families = Ok cat_catalog.
Proof. vm_cast_no_check (eq_refl (Ok cat_catalog)). Qed.

Lemma catalog_reviewed_witness : zlen (c_toolchains cat_catalog) = 1 /\ catalog_ok cat_catalog.
Proof. split; [reflexivity|]. exact (catalog_reviewed cat_document cat_families cat_catalog cat_constructed). Defined.

Lemma resolve_exact_witness :
  exists t, resolve_toolchain cat_catalog cat_manifest = Ok t.
Proof.
  destruct (c_toolchains cat_catalog) as [|t ts] eqn:E; [discriminate E|]. exists t.
  apply (resolve_exact cat_document cat_families cat_catalog cat_manifest t cat_constructed).
  injection E as <- <-. split; [vm_compute; reflexivity|]. split; [left|vm_compute; reflexivity].
Defined.
