(* ===== verification/Downloader.v ===== *)
(** * The strict artifact downloader ([reviewed-builder.mjs])

    [StrictArtifactDownloader]: a reviewed artifact or a frozen remote mod is
    fetched only from an approved HTTPS host, without redirects, and accepted
    only with the expected size and hash.  [fetch], the timer it races against
    and the artifact cache are operations of a class; the response is a record
    of what the code reads of it. *)

From S2P Require Import Prelude JsText JsNum JsValue Regex Validators Limits Node Bundle TarZst Content Effects Catalog.
From Stdlib Require Import Ascii.

(** What [reader.read()] yields: a chunk, or a rejection. *)
Inductive read_event :=
  | Chunk (value : jsval)
  | ReadError (e : exn).

Inductive body :=
  | Stream (events : list read_event)
  | Buffer (content : res bytes)
  | NoBody.

Record response := mkResponse {
  rs_status : Z;
  rs_redirected : bool;
  rs_url : jsstr;
  rs_contentEncoding : option jsstr;
  rs_contentLength : option jsstr;
  rs_body : body;
}.

(** [timer] says whether the timeout fires before the download settles; when it
    does, what the aborted request did outside is part of the timer's effect. *)
Class Fetch (W : Type) := {
  fetchImpl : jsstr -> eff W (option response);
  timer : eff W bool;
  artifactCacheReader : option (artifact -> eff W jsval);
}.

(** What the builder needs of a downloader. *)
Class ArtifactDownloader (W : Type) := {
  download : artifact -> list jsstr -> eff W jsval;
  downloadRemoteMod : jsval -> eff W jsval;
}.

(** ** [readExactResponse] *)
Section read.
Context (expectedSize maxArtifactBytes : Z).

(** The [while (true)] loop: [None] is a stream that ended. *)
Fixpoint read_loop (events : list read_event) (chunks : list bytes) (total : Z) : res (list bytes * Z) :=
  match events with
  | [] => Ok (chunks, total)
  | ReadError e :: _ => Throw e
  | Chunk (VBytes value) :: rest =>
      let total' := total + zlen value in
      if (expectedSize <? total') || (maxArtifactBytes <? total')
      then Throw (failure "artifact_size_mismatch")
      else read_loop rest (chunks ++ [value]) total'
  | Chunk _ :: _ => Throw (failure "artifact_download_failed")
  end.

Definition readExactResponse (b : body) : res bytes :=
  match b with
  | Stream events =>
      r ← read_loop events [] 0;
      let '(chunks, total) := r in
      if negb (total =? expectedSize) then Throw (failure "artifact_size_mismatch")
      else Ok (concatenate chunks total)
  | NoBody => Throw (failure "artifact_download_failed")
  | Buffer content =>
      b ← content;
      if negb (zlen b =? expectedSize) || (maxArtifactBytes <? zlen b)
      then Throw (failure "artifact_size_mismatch") else Ok b
  end.
End read.

(** A decimal number without leading zeros, and [Number] of such a text. *)
Definition decimal : re := Alt (lit "0") (Seq (Cls (rng "1" "9")) (Star (Cls digit))).

Definition content_length (r : response) : option Z :=
  let text := default [] (rs_contentLength r) in
  if matches decimal text then Some (parse_radix 10 text) else None.

Section strict.
Context {W : Type} `{Unicode} `{Sha256} `{UrlParser} `{Fetch W}.
Context (maxArtifactBytes : Z).

Definition artifact_not_approved : exn := failure "artifact_not_approved".

Definition validateApprovedArtifact (a : artifact) (approvedHosts : list jsstr) : res unit :=
  if (maxArtifactBytes <? 1) || negb (validCoordinate (a_coordinate a)) || negb (validSha256 (a_sha256 a)) ||
     negb (is_safe (a_sizeBytes a)) || (a_sizeBytes a <? 1) || (maxArtifactBytes <? a_sizeBytes a)
  then Throw artifact_not_approved
  else
    match parse_url (a_url a) with
    | None => Throw artifact_not_approved
    | Some u =>
        throw_if (negb (streq (u_protocol u) (js "https:")) || negb (streq (u_username u) []) ||
                  negb (streq (u_password u) []) || negb (streq (u_hash u) []) ||
                  negb (streq (u_search u) []) || negb (streq (u_port u) []) ||
                  negb (str_in (toLowerCase (u_hostname u)) approvedHosts))
                 (failure "artifact_host_rejected")
    end.

Definition reviewedArtifactDownloadUrl (value : jsstr) : res jsstr :=
  match parse_url value with
  | None => Throw (TypeError "Invalid URL")
  | Some u =>
      if streq (u_hostname u) (js "libraries.minecraft.net") then
        if starts_with (js "/com/mojang/") (u_pathname u)
        then Ok (js "https://repo.spongepowered.org/repository/maven-public" ++ u_pathname u)
        else Ok (js "https://repo1.maven.org/maven2" ++ u_pathname u)
      else Ok (u_href u)
  end.

(** [hostname === allowedHost || hostname.endsWith("." + allowedHost)] *)
Definition host_within (hostname allowedHost : jsstr) : bool :=
  streq hostname allowedHost || ends_with (js "." ++ allowedHost) hostname.

Definition provider_host (provider : jsval) : jsstr :=
  if strict_eq provider (VText "modrinth") then js "cdn.modrinth.com" else js "forgecdn.net".

Definition validateRemoteMod (mod_ : jsval) : res unit :=
  if negb (plainObject mod_) ||
     negb (sameKeys mod_ ["downloadUrl"; "fileId"; "filename"; "projectId"; "provider"; "sha256";
             "sizeBytes"]%string) ||
     negb (val_in (opt_prop mod_ "provider") ["modrinth"; "curseforge"]%string) ||
     negb (vstr (fun s => negb (streq s [])) (opt_prop mod_ "projectId")) ||
     negb (vstr (fun s => negb (streq s [])) (opt_prop mod_ "fileId")) ||
     negb (vstr safeModFilename (opt_prop mod_ "filename")) ||
     negb (vstr validSha256 (opt_prop mod_ "sha256")) ||
     negb (vint (fun z => (1 <=? z) && (z <=? maxArtifactBytes)) (opt_prop mod_ "sizeBytes")) ||
     negb (is_string (opt_prop mod_ "downloadUrl"))
  then Throw (failure "invalid_remote_mod")
  else
    match parse_url (get_str (opt_prop mod_ "downloadUrl")) with
    | None => Throw (failure "remote_mod_host_rejected")
    | Some u =>
        throw_if (negb (streq (u_protocol u) (js "https:")) || negb (streq (u_username u) []) ||
                  negb (streq (u_password u) []) || negb (streq (u_hash u) []) || negb (streq (u_port u) []) ||
                  negb (host_within (toLowerCase (u_hostname u)) (provider_host (opt_prop mod_ "provider"))))
                 (failure "remote_mod_host_rejected")
    end.

(** ** One exchange *)

(** [if (response.url && new URL(response.url).href !== expected) throw ...] *)
Definition check_final_url (r : response) (expected : jsstr) (redirected : exn) : res unit :=
  if streq (rs_url r) [] then Ok tt
  else
    match parse_url (rs_url r) with
    | None => Throw (TypeError "Invalid URL")
    | Some u => throw_if (negb (streq (u_href u) expected)) redirected
    end.

Definition check_encoding (r : response) (failed : exn) : res unit :=
  match rs_contentEncoding r with
  | Some e => throw_if (negb (streq e []) && negb (streq (toLowerCase e) (js "identity"))) failed
  | None => Ok tt
  end.

(** The inner [download] of [StrictArtifactDownloader.download]. *)
Definition artifact_exchange (a : artifact) (downloadUrl : jsstr) : eff W bytes :=
  answer ← fetchImpl downloadUrl;
  match answer with
  | None => throw (failure "artifact_download_failed")
  | Some r => lift (
      if negb (rs_status r =? 200) || rs_redirected r then Throw (failure "artifact_download_failed")
      else
        _ ← check_final_url r downloadUrl (failure "artifact_redirect_rejected");
        _ ← check_encoding r (failure "artifact_download_failed");
        match content_length r with
        | None => Throw (failure "artifact_size_mismatch")
        | Some expectedSize =>
            if negb (is_safe expectedSize) || negb (expectedSize =? a_sizeBytes a) ||
               (maxArtifactBytes <? expectedSize)
            then Throw (failure "artifact_size_mismatch")
            else
              b ← readExactResponse expectedSize maxArtifactBytes (rs_body r);
              if negb (streq (sha256 b) (a_sha256 a)) then Throw (failure "artifact_hash_mismatch")
              else Ok b
        end)
  end.

(** [Promise.race([m, timeout])] *)
Definition race {A} (m : eff W A) (timeout : exn) : eff W A :=
  fired ← timer; if (fired : bool) then throw timeout else m.

(** [error instanceof CompilerFailure ? error : new CompilerFailure(code)] *)
Definition as_failure (code : string) (e : exn) : exn :=
  match e with CompilerFailure _ => e | _ => failure code end.

Definition fetch_artifact (a : artifact) : eff W jsval :=
  downloadUrl ← lift (reviewedArtifactDownloadUrl (a_url a));
  try_catch
    (b ← race (artifact_exchange a downloadUrl) (failure "artifact_download_timeout"); mret (VBytes b))
    (fun e => throw (as_failure "artifact_download_failed" e)).

(** [download(artifact, { approvedHosts })] *)
Definition strict_download (a : artifact) (approvedHosts : list jsstr) : eff W jsval :=
  _ ← lift (validateApprovedArtifact a approvedHosts);
  match artifactCacheReader with
  | None => fetch_artifact a
  | Some reader =>
      cached ← try_catch (reader a) (fun _ => throw (failure "artifact_cache_failed"));
      match cached with
      | VUndef => fetch_artifact a
      | VBytes b =>
          if negb (zlen b =? a_sizeBytes a) || negb (streq (sha256 b) (a_sha256 a))
          then throw (failure "artifact_cache_mismatch")
          else mret (VBytes b)
      | _ => throw (failure "artifact_cache_mismatch")
      end
  end.

(** The inner [download] of [downloadRemoteMod]. *)
Definition mod_exchange (mod_ : jsval) : eff W bytes :=
  let downloadUrl := get_str (opt_prop mod_ "downloadUrl") in
  let sizeBytes := get_int (opt_prop mod_ "sizeBytes") in
  answer ← fetchImpl downloadUrl;
  match answer with
  | None => throw (failure "remote_mod_download_failed")
  | Some r => lift (
      if negb (rs_status r =? 200) || rs_redirected r then Throw (failure "remote_mod_download_failed")
      else
        _ ← match parse_url downloadUrl with
            | Some u => check_final_url r (u_href u) (failure "remote_mod_redirect_rejected")
            | None => if streq (rs_url r) [] then Ok tt else Throw (TypeError "Invalid URL")
            end;
        _ ← check_encoding r (failure "remote_mod_download_failed");
        if negb (bool_decide (content_length r = Some sizeBytes))
        then Throw (failure "remote_mod_size_mismatch")
        else
          b ← readExactResponse sizeBytes maxArtifactBytes (rs_body r);
          if negb (streq (sha256 b) (get_str (opt_prop mod_ "sha256")))
          then Throw (failure "remote_mod_hash_mismatch") else Ok b)
  end.

Definition strict_downloadRemoteMod (mod_ : jsval) : eff W jsval :=
  _ ← lift (validateRemoteMod mod_);
  try_catch
    (b ← race (mod_exchange mod_) (failure "remote_mod_download_timeout"); mret (VBytes b))
    (fun e => throw (as_failure "remote_mod_download_failed" e)).

(** The class is an [ArtifactDownloader]. *)
#[export] Instance strict_downloader : ArtifactDownloader W := {|
  download := strict_download;
  downloadRemoteMod := strict_downloadRemoteMod;
|}.
End strict.

(** ** What a body read returns *)
Section read_proofs.
Context (expectedSize maxArtifactBytes : Z).

(** The sizes of the chunks a stream delivers. *)
Definition event_size (e : read_event) : Z :=
  match e with Chunk (VBytes b) => zlen b | _ => 0 end.

Definition events_size (events : list read_event) : Z :=
  foldr (fun e acc => event_size e + acc) 0 events.

Lemma event_size_nonneg e : 0 <= event_size e.
Proof. destruct e as [[| | | | | | |b]|]; cbn; try done. apply zlen_nonneg. Qed.

Lemma read_loop_ok events : forall chunks total chunks' total',
  total = zlen (concat chunks) -> total <= expectedSize ->
  read_loop expectedSize maxArtifactBytes events chunks total = Ok (chunks', total') ->
  total' = zlen (concat chunks') /\ total' <= expectedSize.
Proof.
  induction events as [|e events IH]; intros chunks total chunks' total' Ht Hle; cbn [read_loop].
  { by intros [= <- <-]. }
  destruct e as [[| | | | | | |b]|]; try done. cbv zeta. destruct (_ || _) eqn:E; [done|].
  apply orb_false_iff in E as [E _]. apply Z.ltb_ge in E. apply IH; [|done].
  rewrite concat_app, zlen_app, Ht. cbn. by rewrite app_nil_r.
Qed.

Lemma readExactResponse_ok b r :
  0 <= expectedSize -> readExactResponse expectedSize maxArtifactBytes b = Ok r -> zlen r = expectedSize.
Proof.
  intros Hpos. destruct b as [events|content|]; cbn [readExactResponse]; [| |done].
  - intros ([chunks total] & Hr & Hn)%bind_ok. destruct (total =? expectedSize) eqn:E; [|done].
    injection Hn as <-. apply Z.eqb_eq in E as ->.
    apply read_loop_ok in Hr as [Ht _]; [|done..]. by rewrite concatenate_concat.
  - intros (x & -> & Hn)%bind_ok. destruct (zlen x =? expectedSize) eqn:E; cbn [negb orb] in Hn; [|done].
    destruct (_ <? _); [done|]. injection Hn as <-. by apply Z.eqb_eq in E.
Qed.

(** As soon as the chunks read exceed the expected size the loop ends in a
    failure, whatever follows. *)
Lemma read_loop_stops prefix rest : forall chunks total,
  total <= expectedSize -> expectedSize < total + events_size prefix ->
  read_loop expectedSize maxArtifactBytes (prefix ++ rest) chunks total =
  read_loop expectedSize maxArtifactBytes prefix chunks total /\
  is_ok (read_loop expectedSize maxArtifactBytes prefix chunks total) = false.
Proof.
  induction prefix as [|e prefix IH]; intros chunks total Hle Hbig; [cbn in Hbig; lia|].
  change (events_size (e :: prefix)) with (event_size e + events_size prefix) in Hbig.
  cbn [app read_loop]. destruct e as [[| | | | | | |b]|]; try done. cbv zeta. cbn [event_size] in Hbig.
  destruct (_ || _) eqn:E; [done|]. apply orb_false_iff in E as [E _]. apply Z.ltb_ge in E.
  apply IH; lia.
Qed.

(** Reading a response body is exact and bounded: a body is returned only
    with the expected number of bytes, and a longer stream is rejected from its
    first chunks alone, so that no stream, however long, is buffered beyond the
    expected size. *)
Theorem body_read_exact_and_bounded :
  0 <= expectedSize ->
  (forall b r, readExactResponse expectedSize maxArtifactBytes b = Ok r -> zlen r = expectedSize) /\
  (forall prefix rest, expectedSize < events_size prefix ->
     readExactResponse expectedSize maxArtifactBytes (Stream (prefix ++ rest)) =
     readExactResponse expectedSize maxArtifactBytes (Stream prefix) /\
     is_ok (readExactResponse expectedSize maxArtifactBytes (Stream prefix)) = false).
Proof.
  intros Hpos. split; [intros; by eapply readExactResponse_ok|].
  intros prefix rest Hbig. destruct (read_loop_stops prefix rest [] 0 Hpos) as [E Hf]; [lia|].
  cbn [readExactResponse]. rewrite E. by destruct (read_loop _ _ prefix [] 0).
Qed.
End read_proofs.

(** The bytes of a body. *)
Definition carries (r : response) (b : bytes) : Prop :=
  match rs_body r with
  | Buffer content => content = Ok b
  | Stream events => exists chunks, events = map (fun c => Chunk (VBytes c)) chunks /\ concat chunks = b
  | NoBody => False
  end.

Lemma read_loop_chunks expectedSize maxArtifactBytes events : forall chunks total chunks' total',
  read_loop expectedSize maxArtifactBytes events chunks total = Ok (chunks', total') ->
  exists new, chunks' = chunks ++ new /\ events = map (fun c => Chunk (VBytes c)) new.
Proof.
  induction events as [|e events IH]; intros chunks total chunks' total'; cbn [read_loop].
  { intros [= <- <-]. exists []. by rewrite app_nil_r. }
  destruct e as [[| | | | | | |b]|]; try done. cbv zeta. destruct (_ || _) eqn:E; [done|].
  intros (new & -> & ->)%IH. exists (b :: new). by rewrite <- app_assoc.
Qed.

Lemma readExactResponse_carries n limit r b :
  0 <= n -> readExactResponse n limit (rs_body r) = Ok b -> carries r b /\ zlen b = n.
Proof.
  intros Hn Hr. split; [|by eapply readExactResponse_ok]. unfold carries.
  destruct (rs_body r) as [events|content|]; cbn [readExactResponse] in Hr; [| |done].
  - apply bind_ok in Hr as ([chunks total] & Hl & Hr). destruct (total =? n) eqn:E; [|done]. injection Hr as <-.
    apply Z.eqb_eq in E as ->. pose proof Hl as [Ht _]%read_loop_ok; [|done..].
    apply read_loop_chunks in Hl as (new & -> & ->). cbn [app] in *. exists new. split; [done|].
    by rewrite concatenate_concat.
  - apply bind_ok in Hr as (x & -> & Hr). destruct (_ || _); [done|]. by injection Hr as ->.
Qed.

(** ** What the downloader returns *)
Section strict_proofs.
Context {W : Type} `{Unicode} `{Sha256} `{UrlParser} `{Fetch W}.
Context (maxArtifactBytes : Z).

Lemma race_ok {A} (m : eff W A) timeout w a w' :
  race m timeout w = (Ok a, w') -> exists w1, timer w = (Ok false, w1) /\ m w1 = (Ok a, w').
Proof. unfold race. intros ([] & w1 & Ht & Hm)%eff_bind_ok; [done|eauto]. Qed.

Lemma try_throw_ok {A} (m : eff W A) f w a w' :
  try_catch m (fun e => throw (f e)) w = (Ok a, w') -> m w = (Ok a, w').
Proof. unfold try_catch. by destruct (m w) as [[?|?] ?]. Qed.

(** HTTPS, without credentials, fragment or port. *)
Definition https_url (u : url) : Prop :=
  u_protocol u = js "https:" /\ u_username u = [] /\ u_password u = [] /\ u_hash u = [] /\ u_port u = [].

(** The URL that stands for a listed one: itself when its host is approved; two mirrors
    of the approved host [libraries.minecraft.net]. *)
Inductive artifact_source (hosts : list jsstr) (listed : jsstr) : jsstr -> Prop :=
  | source_listed u :
      parse_url listed = Some u -> https_url u -> u_search u = [] -> toLowerCase (u_hostname u) ∈ hosts ->
      u_hostname u <> js "libraries.minecraft.net" -> artifact_source hosts listed (u_href u)
  | source_mojang u path :
      parse_url listed = Some u -> https_url u -> u_search u = [] -> toLowerCase (u_hostname u) ∈ hosts ->
      u_hostname u = js "libraries.minecraft.net" -> u_pathname u = js "/com/mojang/" ++ path ->
      artifact_source hosts listed (js "https://repo.spongepowered.org/repository/maven-public/com/mojang/" ++ path)
  | source_maven u :
      parse_url listed = Some u -> https_url u -> u_search u = [] -> toLowerCase (u_hostname u) ∈ hosts ->
      u_hostname u = js "libraries.minecraft.net" -> ~ (exists path, u_pathname u = js "/com/mojang/" ++ path) ->
      artifact_source hosts listed (js "https://repo1.maven.org/maven2" ++ u_pathname u).

(** A frozen mod's URL: on its provider's host, or a host below it. *)
Definition mod_source (mod_ : jsval) (u : url) : Prop :=
  parse_url (get_str (opt_prop mod_ "downloadUrl")) = Some u /\ https_url u /\
  exists host, (opt_prop mod_ "provider" = VText "modrinth" /\ host = js "cdn.modrinth.com" \/
                opt_prop mod_ "provider" = VText "curseforge" /\ host = js "forgecdn.net") /\
    (toLowerCase (u_hostname u) = host \/ exists sub, toLowerCase (u_hostname u) = sub ++ js "." ++ host).

(** An accepted answer: complete, not redirected, from the URL that was asked. *)
Definition served (r : response) (href : jsstr) (b : bytes) : Prop :=
  rs_status r = 200 /\ rs_redirected r = false /\
  (rs_url r = [] \/ exists u, parse_url (rs_url r) = Some u /\ u_href u = href) /\ carries r b.

Lemma check_final_url_ok r href e :
  check_final_url r href e = Ok tt -> rs_url r = [] \/ exists u, parse_url (rs_url r) = Some u /\ u_href u = href.
Proof.
  unfold check_final_url. destruct (streq (rs_url r) []) eqn:E; [left; by apply streq_true|].
  destruct (parse_url (rs_url r)) as [u|]; [|done]. intros Hu%throw_if_ok.
  rewrite negb_false_iff, streq_true in Hu. right. by exists u.
Qed.

Lemma artifact_exchange_ok a href w b w' :
  0 <= a_sizeBytes a -> artifact_exchange maxArtifactBytes a href w = (Ok b, w') ->
  (zlen b = a_sizeBytes a /\ sha256 b = a_sha256 a) /\
  exists r, fetchImpl href w = (Ok (Some r), w') /\ served r href b.
Proof.
  intros Hpos ([r|] & w1 & Hf & Hr)%eff_bind_ok; [|done]. apply lift_ok in Hr as [Hr ->].
  destruct (_ || _) eqn:Es; [done|]. rewrite orb_false_iff, negb_false_iff, Z.eqb_eq in Es. destruct Es.
  apply bind_ok in Hr as ([] & Hu%check_final_url_ok & ([] & _ & Hr)%bind_ok).
  destruct (content_length r) as [n|]; [|done].
  destruct (_ || _) eqn:Eg; [done|]. rewrite !orb_false_iff, !negb_false_iff, Z.eqb_eq in Eg.
  destruct Eg as [[_ ->] _]. apply bind_ok in Hr as (b' & Hb & Hs).
  destruct (streq _ _) eqn:Es; [|done]. injection Hs as <-. apply streq_true in Es.
  apply readExactResponse_carries in Hb as [Hc Hz]; [|done]. split; [done|]. by exists r.
Qed.

Lemma validateApprovedArtifact_ok a hosts :
  validateApprovedArtifact maxArtifactBytes a hosts = Ok tt ->
  1 <= a_sizeBytes a <= maxArtifactBytes /\
  exists u, parse_url (a_url a) = Some u /\ streq (u_search u) [] = true /\ approved_url u hosts = true.
Proof.
  unfold validateApprovedArtifact. destruct (_ || _) eqn:Eg; [done|].
  rewrite !orb_false_iff, !Z.ltb_ge in Eg. destruct (parse_url _) as [u|]; [|done].
  intros Hu%throw_if_ok. rewrite !orb_false_iff, !negb_false_iff in Hu. split; [lia|].
  exists u. unfold approved_url. rewrite !andb_true_iff. tauto.
Qed.

Lemma Ok_inj {A} (x y : A) : Ok x = Ok y -> x = y.
Proof. by intros [=]. Qed.

Lemma approved_source a hosts href :
  validateApprovedArtifact maxArtifactBytes a hosts = Ok tt -> reviewedArtifactDownloadUrl (a_url a) = Ok href ->
  artifact_source hosts (a_url a) href.
Proof.
  intros [_ (u & Hu & Hq%streq_true & Ha)]%validateApprovedArtifact_ok. unfold approved_url in Ha.
  rewrite !andb_true_iff, !streq_true, str_in_spec in Ha.
  assert (https_url u) as Hh by (unfold https_url; tauto). destruct Ha as [_ Hin].
  unfold reviewedArtifactDownloadUrl. rewrite Hu. destruct (streq (u_hostname u) _) eqn:El.
  - apply streq_true in El. destruct (starts_with _ _) eqn:Ep; intros E; apply Ok_inj in E as <-.
    + apply starts_with_spec in Ep as [path Hp]. rewrite Hp, app_assoc.
      change (js "https://repo.spongepowered.org/repository/maven-public" ++ js "/com/mojang/")
        with (js "https://repo.spongepowered.org/repository/maven-public/com/mojang/"). by eapply source_mojang.
    + eapply source_maven; try done. intros [path Hp]. rewrite Hp in Ep.
      by rewrite (proj2 (starts_with_spec _ _)) in Ep by (by exists path).
  - apply streq_false in El. intros [= <-]. by eapply source_listed.
Qed.

Lemma fetch_artifact_ok a hosts w v w' :
  validateApprovedArtifact maxArtifactBytes a hosts = Ok tt -> fetch_artifact maxArtifactBytes a w = (Ok v, w') ->
  exists b, v = VBytes b /\ (zlen b = a_sizeBytes a /\ sha256 b = a_sha256 a) /\
  exists w1 href r, timer w = (Ok false, w1) /\ artifact_source hosts (a_url a) href /\
    fetchImpl href w1 = (Ok (Some r), w') /\ served r href b.
Proof.
  intros Ha (href & w1 & [Hu ->]%lift_ok & Ht%try_throw_ok)%eff_bind_ok.
  pose proof (proj1 (validateApprovedArtifact_ok _ _ Ha)).
  apply eff_bind_ok in Ht as (b & w2 & (w3 & Hti & Hx)%race_ok & [-> <-]%mret_ok).
  apply artifact_exchange_ok in Hx as [Hb (r & Hf & Hs)]; [|lia].
  exists b. split; [done|]. split; [done|]. exists w3, href, r. split_and!; try done. by apply approved_source.
Qed.

(** The world in which the downloader turns to the network: it has no cache, or the
    cache had nothing. *)
Definition cache_missed (a : artifact) (w w1 : W) : Prop :=
  match artifactCacheReader with
  | None => w1 = w
  | Some reader => reader a w = (Ok VUndef, w1)
  end.

Lemma strict_download_ok a hosts w v w' :
  strict_download maxArtifactBytes a hosts w = (Ok v, w') ->
  exists b, v = VBytes b /\ (zlen b = a_sizeBytes a /\ sha256 b = a_sha256 a) /\
  ((exists reader, artifactCacheReader = Some reader /\ reader a w = (Ok (VBytes b), w')) \/
   exists w1 w2 href r, cache_missed a w w1 /\ timer w1 = (Ok false, w2) /\ artifact_source hosts (a_url a) href /\
     fetchImpl href w2 = (Ok (Some r), w') /\ served r href b).
Proof.
  intros ([] & w1 & [Hv ->]%lift_ok & Hr)%eff_bind_ok. unfold cache_missed.
  destruct artifactCacheReader as [reader|] eqn:Ec.
  2:{ destruct (fetch_artifact_ok a hosts w v w' Hv Hr) as (b & -> & Hb & w1 & href & r & Hall).
      exists b. split; [done|]. split; [done|]. right. by exists w, w1, href, r. }
  apply eff_bind_ok in Hr as (cached & w2 & Hc%try_throw_ok & Hr). destruct cached as [| | | | | | |b]; try done.
  - destruct (fetch_artifact_ok a hosts w2 v w' Hv Hr) as (b & -> & Hb & w3 & href & r & Hall).
    exists b. split; [done|]. split; [done|]. right. by exists w2, w3, href, r.
  - destruct (_ || _) eqn:E; [done|]. apply mret_ok in Hr as [-> ->].
    rewrite orb_false_iff, !negb_false_iff, Z.eqb_eq, streq_true in E. exists b. split; [done|]. split; [done|].
    left. by exists reader.
Qed.

Lemma mod_exchange_ok mod_ u w b w' :
  parse_url (get_str (opt_prop mod_ "downloadUrl")) = Some u ->
  0 <= get_int (opt_prop mod_ "sizeBytes") -> mod_exchange maxArtifactBytes mod_ w = (Ok b, w') ->
  (zlen b = get_int (opt_prop mod_ "sizeBytes") /\ sha256 b = get_str (opt_prop mod_ "sha256")) /\
  exists r, fetchImpl (get_str (opt_prop mod_ "downloadUrl")) w = (Ok (Some r), w') /\ served r (u_href u) b.
Proof.
  intros Hu Hpos ([r|] & w1 & Hf & Hr)%eff_bind_ok; [|done]. apply lift_ok in Hr as [Hr ->]. rewrite Hu in Hr.
  destruct (_ || _) eqn:Est; [done|]. rewrite orb_false_iff, negb_false_iff, Z.eqb_eq in Est. destruct Est.
  apply bind_ok in Hr as ([] & Hfin%check_final_url_ok & ([] & _ & Hr)%bind_ok).
  destruct (negb _); [done|]. apply bind_ok in Hr as (b' & Hb & Hs).
  destruct (streq _ _) eqn:Es; [|done]. injection Hs as <-. apply streq_true in Es.
  apply readExactResponse_carries in Hb as [Hc Hz]; [|done]. split; [done|]. by exists r.
Qed.

Lemma validateRemoteMod_ok mod_ :
  validateRemoteMod maxArtifactBytes mod_ = Ok tt ->
  (exists z, opt_prop mod_ "sizeBytes" = VInt z /\ 1 <= z <= maxArtifactBytes) /\
  (exists h, opt_prop mod_ "sha256" = VStr h) /\
  (exists f, opt_prop mod_ "filename" = VStr f /\ safeModFilename f = true) /\
  exists u, parse_url (get_str (opt_prop mod_ "downloadUrl")) = Some u /\ u_protocol u = js "https:" /\
    host_within (toLowerCase (u_hostname u)) (provider_host (opt_prop mod_ "provider")) = true.
Proof.
  unfold validateRemoteMod. destruct (_ || _) eqn:Eg; [done|].
  destruct (parse_url _) as [u|]; [|done]. intros Hu%throw_if_ok.
  rewrite !orb_false_iff, !negb_false_iff in Eg, Hu.
  destruct Eg as [[[[_ (f & Hf & Hfv)%vstr_true] (h & Hh & _)%vstr_true] (z & Hz & _ & Hzr)%vint_true] _].
  rewrite andb_true_iff, !Z.leb_le in Hzr. rewrite !streq_true, negb_false_iff in Hu. split_and!; eauto 10; try lia.
  exists u. split; [done|tauto].
Qed.

Lemma validateRemoteMod_source mod_ :
  validateRemoteMod maxArtifactBytes mod_ = Ok tt -> exists u, mod_source mod_ u.
Proof.
  unfold validateRemoteMod, mod_source. destruct (_ || _) eqn:Eg; [done|].
  destruct (parse_url _) as [u|]; [|done]. intros Hu%throw_if_ok.
  rewrite !orb_false_iff, !negb_false_iff in Eg. rewrite !orb_false_iff, !negb_false_iff in Hu. destruct Eg as [[[[[[[_ Hp] _] _] _] _] _] _].
  rewrite !streq_true in Hu. destruct Hu as [Hu Hw]. exists u. split; [done|]. split; [unfold https_url; tauto|].
  assert (exists host, provider_host (opt_prop mod_ "provider") = host /\
    (opt_prop mod_ "provider" = VText "modrinth" /\ host = js "cdn.modrinth.com" \/
     opt_prop mod_ "provider" = VText "curseforge" /\ host = js "forgecdn.net")) as (host & <- & Hhost).
  { apply val_in_true in Hp as (s & -> & Hs). cbn [map] in Hs. rewrite !elem_of_cons in Hs. destruct Hs as [->|[->|Hs]]; [..|by apply elem_of_nil in Hs];
      (eexists; split; [reflexivity|]); auto. }
  exists (provider_host (opt_prop mod_ "provider")). split; [done|]. unfold host_within in Hw.
  apply orb_true_iff in Hw as [Hw|Hw]; [left; by apply streq_true|right]. unfold ends_with in Hw. apply starts_with_spec in Hw as [sub Hs].
  exists (reverse sub). apply (f_equal reverse) in Hs. rewrite reverse_involutive, reverse_app, reverse_involutive in Hs. exact Hs.
Qed.

Lemma strict_downloadRemoteMod_ok mod_ w v w' :
  strict_downloadRemoteMod maxArtifactBytes mod_ w = (Ok v, w') ->
  exists b u w1 r, v = VBytes b /\
    (zlen b = get_int (opt_prop mod_ "sizeBytes") /\ sha256 b = get_str (opt_prop mod_ "sha256")) /\
    mod_source mod_ u /\ timer w = (Ok false, w1) /\
    fetchImpl (get_str (opt_prop mod_ "downloadUrl")) w1 = (Ok (Some r), w') /\ served r (u_href u) b.
Proof.
  intros ([] & w1 & [Hv ->]%lift_ok & Ht%try_throw_ok)%eff_bind_ok.
  destruct (validateRemoteMod_source mod_ Hv) as [u Hu].
  apply validateRemoteMod_ok in Hv as [(z & Hz & Hzr) _].
  apply eff_bind_ok in Ht as (b & w2 & (w3 & Hti & Hx)%race_ok & [-> <-]%mret_ok).
  destruct (mod_exchange_ok mod_ u w3 b w' (proj1 Hu)) as [Hb (r & Hf & Hs)]; [rewrite Hz; cbn; lia|done|].
  by exists b, u, w3, r.
Qed.

(** Requests go nowhere else. *)
Section confined.
Context (J : W -> Prop).
Hypothesis J_timer : preserves J timer.

Lemma strict_download_confined a hosts :
  (forall reader, artifactCacheReader = Some reader -> preserves J (reader a)) ->
  (forall href, artifact_source hosts (a_url a) href -> preserves J (fetchImpl href)) ->
  preserves J (strict_download maxArtifactBytes a hosts).
Proof.
  intros Hc Hf. unfold strict_download. apply preserves_lift_bind. intros [] Hv.
  assert (preserves J (fetch_artifact maxArtifactBytes a)) as Hfetch.
  { unfold fetch_artifact. apply preserves_lift_bind. intros href Hu. specialize (Hf href (approved_source _ _ _ Hv Hu)).
    apply preserves_try; [|intros; apply preserves_lift]. apply preserves_bind; [|intros; apply preserves_ret].
    unfold race. apply preserves_bind; [done|]. intros []; [apply preserves_lift|]. unfold artifact_exchange.
    apply preserves_bind; [done|]. intros [r|]; apply preserves_lift. }
  destruct artifactCacheReader as [reader|]; [|done].
  apply preserves_bind; [apply preserves_try; [by apply Hc|intros; apply preserves_lift]|].
  intros []; try done; try apply preserves_lift. destruct (_ || _); [apply preserves_lift|apply preserves_ret].
Qed.

Lemma strict_downloadRemoteMod_confined mod_ :
  (forall u, mod_source mod_ u -> preserves J (fetchImpl (get_str (opt_prop mod_ "downloadUrl")))) ->
  preserves J (strict_downloadRemoteMod maxArtifactBytes mod_).
Proof.
  intros Hf. unfold strict_downloadRemoteMod. apply preserves_lift_bind. intros [] Hv.
  destruct (validateRemoteMod_source mod_ Hv) as [u Hu]. specialize (Hf u Hu).
  apply preserves_try; [|intros; apply preserves_lift]. apply preserves_bind; [|intros; apply preserves_ret].
  unfold race. apply preserves_bind; [done|]. intros []; [apply preserves_lift|]. unfold mod_exchange. cbv zeta.
  apply preserves_bind; [done|]. intros [r|]; apply preserves_lift.
Qed.
End confined.

(** C24: What a download returns, and from where.  A download that succeeds returns
    bytes of the reviewed size and hash, which the artifact cache had, or which are the
    body of a complete, unredirected answer to the one request it made.  That request
    goes to the listed URL, which is HTTPS on an approved host, or, when that host is
    [libraries.minecraft.net], to the same path on one of its two fixed mirrors (which
    need not be approved hosts); for a frozen mod to its own URL, on its provider's host.
    And no download, also one that fails, sends a request anywhere else: whatever
    property of the outside world the timer, the cache and requests to these URLs keep, it
    keeps. *)
Theorem strict_downloader_exact a hosts mod_ w v w' :
  (download (ArtifactDownloader := strict_downloader maxArtifactBytes) a hosts w = (Ok v, w') ->
   exists b, v = VBytes b /\ (zlen b = a_sizeBytes a /\ sha256 b = a_sha256 a) /\
   ((exists reader, artifactCacheReader = Some reader /\ reader a w = (Ok (VBytes b), w')) \/
    exists w1 w2 href r, cache_missed a w w1 /\ timer w1 = (Ok false, w2) /\ artifact_source hosts (a_url a) href /\
      fetchImpl href w2 = (Ok (Some r), w') /\ served r href b)) /\
  (downloadRemoteMod (ArtifactDownloader := strict_downloader maxArtifactBytes) mod_ w = (Ok v, w') ->
   exists b u w1 r, v = VBytes b /\
     (zlen b = get_int (opt_prop mod_ "sizeBytes") /\ sha256 b = get_str (opt_prop mod_ "sha256")) /\
     mod_source mod_ u /\ timer w = (Ok false, w1) /\
     fetchImpl (get_str (opt_prop mod_ "downloadUrl")) w1 = (Ok (Some r), w') /\ served r (u_href u) b) /\
  (forall J : W -> Prop, preserves J timer ->
     (forall reader, artifactCacheReader = Some reader -> preserves J (reader a)) ->
     (forall href, artifact_source hosts (a_url a) href -> preserves J (fetchImpl href)) ->
     (forall u, mod_source mod_ u -> preserves J (fetchImpl (get_str (opt_prop mod_ "downloadUrl")))) ->
     preserves J (download (ArtifactDownloader := strict_downloader maxArtifactBytes) a hosts) /\
     preserves J (downloadRemoteMod (ArtifactDownloader := strict_downloader maxArtifactBytes) mod_)).
Proof.
  split; [|split].
  - apply strict_download_ok.
  - apply strict_downloadRemoteMod_ok.
  - intros J Ht Hc Hf Hm. split; [by apply strict_download_confined|by apply strict_downloadRemoteMod_confined].
Qed.

(** Nothing is fetched for a request that is not approved: when the artifact
    or the mod fails its validation, the downloader fails with the validator's
    error and the outside world is exactly as it was. *)
Theorem no_fetch_before_approval a hosts mod_ e w :
  (validateApprovedArtifact maxArtifactBytes a hosts = Throw e ->
   strict_download maxArtifactBytes a hosts w = (Throw e, w)) /\
  (validateRemoteMod maxArtifactBytes mod_ = Throw e ->
   strict_downloadRemoteMod maxArtifactBytes mod_ w = (Throw e, w)).
Proof.
  unfold strict_download, strict_downloadRemoteMod, mbind, eff_bind, lift. split; by intros ->.
Qed.

Lemma validateApprovedArtifact_throws a hosts :
  only_throws is_failure (validateApprovedArtifact maxArtifactBytes a hosts).
Proof. unfold validateApprovedArtifact, artifact_not_approved. throws. Qed.

Lemma validateRemoteMod_throws mod_ : only_throws is_failure (validateRemoteMod maxArtifactBytes mod_).
Proof. unfold validateRemoteMod. throws. Qed.

Lemma as_failure_failure code e : is_failure (as_failure code e).
Proof. destruct e; by eexists. Qed.

Lemma fetch_artifact_failures a u :
  parse_url (a_url a) = Some u -> eff_throws is_failure (fetch_artifact maxArtifactBytes a).
Proof.
  intros Hu. unfold fetch_artifact. apply eff_throws_bind.
  - apply eff_throws_lift. unfold reviewedArtifactDownloadUrl. rewrite Hu. throws.
  - intros url. apply eff_throws_try. intros e. apply eff_throws_lift, as_failure_failure.
Qed.

Lemma strict_download_failures a hosts : eff_throws is_failure (strict_download maxArtifactBytes a hosts).
Proof.
  unfold strict_download. apply eff_throws_lift_bind; [apply validateApprovedArtifact_throws|].
  intros [] (_ & u & Hu & _)%validateApprovedArtifact_ok.
  pose proof (fetch_artifact_failures a u Hu) as Hf.
  destruct artifactCacheReader as [reader|]; [|done]. apply eff_throws_bind.
  - apply eff_throws_try. intros e. apply eff_throws_lift. by eexists.
  - intros cached. effthrows.
Qed.

Lemma strict_downloadRemoteMod_failures mod_ :
  eff_throws is_failure (strict_downloadRemoteMod maxArtifactBytes mod_).
Proof.
  unfold strict_downloadRemoteMod. apply eff_throws_bind; [apply eff_throws_lift, validateRemoteMod_throws|].
  intros []. apply eff_throws_try. intros e. apply eff_throws_lift, as_failure_failure.
Qed.

(** Every failure of the strict downloader is a [CompilerFailure]: an
    exception of [fetch], of a stream or of the URL parser never escapes. *)
Theorem strict_downloader_failures a hosts mod_ :
  eff_throws is_failure (strict_download maxArtifactBytes a hosts) /\
  eff_throws is_failure (strict_downloadRemoteMod maxArtifactBytes mod_).
Proof. split; [apply strict_download_failures|apply strict_downloadRemoteMod_failures]. Qed.
End strict_proofs.

(** ** A run: the Fabric loader in two chunks *)
#[local] Existing Instance ascii_unicode.
#[local] Existing Instance toy_sha256.
#[local] Existing Instance cat_urls.

Definition run_response : response :=
  mkResponse 200 false cat_url None (Some (js "3")) (Stream [Chunk (VBytes [1; 2]); Chunk (VBytes [3])]).

(** The world counts the requests. *)
#[local] Instance run_fetch : Fetch nat := {|
  fetchImpl url n := (Ok (if streq url cat_url then Some run_response else None), S n);
  timer n := (Ok false, n);
  artifactCacheReader := None |}.

Definition run_artifact : artifact :=
  mkArtifact (js "primary") (js "net.fabricmc:fabric-loader:0.16.9") cat_url (toy_digest [1; 2; 3]) 3.

Lemma body_read_exact_and_bounded_witness :
  0 <= 3 /\
  is_ok (readExactResponse 3 10 (Stream [Chunk (VBytes [1; 2]); Chunk (VBytes [3; 4])])) = false.
Proof.
  split; [discriminate|].
  apply (proj2 (body_read_exact_and_bounded 3 10 ltac:(discriminate))
           [Chunk (VBytes [1; 2]); Chunk (VBytes [3; 4])] []).
  reflexivity.
Defined.

Lemma run_download :
  strict_download MAX_ARTIFACT_BYTES run_artifact [js "maven.fabricmc.net"] 0%nat = (Ok (VBytes [1; 2; 3]), 1%nat).
Proof. vm_compute. reflexivity. Qed.

Lemma strict_downloader_exact_witness :
  exists w1 w2 href r, cache_missed run_artifact 0%nat w1 /\ timer w1 = (Ok false, w2) /\
    artifact_source [js "maven.fabricmc.net"] cat_url href /\ fetchImpl href w2 = (Ok (Some r), 1%nat) /\
    served r href [1; 2; 3].
Proof.
  destruct (proj1 (strict_downloader_exact MAX_ARTIFACT_BYTES run_artifact [js "maven.fabricmc.net"]
    VNull 0%nat (VBytes [1; 2; 3]) 1%nat) run_download) as (b & Hv & _ & [(reader & Hr & _)|Hx]); [discriminate Hr|].
  injection Hv as <-. exact Hx.
Defined.

Lemma run_rejected :
  validateApprovedArtifact MAX_ARTIFACT_BYTES run_artifact [js "example.org"] =
    Throw (failure "artifact_host_rejected").
Proof. vm_compute. reflexivity. Qed.

Lemma no_fetch_before_approval_witness :
  strict_download MAX_ARTIFACT_BYTES run_artifact [js "example.org"] 0%nat = (Throw (failure "artifact_host_rejected"), 0%nat).
Proof.
  exact (proj1 (no_fetch_before_approval MAX_ARTIFACT_BYTES run_artifact [js "example.org"] VNull
    (failure "artifact_host_rejected") 0%nat) run_rejected).
Defined.
