(* ===== verification/ToolchainLock.v ===== *)
(** * The toolchain lock ([toolchain-catalog.mjs])

    The validation of a catalog lock against the reviewed runtime catalog, and
    the strict fetcher its generator uses.  The theorems show that a lock this
    module accepts is one the worker loads, and what a fetched body is. *)

From S2P Require Import Prelude JsText JsNum JsValue Regex Validators Limits Node TarZst Bundle Content Effects Catalog Downloader.
From Stdlib Require Import Ascii.

Definition tc_failure (code : string) : exn := ToolchainCatalogFailure code.

Definition MAX_METADATA_BYTES : Z := 4 * 1024 * 1024.

Definition APPROVED_METADATA_HOSTS : list jsstr :=
  map js ["maven.minecraftforge.net"; "meta.fabricmc.net"; "maven.neoforged.net"; "meta.quiltmc.org";
          "piston-meta.mojang.com"]%string.

Definition APPROVED_ARTIFACT_HOSTS : list jsstr :=
  map js ["maven.fabricmc.net"; "maven.minecraftforge.net"; "maven.neoforged.net"; "maven.quiltmc.org";
          "libraries.minecraft.net"; "piston-data.mojang.com"]%string.

(** [JSON.stringify(value, null, 2)] *)
Class JsonPretty := { json_pretty : jsval -> jsstr }.

(** ** Small validators *)
Definition validPositiveInteger (v : jsval) (maximum : Z) : bool :=
  vint (fun z => (1 <=? z) && (z <=? maximum)) v.

(** [/^[a-f0-9]{40}$/i] *)
Definition validSha1 (v : jsval) : bool := vstr (matches (rep (Cls hex_any) 40 0)) v.

(** [value.component] and [value.major], no other key excluded *)
Definition validLockJava (v : jsval) : bool :=
  plainObject v && vstr validIdentifier (opt_prop v "component") &&
  vint (fun z => (1 <=? z) && (z <=? 255)) (opt_prop v "major").

Definition validJre (v : jsval) : bool :=
  plainObject v && sameKeys v ["component"; "id"; "major"; "runtimeCatalogRevision"; "sha256"]%string &&
  vstr validIdentifier (opt_prop v "id") && vstr validIdentifier (opt_prop v "component") &&
  vint (fun z => 1 <=? z) (opt_prop v "major") && vstr validSha256 (opt_prop v "sha256") &&
  vstr validSha256 (opt_prop v "runtimeCatalogRevision").

Definition url_segment_ok (s : jsstr) : bool := negb (zlen s =? 0) && negb (streq s (js ".")) && negb (streq s (js "..")).

Definition safeUrlPath (pathname : jsstr) : bool :=
  starts_with (js "/") pathname && (1 <? zlen pathname) && negb (includes_char BACKSLASH pathname) &&
  negb (includes_char 37 pathname) && forallb url_segment_ok (tail (split_on SLASH pathname)).

Definition javaKey (v : jsval) : jsstr :=
  to_string (opt_prop v "component") ++ NUL ++ to_string (opt_prop v "major").

Definition candidateKey (v : jsval) : jsstr :=
  to_string (opt_prop v "minecraftVersion") ++ NUL ++ to_string (opt_prop (opt_prop v "loader") "kind") ++ NUL ++
  to_string (opt_prop (opt_prop v "loader") "version") ++ NUL ++
  to_string (opt_prop (opt_prop v "java") "component") ++ NUL ++ to_string (opt_prop (opt_prop v "java") "major").

Section lock.
Context `{Unicode} `{Sha256} `{JsonParse} `{JsonStringify} `{JsonPretty} `{UrlParser}.

(** The URL checks of [assertTrustedUrl]. *)
Definition trusted_url (u : url) (hosts : list jsstr) : bool :=
  streq (u_protocol u) (js "https:") && streq (u_username u) [] && streq (u_password u) [] &&
  streq (u_port u) [] && streq (u_hash u) [] && streq (u_search u) [] &&
  str_in (toLowerCase (u_hostname u)) hosts && safeUrlPath (u_pathname u).

Definition assertTrustedUrl (value : jsval) (hosts : list jsstr) (code : string) : res unit :=
  match value with
  | VStr s =>
      match parse_url s with
      | Some u => throw_if (negb (trusted_url u hosts)) (tc_failure code)
      | None => Throw (tc_failure code)
      end
  | _ => Throw (tc_failure code)
  end.

Definition parseJson (b : bytes) (code : string) : res jsval :=
  match text_decode b with
  | Some text =>
      match json_parse text with
      | Some v => if plainObject v then Ok v else Throw (tc_failure code)
      | None => Throw (tc_failure code)
      end
  | None => Throw (tc_failure code)
  end.

(** ** The reviewed runtime catalog *)
Definition runtime_malformed : exn := tc_failure "runtime_catalog_malformed".

Record runtime := mkRuntime {
  rt_revision : jsstr;
  rt_selected : list (jsstr * jsval);
  rt_resolutions : list (jsstr * jsval);
}.

Definition add_requirement (requirements : list jsstr) (entry : jsval) : res (list jsstr) :=
  if negb (validLockJava entry) || str_in (javaKey entry) requirements then Throw runtime_malformed
  else Ok (javaKey entry :: requirements).

Definition add_resolution (resolutions : list (jsstr * jsval)) (resolution : jsval) : res (list (jsstr * jsval)) :=
  if negb (plainObject resolution) || negb (validLockJava resolution) || map_has (javaKey resolution) resolutions
  then Throw runtime_malformed
  else v ← canonicalize resolution; Ok (map_set (javaKey resolution) v resolutions).

Definition add_selected (requirements : list jsstr) (resolutions selected : list (jsstr * jsval)) (entry : jsval) :
    res (list (jsstr * jsval)) :=
  if negb (validLockJava entry) || negb (str_in (javaKey entry) requirements) ||
     negb (map_has (javaKey entry) resolutions) || map_has (javaKey entry) selected
  then Throw runtime_malformed
  else v ← canonicalize entry; Ok (map_set (javaKey entry) v selected).

Definition parseReviewedRuntimeCatalog (b : bytes) : res runtime :=
  document ← parseJson b "runtime_catalog_malformed";
  let platform := opt_prop document "platform" in
  if negb (strict_eq (opt_prop document "schemaVersion") (VInt 1)) || negb (plainObject platform) ||
     negb (strict_eq (opt_prop platform "os") (VText "linux")) ||
     negb (strict_eq (opt_prop platform "architecture") (VText "x64")) ||
     negb (is_array (opt_prop document "requirements")) || negb (is_array (opt_prop document "runtimes")) ||
     negb (is_array (opt_prop document "resolutions"))
  then Throw runtime_malformed
  else
    requirements ← foldM_res add_requirement [] (get_list (opt_prop document "requirements"));
    resolutions ← foldM_res add_resolution [] (get_list (opt_prop document "resolutions"));
    selected ← foldM_res (add_selected requirements resolutions) [] (get_list (opt_prop document "runtimes"));
    Ok (mkRuntime (sha256 b) selected resolutions).

(** [`${java.component}-${java.major}`] *)
Definition jre_id (java : jsval) : jsstr :=
  to_string (opt_prop java "component") ++ js "-" ++ to_string (opt_prop java "major").

Definition jreFor (rt : runtime) (java : jsval) : res jsval :=
  let key := javaKey java in
  if negb (map_has key (rt_selected rt)) then Throw (tc_failure "runtime_java_unavailable")
  else
    b ← canonicalJsonBytes (default VUndef (map_get key (rt_resolutions rt)));
    Ok (obj [("id", VStr (jre_id java)); ("sha256", VStr (sha256 b)); ("component", opt_prop java "component");
             ("major", opt_prop java "major"); ("runtimeCatalogRevision", VStr (rt_revision rt))]%string).

(** ** Candidates *)
Definition candidate_invalid : exn := tc_failure "candidate_invalid".

Definition validateCandidate (candidate : jsval) : res unit :=
  throw_if
    (negb (plainObject candidate) || negb (sameKeys candidate ["java"; "loader"; "minecraftVersion"]%string) ||
     negb (vstr validMinecraftVersion (opt_prop candidate "minecraftVersion")) ||
     negb (validLoader (opt_prop candidate "loader")) || negb (validLockJava (opt_prop candidate "java")))
    candidate_invalid.

Definition validateCandidates (candidates : list jsval) : res unit :=
  if (zlen candidates <? 1) || (32 <? zlen candidates) then Throw candidate_invalid
  else
    _ ← foldM_res (fun keys candidate =>
          _ ← validateCandidate candidate;
          let key := candidateKey candidate in
          if str_in key keys then Throw (tc_failure "duplicate_toolchain") else Ok (key :: keys)) [] candidates;
    Ok tt.

Definition primaryCoordinate (minecraftVersion loader : jsval) : res jsstr :=
  let mc := to_string minecraftVersion in
  let kind := opt_prop loader "kind" in
  let version := to_string (opt_prop loader "version") in
  if strict_eq kind (VText "forge") then Ok (js "net.minecraftforge:forge:" ++ mc ++ js "-" ++ version ++ js ":installer")
  else if strict_eq kind (VText "fabric") then Ok (js "net.fabricmc:fabric-loader:" ++ version)
  else if strict_eq kind (VText "neoforge") then Ok (js "net.neoforged:neoforge:" ++ version ++ js ":installer")
  else if strict_eq kind (VText "quilt") then Ok (js "org.quiltmc:quilt-loader:" ++ version)
  else Throw candidate_invalid.

(** [primaryArtifactUrl(candidate)] of a candidate with these parts *)
Definition primaryArtifactUrl (candidate : jsval) : res jsstr :=
  _ ← validateCandidate candidate;
  let loader := opt_prop candidate "loader" in
  let mc := to_string (opt_prop candidate "minecraftVersion") in
  let kind := opt_prop loader "kind" in
  let version := to_string (opt_prop loader "version") in
  if strict_eq kind (VText "forge") then
    Ok (js "https://maven.minecraftforge.net/net/minecraftforge/forge/" ++ mc ++ js "-" ++ version ++ js "/forge-" ++
        mc ++ js "-" ++ version ++ js "-installer.jar")
  else if strict_eq kind (VText "fabric") then
    Ok (js "https://maven.fabricmc.net/net/fabricmc/fabric-loader/" ++ version ++ js "/fabric-loader-" ++ version ++
        js ".jar")
  else if strict_eq kind (VText "neoforge") then
    Ok (js "https://maven.neoforged.net/releases/net/neoforged/neoforge/" ++ version ++ js "/neoforge-" ++ version ++
        js "-installer.jar")
  else if strict_eq kind (VText "quilt") then
    Ok (js "https://maven.quiltmc.org/repository/release/org/quiltmc/quilt-loader/" ++ version ++ js "/quilt-loader-" ++
        version ++ js ".jar")
  else Throw candidate_invalid.

(** ** Artifacts *)
Definition validateArtifact (hosts : list jsstr) (artifact : jsval) : res unit :=
  if negb (plainObject artifact) ||
     negb (sameKeys artifact ["coordinate"; "role"; "sha256"; "sizeBytes"; "url"]%string) ||
     negb (val_in (opt_prop artifact "role") ["primary"; "dependency"]%string) ||
     negb (vstr validCoordinate (opt_prop artifact "coordinate")) ||
     negb (vstr validSha256 (opt_prop artifact "sha256")) ||
     negb (validPositiveInteger (opt_prop artifact "sizeBytes") MAX_ARTIFACT_BYTES)
  then Throw (tc_failure "artifact_malformed")
  else assertTrustedUrl (opt_prop artifact "url") hosts "artifact_url_rejected".

(** [/^\/v1\/objects\/[a-f0-9]{40}\/server\.jar$/] *)
Definition server_object_path : re := seqs [lit "/v1/objects/"; rep (Cls hex_lower) 40 0; lit "/server.jar"].

Definition validateMinecraftServerUrl (v : jsval) : res unit :=
  match parse_url (to_string v) with
  | None => Throw (TypeError "Invalid URL")
  | Some u =>
      throw_if (negb (streq (u_hostname u) (js "piston-data.mojang.com")) ||
                negb (matches server_object_path (u_pathname u))) (tc_failure "artifact_url_rejected")
  end.

(** [compareString(l.coordinate, r.coordinate) || compareString(l.role, r.role)] is
    at most zero *)
Definition artifact_leb (l r : jsval) : bool :=
  let a := get_str (opt_prop l "coordinate") in
  let b := get_str (opt_prop r "coordinate") in
  if str_ltb a b then true else if str_ltb b a then false
  else negb (str_ltb (get_str (opt_prop r "role")) (get_str (opt_prop l "role"))).

(** A stable sort. *)
Fixpoint insert_artifact (x : jsval) (l : list jsval) : list jsval :=
  match l with
  | [] => [x]
  | y :: t => if artifact_leb x y then x :: l else y :: insert_artifact x t
  end.

Definition sortArtifacts (l : list jsval) : list jsval := foldr insert_artifact [] l.

(** Artifacts with strings to compare.  JavaScript compares other values by
    conversion; such a toolchain is refused in any case, here with the code of
    the artifact check, which may come after another refusal in the source. *)
Definition comparable (artifact : jsval) : bool :=
  is_string (opt_prop artifact "coordinate") && is_string (opt_prop artifact "role").

Definition server_of (minecraftVersion : jsval) : jsstr :=
  js "com.mojang:minecraft-server:" ++ to_string minecraftVersion ++ js ":server".

Definition required_missing : exn := tc_failure "required_artifact_missing".

(** The primary and the server artifact. *)
Definition required_artifacts (toolchain : jsval) : res (jsval * jsval) :=
  let artifacts := get_list (opt_prop toolchain "artifacts") in
  let mc := opt_prop toolchain "minecraftVersion" in
  let loader := opt_prop toolchain "loader" in
  match List.filter (fun a => strict_eq (opt_prop a "role") (VText "primary")) artifacts,
        List.filter (fun a => strict_eq (opt_prop a "coordinate") (VStr (server_of mc))) artifacts with
  | [primary], [server] =>
      coordinate ← primaryCoordinate mc loader;
      if negb (strict_eq (opt_prop primary "coordinate") (VStr coordinate)) then Throw required_missing
      else
        url ← primaryArtifactUrl (obj [("minecraftVersion", mc); ("loader", loader);
                ("java", opt_prop toolchain "java")]%string);
        if negb (strict_eq (opt_prop primary "url") (VStr url)) then Throw required_missing
        else Ok (primary, server)
  | _, _ => Throw required_missing
  end.

(** One turn of the loop over the toolchains; the state is the set of tuples. *)
Definition validateToolchain (revision : jsval) (hosts : list jsstr) (rt : runtime) (tupleKeys : list jsstr)
    (toolchain : jsval) : res (list jsstr) :=
  let loader := opt_prop toolchain "loader" in
  let jre := opt_prop toolchain "jre" in
  let artifacts := get_list (opt_prop toolchain "artifacts") in
  if negb (plainObject toolchain) ||
     negb (sameKeys toolchain ["artifacts"; "java"; "jre"; "launchTemplate"; "loader"; "minecraftVersion"]%string) ||
     negb (vstr validMinecraftVersion (opt_prop toolchain "minecraftVersion")) || negb (validLoader loader) ||
     negb (validLockJava (opt_prop toolchain "java")) || negb (validJre jre) ||
     negb (strict_eq (opt_prop toolchain "launchTemplate") (template_of (opt_prop loader "kind"))) ||
     negb (is_array (opt_prop toolchain "artifacts")) || (zlen artifacts <? 2) || (256 <? zlen artifacts)
  then Throw (tc_failure "toolchain_malformed")
  else
    let tuple := candidateKey toolchain in
    if str_in tuple tupleKeys then Throw (tc_failure "duplicate_toolchain")
    else
      expectedJre ← jreFor rt (opt_prop toolchain "java");
      actualText ← canonicalize jre;
      expectedText ← canonicalize expectedJre;
      if negb (streq (json_stringify actualText) (json_stringify expectedText)) ||
         negb (strict_eq (opt_prop jre "runtimeCatalogRevision") revision)
      then Throw (tc_failure "runtime_java_mismatch")
      else
        required ← required_artifacts toolchain;
        if negb (forallb comparable artifacts) then Throw (tc_failure "artifact_malformed")
        else if negb (streq (json_stringify (VArr (sortArtifacts artifacts))) (json_stringify (VArr artifacts)))
        then Throw (tc_failure "toolchain_not_canonical")
        else
          _ ← mapM_res (validateArtifact hosts) artifacts;
          _ ← validateMinecraftServerUrl (opt_prop required.2 "url");
          if strict_eq (opt_prop loader "kind") (VText "neoforge") && (zlen artifacts <? 3)
          then Throw required_missing else Ok (tuple :: tupleKeys).

(** ** The document *)
Definition parseCatalogDocument (document : jsval) : res jsval :=
  if negb (plainObject document) ||
     negb (sameKeys document ["approvedArtifactHosts"; "catalogRevision"; "runtimeCatalogRevision"; "schemaVersion";
             "toolchains"]%string) ||
     negb (strict_eq (opt_prop document "schemaVersion") (VInt 1)) ||
     negb (vstr validSha256 (opt_prop document "catalogRevision")) ||
     negb (vstr validSha256 (opt_prop document "runtimeCatalogRevision")) ||
     negb (is_array (opt_prop document "approvedArtifactHosts")) || negb (is_array (opt_prop document "toolchains")) ||
     (zlen (get_list (opt_prop document "toolchains")) <? 1)
  then Throw catalog_malformed
  else canonicalize document.

Definition formatCatalog (document : jsval) : res jsstr :=
  v ← canonicalize document; Ok (json_pretty v ++ [10]).

(** [sameStringList(actual, expected)] *)
Definition sameStringList (actual : jsval) (expected : list jsstr) : bool :=
  match actual with
  | VArr l => (zlen l =? zlen expected) && forallb (fun p => strict_eq p.1 (VStr p.2)) (combine l expected)
  | _ => false
  end.

(** The coverage of the expected candidates. *)
Definition covers_candidates (expected : list jsval) (toolchains : list jsval) : bool :=
  let wanted := remove_dups (map candidateKey expected) in
  let actual := remove_dups (map candidateKey toolchains) in
  (zlen wanted =? zlen actual) && forallb (fun k => str_in k actual) wanted.

(** The checks of a parsed document; the text is that of the lock file when it
    must be canonical. *)
Definition check_catalog (catalog : jsval) (rt : runtime) (expectedCandidates : option (list jsval))
    (rawLockText : option jsstr) : res unit :=
  let revision := opt_prop catalog "runtimeCatalogRevision" in
  if negb (strict_eq revision (VStr (rt_revision rt))) then Throw (tc_failure "catalog_revision_mismatch")
  else
    expected ← catalogRevisionFor catalog;
    if negb (strict_eq (opt_prop catalog "catalogRevision") (VStr expected))
    then Throw (tc_failure "catalog_revision_mismatch")
    else
      _ ← match rawLockText with
          | Some text =>
              formatted ← formatCatalog catalog;
              throw_if (negb (streq text formatted)) (tc_failure "catalog_not_canonical")
          | None => Ok tt
          end;
      if negb (sameStringList (opt_prop catalog "approvedArtifactHosts") APPROVED_ARTIFACT_HOSTS)
      then Throw (tc_failure "catalog_hosts_invalid")
      else
        _ ← foldM_res (validateToolchain revision APPROVED_ARTIFACT_HOSTS rt) []
              (get_list (opt_prop catalog "toolchains"));
        match expectedCandidates with
        | Some expected =>
            throw_if (negb (covers_candidates expected (get_list (opt_prop catalog "toolchains"))))
              (tc_failure "catalog_coverage_mismatch")
        | None => Ok tt
        end.

Definition validateToolchainCatalog (document : jsval) (runtimeCatalogBytes : bytes)
    (expectedCandidates : option (list jsval)) (rawLockText : option jsstr) : res jsval :=
  catalog ← parseCatalogDocument document;
  rt ← parseReviewedRuntimeCatalog runtimeCatalogBytes;
  _ ← check_catalog catalog rt expectedCandidates rawLockText;
  canonicalize catalog.
End lock.

(** ** Canonical documents *)

(** The loops inside [canonicalize]. *)
Definition canonical_field (kv : jsstr * jsval) : res (jsstr * jsval) := y ← canonicalize kv.2; Ok (kv.1, y).

Lemma canonicalize_arr l : canonicalize (VArr l) = (l' ← mapM_res canonicalize l; Ok (VArr l')).
Proof.
  cbn [canonicalize]. match goal with |- mbind _ (?f l) = _ => assert (forall l, f l = mapM_res canonicalize l) as -> end; [|done].
  induction l0 as [|x t IH]; [done|]. cbn. destruct (canonicalize x); cbn; [by rewrite IH|done].
Qed.

Lemma canonicalize_obj fields :
  canonicalize (VObj fields) = (fs ← mapM_res canonical_field fields; Ok (VObj (merge_sort key_le fs))).
Proof.
  cbn [canonicalize].
  match goal with |- mbind _ (?f fields) = _ => assert (forall l, f l = mapM_res canonical_field l) as -> end; [|done].
  induction l as [|[k x] t IH]; [done|]. cbn. unfold canonical_field at 1. cbn.
  destruct (canonicalize x); cbn; [by rewrite IH|done].
Qed.

Lemma canonical_fields_get fields fs k :
  mapM_res canonical_field fields = Ok fs ->
  map_keys fs = map_keys fields /\
  match map_get k fields with
  | Some v => exists v', canonicalize v = Ok v' /\ map_get k fs = Some v'
  | None => map_get k fs = None
  end.
Proof.
  intros Hm%mapM_res_ok. induction Hm as [|[k1 v1] [k2 v2] fields fs (y & Hy & [= <- <-])%bind_ok _ [IHk IH]]; [done|].
  split; [unfold map_keys in *; cbn; by rewrite IHk|]. cbn. case_bool_decide; [eauto|done].
Qed.

Lemma map_get_perm {V} (a b : list (jsstr * V)) k : a ≡ₚ b -> map_wf b -> map_get k a = map_get k b.
Proof.
  intros Hp Hb. pose proof (map_wf_perm _ _ (symmetry Hp) Hb) as Ha.
  destruct (map_get k b) as [v|] eqn:E.
  - apply map_wf_get; [done|]. apply map_get_In in E. by rewrite Hp.
  - apply map_get_None. apply map_get_None in E. unfold map_keys in *. by rewrite Hp.
Qed.

(** An object with distinct keys, made canonical: the same keys, each value
    canonical. *)
Lemma canonicalize_prop fields X k :
  map_wf fields -> canonicalize (VObj fields) = Ok X ->
  exists fs, X = VObj fs /\ map_keys fs ≡ₚ map_keys fields /\
    match map_get (js k) fields with
    | Some v => canonicalize v = Ok (opt_prop X k)
    | None => opt_prop X k = VUndef
    end.
Proof.
  intros Hwf. rewrite canonicalize_obj. intros (fs & Hm & [= <-])%bind_ok.
  destruct (canonical_fields_get fields fs (js k) Hm) as [Hk Hg]. exists (merge_sort key_le fs).
  assert (merge_sort key_le fs ≡ₚ fs) as Hp by apply merge_sort_Permutation.
  split; [done|]. split; [unfold map_keys; rewrite Hp; fold (map_keys fs); by rewrite Hk|].
  unfold opt_prop. rewrite (map_get_perm _ _ _ Hp) by (unfold map_wf; by rewrite Hk).
  destruct (map_get (js k) fields) as [v|].
  - destruct Hg as (v' & Hv & ->). done.
  - by rewrite Hg.
Qed.

Lemma canonicalize_get fields X k :
  map_wf fields -> canonicalize (VObj fields) = Ok X -> js k ∈ map_keys fields ->
  canonicalize (opt_prop (VObj fields) k) = Ok (opt_prop X k).
Proof.
  intros Hwf HX Hk. destruct (canonicalize_prop fields X k Hwf HX) as (fs & _ & _ & Hf). unfold opt_prop at 1.
  destruct (map_get (js k) fields) as [v|] eqn:E; [done|]. by apply map_get_None in E.
Qed.

(** A field of an object literal, made canonical with the object. *)
Lemma canonicalize_named fields X k :
  canonicalize (obj fields) = Ok X -> bool_decide (NoDup (map (fun kv => js kv.1) fields)) = true ->
  existsb (fun kv => String.eqb k kv.1) fields = true -> canonicalize (opt_prop (obj fields) k) = Ok (opt_prop X k).
Proof.
  intros HX Hnd%bool_decide_eq_true Hk. unfold obj in *.
  assert (map_keys (map (fun kv => (js kv.1, kv.2)) fields) = map (fun kv => js kv.1) fields) as Hkeys
    by (unfold map_keys; by rewrite map_map).
  apply canonicalize_get; [by unfold map_wf; rewrite Hkeys|done|]. rewrite Hkeys.
  apply existsb_exists in Hk as (kv & Hin & Hk%String.eqb_eq). subst k.
  apply list_elem_of_fmap. exists kv. split; [done|]. by apply list_elem_of_In.
Qed.

(** ** Coordinate keys *)
Lemma nul_split (a b c d : jsstr) : a ++ NUL ++ c = b ++ NUL ++ d -> 0 ∉ c -> 0 ∉ d -> a = b /\ c = d.
Proof.
  revert b. induction a as [|x a IH]; intros [|y b] E Hc Hd; cbn in E.
  - injection E. done.
  - injection E as <- E. exfalso. apply Hc. rewrite E. rewrite elem_of_app. right. left.
  - injection E as -> E. exfalso. apply Hd. rewrite <- E. rewrite elem_of_app. right. left.
  - injection E as -> E. destruct (IH b E Hc Hd) as [-> ->]. done.
Qed.

Definition coordinate_keys (key : jsstr) (l : list artifact) : list jsstr := map (fun a => key ++ NUL ++ a_coordinate a) l.

Lemma add_coordinates_fresh key l : forall acc,
  NoDup (map a_coordinate l) -> (forall a, a ∈ l -> key ++ NUL ++ a_coordinate a ∉ acc) ->
  add_coordinates key acc l = Ok (rev (coordinate_keys key l) ++ acc).
Proof.
  induction l as [|a l IH]; intros acc Hnd Hf; [done|]. cbn [add_coordinates map]. cbv zeta.
  assert (str_in (key ++ NUL ++ a_coordinate a) acc = false) as ->.
  { destruct (str_in _ acc) eqn:E; [|done]. apply str_in_spec in E. destruct (Hf a); [left|done]. }
  cbn [map] in Hnd. apply NoDup_cons in Hnd as [Ha Hnd].
  rewrite IH; [|done|].
  - unfold coordinate_keys. cbn [map]. cbn [rev]. by rewrite <- app_assoc.
  - intros b Hb [E|Hin]%elem_of_cons.
    + apply app_inv_head in E. apply app_inv_head in E. apply Ha. rewrite <- E. apply list_elem_of_fmap. by exists b.
    + by apply (Hf b); [right|].
Qed.

(** ** A validated lock loads *)
Section loads.
Context `{Unicode} `{Sha256} `{JsonParse} `{JsonStringify} `{JsonPretty} `{UrlParser}.

Lemma sameKeys_reorder v a b : sort_strings (map js a) = sort_strings (map js b) -> sameKeys v a = sameKeys v b.
Proof. unfold sameKeys. by intros ->. Qed.

Lemma artifact_names :
  sort_strings (map js ["coordinate"; "role"; "sha256"; "sizeBytes"; "url"]%string) =
  sort_strings (map js ["role"; "coordinate"; "url"; "sha256"; "sizeBytes"]%string).
Proof. vm_compute. reflexivity. Qed.

Lemma trusted_approved u hosts : trusted_url u hosts = true -> approved_url u hosts = true.
Proof. unfold trusted_url, approved_url. rewrite !andb_true_iff. tauto. Qed.

(** An artifact of the lock is one of the catalog. *)
Lemma artifact_loads hosts v :
  validateArtifact hosts v = Ok tt ->
  exists a, parseArtifact hosts v = Ok a /\ opt_prop v "coordinate" = VStr (a_coordinate a) /\
    opt_prop v "role" = VStr (a_role a) /\ opt_prop v "sizeBytes" = VInt (a_sizeBytes a) /\
    validCoordinate (a_coordinate a) = true.
Proof.
  unfold validateArtifact. match goal with |- (if ?b then _ else _) = _ -> _ => destruct b eqn:Eg; [done|] end.
  rewrite !orb_false_iff, !negb_false_iff in Eg. destruct Eg as [[[[[Hp Hk] Hr] Hc] Hs] Hz].
  assert (sameKeys v ["role"; "coordinate"; "url"; "sha256"; "sizeBytes"]%string = true) as Hk'
    by (by rewrite <- (sameKeys_reorder v _ _ artifact_names)).
  unfold assertTrustedUrl. destruct (opt_prop v "url") as [| | | |url| | |] eqn:Eu; try done.
  destruct (parse_url url) as [u|] eqn:Epu; [|done]. unfold throw_if.
  destruct (trusted_url u hosts) eqn:Et; cbn [negb]; [|done]. intros _.
  unfold parseArtifact. rewrite Hp, Hk', Hr, Hc, Hs, Eu. unfold validPositiveInteger in Hz. rewrite Hz. cbn [negb orb is_string get_str].
  rewrite Epu, (trusted_approved _ _ Et). cbn [negb]. eexists. split; [reflexivity|].
  cbn [a_coordinate a_role a_sizeBytes]. apply vstr_true in Hc as (co & Hc & Hcv). apply val_in_true in Hr as (ro & Hro & _).
  apply vint_true in Hz as (z & Hz & _). rewrite Hc, Hro, Hz. done.
Qed.

Lemma artifacts_load hosts l us :
  mapM_res (validateArtifact hosts) l = Ok us ->
  exists parsed, mapM_res (parseArtifact hosts) l = Ok parsed /\
    Forall2 (fun v a => opt_prop v "coordinate" = VStr (a_coordinate a) /\ opt_prop v "role" = VStr (a_role a) /\
      opt_prop v "sizeBytes" = VInt (a_sizeBytes a) /\ validCoordinate (a_coordinate a) = true) l parsed.
Proof.
  intros Hv%mapM_res_ok.
  assert (exists parsed, Forall2 (fun v a => parseArtifact hosts v = Ok a /\ opt_prop v "coordinate" = VStr (a_coordinate a) /\
    opt_prop v "role" = VStr (a_role a) /\ opt_prop v "sizeBytes" = VInt (a_sizeBytes a) /\
    validCoordinate (a_coordinate a) = true) l parsed) as (parsed & Hp).
  { induction Hv as [|v [] l us Hx _ [parsed IH]]; [exists []; constructor|].
    destruct (artifact_loads _ _ Hx) as (a & Ha). exists (a :: parsed). by constructor. }
  exists parsed. split; [apply mapM_res_ok|]; (eapply Forall2_impl; [exact Hp|]); naive_solver.
Qed.

(** The primary artifact stays the only one. *)
Lemma primary_loads l parsed p :
  Forall2 (fun v a => opt_prop v "coordinate" = VStr (a_coordinate a) /\ opt_prop v "role" = VStr (a_role a) /\
      opt_prop v "sizeBytes" = VInt (a_sizeBytes a) /\ validCoordinate (a_coordinate a) = true) l parsed ->
  List.filter (fun a => strict_eq (opt_prop a "role") (VText "primary")) l = [p] ->
  exists a, List.filter is_primary parsed = [a] /\ opt_prop p "coordinate" = VStr (a_coordinate a).
Proof.
  intros Hf. assert (Forall2 (fun v a => opt_prop v "coordinate" = VStr (a_coordinate a))
    (List.filter (fun a => strict_eq (opt_prop a "role") (VText "primary")) l) (List.filter is_primary parsed)) as Hff.
  { induction Hf as [|v a l parsed (Hc & Hr & _ & _) _ IH]; [constructor|]. cbn [List.filter]. rewrite Hr.
    change (strict_eq (VStr (a_role a)) (VText "primary")) with (is_primary a). destruct (is_primary a); [|done].
    by constructor. }
  intros E. rewrite E in Hff. inversion Hff as [|? a ? rest Hc Hrest]; subst. inversion Hrest; subst.
  exists a. done.
Qed.

(** The two objects compared by their texts. *)
Definition separated (rt : runtime) (t : jsval) : Prop :=
  forall expected a e, jreFor rt (opt_prop t "java") = Ok expected ->
    canonicalize (opt_prop t "jre") = Ok a -> canonicalize expected = Ok e ->
    json_stringify a = json_stringify e -> a = e.

(** What the loader checks beyond this module. *)
Definition loadable_toolchain (t : jsval) : Prop :=
  sameKeys (opt_prop t "java") ["component"; "major"]%string = true /\
  NoDup (map (fun a => get_str (opt_prop a "coordinate")) (get_list (opt_prop t "artifacts"))).

(** The JRE of the lock is the reviewed one, field by field. *)
Lemma jre_fields rt t expected a e k :
  validJre (opt_prop t "jre") = true -> separated rt t -> jreFor rt (opt_prop t "java") = Ok expected ->
  canonicalize (opt_prop t "jre") = Ok a -> canonicalize expected = Ok e ->
  json_stringify a = json_stringify e ->
  k ∈ ["id"; "sha256"; "component"; "major"; "runtimeCatalogRevision"]%string ->
  canonicalize (opt_prop (opt_prop t "jre") k) = canonicalize (opt_prop expected k).
Proof.
  intros Hv Hsep He Ha Hc Hj Hk. pose proof (Hsep _ _ _ He Ha Hc Hj) as ->.
  unfold validJre in Hv. rewrite !andb_true_iff in Hv. destruct Hv as [[[[[[Hp Hs] _] _] _] _] _].
  destruct (sameKeys_fields _ _ Hp Hs eq_refl ltac:(done)) as (fields & Ef & Hperm). rewrite Ef in *.
  assert (map_wf fields) as Hwf by (unfold map_wf; rewrite Hperm; vm_compute; apply (bool_decide_unpack _); vm_compute; exact I).
  assert (js k ∈ map_keys fields) as Hin.
  { rewrite Hperm. apply list_elem_of_fmap_2. rewrite !elem_of_cons in Hk |- *. tauto. }
  rewrite (canonicalize_get _ _ _ Hwf Ha Hin).
  assert (exists g, expected = VObj g /\ map_wf g /\ js k ∈ map_keys g) as (g & -> & Hwg & Hing).
  { unfold jreFor in He. cbv zeta in He. destruct (negb _); [done|]. apply bind_ok in He as (b & _ & [= <-]).
    eexists. split; [reflexivity|]. split; [unfold map_wf; apply (bool_decide_unpack _); vm_compute; exact I|].
    unfold map_keys. rewrite <- list_fmap_compose. rewrite !elem_of_cons in Hk. cbn. rewrite !elem_of_cons.
    repeat destruct Hk as [-> | Hk]; tauto || by apply not_elem_of_nil in Hk. }
  by rewrite (canonicalize_get _ _ _ Hwg Hc Hing).
Qed.

Lemma toolchain_names :
  sort_strings (map js ["artifacts"; "java"; "jre"; "launchTemplate"; "loader"; "minecraftVersion"]%string) =
  sort_strings (map js ["minecraftVersion"; "loader"; "java"; "jre"; "artifacts"; "launchTemplate"]%string).
Proof. vm_compute. reflexivity. Qed.

Lemma jre_names :
  sort_strings (map js ["component"; "id"; "major"; "runtimeCatalogRevision"; "sha256"]%string) =
  sort_strings (map js ["id"; "sha256"; "component"; "major"; "runtimeCatalogRevision"]%string).
Proof. vm_compute. reflexivity. Qed.

Lemma primary_coordinate_same mc loader version co :
  opt_prop loader "version" = VStr version -> primaryCoordinate (VStr mc) loader = Ok co ->
  expectedPrimaryCoordinate mc loader = Ok co.
Proof.
  intros Hv. unfold primaryCoordinate, expectedPrimaryCoordinate. rewrite Hv. cbn [to_string get_str].
  repeat match goal with |- context [if ?b then _ else _] => destruct b end; congruence.
Qed.

Lemma lock_java_loads v :
  validLockJava v = true -> sameKeys v ["component"; "major"]%string = true -> validJava v = true.
Proof. unfold validLockJava, validJava. rewrite !andb_true_iff. tauto. Qed.

(** The JRE object of a validated toolchain parses. *)
Lemma jre_loads rt t rev expected a e c n :
  validJre (opt_prop t "jre") = true -> separated rt t -> jreFor rt (opt_prop t "java") = Ok expected ->
  canonicalize (opt_prop t "jre") = Ok a -> canonicalize expected = Ok e -> json_stringify a = json_stringify e ->
  opt_prop (opt_prop t "jre") "runtimeCatalogRevision" = VStr rev ->
  opt_prop (opt_prop t "java") "component" = VStr c -> opt_prop (opt_prop t "java") "major" = VInt n ->
  exists j, parseJre (opt_prop t "jre") (opt_prop t "java") (VStr rev) = Ok j.
Proof.
  intros Hv Hsep He Ha Hc Hj Hrev Hcomp Hmaj.
  pose proof (fun k => jre_fields rt t expected a e k Hv Hsep He Ha Hc Hj) as Hf.
  assert (opt_prop expected "component" = VStr c /\ opt_prop expected "major" = VInt n) as [Hec Hen].
  { unfold jreFor in He. cbv zeta in He. destruct (negb _); [done|]. apply bind_ok in He as (b & _ & [= <-]). by split. }
  unfold validJre in Hv. rewrite !andb_true_iff in Hv. destruct Hv as [[[[[[Hp Hk] Hi] Hvc] Hvn] Hs] _].
  apply vstr_true in Hvc as (c' & Hc' & _). apply vint_true in Hvn as (n' & Hn' & _).
  pose proof (Hf "component"%string ltac:(rewrite !elem_of_cons; tauto)) as Hfc. rewrite Hc', Hec in Hfc.
  pose proof (Hf "major"%string ltac:(rewrite !elem_of_cons; tauto)) as Hfn. rewrite Hn', Hen in Hfn.
  cbn [canonicalize VInt] in Hfc, Hfn. unfold parseJre. rewrite <- (sameKeys_reorder _ _ _ jre_names), Hk, Hi, Hs.
  rewrite Hc', Hcomp, Hn', Hmaj, Hrev. assert (c' = c) as -> by congruence. assert (n' = n) as -> by (injection Hfn; done).
  rewrite (proj2 (strict_eq_str (VStr c) c) eq_refl), (proj2 (strict_eq_int (VInt n) n) eq_refl),
    (proj2 (strict_eq_str (VStr rev) rev) eq_refl). cbn [negb orb]. by eexists.
Qed.

(** One validated toolchain parses, with its tuple and its artifacts. *)
Lemma toolchain_loads rev hosts rt keys v keys' :
  validateToolchain (VStr rev) hosts rt keys v = Ok keys' -> loadable_toolchain v -> separated rt v ->
  keys' = candidateKey v :: keys /\ candidateKey v ∉ keys /\
  exists t, parseToolchain (VStr rev) hosts v = Ok t /\ toolchain_key t = candidateKey v /\
    map a_coordinate (t_artifacts t) = map (fun a => get_str (opt_prop a "coordinate")) (get_list (opt_prop v "artifacts")) /\
    Forall (fun a => validCoordinate (a_coordinate a) = true) (t_artifacts t).
Proof.
  unfold validateToolchain. cbv zeta. intros Hr [Hjk Hnd] Hsep. guard Hr as Eg.
  destruct Eg as [[[[[[[[[Hp Hk] Hmc] Hl] Hja] Hjre] Htpl] Harr] Hlo] Hhi].
  destruct (str_in (candidateKey v) keys) eqn:Ek; [done|].
  apply bind_ok in Hr as (expected & He & Hr). apply bind_ok in Hr as (a & Ha & Hr).
  apply bind_ok in Hr as (e & Hc & Hr). guard Hr as Ej. destruct Ej as [Hj%streq_true Hrev%strict_eq_str].
  apply bind_ok in Hr as ([primary server] & Hreq & Hr). destruct (negb (forallb comparable _)); [done|].
  destruct (negb (streq _ _)); [done|]. apply bind_ok in Hr as (us & Hart & Hr). apply bind_ok in Hr as ([] & _ & Hr).
  match type of Hr with (if ?b then _ else _) = _ => destruct b; [done|] end. injection Hr as <-.
  split; [done|]. split; [by rewrite <- str_in_spec, Ek|].
  apply artifacts_load in Hart as (parsed & Hparsed & Hf2).
  apply vstr_true in Hmc as (mc & Hmc & Hmcv).
  assert (exists version, opt_prop (opt_prop v "loader") "version" = VStr version) as (version & Hversion).
  { unfold validLoader in Hl. rewrite !andb_true_iff in Hl. destruct Hl as [_ (x & Hx & _)%vstr_true]. by exists x. }
  assert (validJava (opt_prop v "java") = true) as Hjv by (by apply lock_java_loads).
  destruct (validJava_ok _ Hjv) as (c & n & Hcomp & Hmaj & _ & _).
  unfold required_artifacts in Hreq. cbv zeta in Hreq.
  destruct (List.filter (fun a => strict_eq (opt_prop a "role") _) _) as [|p [|]] eqn:Efp; try done.
  destruct (List.filter _ _) as [|sv [|]] in Hreq; try done.
  apply bind_ok in Hreq as (co & Hco & Hreq). destruct (strict_eq _ (VStr co)) eqn:Epc; cbn [negb] in Hreq; [|done].
  apply strict_eq_str in Epc. destruct (primary_loads _ _ _ Hf2 Efp) as (pa & Hpa & Hpc).
  rewrite Hmc in Hco. apply (primary_coordinate_same _ _ _ _ Hversion) in Hco.
  destruct (jre_loads rt v rev expected a e c n Hjre Hsep He Ha Hc Hj Hrev Hcomp Hmaj) as (j & Hjp).
  assert (map a_coordinate parsed = map (fun a => get_str (opt_prop a "coordinate")) (get_list (opt_prop v "artifacts"))) as Hcoord.
  { clear -Hf2. induction Hf2 as [|x y l l' (Hx & _) _ IH]; [done|]. cbn [map]. by rewrite IH, Hx. }
  assert (plainObject (opt_prop v "jre") = true) as Hjp'.
  { unfold validJre in Hjre. rewrite !andb_true_iff in Hjre. tauto. }
  eexists. split.
  { unfold parseToolchain. cbv zeta. rewrite Hp, <- (sameKeys_reorder _ _ _ toolchain_names), Hk, Hl, Hjv, Hjp', Harr, Htpl, Hhi.
    rewrite Hmc. cbn [vstr get_str]. rewrite Hmcv, (proj2 (Z.ltb_ge (zlen (get_list (opt_prop v "artifacts"))) 1)) by lia.
    cbn [negb orb]. rewrite Hjp. cbn [mbind res_bind]. rewrite Hparsed. cbn [mbind res_bind]. rewrite Hpa, Hco.
    cbn [mbind res_bind]. assert (a_coordinate pa = co) as -> by congruence. rewrite streq_refl. cbn [negb].
    rewrite bool_decide_eq_true_2 by (by rewrite Hcoord). cbn [negb]. reflexivity. }
  cbn [t_artifacts]. split; [|split; [done|]].
  - unfold toolchain_key, candidateKey. cbn [t_minecraftVersion t_kind t_version t_component t_major].
    rewrite Hmc, Hversion, Hcomp, Hmaj. cbn [to_string get_str].
    assert (exists kind, opt_prop (opt_prop v "loader") "kind" = VStr kind) as (kind & ->).
    { destruct (expectedPrimary_string _ _ _ Hco) as (k & Hk' & _). by exists k. }
    done.
  - clear -Hf2. induction Hf2 as [|x y l l' (_ & _ & _ & ?) _ IH]; by constructor.
Qed.
(** The loop over the toolchains, with the sets of tuples and coordinates. *)
Lemma toolchains_load rev hosts rt values : forall keys keys' coords,
  foldM_res (validateToolchain (VStr rev) hosts rt) keys values = Ok keys' ->
  Forall loadable_toolchain values -> Forall (separated rt) values ->
  (forall x, x ∈ coords -> exists k c, x = k ++ NUL ++ c /\ k ∈ keys /\ 0 ∉ c) ->
  exists ts, parse_toolchains (VStr rev) hosts keys coords values = Ok ts /\
    map toolchain_key ts = map candidateKey values.
Proof.
  induction values as [|v values IH]; intros keys keys' coords Hf Hl Hs Hc; [by exists []|].
  cbn [foldM_res] in Hf. apply bind_ok in Hf as (k1 & Hv & Hf). inversion Hl; subst. inversion Hs; subst.
  destruct (toolchain_loads _ _ _ _ _ _ Hv) as (-> & Hfresh & t & Ht & Hkey & Hco & Hval); [done..|].
  cbn [parse_toolchains]. rewrite Ht. cbn [mbind res_bind]. rewrite Hkey.
  assert (str_in (candidateKey v) keys = false) as ->.
  { destruct (str_in _ keys) eqn:E; [|done]. by apply str_in_spec in E. }
  assert (NoDup (map a_coordinate (t_artifacts t))) as Hnd by (rewrite Hco; by unfold loadable_toolchain in *; destruct_and?).
  rewrite Forall_forall in Hval.
  rewrite add_coordinates_fresh; [|done|].
  2:{ intros a Ha Hin. apply Hc in Hin as (k & c & E & Hk & Hn). apply nul_split in E as [<- _]; [done| |done].
      apply coordinate_no_nul. by apply Hval. }
  cbn [mbind res_bind]. edestruct IH as (ts & -> & Hts); [exact Hf|done|done| |].
  { intros x Hx. apply elem_of_app in Hx as [Hx|Hx].
    - rewrite list_elem_of_In, <- in_rev, <- list_elem_of_In in Hx. apply list_elem_of_fmap in Hx as (a & -> & Ha).
      exists (candidateKey v), (a_coordinate a). split; [done|]. split; [left|]. apply coordinate_no_nul. by apply Hval.
    - apply Hc in Hx as (k & c & -> & Hk & Hn). exists k, c. split; [done|]. split; [by right|done]. }
  cbn [mbind res_bind]. exists (t :: ts). split; [done|]. cbn [map]. by rewrite Hkey, Hts.
Qed.

Lemma sameStringList_exact v l : sameStringList v l = true -> v = VArr (map VStr l).
Proof.
  destruct v as [| | | | |a| |]; cbn [sameStringList]; try done. rewrite andb_true_iff, Z.eqb_eq. intros [Hl Hf].
  f_equal. unfold zlen in Hl. revert l Hl Hf. induction a as [|x a IH]; intros [|y l] Hl; cbn in *; try done; try lia.
  rewrite andb_true_iff. intros [->%strict_eq_str Hf]. f_equal. apply IH; [lia|done].
Qed.

Lemma approved_hosts_valid :
  mapM_res (fun host => if vstr valid_host host then Ok (get_str host) else Throw invalid_reviewed_catalog)
    (map VStr APPROVED_ARTIFACT_HOSTS) = Ok APPROVED_ARTIFACT_HOSTS.
Proof.
  apply mapM_res_ok. rewrite Forall2_fmap_l. apply Forall_Forall2_diag. unfold APPROVED_ARTIFACT_HOSTS. cbn [map].
  repeat (apply Forall_cons; split); [..|apply Forall_nil; done]; cbn [compose];
    cbn [vstr get_str]; unfold valid_host; rewrite toLowerCase_ascii by reflexivity; reflexivity.
Qed.

Lemma document_names :
  sort_strings (map js ["approvedArtifactHosts"; "catalogRevision"; "runtimeCatalogRevision"; "schemaVersion"; "toolchains"]%string) =
  sort_strings (map js ["schemaVersion"; "catalogRevision"; "runtimeCatalogRevision"; "approvedArtifactHosts"; "toolchains"]%string).
Proof. vm_compute. reflexivity. Qed.

Lemma legacy_names :
  sort_strings (map js ["approvedArtifactHosts"; "catalogRevision"; "runtimeCatalogRevision"; "schemaVersion"; "toolchains"]%string) <>
  sort_strings (map js ["schemaVersion"; "catalogVersion"; "runtimeCatalogRevision"; "approvedArtifactHosts"; "toolchains"]%string).
Proof. apply (bool_decide_unpack _). vm_compute. exact I. Qed.

Lemma document_keys_distinct :
  NoDup (map js ["approvedArtifactHosts"; "catalogRevision"; "runtimeCatalogRevision"; "schemaVersion"; "toolchains"]%string).
Proof. apply (bool_decide_unpack _). vm_compute. exact I. Qed.

(** The canonical document has the shape that was checked. *)
Lemma document_shape document X :
  parseCatalogDocument document = Ok X ->
  plainObject X = true /\
  sameKeys X ["approvedArtifactHosts"; "catalogRevision"; "runtimeCatalogRevision"; "schemaVersion"; "toolchains"]%string = true /\
  opt_prop X "schemaVersion" = VInt 1 /\ vstr validSha256 (opt_prop X "catalogRevision") = true /\
  vstr validSha256 (opt_prop X "runtimeCatalogRevision") = true /\
  exists l, opt_prop X "toolchains" = VArr l /\ 1 <= zlen l.
Proof.
  unfold parseCatalogDocument. intros Hr. guard Hr as Eg.
  destruct Eg as [[[[[[[Hp Hk] Hs] Hc] Hrt] Ha] Ht] Hl].
  destruct (sameKeys_fields _ _ Hp Hk eq_refl ltac:(done)) as (fields & -> & Hperm).
  assert (map_wf fields) as Hwf by (unfold map_wf; rewrite Hperm; apply document_keys_distinct).
  assert (forall k, k ∈ ["approvedArtifactHosts"; "catalogRevision"; "runtimeCatalogRevision"; "schemaVersion"; "toolchains"]%string ->
    canonicalize (opt_prop (VObj fields) k) = Ok (opt_prop X k)) as Hget.
  { intros k Hin. apply canonicalize_get; [done..|]. rewrite Hperm. by apply list_elem_of_fmap_2. }
  apply strict_eq_int in Hs. apply vstr_true in Hc as (c & Hc & Hcv). apply vstr_true in Hrt as (r & Hrt & Hrv).
  destruct (canonicalize_prop fields X "toolchains" Hwf Hr) as (fs & HX & HfK & _).
  split; [by rewrite HX|]. split.
  { rewrite HX. apply sameKeys_obj. by rewrite HfK. }
  pose proof (Hget "schemaVersion"%string ltac:(rewrite !elem_of_cons; tauto)) as E1. rewrite Hs in E1.
  pose proof (Hget "catalogRevision"%string ltac:(rewrite !elem_of_cons; tauto)) as E2. rewrite Hc in E2.
  pose proof (Hget "runtimeCatalogRevision"%string ltac:(rewrite !elem_of_cons; tauto)) as E3. rewrite Hrt in E3.
  pose proof (Hget "toolchains"%string ltac:(rewrite !elem_of_cons; tauto)) as E4.
  destruct (opt_prop (VObj fields) "toolchains") as [| | | | |l| |] eqn:El; try done.
  rewrite canonicalize_arr in E4. apply bind_ok in E4 as (l' & Hm & [= E4]). cbn [canonicalize VInt] in *.
  injection E1 as <-. injection E2 as <-. injection E3 as <-. cbn [vstr]. split_and!; try done.
  exists l'. split; [done|]. apply mapM_res_ok, Forall2_length in Hm. cbn [get_list] in Hl. unfold zlen in *. lia.
Qed.

Lemma runtime_revision b rt : parseReviewedRuntimeCatalog b = Ok rt -> rt_revision rt = sha256 b.
Proof.
  unfold parseReviewedRuntimeCatalog. intros (d & _ & Hr)%bind_ok. cbv zeta in Hr. destruct (_ || _); [done|].
  apply bind_ok in Hr as (r & _ & Hr). apply bind_ok in Hr as (s & _ & Hr). by apply bind_ok in Hr as (t & _ & [= <-]).
Qed.

(** C36: A lock that the generator's validation accepts is one the worker loads:
    under what only the loader checks (at most 256 toolchains, no other key in a
    toolchain's java object, one artifact per coordinate), the construction of
    the reviewed catalog succeeds, with the hash of the runtime catalog as its
    revision, the approved hosts, and the toolchains of the lock, each under its
    own tuple.  The serializer tells the JRE object of a toolchain from any other. *)
Theorem validated_lock_loads document runtimeCatalogBytes candidates text X rt Y :
  parseCatalogDocument document = Ok X -> parseReviewedRuntimeCatalog runtimeCatalogBytes = Ok rt ->
  validateToolchainCatalog document runtimeCatalogBytes candidates text = Ok Y ->
  zlen (get_list (opt_prop X "toolchains")) <= 256 ->
  Forall loadable_toolchain (get_list (opt_prop X "toolchains")) ->
  Forall (separated rt) (get_list (opt_prop X "toolchains")) ->
  exists c, ReviewedToolchainCatalog X None = Ok c /\
    c_runtimeCatalogRevision c = sha256 runtimeCatalogBytes /\ c_approvedArtifactHosts c = APPROVED_ARTIFACT_HOSTS /\
    map toolchain_key (c_toolchains c) = map candidateKey (get_list (opt_prop X "toolchains")).
Proof.
  intros Hdoc Hrt Hval Hmax Hload Hsep. unfold validateToolchainCatalog in Hval. rewrite Hdoc in Hval. cbn [mbind res_bind] in Hval.
  rewrite Hrt in Hval. cbn [mbind res_bind] in Hval. apply bind_ok in Hval as ([] & Hc & _).
  apply runtime_revision in Hrt.
  destruct (document_shape _ _ Hdoc) as (Hp & Hk & Hs & Hcv & Hrv & values & Hts & Hmin).
  unfold check_catalog in Hc. cbv zeta in Hc.
  destruct (strict_eq _ (VStr (rt_revision rt))) eqn:Erev; cbn [negb] in Hc; [|done]. apply strict_eq_str in Erev.
  apply bind_ok in Hc as (expected & Hexp & Hc).
  destruct (strict_eq _ (VStr expected)) eqn:Eexp; cbn [negb] in Hc; [|done]. apply strict_eq_str in Eexp.
  apply bind_ok in Hc as ([] & _ & Hc). destruct (sameStringList _ _) eqn:Eh; cbn [negb] in Hc; [|done].
  apply sameStringList_exact in Eh. apply bind_ok in Hc as (keys & Hfold & _). rewrite Erev in Hfold.
  destruct (toolchains_load _ _ _ _ _ _ [] Hfold Hload Hsep) as (ts & Hparse & Hkeys); [by intros x Hx%not_elem_of_nil|].
  assert (lowerSha256 expected = true) as Hlow.
  { unfold catalogRevisionFor in Hexp. destruct X; try done. apply bind_ok in Hexp as (b & _ & [= <-]). apply sha256_hex. }
  assert (ReviewedToolchainCatalog X None = Ok (mkCatalog (toLowerCase expected) (Some (toLowerCase expected))
    (toLowerCase (rt_revision rt)) APPROVED_ARTIFACT_HOSTS ts)) as Hok.
  { unfold ReviewedToolchainCatalog, parseCatalog. cbv zeta.
    assert (sameKeys X ["schemaVersion"; "catalogRevision"; "runtimeCatalogRevision"; "approvedArtifactHosts"; "toolchains"]%string = true) as ->
      by (by rewrite <- (sameKeys_reorder X _ _ document_names)).
    assert (sameKeys X ["schemaVersion"; "catalogVersion"; "runtimeCatalogRevision"; "approvedArtifactHosts"; "toolchains"]%string = false) as ->.
    { unfold sameKeys in *. apply bool_decide_eq_true in Hk. apply bool_decide_eq_false. rewrite Hk. apply legacy_names. }
    rewrite Hp, Hs, Hcv, Hexp, Hrv, Eexp, Eh, Erev. rewrite (proj2 (strict_eq_int (VInt 1) 1) eq_refl).
    cbn [andb negb orb mbind res_bind get_str is_array get_list]. rewrite (lowerSha256_fixed expected) by done. rewrite streq_refl.
    rewrite Hts in *. cbn [get_list is_array negb orb] in *.
    rewrite (proj2 (Z.ltb_ge (zlen values) 1)), (proj2 (Z.ltb_ge 256 (zlen values))) by lia.
    rewrite approved_hosts_valid. cbn [mbind res_bind negb orb]. change (zlen (map VStr APPROVED_ARTIFACT_HOSTS) <? 1) with false.
    cbn [orb]. change (bool_decide (NoDup APPROVED_ARTIFACT_HOSTS)) with true. cbn [negb].
    rewrite Hparse. cbn [mbind res_bind c_toolchains]. 
    assert (zlen ts = zlen values) as -> by (unfold zlen; rewrite <- (length_map toolchain_key), Hkeys, length_map; done).
    rewrite (proj2 (Z.ltb_ge (zlen values) 1)) by lia. done. }
  eexists. split; [exact Hok|]. cbn. rewrite Hrt, (lowerSha256_fixed (sha256 _)) by apply sha256_hex. split_and!; done.
Qed.
End loads.

(** ** A run: a lock with one Fabric toolchain *)
Definition lock_java : jsval := obj [("component", VText "java-runtime"); ("major", VInt 21)]%string.
Definition lock_resolution : jsval :=
  obj [("component", VText "java-runtime"); ("major", VInt 21); ("manifest", VText "m")]%string.
Definition lock_runtime_text : jsstr := js "runtime-catalog".
Definition lock_runtime_document : jsval :=
  obj [("schemaVersion", VInt 1); ("platform", obj [("os", VText "linux"); ("architecture", VText "x64")]);
       ("requirements", VArr [lock_java]); ("runtimes", VArr [lock_java]); ("resolutions", VArr [lock_resolution])]%string.
Definition lock_runtime_bytes : bytes := utf8_encode lock_runtime_text.

#[local] Existing Instance ascii_unicode.
#[local] Existing Instance toy_sha256.
#[local] Instance lock_stringify : JsonStringify := {| json_stringify := to_string |}.
#[local] Instance lock_pretty : JsonPretty := {| json_pretty := to_string |}.
Definition lock_parse : JsonParse := {| json_parse s :=
  if streq s lock_runtime_text then Some lock_runtime_document else None |}.
#[local] Existing Instance lock_parse.

Definition lock_primary_url : jsstr :=
  js "https://maven.fabricmc.net/net/fabricmc/fabric-loader/0.16.9/fabric-loader-0.16.9.jar".
Definition lock_server_path : jsstr := js "/v1/objects/" ++ replicate 40 97 ++ js "/server.jar".
Definition lock_server_url : jsstr := js "https://piston-data.mojang.com" ++ lock_server_path.

Definition lock_urls : UrlParser := {| parse_url s :=
  if streq s lock_primary_url then Some (mkUrl (js "https:") [] [] (js "maven.fabricmc.net") [] 
    (js "/net/fabricmc/fabric-loader/0.16.9/fabric-loader-0.16.9.jar") [] [] s (js "https://maven.fabricmc.net"))
  else if streq s lock_server_url then Some (mkUrl (js "https:") [] [] (js "piston-data.mojang.com") [] 
    lock_server_path [] [] s (js "https://piston-data.mojang.com"))
  else None |}.
#[local] Existing Instance lock_urls.

Definition lock_revision : jsstr := sha256 lock_runtime_bytes.

Definition lock_artifact (role coordinate : string) (url : jsstr) : jsval :=
  obj [("coordinate", VText coordinate); ("role", VText role); ("sha256", VStr (toy_digest [1; 2; 3])); ("sizeBytes", VInt 3);
       ("url", VStr url)]%string.

Definition lock_runtime : runtime := Eval vm_compute in
  get_ok (mkRuntime [] [] []) (parseReviewedRuntimeCatalog lock_runtime_bytes).

Definition lock_toolchain : jsval :=
  obj [("artifacts", VArr [lock_artifact "dependency" "com.mojang:minecraft-server:1.21.1:server" lock_server_url;
          lock_artifact "primary" "net.fabricmc:fabric-loader:0.16.9" lock_primary_url]);
       ("java", lock_java); ("jre", get_ok VUndef (jreFor lock_runtime lock_java));
       ("launchTemplate", VText "fabric-server-jar-v1"); ("loader", loader_object (js "fabric") (js "0.16.9"));
       ("minecraftVersion", VText "1.21.1")]%string.

Definition lock_with (revision : jsstr) : jsval :=
  obj [("approvedArtifactHosts", VArr (map VStr APPROVED_ARTIFACT_HOSTS)); ("catalogRevision", VStr revision);
       ("runtimeCatalogRevision", VStr lock_revision); ("schemaVersion", VInt 1); ("toolchains", VArr [lock_toolchain])]%string.

Definition lock_document : jsval := Eval vm_compute in
  lock_with (get_ok [] (catalogRevisionFor (lock_with ZERO_SHA256))).
Definition lock_canonical : jsval := Eval vm_compute in get_ok VUndef (parseCatalogDocument lock_document).
Definition lock_validated : jsval := Eval vm_compute in
  get_ok VUndef (validateToolchainCatalog lock_document lock_runtime_bytes None None).

Lemma lock_document_parsed : parseCatalogDocument lock_document = Ok lock_canonical.
Proof. vm_cast_no_check (eq_refl (Ok lock_canonical)). Qed.
Lemma lock_runtime_parsed : parseReviewedRuntimeCatalog lock_runtime_bytes = Ok lock_runtime.
Proof. vm_cast_no_check (eq_refl (Ok lock_runtime)). Qed.
Lemma lock_document_valid : validateToolchainCatalog lock_document lock_runtime_bytes None None = Ok lock_validated.
Proof. vm_cast_no_check (eq_refl (Ok lock_validated)). Qed.
Lemma lock_validated_defined : lock_validated <> VUndef.
Proof. done. Qed.
Lemma lock_count : zlen (get_list (opt_prop lock_canonical "toolchains")) = 1.
Proof. vm_compute. reflexivity. Qed.

Lemma lock_separated : Forall (separated lock_runtime) (get_list (opt_prop lock_canonical "toolchains")).
Proof.
  apply Forall_singleton. intros expected a e He Ha Hc _.
  assert (jreFor lock_runtime lock_java = Ok expected) as He' by exact He.
  assert (a = get_ok VUndef (canonicalize (get_ok VUndef (jreFor lock_runtime lock_java)))) as ->.
  { injection Ha as <-. vm_compute. reflexivity. }
  injection He' as <-. injection Hc as <-. vm_compute. reflexivity.
Qed.

Lemma lock_loadable : Forall loadable_toolchain (get_list (opt_prop lock_canonical "toolchains")).
Proof.
  apply Forall_singleton. split; [vm_compute; reflexivity|]. apply (bool_decide_unpack _). vm_compute. exact I.
Qed.

Lemma validated_lock_loads_witness :
  exists c, ReviewedToolchainCatalog lock_canonical None = Ok c /\ c_runtimeCatalogRevision c = lock_revision.
Proof.
  destruct (validated_lock_loads lock_document lock_runtime_bytes None None lock_canonical lock_runtime lock_validated
    lock_document_parsed lock_runtime_parsed lock_document_valid) as (c & Hc & Hrev & _);
    [rewrite lock_count; lia|exact lock_loadable|exact lock_separated|].
  exists c. split; [exact Hc|exact Hrev].
Defined.
