(* ===== verification/CatalogFetch.v ===== *)
(** * The strict fetcher of the catalog generator ([toolchain-catalog.mjs])

    [StrictCatalogFetcher]: every request of the generator goes to an approved
    HTTPS host, follows no redirect, is bounded in size and is tried at most
    three times.  [fetch], the timer it races against and the pause between two
    attempts are operations of a class; each [fetch] is noted in a log, so that
    the theorems can speak of the requests that were sent. *)

From S2P Require Import Prelude JsText JsNum JsValue Regex Validators Limits Node TarZst Bundle Content Effects Catalog Downloader ToolchainLock.
From Stdlib Require Import Ascii.

(** [net_timer] says whether the timeout fires before the response arrives. *)
Class CatalogNet (W : Type) := {
  net_fetch : jsstr -> eff W (option response);
  net_timer : W -> bool * W;
  net_sleep : Z -> W -> W;
}.

(** ** [readBoundedResponse] *)
Section read.
Context (maxBytes : Z).

Fixpoint bounded_loop (events : list read_event) (chunks : list bytes) (total : Z) : res (list bytes * Z) :=
  match events with
  | [] => Ok (chunks, total)
  | ReadError e :: _ => Throw e
  | Chunk (VBytes value) :: rest =>
      let total' := total + zlen value in
      if maxBytes <? total' then Throw (tc_failure "upstream_size_mismatch")
      else bounded_loop rest (chunks ++ [value]) total'
  | Chunk _ :: _ => Throw (tc_failure "upstream_fetch_failed")
  end.

Definition readBoundedResponse (b : body) : res bytes :=
  match b with
  | Stream events => r ← bounded_loop events [] 0; let '(chunks, total) := r in Ok (concatenate chunks total)
  | NoBody => Throw (tc_failure "upstream_fetch_failed")
  | Buffer content =>
      b ← content;
      if maxBytes <? zlen b then Throw (tc_failure "upstream_size_mismatch") else Ok b
  end.
End read.

Section fetcher.
Context {W : Type} `{Unicode} `{UrlParser} `{CatalogNet W}.
Abbreviation M := (eff (W * list jsstr)).

(** [Promise.race([fetchImpl(url, ...), timeout])]: the request is sent in any
    case. *)
Definition raced_fetch (url : jsstr) : M (option response) := fun s =>
  let '(r, s1) := logged url (net_fetch url) s in
  let '(fired, w) := net_timer s1.1 in
  ((if fired then Throw (tc_failure "upstream_fetch_timeout") else r), (w, s1.2)).

(** [contentEncoding && contentEncoding.toLowerCase() !== "identity"] *)
Definition is_encoded (r : response) : bool :=
  match rs_contentEncoding r with
  | Some e => negb (streq e []) && negb (streq (toLowerCase e) (js "identity"))
  | None => false
  end.

Definition size_mismatch : exn := tc_failure "upstream_size_mismatch".

Definition check_response (url : jsstr) (maxBytes : Z) (requireContentLength : bool) (r : response) : res bytes :=
  if negb (rs_status r =? 200) || rs_redirected r then Throw (tc_failure "upstream_fetch_failed")
  else
    _ ← (if streq (rs_url r) [] then Ok tt
         else
           match parse_url (rs_url r), parse_url url with
           | Some a, Some b => throw_if (negb (streq (u_href a) (u_href b))) (tc_failure "upstream_redirect_rejected")
           | _, _ => Throw (TypeError "Invalid URL")
           end);
    if requireContentLength && is_encoded r then Throw size_mismatch
    else
      _ ← match rs_contentLength r with
          | Some text =>
              throw_if (negb (matches decimal text) || (maxBytes <? parse_radix 10 text)) size_mismatch
          | None => throw_if requireContentLength size_mismatch
          end;
      b ← readBoundedResponse maxBytes (rs_body r);
      if negb (is_encoded r) &&
         match rs_contentLength r with Some text => negb (zlen b =? parse_radix 10 text) | None => false end
      then Throw size_mismatch else Ok b.

(** [error instanceof ToolchainCatalogFailure] or the replacement *)
Definition as_tc_failure (e : exn) : exn :=
  match e with ToolchainCatalogFailure _ => e | _ => tc_failure "upstream_fetch_failed" end.

Definition downloadOnce (url : jsstr) (hosts : list jsstr) (maxBytes : Z) (requireContentLength : bool) : M bytes :=
  _ ← lift (assertTrustedUrl (VStr url) hosts "upstream_url_rejected");
  try_catch
    (answer ← raced_fetch url;
     match answer with
     | None => throw (tc_failure "upstream_fetch_failed")
     | Some r => lift (check_response url maxBytes requireContentLength r)
     end)
    (fun e => throw (as_tc_failure e)).

Definition retryable (e : exn) : bool :=
  match e with
  | ToolchainCatalogFailure code => bool_decide (code ∈ ["upstream_fetch_failed"; "upstream_fetch_timeout"]%string)
  | _ => false
  end.

(** [setTimeout(resolve, ms)] *)
Definition sleep (ms : Z) : M unit := fun s => (Ok tt, (net_sleep ms s.1, s.2)).

(** The loop of [#download]; [count] attempts are left. *)
Fixpoint attempts (count : nat) (attempt : Z) (url : jsstr) (hosts : list jsstr) (maxBytes : Z)
    (requireContentLength : bool) : M bytes :=
  match count with
  | O => throw (tc_failure "upstream_fetch_failed")
  | S count =>
      try_catch (downloadOnce url hosts maxBytes requireContentLength) (fun e =>
        if negb (retryable e) || (attempt =? 2) then throw e
        else
          _ ← sleep (500 * (attempt + 1));
          attempts count (attempt + 1) url hosts maxBytes requireContentLength)
  end.

Definition fetch_download (url : jsstr) (hosts : list jsstr) (maxBytes : Z) (requireContentLength : bool) : M bytes :=
  attempts 3 0 url hosts maxBytes requireContentLength.

(** The public methods, with the default limits the generator uses. *)
Definition fetch_metadata (url : jsstr) : M bytes := fetch_download url APPROVED_METADATA_HOSTS MAX_METADATA_BYTES false.
Definition fetch_artifact_bytes (url : jsstr) : M bytes :=
  fetch_download url APPROVED_ARTIFACT_HOSTS MAX_ARTIFACT_BYTES true.
Definition fetch_checksum (url : jsstr) : M bytes :=
  fetch_download url APPROVED_ARTIFACT_HOSTS MAX_METADATA_BYTES false.
End fetcher.

(** [new StrictCatalogFetcher({ timeoutMs, maxMetadataBytes, maxArtifactBytes })] *)
Definition new_fetcher (timeoutMs maxMetadataBytes maxArtifactBytes : jsval) : res unit :=
  throw_if (negb (validPositiveInteger timeoutMs 120000) ||
            negb (validPositiveInteger maxMetadataBytes MAX_METADATA_BYTES) ||
            negb (validPositiveInteger maxArtifactBytes MAX_ARTIFACT_BYTES))
           (TypeError "invalid catalog fetcher configuration").

(** ** What a fetched body is *)
Section proofs.
Context {W : Type} `{Unicode} `{UrlParser} `{CatalogNet W}.

Lemma bounded_loop_ok maxBytes events : forall chunks total chunks' total',
  total = zlen (concat chunks) -> total <= maxBytes ->
  bounded_loop maxBytes events chunks total = Ok (chunks', total') ->
  total' = zlen (concat chunks') /\ total' <= maxBytes.
Proof.
  induction events as [|e events IH]; intros chunks total chunks' total' Ht Hle; cbn [bounded_loop].
  { by intros [= <- <-]. }
  destruct e as [[| | | | | | |b]|]; try done. cbv zeta. destruct (_ <? _) eqn:E; [done|].
  apply Z.ltb_ge in E. apply IH; [|done]. rewrite concat_app, zlen_app, Ht. cbn. by rewrite app_nil_r.
Qed.

Lemma readBoundedResponse_ok maxBytes b r :
  0 <= maxBytes -> readBoundedResponse maxBytes b = Ok r -> zlen r <= maxBytes.
Proof.
  intros Hpos. destruct b as [events|content|]; cbn [readBoundedResponse]; [| |done].
  - intros ([chunks total] & Hr & [= <-])%bind_ok. apply bounded_loop_ok in Hr as [-> Hle]; [|done..].
    by rewrite concatenate_concat.
  - intros (x & -> & Hn)%bind_ok. destruct (_ <? _) eqn:E; [done|]. injection Hn as <-. lia.
Qed.

(** The network served [b] for the URL. *)
Definition served (url : jsstr) (maxBytes : Z) (requireContentLength : bool) (b : bytes) : Prop :=
  exists w w' r, net_fetch url w = (Ok (Some r), w') /\ check_response url maxBytes requireContentLength r = Ok b.

Definition trusted (url : jsstr) (hosts : list jsstr) : Prop :=
  exists u, parse_url url = Some u /\ trusted_url u hosts = true.

Lemma check_response_bounded url maxBytes req r b :
  0 <= maxBytes -> check_response url maxBytes req r = Ok b -> zlen b <= maxBytes.
Proof.
  intros Hpos. unfold check_response. destruct (_ || _); [done|]. intros (u & _ & Hr)%bind_ok.
  destruct (req && _); [done|]. apply bind_ok in Hr as (u' & _ & Hr). apply bind_ok in Hr as (x & Hx & Hr).
  match type of Hr with (if ?c then _ else _) = _ => destruct c; [done|] end. injection Hr as <-.
  by eapply readBoundedResponse_ok.
Qed.

(** A response whose length must be announced has exactly that length. *)
Lemma check_response_length url maxBytes r b :
  check_response url maxBytes true r = Ok b ->
  exists text, rs_contentLength r = Some text /\ matches decimal text = true /\ parse_radix 10 text = zlen b /\
    is_encoded r = false.
Proof.
  unfold check_response. destruct (_ || _); [done|]. intros (u & _ & Hr)%bind_ok.
  destruct (is_encoded r) eqn:Ee; cbn [andb] in Hr; [done|]. apply bind_ok in Hr as (u' & Hl & Hr).
  apply bind_ok in Hr as (x & _ & Hr). cbn [negb andb] in Hr. destruct (rs_contentLength r) as [text|]; [|done].
  exists text. unfold throw_if in Hl. destruct (matches decimal text) eqn:Em; [|done].
  destruct (zlen x =? parse_radix 10 text) eqn:Ez; [|done]. injection Hr as <-. split_and!; auto. lia.
Qed.

(** One attempt: nothing is sent to an URL that is not trusted, and exactly one
    request otherwise. *)
Lemma downloadOnce_cases url hosts maxBytes req s :
  let '(r, s') := downloadOnce url hosts maxBytes req s in
  (s' = s /\ r = Throw (tc_failure "upstream_url_rejected") /\ ~ trusted url hosts) \/
  (trusted url hosts /\ s'.2 = s.2 ++ [url] /\
   match r with Ok b => served url maxBytes req b | Throw e => exists code, e = tc_failure code end).
Proof.
  unfold downloadOnce, assertTrustedUrl, trusted. destruct (parse_url url) as [u|] eqn:Eu; cycle 1.
  { left. split_and!; [done..|]. by intros (? & ? & _). }
  unfold throw_if. destruct (trusted_url u hosts) eqn:Et; cbn [negb]; cycle 1.
  { left. split_and!; [done..|]. intros (? & [= <-] & ?). congruence. }
  unfold mbind at 1, eff_bind at 1, lift at 1, try_catch, mbind, eff_bind, raced_fetch, logged.
  destruct (net_fetch url s.1) as [r w1] eqn:Ef. cbn [fst snd].
  destruct (net_timer w1) as [fired w2]. destruct fired.
  { right. split_and!; [by eexists|done|by eexists]. }
  destruct r as [[a|]|e].
  - unfold lift. destruct (check_response url maxBytes req a) as [b|e] eqn:Ec.
    + right. split_and!; [by eexists|done|]. by exists s.1, w1, a.
    + right. split_and!; [by eexists|done|]. destruct e; by eexists.
  - right. split_and!; [by eexists|done|by eexists].
  - right. split_and!; [by eexists|done|]. destruct e; by eexists.
Qed.

Lemma attempts_cases url hosts maxBytes req count : forall attempt s,
  let '(r, s') := attempts count attempt url hosts maxBytes req s in
  exists n, (n <= count)%nat /\ s'.2 = s.2 ++ replicate n url /\ (n <> 0%nat -> trusted url hosts) /\
    match r with
    | Ok b => trusted url hosts /\ served url maxBytes req b
    | Throw e => exists code, e = tc_failure code
    end.
Proof.
  induction count as [|count IH]; intros attempt s; cbn [attempts].
  { exists 0%nat. rewrite app_nil_r. split_and!; [done..|by eexists]. }
  unfold try_catch. pose proof (downloadOnce_cases url hosts maxBytes req s) as Hd.
  destruct (downloadOnce url hosts maxBytes req s) as [[b|e] s1].
  - destruct Hd as [(_ & ? & _)|(Ht & Hl & Hs)]; [done|]. exists 1%nat. split_and!; [lia|done..].
  - assert (exists n, (n <= 1)%nat /\ s1.2 = s.2 ++ replicate n url /\ (n <> 0%nat -> trusted url hosts) /\
      exists code, e = tc_failure code) as (n & Hn & Hl & Ht & code & ->).
    { destruct Hd as [(-> & [= ->] & _)|(Ht & Hl & code & ->)].
      - exists 0%nat. rewrite app_nil_r. split_and!; [lia|done..|by eexists].
      - exists 1%nat. split_and!; [done..|by eexists]. }
    destruct (_ || _).
    { exists n. split_and!; [lia|done..|by eexists]. }
    unfold mbind, eff_bind, sleep. specialize (IH (attempt + 1) (net_sleep (500 * (attempt + 1)) s1.1, s1.2)).
    destruct (attempts _ _ _ _ _ _ _) as [r s2]. destruct IH as (m & Hm & Hl2 & Ht2 & Hr). exists (n + m)%nat.
    cbn [snd] in Hl2. split_and!; [lia|by rewrite Hl2, Hl, replicate_add, app_assoc| |done].
    intros Hnm. destruct n; [apply Ht2; lia|apply Ht; lia].
Qed.

(** C37: A fetch of the generator, whatever the network does: it sends at most
    three requests, all of them to the URL it was given, and none when that URL
    is not an HTTPS URL of an approved host without credentials, port, query or
    fragment; it fails only with a catalog failure; and a body it returns is one
    the network served for that URL, within the size limit, and of exactly the
    announced length where a length is required. *)
Theorem fetch_bounded url hosts maxBytes req s :
  0 <= maxBytes ->
  let '(r, s') := fetch_download url hosts maxBytes req s in
  exists n, (n <= 3)%nat /\ s'.2 = s.2 ++ replicate n url /\ (n <> 0%nat -> trusted url hosts) /\
    match r with
    | Ok b => trusted url hosts /\ zlen b <= maxBytes /\
        exists w w' a, net_fetch url w = (Ok (Some a), w') /\ check_response url maxBytes req a = Ok b /\
          (req = true -> exists text, rs_contentLength a = Some text /\ parse_radix 10 text = zlen b)
    | Throw e => exists code, e = ToolchainCatalogFailure code
    end.
Proof.
  intros Hpos. unfold fetch_download. pose proof (attempts_cases url hosts maxBytes req 3 0 s) as Ha.
  destruct (attempts _ _ _ _ _ _ s) as [[b|e] s']; destruct Ha as (n & Hn & Hl & Ht & Hr); exists n; split_and!; try done.
  - by destruct Hr.
  - destruct Hr as [_ (w & w' & a & _ & Hc)]. by eapply check_response_bounded.
  - destruct Hr as [_ (w & w' & a & Hf & Hc)]. exists w, w', a. split_and!; [done..|]. intros ->.
    apply check_response_length in Hc as (text & ? & _ & ? & _). by exists text.
Qed.

(** The requests of a fetch, for the computations that make it. *)
Lemma fetch_calls url hosts maxBytes req ok :
  (trusted url hosts -> ok url) -> only_calls ok (fetch_download url hosts maxBytes req).
Proof.
  intros Hok s. unfold fetch_download. pose proof (attempts_cases url hosts maxBytes req 3 0 s) as Ha.
  destruct (attempts _ _ _ _ _ _ s) as [r s']; destruct Ha as (n & _ & Hl & Ht & _). cbn [snd].
  exists (replicate n url). split; [done|]. destruct n; [constructor|]. apply Forall_replicate. by apply Hok, Ht.
Qed.

Lemma fetch_ok url hosts maxBytes req s b s' :
  fetch_download url hosts maxBytes req s = (Ok b, s') -> trusted url hosts /\ served url maxBytes req b.
Proof.
  unfold fetch_download. pose proof (attempts_cases url hosts maxBytes req 3 0 s) as Ha. intros E. rewrite E in Ha.
  by destruct Ha as (_ & _ & _ & _ & ?).
Qed.
End proofs.

(** ** A run: a server that answers at the second attempt *)
Definition flaky_url : jsstr := js "https://meta.fabricmc.net/v2/versions".
Definition flaky_response : response := mkResponse 200 false [] None (Some (js "3")) (Stream [Chunk (VBytes [1; 2]); Chunk (VBytes [3])]).

#[local] Existing Instance ascii_unicode.
Definition flaky_urls : UrlParser := {| parse_url s :=
  if streq s flaky_url then Some (mkUrl (js "https:") [] [] (js "meta.fabricmc.net") [] (js "/v2/versions") [] [] s
    (js "https://meta.fabricmc.net")) else None |}.
#[local] Existing Instance flaky_urls.
(** The world counts the requests. *)
Definition flaky_net : CatalogNet nat := {|
  net_fetch url n := (if decide (n = 0)%nat then Throw (PlainError "ECONNRESET") else Ok (Some flaky_response), S n);
  net_timer n := (false, n); net_sleep _ n := n |}.
#[local] Existing Instance flaky_net.

Example flaky_run : fetch_metadata flaky_url (0%nat, []) = (Ok [1; 2; 3], (2%nat, [flaky_url; flaky_url])).
Proof. vm_compute. reflexivity. Qed.

Lemma fetch_bounded_witness :
  exists n, (n <= 3)%nat /\ (fetch_metadata flaky_url (0%nat, [])).2.2 = replicate n flaky_url.
Proof.
  pose proof (fetch_bounded flaky_url APPROVED_METADATA_HOSTS MAX_METADATA_BYTES false (0%nat, []) ltac:(done)) as Hw.
  unfold fetch_metadata. destruct (fetch_download _ _ _ _ _) as [r s']. destruct Hw as (n & Hn & Hl & _).
  exists n. split; [exact Hn|exact Hl].
Defined.
