(* ===== verification/CatalogGenerator.v ===== *)
(** * The toolchain lock generator ([toolchain-catalog.mjs])

    [generateToolchainCatalog]: for each candidate the upstream metadata is
    fetched and cross-checked, the artifacts are downloaded and pinned by size
    and hash, and the resulting lock is validated before it is returned.  The
    parsers of upstream data (Maven metadata, checksum files, the installer's
    zip entries) are modelled as they are written. *)

From S2P Require Import Prelude JsText JsNum JsValue Regex Validators Limits Node TarZst Bundle Content Effects Catalog Downloader ToolchainLock CatalogFetch.
From Stdlib Require Import Ascii.

Definition SUPPORTED_TOOLCHAIN_CANDIDATES : list jsval :=
  map (fun '(mc, kind, version, component, major) =>
    obj [("minecraftVersion", VText mc); ("loader", obj [("kind", VText kind); ("version", VText version)]);
         ("java", obj [("component", VText component); ("major", VInt major)])])%string
  [("1.12.2", "forge", "14.23.5.2859", "jre-legacy", 8);
   ("1.17.1", "fabric", "0.12.12", "java-runtime-alpha", 16);
   ("1.20.1", "fabric", "0.15.11", "java-runtime-gamma", 17);
   ("1.21.1", "neoforge", "21.1.115", "java-runtime-delta", 21);
   ("1.21.1", "neoforge", "21.1.249", "java-runtime-delta", 21);
   ("26.2", "fabric", "0.19.3", "java-runtime-epsilon", 25)]%string.

Definition loader_malformed : exn := tc_failure "loader_metadata_malformed".
Definition minecraft_malformed : exn := tc_failure "minecraft_metadata_malformed".
Definition maven_malformed : exn := tc_failure "maven_metadata_malformed".

(** ** Maven metadata *)
Definition space : re := Cls is_space.
Definition quote : re := Cls (fun c => (c =? 34) || (c =? 39)).
Definition letter : Z -> bool := rng "a" "z" ∪c rng "A" "Z".

(** [/&(?:#\d+|#x[a-f0-9]+|[a-z]+);/i], anywhere *)
Definition entity : re :=
  seqs [anything; lit "&";
        alts [Seq (lit "#") (plus (Cls digit)); seqs [lit "#"; Cls (chr1 "x" ∪c chr1 "X"); plus (Cls hex_any)];
              plus (Cls letter)];
        lit ";"; anything].

Definition encoding_char : Z -> bool := alnum ∪c chr1 "." ∪c chr1 "_" ∪c chr1 "-".

(** The XML declaration at the start, with the white space around it. *)
Definition declaration : re :=
  seqs [Star space; lit "<?xml"; plus space; lit "version="; quote; lit "1.0"; quote;
        opt (seqs [plus space; lit "encoding="; quote; plus (Cls encoding_char); quote]);
        Star space; lit "?>"; Star space].

(** What follows the longest prefix that matches. *)
Fixpoint after_longest (r : re) (s : jsstr) : option jsstr :=
  let here := if nullable r then Some s else None in
  match s with
  | [] => here
  | c :: t => match after_longest (deriv c r) t with Some rest => Some rest | None => here end
  end.

Definition strip_declaration (xml : jsstr) : jsstr := default xml (after_longest declaration xml).

Definition trim_end (s : jsstr) : jsstr := reverse (trim_start (reverse s)).

(** What the element [metadata] holds, when nothing but white space follows it. *)
Definition metadata_body (xml : jsstr) : option jsstr :=
  if starts_with (js "<metadata>") xml then
    let rest := trim_end (zdrop (zlen (js "<metadata>")) xml) in
    if ends_with (js "</metadata>") rest then Some (ztake (zlen rest - zlen (js "</metadata>")) rest) else None
  else None.

(** The text before and after the first occurrence of a mark. *)
Fixpoint cut_at (mark s : jsstr) : option (jsstr * jsstr) :=
  if starts_with mark s then Some ([], zdrop (zlen mark) s)
  else
    match s with
    | [] => None
    | c :: t => match cut_at mark t with Some (before, after) => Some (c :: before, after) | None => None end
    end.

(** What the elements of a name hold, each up to the first closing mark (the
    groups of [matchAll]); every match is not
    empty, so that the length of the text is fuel enough. *)
Fixpoint tag_matches (fuel : nat) (opening closing s : jsstr) : list jsstr :=
  match fuel with
  | O => []
  | S fuel =>
      match cut_at opening s with
      | None => []
      | Some (_, rest) =>
          match cut_at closing rest with
          | None => []
          | Some (inside, after) => inside :: tag_matches fuel opening closing after
          end
      end
  end.

Definition singleTag (value : jsstr) (name : string) : option jsstr :=
  match tag_matches (S (length value)) (js "<" ++ js name ++ js ">") (js "</" ++ js name ++ js ">") value with
  | [x] => Some x
  | _ => None
  end.

(** [/^[A-Za-z0-9_.-]+$/] *)
Definition textTag (value : jsstr) (name : string) : option jsstr :=
  match singleTag value name with
  | Some text => if matches (plus (Cls coord_char)) text then Some text else None
  | None => None
  end.

Definition version_text : Z -> bool := coord_char ∪c chr1 "+".

Fixpoint span (p : Z -> bool) (s : jsstr) : jsstr * jsstr :=
  match s with
  | c :: t => if p c then let '(a, b) := span p t in (c :: a, b) else ([], s)
  | [] => ([], [])
  end.

(** [/<version>([0-9A-Za-z._+-]+)<\/version>/] at the start of the text *)
Definition version_at (s : jsstr) : option (jsstr * jsstr) :=
  if starts_with (js "<version>") s then
    let '(value, rest) := span version_text (zdrop (zlen (js "<version>")) s) in
    if negb (streq value []) && starts_with (js "</version>") rest
    then Some (value, zdrop (zlen (js "</version>")) rest) else None
  else None.

(** The groups of all matches, and the text with the matches removed. *)
Fixpoint scan_versions (fuel : nat) (s : jsstr) : list jsstr * jsstr :=
  match fuel, s with
  | S fuel, c :: t =>
      match version_at s with
      | Some (value, rest) => let '(values, rest') := scan_versions fuel rest in (value :: values, rest')
      | None => let '(values, rest') := scan_versions fuel t in (values, c :: rest')
      end
  | _, _ => ([], s)
  end.

Definition parseMavenMetadata (b : bytes) (expectedGroupId expectedArtifactId : jsstr) : res (list jsstr) :=
  match text_decode b with
  | None => Throw maven_malformed
  | Some xml =>
      if includes (js "<!") xml || matches entity xml then Throw maven_malformed
      else
        match metadata_body (strip_declaration xml) with
        | None => Throw maven_malformed
        | Some metadata =>
            if negb (bool_decide (textTag metadata "groupId" = Some expectedGroupId)) ||
               negb (bool_decide (textTag metadata "artifactId" = Some expectedArtifactId))
            then Throw maven_malformed
            else
              match singleTag metadata "versioning" with
              | Some (_ :: _ as versions) =>
                  match singleTag versions "versions" with
                  | Some (_ :: _ as list) =>
                      let '(values, rest) := scan_versions (length list) list in
                      if (zlen values =? 0) || negb (forallb is_space rest) then Throw maven_malformed else Ok values
                  | _ => Throw maven_malformed
                  end
              | _ => Throw maven_malformed
              end
        end
  end.

(** ** Checksums *)

(** [/^([a-f0-9]{40})(?:\s+\*?[^\s]+)?$/i] *)
Definition sidecar : re :=
  Seq (rep (Cls hex_any) 40 0) (opt (seqs [plus space; opt (lit "*"); plus (Cls (pnot is_space))])).

Definition checksum_missing : exn := tc_failure "upstream_checksum_missing".

Section parsers.
Context `{Unicode} `{Sha1} `{InflateRaw}.

(** The text of a checksum file. *)
Definition sidecar_sha1 (b : bytes) : res jsstr :=
  match text_decode b with
  | None => Throw checksum_missing
  | Some raw =>
      let text := trim raw in
      if matches sidecar text then Ok (toLowerCase (ztake 40 text)) else Throw checksum_missing
  end.

Definition verifySha1 (b : bytes) (expected : jsval) (code : string) : res unit :=
  throw_if (negb (validSha1 expected) || negb (streq (sha1 b) (toLowerCase (get_str expected)))) (tc_failure code).

(** ** The entries of an installer *)
Definition u16 (b : bytes) (offset : Z) : Z := js_or (byte_at b offset) (js_shl (byte_at b (offset + 1)) 8).
Definition u32 (b : bytes) (offset : Z) : Z := js_ushr (js_or (u16 b offset) (js_shl (u16 b (offset + 2)) 16)) 0.

(** The data of a record; [None] leaves the inner loop. *)
Definition entry_data (b : bytes) (central local : Z) : res (option bytes) :=
  if negb (u32 b local =? 0x04034b50) then Ok None
  else
    let method := u16 b (central + 10) in
    let start := local + 30 + u16 b (local + 26) + u16 b (local + 28) in
    let compressed := subarray b start (start + u32 b (central + 20)) in
    result ← (if method =? 0 then Ok (Some compressed)
              else if method =? 8 then
                match inflateRawSync compressed with
                | Some content => Ok (Some content)
                | None => Throw (PlainError "Z_DATA_ERROR")
                end
              else Ok None);
    match result with
    | Some content => Ok (if zlen content =? u32 b (central + 24) then Some content else None)
    | None => Ok None
    end.

(** The loop over the central directory. *)
Fixpoint find_record (entries : nat) (b : bytes) (central : Z) (expectedPath : jsstr) : res (option bytes) :=
  match entries with
  | O => Ok None
  | S entries =>
      if negb (u32 b central =? 0x02014b50) then Ok None
      else
        let nameLength := u16 b (central + 28) in
        match text_decode (subarray b (central + 46) (central + 46 + nameLength)) with
        | None => Throw (TypeError "ERR_ENCODING_INVALID_ENCODED_DATA")
        | Some name =>
            if streq name expectedPath then entry_data b central (u32 b (central + 42))
            else
              find_record entries b (central + (46 + nameLength + u16 b (central + 30) + u16 b (central + 32)))
                expectedPath
        end
  end.

(** The search for an end record, from the last possible offset down. *)
Fixpoint find_directory (count : nat) (b : bytes) (offset : Z) (expectedPath : jsstr) : res bytes :=
  match count with
  | O => Throw loader_malformed
  | S count =>
      if negb (u32 b offset =? 0x06054b50) then find_directory count b (offset - 1) expectedPath
      else
        found ← find_record (Z.to_nat (u16 b (offset + 10))) b (u32 b (offset + 16)) expectedPath;
        match found with
        | Some content => Ok content
        | None => find_directory count b (offset - 1) expectedPath
        end
  end.

Definition readZipEntry (b : bytes) (expectedPath : jsstr) : res bytes :=
  if zlen b <? 22 then Throw loader_malformed else find_directory (eocd_count b) b (zlen b - 22) expectedPath.

(** [value.replace(/@(jar|zip|txt)$/, "")] *)
Definition strip_extension (value : jsstr) : jsstr :=
  if existsb (fun e => ends_with (js e) value) ["@jar"; "@zip"; "@txt"]%string
  then ztake (zlen value - 4) value else value.

Definition normalizeMavenCoordinate (v : jsval) : option jsstr :=
  match v with
  | VStr value => let coordinate := strip_extension value in if validCoordinate coordinate then Some coordinate else None
  | _ => None
  end.
End parsers.

(** ** The generator *)
Definition MANIFEST_URL : jsstr := js "https://piston-meta.mojang.com/mc/game/version_manifest_v2.json".

Definition verifyMinecraftJava (metadata candidate : jsval) : res unit :=
  let java := opt_prop metadata "javaVersion" in
  let wanted := opt_prop candidate "java" in
  if is_undef java then
    throw_if (negb (strict_eq (opt_prop wanted "component") (VText "jre-legacy") &&
                    strict_eq (opt_prop wanted "major") (VInt 8))) (tc_failure "minecraft_java_mismatch")
  else
    throw_if (negb (plainObject java) || negb (strict_eq (opt_prop java "component") (opt_prop wanted "component")) ||
              negb (strict_eq (opt_prop java "majorVersion") (opt_prop wanted "major")))
             (tc_failure "minecraft_java_mismatch").

(** An artifact and its bytes, the property that is not enumerated. *)
Definition downloaded : Type := jsval * bytes.

Definition artifact_object (role : string) (coordinate url : jsstr) (sizeBytes : Z) (hash : jsstr) : jsval :=
  obj [("role", VText role); ("coordinate", VStr coordinate); ("url", VStr url); ("sizeBytes", VInt sizeBytes);
       ("sha256", VStr hash)]%string.

(** [compareToolchains(left, right)] is at most zero, for the strings and numbers
    of validated candidates. *)
Definition toolchain_leb (l r : jsval) : bool :=
  let keys v := [get_str (opt_prop v "minecraftVersion"); get_str (opt_prop (opt_prop v "loader") "kind");
                 get_str (opt_prop (opt_prop v "loader") "version"); get_str (opt_prop (opt_prop v "java") "component")] in
  (fix compare (a b : list jsstr) : bool :=
     match a, b with
     | x :: a, y :: b => if str_ltb x y then true else if str_ltb y x then false else compare a b
     | _, _ => get_int (opt_prop (opt_prop l "java") "major") <=? get_int (opt_prop (opt_prop r "java") "major")
     end) (keys l) (keys r).

(** [toolchains.sort(compareToolchains)], a stable sort *)
Fixpoint insert_toolchain (x : jsval) (l : list jsval) : list jsval :=
  match l with
  | [] => [x]
  | y :: t => if toolchain_leb x y then x :: l else y :: insert_toolchain x t
  end.

Definition sort_toolchains (l : list jsval) : list jsval := foldr insert_toolchain [] l.

Section generator.
Context {W : Type} `{Unicode} `{Sha256} `{Sha1} `{InflateRaw} `{JsonParse} `{JsonStringify} `{JsonPretty} `{UrlParser}.
Context `{CatalogNet W}.
Abbreviation M := (eff (W * list jsstr)).

Definition fetch_json (url : jsstr) (code : string) : M jsval :=
  b ← fetch_metadata url; lift (parseJson b code).

(** One turn of the loop over the candidates. *)
Definition load_version (versions : list jsval) (selected : list (jsstr * jsval)) (candidate : jsval) :
    M (list (jsstr * jsval)) :=
  let mc := opt_prop candidate "minecraftVersion" in
  if map_has (get_str mc) selected then mret selected
  else
    match List.filter (fun entry => strict_eq (opt_prop entry "id") mc) versions with
    | [entry] =>
        if negb (plainObject entry) || negb (validSha1 (opt_prop entry "sha1")) || negb (is_string (opt_prop entry "url"))
        then throw minecraft_malformed
        else
          _ ← lift (assertTrustedUrl (opt_prop entry "url") [js "piston-meta.mojang.com"] "upstream_url_rejected");
          b ← fetch_metadata (get_str (opt_prop entry "url"));
          _ ← lift (verifySha1 b (opt_prop entry "sha1") "upstream_checksum_mismatch");
          metadata ← lift (parseJson b "minecraft_metadata_malformed");
          _ ← lift (verifyMinecraftJava metadata candidate);
          mret (map_set (get_str mc) metadata selected)
    | _ => throw minecraft_malformed
    end.

Definition loadMinecraftMetadata (candidates : list jsval) : M (list (jsstr * jsval)) :=
  manifest ← fetch_json MANIFEST_URL "minecraft_metadata_malformed";
  if negb (is_array (opt_prop manifest "versions")) then throw minecraft_malformed
  else foldM_eff (load_version (get_list (opt_prop manifest "versions"))) [] candidates.

Definition downloadArtifact (role : string) (coordinate url : jsstr) (expectedSha1 expectedSize : jsval) : M downloaded :=
  if negb (validSha1 expectedSha1) then throw checksum_missing
  else
    b ← fetch_artifact_bytes url;
    if negb (is_undef expectedSize) && negb (strict_eq (VInt (zlen b)) expectedSize) then throw size_mismatch
    else
      _ ← lift (verifySha1 b expectedSha1 "upstream_checksum_mismatch");
      mret (artifact_object role coordinate url (zlen b) (sha256 b), b).

Definition loadFabricMetadata (candidate : jsval) : M jsval :=
  let mc := opt_prop candidate "minecraftVersion" in
  let version := opt_prop (opt_prop candidate "loader") "version" in
  metadata ← fetch_json (js "https://meta.fabricmc.net/v2/versions/loader/" ++ get_str mc ++ js "/" ++ get_str version)
    "loader_metadata_malformed";
  let loader := opt_prop metadata "loader" in
  let intermediary := opt_prop metadata "intermediary" in
  if negb (plainObject loader) || negb (strict_eq (opt_prop loader "version") version) ||
     negb (strict_eq (opt_prop loader "maven") (VStr (js "net.fabricmc:fabric-loader:" ++ get_str version))) ||
     negb (plainObject intermediary) ||
     negb (strict_eq (opt_prop intermediary "version") mc || strict_eq (opt_prop intermediary "version") (VText "0.0.0"))
  then throw loader_malformed else mret metadata.

Definition loadQuiltMetadata (candidate : jsval) : M jsval :=
  let mc := opt_prop candidate "minecraftVersion" in
  let version := opt_prop (opt_prop candidate "loader") "version" in
  metadata ← fetch_json (js "https://meta.quiltmc.org/v3/versions/loader/" ++ get_str mc ++ js "/" ++ get_str version)
    "loader_metadata_malformed";
  let loader := opt_prop metadata "loader" in
  let intermediary := opt_prop metadata "intermediary" in
  if negb (plainObject loader) || negb (strict_eq (opt_prop loader "version") version) ||
     negb (strict_eq (opt_prop loader "maven") (VStr (js "org.quiltmc:quilt-loader:" ++ get_str version))) ||
     negb (validPositiveInteger (opt_prop loader "file_size") MAX_ARTIFACT_BYTES) ||
     negb (plainObject (opt_prop loader "hashes")) || negb (validSha1 (opt_prop (opt_prop loader "hashes") "sha1")) ||
     (negb (is_undef intermediary) &&
      (negb (plainObject intermediary) || negb (strict_eq (opt_prop intermediary "version") mc)))
  then throw loader_malformed else mret metadata.

Definition verifyMavenArtifactVersion (candidate : jsval) : M unit :=
  let mc := get_str (opt_prop candidate "minecraftVersion") in
  let loader := opt_prop candidate "loader" in
  let version := get_str (opt_prop loader "version") in
  let forge := strict_eq (opt_prop loader "kind") (VText "forge") in
  let groupPath := js (if forge then "net/minecraftforge/forge" else "releases/net/neoforged/neoforge") in
  let host := js (if forge then "maven.minecraftforge.net" else "maven.neoforged.net") in
  let groupId := js (if forge then "net.minecraftforge" else "net.neoforged") in
  let artifactId := js (if forge then "forge" else "neoforge") in
  let expectedVersion := if forge then mc ++ js "-" ++ version else version in
  xml ← fetch_metadata (js "https://" ++ host ++ js "/" ++ groupPath ++ js "/maven-metadata.xml");
  versions ← lift (parseMavenMetadata xml groupId artifactId);
  lift (throw_if (negb (str_in expectedVersion versions)) (tc_failure "loader_version_unavailable")).

Definition fetchMavenSha1 (artifactUrl : jsstr) : M jsval :=
  b ← fetch_checksum (artifactUrl ++ js ".sha1"); h ← lift (sidecar_sha1 b); mret (VStr h).

Definition resolvePrimaryArtifact (candidate : jsval) : M downloaded :=
  let loader := opt_prop candidate "loader" in
  let kind := opt_prop loader "kind" in
  url ← lift (primaryArtifactUrl candidate);
  coordinate ← lift (primaryCoordinate (opt_prop candidate "minecraftVersion") loader);
  expected ← (if strict_eq kind (VText "fabric") then
                metadata ← loadFabricMetadata candidate;
                expectedSha1 ← fetchMavenSha1 url;
                if negb (strict_eq (opt_prop (opt_prop metadata "loader") "version") (opt_prop loader "version"))
                then throw loader_malformed else mret (expectedSha1, VUndef)
              else if strict_eq kind (VText "quilt") then
                metadata ← loadQuiltMetadata candidate;
                mret (opt_prop (opt_prop (opt_prop metadata "loader") "hashes") "sha1",
                      opt_prop (opt_prop metadata "loader") "file_size")
              else
                _ ← verifyMavenArtifactVersion candidate;
                expectedSha1 ← fetchMavenSha1 url;
                mret (expectedSha1, VUndef));
  downloadArtifact "primary" coordinate url expected.1 expected.2.

(** A download an upstream document describes. *)
Definition described (v : jsval) : bool :=
  plainObject v && is_string (opt_prop v "url") && validSha1 (opt_prop v "sha1") &&
  validPositiveInteger (opt_prop v "size") MAX_ARTIFACT_BYTES.

Definition resolveMinecraftServer (metadata candidate : jsval) : M downloaded :=
  let server := opt_prop (opt_prop metadata "downloads") "server" in
  if negb (described server) then throw minecraft_malformed
  else
    _ ← lift (assertTrustedUrl (opt_prop server "url") [js "piston-data.mojang.com"] "upstream_url_rejected");
    downloadArtifact "dependency" (server_of (opt_prop candidate "minecraftVersion")) (get_str (opt_prop server "url"))
      (opt_prop server "sha1") (opt_prop server "size").

(** One library: the downloaded artifacts so far and the keys seen. *)
Definition add_library (acc : list downloaded * list jsstr) (library : jsval) : M (list downloaded * list jsstr) :=
  let download := opt_prop (opt_prop library "downloads") "artifact" in
  match normalizeMavenCoordinate (opt_prop library "name") with
  | Some coordinate =>
      if negb (described download) then throw loader_malformed
      else
        let key := coordinate ++ NUL ++ get_str (opt_prop download "url") in
        if str_in key acc.2 then mret acc
        else
          a ← downloadArtifact "dependency" coordinate (get_str (opt_prop download "url")) (opt_prop download "sha1")
                (opt_prop download "size");
          mret (acc.1 ++ [a], key :: acc.2)
  | None => throw loader_malformed
  end.

(** [profile.data?.MOJMAPS?.server?.slice(1, -1)] *)
Definition mappings_name (profile : jsval) : res jsval :=
  match opt_prop (opt_prop (opt_prop profile "data") "MOJMAPS") "server" with
  | VStr s => Ok (VStr (ztake (zlen s - 2) (zdrop 1 s)))
  | VUndef | VNull => Ok VUndef
  | VArr l => Ok (VArr (ztake (zlen l - 2) (zdrop 1 l)))
  | _ => Throw (TypeError "slice is not a function")
  end.

(** [profile.json.replace(/^\//, "")] of a string *)
Definition version_path (profile : jsval) : jsstr :=
  match opt_prop profile "json" with
  | VStr (c :: t) => if c =? SLASH then t else c :: t
  | _ => []
  end.

Definition resolveNeoForgeDependencies (installerBytes : bytes) (metadata candidate : jsval) : M (list downloaded) :=
  entry ← lift (readZipEntry installerBytes (js "install_profile.json"));
  profile ← lift (parseJson entry "loader_metadata_malformed");
  entry ← lift (readZipEntry installerBytes (version_path profile));
  version ← lift (parseJson entry "loader_metadata_malformed");
  if negb (strict_eq (opt_prop profile "minecraft") (opt_prop candidate "minecraftVersion")) ||
     negb (is_array (opt_prop profile "libraries")) ||
     negb (strict_eq (opt_prop version "id")
             (VStr (js "neoforge-" ++ get_str (opt_prop (opt_prop candidate "loader") "version")))) ||
     negb (is_array (opt_prop version "libraries"))
  then throw loader_malformed
  else
    acc ← foldM_eff add_library ([], []) (get_list (opt_prop profile "libraries") ++ get_list (opt_prop version "libraries"));
    let mappings := opt_prop (opt_prop metadata "downloads") "server_mappings" in
    name ← lift (mappings_name profile);
    match normalizeMavenCoordinate name with
    | Some mappingsCoordinate =>
        if negb (described mappings) then throw minecraft_malformed
        else
          a ← downloadArtifact "dependency" mappingsCoordinate (get_str (opt_prop mappings "url"))
                (opt_prop mappings "sha1") (opt_prop mappings "size");
          mret (acc.1 ++ [a])
    | None => throw minecraft_malformed
    end.

(** One turn of the loop of [generateToolchainCatalog]. *)
Definition generate_toolchain (rt : runtime) (minecraft : list (jsstr * jsval)) (toolchains : list jsval)
    (candidate : jsval) : M (list jsval) :=
  let loader := opt_prop candidate "loader" in
  let metadata := default VUndef (map_get (get_str (opt_prop candidate "minecraftVersion")) minecraft) in
  jre ← lift (jreFor rt (opt_prop candidate "java"));
  primary ← resolvePrimaryArtifact candidate;
  server ← resolveMinecraftServer metadata candidate;
  dependencies ← (if strict_eq (opt_prop loader "kind") (VText "neoforge")
                  then resolveNeoForgeDependencies primary.2 metadata candidate else mret []);
  mret (toolchains ++
    [obj [("minecraftVersion", opt_prop candidate "minecraftVersion"); ("loader", loader);
          ("java", opt_prop candidate "java"); ("jre", jre);
          ("artifacts", VArr (sortArtifacts (primary.1 :: server.1 :: map fst dependencies)));
          ("launchTemplate", template_of (opt_prop loader "kind"))]%string]).

Definition lock_object (rt : runtime) (revision : jsstr) (toolchains : list jsval) : jsval :=
  obj [("schemaVersion", VInt 1); ("catalogRevision", VStr revision); ("runtimeCatalogRevision", VStr (rt_revision rt));
       ("approvedArtifactHosts", VArr (map VStr APPROVED_ARTIFACT_HOSTS)); ("toolchains", VArr (sort_toolchains toolchains))]%string.

Definition generateToolchainCatalog (runtimeCatalogBytes : bytes) (candidates : list jsval) : M jsval :=
  rt ← lift (parseReviewedRuntimeCatalog runtimeCatalogBytes);
  _ ← lift (validateCandidates candidates);
  minecraft ← loadMinecraftMetadata candidates;
  toolchains ← foldM_eff (generate_toolchain rt minecraft) [] candidates;
  revision ← lift (catalogRevisionFor (lock_object rt ZERO_SHA256 toolchains));
  let lock := lock_object rt revision toolchains in
  _ ← lift (validateToolchainCatalog lock runtimeCatalogBytes (Some candidates) None);
  lift (canonicalize lock).
End generator.

(** ** Fuel *)
Lemma cut_at_length mark s before after :
  mark <> [] -> cut_at mark s = Some (before, after) -> (length after < length s)%nat.
Proof.
  intros Hm. revert before after. induction s as [|c s IH]; intros before after; cbn [cut_at].
  - destruct mark; [done|]. by cbn.
  - destruct (starts_with mark (c :: s)).
    + intros [= _ <-]. cbn [zdrop]. destruct mark as [|x mark]; [done|].
      rewrite (proj2 (Z.leb_gt (zlen (x :: mark)) 0)) by (rewrite zlen_cons; pose proof (zlen_nonneg mark); lia).
      pose proof (zdrop_length (zlen (x :: mark) - 1) s). cbn. lia.
    + destruct (cut_at mark s) as [[b a]|] eqn:E; [|done]. intros [= _ <-]. specialize (IH b a eq_refl). cbn. lia.
Qed.

(** The matches do not depend on the fuel, once there is one unit per character. *)
Lemma tag_matches_fuel opening closing : closing <> [] -> opening <> [] -> forall f s f',
  (length s < f)%nat -> (length s < f')%nat -> tag_matches f opening closing s = tag_matches f' opening closing s.
Proof.
  intros Hc Ho. induction f as [|f IH]; intros s f' Hf Hf'; [lia|]. destruct f' as [|f']; [lia|]. cbn [tag_matches].
  destruct (cut_at opening s) as [[b1 a1]|] eqn:E1; [|done]. apply cut_at_length in E1; [|done].
  destruct (cut_at closing a1) as [[b2 a2]|] eqn:E2; [|done]. apply cut_at_length in E2; [|done].
  f_equal. apply IH; lia.
Qed.

Lemma span_length p s a b : span p s = (a, b) -> (length b <= length s)%nat.
Proof.
  revert a b. induction s as [|c s IH]; intros a b; cbn [span]; [by intros [= <- <-]|].
  destruct (p c); [|by intros [= <- <-]]. destruct (span p s) as [a' b']. intros [= <- <-]. specialize (IH _ _ eq_refl). cbn. lia.
Qed.

Lemma version_at_length c s v rest : version_at (c :: s) = Some (v, rest) -> (length rest <= length s)%nat.
Proof.
  unfold version_at. destruct (starts_with _ _); [|done].
  destruct (span version_text _) as [value r] eqn:E. destruct (_ && _); [|done]. intros [= _ <-].
  apply span_length in E. change (zdrop (zlen (js "<version>")) (c :: s)) with (zdrop 8 s) in E.
  pose proof (zdrop_length 8 s). pose proof (zdrop_length (zlen (js "</version>")) r). lia.
Qed.

Lemma scan_versions_fuel f : forall s f', (length s <= f)%nat -> (length s <= f')%nat -> scan_versions f s = scan_versions f' s.
Proof.
  induction f as [|f IH]; intros s f' Hf Hf'; (destruct s as [|c s]; [by destruct f'|]); [cbn in Hf; lia|].
  destruct f' as [|f']; [cbn in Hf'; lia|]. cbn [scan_versions length] in *.
  destruct (version_at (c :: s)) as [[v rest]|] eqn:E.
  - apply version_at_length in E. rewrite (IH rest f') by lia. done.
  - rewrite (IH s f') by lia. done.
Qed.

(** ** The requests of a generation *)
Section requests.
Context {W : Type} `{Unicode} `{Sha256} `{Sha1} `{InflateRaw} `{JsonParse} `{JsonStringify} `{JsonPretty} `{UrlParser}.
Context `{CatalogNet W}.

Definition approved_request (url : jsstr) : Prop :=
  trusted url APPROVED_METADATA_HOSTS \/ trusted url APPROVED_ARTIFACT_HOSTS.

Lemma metadata_calls url : only_calls (W := W) approved_request (fetch_metadata url).
Proof. apply fetch_calls. by left. Qed.

Lemma artifact_calls url : only_calls (W := W) approved_request (fetch_artifact_bytes url).
Proof. apply fetch_calls. by right. Qed.

Lemma checksum_calls url : only_calls (W := W) approved_request (fetch_checksum url).
Proof. apply fetch_calls. by right. Qed.

#[local] Hint Resolve metadata_calls artifact_calls checksum_calls : calls.

Lemma downloadArtifact_calls role coordinate url h n :
  only_calls (W := W) approved_request (downloadArtifact role coordinate url h n).
Proof. unfold downloadArtifact. calls. Qed.

Lemma minecraft_calls candidates : only_calls (W := W) approved_request (loadMinecraftMetadata candidates).
Proof.
  unfold loadMinecraftMetadata, fetch_json. calls. apply only_calls_foldM. intros selected candidate _.
  unfold load_version. cbv zeta. calls.
Qed.

#[local] Hint Resolve downloadArtifact_calls : calls.

Lemma primary_calls candidate : only_calls (W := W) approved_request (resolvePrimaryArtifact candidate).
Proof.
  unfold resolvePrimaryArtifact, loadFabricMetadata, loadQuiltMetadata, verifyMavenArtifactVersion, fetchMavenSha1, fetch_json.
  cbv zeta. calls.
Qed.

Lemma server_calls metadata candidate : only_calls (W := W) approved_request (resolveMinecraftServer metadata candidate).
Proof. unfold resolveMinecraftServer. cbv zeta. calls. Qed.

Lemma neoforge_calls b metadata candidate :
  only_calls (W := W) approved_request (resolveNeoForgeDependencies b metadata candidate).
Proof.
  unfold resolveNeoForgeDependencies. cbv zeta. calls.
  apply only_calls_foldM. intros acc library _. unfold add_library. cbv zeta. calls.
Qed.

#[local] Hint Resolve minecraft_calls primary_calls server_calls neoforge_calls : calls.

(** Whatever the upstream servers answer, every request of a generation goes to
    an HTTPS URL of an approved host, without credentials, port, query or
    fragment: neither a version manifest nor an installer can direct the
    generator elsewhere. *)
Theorem generation_requests_approved runtimeCatalogBytes candidates s :
  exists requests, (generateToolchainCatalog (W := W) runtimeCatalogBytes candidates s).2.2 = s.2 ++ requests /\
    Forall approved_request requests.
Proof.
  cut (only_calls (W := W) approved_request (generateToolchainCatalog runtimeCatalogBytes candidates)); [intros Hc; apply Hc|].
  unfold generateToolchainCatalog. calls. apply only_calls_foldM. intros toolchains candidate _.
  unfold generate_toolchain. cbv zeta. calls.
Qed.
End requests.

(** ** What a generated lock pins *)

Section pinned.
Context {W : Type} `{Unicode} `{Sha256} `{Sha1} `{InflateRaw} `{JsonParse} `{JsonStringify} `{JsonPretty} `{UrlParser}.
Context `{CatalogNet W}.

(** The artifact describes bytes the network served for its URL. *)
Definition pinned (a : jsval) : Prop :=
  exists url b, opt_prop a "url" = VStr url /\ trusted url APPROVED_ARTIFACT_HOSTS /\
    served (W := W) url MAX_ARTIFACT_BYTES true b /\
    opt_prop a "sha256" = VStr (sha256 b) /\ opt_prop a "sizeBytes" = VInt (zlen b).

Definition pins (role : string) (coordinate url : jsstr) (b : bytes) (a : jsval) : Prop :=
  a = artifact_object role coordinate url (zlen b) (sha256 b) /\ trusted url APPROVED_ARTIFACT_HOSTS /\
  served (W := W) url MAX_ARTIFACT_BYTES true b.

Lemma downloadArtifact_ok role coordinate url h n s a b s' :
  downloadArtifact (W := W) role coordinate url h n s = (Ok (a, b), s') ->
  pins role coordinate url b a /\ VStr (sha1 b) = VStr (toLowerCase (get_str h)).
Proof.
  unfold downloadArtifact. destruct (negb _); [done|]. intros (x & s1 & Hf & Hr)%eff_bind_ok.
  destruct (_ && _); [done|]. apply eff_bind_ok in Hr as (u & s2 & Hv & Hr). apply lift_ok in Hv as [Hv ->].
  apply mret_ok in Hr as [[= -> ->] ->]. apply fetch_ok in Hf as [Ht Hs].
  unfold verifySha1, throw_if in Hv. destruct (streq (sha1 x) _) eqn:E; [|by rewrite orb_true_r in Hv].
  apply streq_true in E. by rewrite E.
Qed.

(** An artifact as the generator builds it. *)
Definition built_artifact (a : jsval) : Prop := exists role coordinate url b, pins role coordinate url b a.

Lemma downloadArtifact_built role coordinate url h n s r s' :
  downloadArtifact (W := W) role coordinate url h n s = (Ok r, s') -> built_artifact r.1.
Proof. destruct r as [a b]. intros [Hp _]%downloadArtifact_ok. by exists role, coordinate, url, b. Qed.

Lemma built_pinned a X : built_artifact a -> canonicalize a = Ok X -> pinned X.
Proof.
  intros (role & coordinate & url & b & -> & Ht & Hs) HX.
  unfold artifact_object in HX. pose proof (fun k => canonicalize_named _ X k HX eq_refl) as Hg.
  exists url, b. split_and!; [|done..| |].
  - specialize (Hg "url"%string eq_refl). by injection Hg as <-.
  - specialize (Hg "sha256"%string eq_refl). by injection Hg as <-.
  - specialize (Hg "sizeBytes"%string eq_refl). by injection Hg as <-.
Qed.

Lemma insert_artifact_perm x l : insert_artifact x l ≡ₚ x :: l.
Proof. induction l as [|y l IH]; cbn; [done|]. destruct (artifact_leb x y); [done|]. rewrite IH. constructor. Qed.

Lemma sortArtifacts_perm l : sortArtifacts l ≡ₚ l.
Proof. induction l as [|x l IH]; cbn; [done|]. unfold sortArtifacts in IH. by rewrite insert_artifact_perm, IH. Qed.

Lemma insert_toolchain_perm x l : insert_toolchain x l ≡ₚ x :: l.
Proof. induction l as [|y l IH]; cbn [insert_toolchain]; [done|]. destruct (toolchain_leb x y); [done|]. rewrite IH. constructor. Qed.

Lemma sort_toolchains_perm l : sort_toolchains l ≡ₚ l.
Proof. induction l as [|x l IH]; cbn; [done|]. unfold sort_toolchains in IH. by rewrite insert_toolchain_perm, IH. Qed.

Lemma libraries_built l acc w acc' w' :
  Forall (fun a => built_artifact a.1) acc.1 -> foldM_eff (add_library (W := W)) acc l w = (Ok acc', w') ->
  Forall (fun a => built_artifact a.1) acc'.1.
Proof.
  intros Hacc Hf. eapply (foldM_eff_ind _ (fun acc => Forall (fun a => built_artifact a.1) acc.1)); [exact Hacc| |exact Hf].
  clear. intros library acc w acc' w' _ Hacc. unfold add_library. cbv zeta.
  destruct (normalizeMavenCoordinate _); [|done]. destruct (negb _); [done|]. destruct (str_in _ _).
  { by intros [-> _]%mret_ok. }
  intros (a & w1 & Hd & Hr)%eff_bind_ok. apply mret_ok in Hr as [-> _]. apply Forall_app. split; [done|].
  apply Forall_singleton. by eapply downloadArtifact_built.
Qed.

Lemma dependencies_built b metadata candidate s l s' :
  resolveNeoForgeDependencies (W := W) b metadata candidate s = (Ok l, s') -> Forall (fun a => built_artifact a.1) l.
Proof.
  unfold resolveNeoForgeDependencies. cbv zeta. intros Hr. eff_inv. destruct (_ || _) in *; [done|]. eff_inv.
  match goal with Hf : foldM_eff _ _ _ _ = _ |- _ => apply libraries_built in Hf; [|constructor] end.
  destruct (normalizeMavenCoordinate _); [|done]. destruct (negb _); [done|].
  match goal with Hd : (_ ≫= _) _ = _ |- _ => apply eff_bind_ok in Hd as (a & w1 & Hd & Hr) end.
  apply mret_ok in Hr as [-> _]. apply Forall_app. split; [done|]. apply Forall_singleton.
  by eapply downloadArtifact_built.
Qed.

(** The checksum file of a primary artifact names the downloaded bytes. *)
Definition confirmed (url : jsstr) (b : bytes) : Prop :=
  exists checksum h, served (W := W) (url ++ js ".sha1") MAX_METADATA_BYTES false checksum /\
    sidecar_sha1 checksum = Ok h /\ sha1 b = toLowerCase h.

Lemma fetchMavenSha1_ok url s h s' :
  fetchMavenSha1 (W := W) url s = (Ok h, s') ->
  exists checksum x, served (W := W) (url ++ js ".sha1") MAX_METADATA_BYTES false checksum /\
    sidecar_sha1 checksum = Ok x /\ h = VStr x.
Proof.
  unfold fetchMavenSha1. intros Hr. eff_inv.
  match goal with Hf : fetch_checksum _ _ = _ |- _ => apply fetch_ok in Hf as [_ Hs] end.
  eexists _, _. split; [exact Hs|]. split; [eassumption|done].
Qed.

Lemma primary_built candidate s a b s' :
  resolvePrimaryArtifact (W := W) candidate s = (Ok (a, b), s') ->
  exists coordinate url, primaryArtifactUrl candidate = Ok url /\
    primaryCoordinate (opt_prop candidate "minecraftVersion") (opt_prop candidate "loader") = Ok coordinate /\
    pins "primary" coordinate url b a /\
    (opt_prop (opt_prop candidate "loader") "kind" <> VText "quilt" -> confirmed url b).
Proof.
  unfold resolvePrimaryArtifact. cbv zeta. intros (url & s1 & Hu & Hr)%eff_bind_ok. apply lift_ok in Hu as [Hu ->].
  apply eff_bind_ok in Hr as (co & s2 & Hc & Hr). apply lift_ok in Hc as [Hc ->].
  apply eff_bind_ok in Hr as ([h n] & s3 & He & Hr). cbn [fst snd] in Hr. apply downloadArtifact_ok in Hr as [Hp [= Hh]].
  exists co, url. split_and!; [done..|]. intros Hq.
  assert (exists s4 s5, fetchMavenSha1 (W := W) url s4 = (Ok h, s5)) as (s4 & s5 & Hm).
  { destruct (strict_eq _ (VText "fabric")) in He.
    - apply eff_bind_ok in He as (m & s4 & _ & He). apply eff_bind_ok in He as (h' & s5 & Hm & He).
      destruct (negb _); [done|]. apply mret_ok in He as [[= -> ->] ->]. eauto.
    - destruct (strict_eq _ (VText "quilt")) eqn:Eq in He; [by apply strict_eq_str in Eq|].
      apply eff_bind_ok in He as (m & s4 & _ & He). apply eff_bind_ok in He as (h' & s5 & Hm & He).
      apply mret_ok in He as [[= -> ->] ->]. eauto. }
  apply fetchMavenSha1_ok in Hm as (checksum & x & Hs & Hx & ->). by exists checksum, x.
Qed.

Lemma server_built metadata candidate s a b s' :
  resolveMinecraftServer (W := W) metadata candidate s = (Ok (a, b), s') -> built_artifact a.
Proof.
  unfold resolveMinecraftServer. cbv zeta. destruct (negb _); [done|]. intros (u & s1 & _ & Hr)%eff_bind_ok.
  by apply downloadArtifact_built in Hr.
Qed.

(** A toolchain of the lock before it is made canonical. *)
Definition built_toolchain (t : jsval) : Prop :=
  exists candidate jre artifacts, t =
    obj [("minecraftVersion", opt_prop candidate "minecraftVersion"); ("loader", opt_prop candidate "loader");
         ("java", opt_prop candidate "java"); ("jre", jre); ("artifacts", VArr artifacts);
         ("launchTemplate", template_of (opt_prop (opt_prop candidate "loader") "kind"))]%string /\
    Forall built_artifact artifacts /\
    exists coordinate url b, 
      primaryCoordinate (opt_prop candidate "minecraftVersion") (opt_prop candidate "loader") = Ok coordinate /\
      artifact_object "primary" coordinate url (zlen b) (sha256 b) ∈ artifacts /\
      (opt_prop (opt_prop candidate "loader") "kind" <> VText "quilt" -> confirmed url b).

Lemma toolchain_built rt minecraft toolchains candidate s l s' :
  generate_toolchain (W := W) rt minecraft toolchains candidate s = (Ok l, s') ->
  Forall built_toolchain toolchains -> Forall built_toolchain l.
Proof.
  unfold generate_toolchain. cbv zeta. intros Hr Hts. apply eff_bind_ok in Hr as (jre & s1 & _ & Hr).
  apply eff_bind_ok in Hr as ([p pb] & s2 & Hp & Hr). apply eff_bind_ok in Hr as ([sv svb] & s3 & Hs & Hr).
  apply eff_bind_ok in Hr as (deps & s4 & Hd & Hr). apply mret_ok in Hr as [-> _]. cbn [fst snd] in *.
  apply Forall_app. split; [done|]. apply Forall_singleton.
  apply primary_built in Hp as (co & url & _ & Hco & Hpins & Hconf). apply server_built in Hs.
  assert (Forall (fun a => built_artifact a.1) deps) as Hdeps.
  { destruct (strict_eq _ _) in Hd; [by eapply dependencies_built|]. apply mret_ok in Hd as [-> _]. constructor. }
  exists candidate, jre, (sortArtifacts (p :: sv :: map fst deps)). split; [done|]. split.
  - rewrite sortArtifacts_perm. constructor; [by exists "primary"%string, co, url, pb|]. constructor; [done|]. by apply Forall_map.
  - exists co, url, pb. split; [done|]. split; [|done]. rewrite sortArtifacts_perm. destruct Hpins as [<- _]. left.
Qed.

Lemma toolchains_built rt minecraft candidates s l s' :
  foldM_eff (generate_toolchain (W := W) rt minecraft) [] candidates s = (Ok l, s') -> Forall built_toolchain l.
Proof.
  intros Hf. eapply (foldM_eff_ind _ (Forall built_toolchain)); [constructor| |exact Hf].
  intros candidate ts w ts' w' _ Hts Hg. by eapply toolchain_built.
Qed.

(** The primary artifact of a toolchain was confirmed by its checksum file
    (Quilt's metadata holds the checksum itself). *)
Definition primary_confirmed (t : jsval) : Prop :=
  opt_prop t "launchTemplate" <> VText "quilt-server-jar-v1" ->
  exists a url b, a ∈ get_list (opt_prop t "artifacts") /\ opt_prop a "role" = VText "primary" /\
    opt_prop a "url" = VStr url /\ opt_prop a "sha256" = VStr (sha256 b) /\ confirmed url b.

Lemma canonical_list l X : canonicalize (VArr l) = Ok X -> Forall2 (fun x y => canonicalize x = Ok y) l (get_list X).
Proof. rewrite canonicalize_arr. intros (l' & Hm & [= <-])%bind_ok. by apply mapM_res_ok. Qed.

Lemma built_toolchain_canonical t X :
  built_toolchain t -> canonicalize t = Ok X ->
  Forall pinned (get_list (opt_prop X "artifacts")) /\ primary_confirmed X.
Proof.
  intros (candidate & jre & artifacts & -> & Ha & coordinate & url & b & _ & Hin & Hconf) HX.
  pose proof (canonicalize_named _ X "artifacts" HX eq_refl eq_refl) as Hg. apply canonical_list in Hg.
  pose proof (canonicalize_named _ X "launchTemplate" HX eq_refl eq_refl) as Htpl. clear HX. split.
  - clear Hin. induction Hg as [|x y l l' Hxy _ IH]; [constructor|].
    apply Forall_cons in Ha as [Hx Ha]. constructor; [by eapply built_pinned|auto].
  - intros Hq. apply list_elem_of_lookup in Hin as (i & Hi). destruct (Forall2_lookup_l _ _ _ _ _ Hg Hi) as (a & Hai & HA).
    exists a, url, b. split; [by eapply list_elem_of_lookup_2|]. unfold artifact_object in HA.
    pose proof (fun k => canonicalize_named _ a k HA eq_refl) as Hf.
    pose proof (Hf "role"%string eq_refl) as [= <-]. pose proof (Hf "url"%string eq_refl) as [= <-].
    pose proof (Hf "sha256"%string eq_refl) as [= <-]. split_and!; [done..|]. apply Hconf. intros Hk. apply Hq.
    change (opt_prop (obj _) "launchTemplate") with (template_of (opt_prop (opt_prop candidate "loader") "kind")) in Htpl.
    rewrite Hk in Htpl. by injection Htpl as <-.
Qed.

(** C35: What a generated lock pins.  The lock is the canonical form of a document
    that passes the full validation against the runtime catalog and covers the
    candidates; and every artifact of every toolchain is pinned to bytes that an
    approved host served for exactly the URL in the lock: its hash is theirs, and
    its size is theirs and the length the server announced.  The primary artifact
    of a toolchain other than Quilt's agrees with the checksum file beside it. *)
Theorem generated_lock_pinned runtimeCatalogBytes candidates s lock s' :
  generateToolchainCatalog (W := W) runtimeCatalogBytes candidates s = (Ok lock, s') ->
  (exists document Y, parseCatalogDocument document = Ok lock /\
     validateToolchainCatalog document runtimeCatalogBytes (Some candidates) None = Ok Y) /\
  Forall (fun t => Forall pinned (get_list (opt_prop t "artifacts")) /\ primary_confirmed t) (get_list (opt_prop lock "toolchains")).
Proof.
  unfold generateToolchainCatalog. intros (rt & s1 & _ & Hr)%eff_bind_ok. apply eff_bind_ok in Hr as (u & s2 & _ & Hr).
  apply eff_bind_ok in Hr as (mc & s3 & _ & Hr). apply eff_bind_ok in Hr as (ts & s4 & Hts & Hr).
  apply eff_bind_ok in Hr as (rev & s5 & _ & Hr). cbv zeta in Hr. apply eff_bind_ok in Hr as (Y & s6 & Hv & Hr).
  apply lift_ok in Hv as [Hv ->]. apply lift_ok in Hr as [Hr _]. split.
  - exists (lock_object rt rev ts), Y. split; [|done]. unfold validateToolchainCatalog in Hv.
    apply bind_ok in Hv as (X & HX & _). rewrite HX. unfold parseCatalogDocument in HX. guard HX as Eg. congruence.
  - apply toolchains_built in Hts. rewrite <- sort_toolchains_perm in Hts.
    assert (canonicalize (VArr (sort_toolchains ts)) = Ok (opt_prop lock "toolchains")) as Hg.
    { exact (canonicalize_named _ lock "toolchains" Hr eq_refl eq_refl). }
    apply canonical_list in Hg. revert Hts. induction Hg as [|x y l l' Hxy _ IH]; intros Hts; [constructor|].
    apply Forall_cons in Hts as [Hx Hts]. constructor; [by eapply built_toolchain_canonical|auto].
Qed.
End pinned.

(** ** A run: a generation for one Fabric candidate *)
Definition demo_candidate : jsval :=
  obj [("minecraftVersion", VText "1.21.1"); ("loader", obj [("kind", VText "fabric"); ("version", VText "0.16.9")]);
       ("java", lock_java)]%string.

#[local] Existing Instance ascii_unicode.
#[local] Existing Instance toy_sha256.
#[local] Instance demo_sha1 : Sha1 := {| sha1 b := zdrop 24 (toy_digest b) |}.
#[local] Instance demo_inflate : InflateRaw := {| inflateRawSync _ := None |}.
#[local] Instance demo_stringify : JsonStringify := {| json_stringify := to_string |}.
#[local] Instance demo_pretty : JsonPretty := {| json_pretty := to_string |}.

(** URLs with a host and a path. *)
#[local] Instance demo_urls : UrlParser := {| parse_url s :=
  match (if starts_with (js "https://") s then cut_at [SLASH] (zdrop 8 s) else None) with
  | Some (host, path) => Some (mkUrl (js "https:") [] [] host [] (SLASH :: path) [] [] s (js "https://" ++ host))
  | None => None
  end |}.

Definition demo_version_url : jsstr := js "https://piston-meta.mojang.com/v1/packages/1.21.1.json".
Definition demo_fabric_url : jsstr := js "https://meta.fabricmc.net/v2/versions/loader/1.21.1/0.16.9".
Definition demo_hash (b : bytes) : jsval := VStr (zdrop 24 (toy_digest b)).

(** The documents behind the texts the servers send. *)
#[local] Instance demo_parse : JsonParse := {| json_parse s :=
  default None (map_get s
    [(lock_runtime_text, Some lock_runtime_document);
     (js "manifest", Some (obj [("versions", VArr [obj [("id", VText "1.21.1"); ("sha1", demo_hash (js "version"));
        ("url", VStr demo_version_url)]])]%string));
     (js "version", Some (obj [("javaVersion", obj [("component", VText "java-runtime"); ("majorVersion", VInt 21)]);
        ("downloads", obj [("server", obj [("url", VStr lock_server_url); ("sha1", demo_hash [4; 5]); ("size", VInt 2)])])]%string));
     (js "fabric", Some (obj [("loader", obj [("version", VText "0.16.9"); ("maven", VText "net.fabricmc:fabric-loader:0.16.9")]);
        ("intermediary", obj [("version", VText "1.21.1")])]%string))]) |}.

Definition demo_content (url : jsstr) : option bytes :=
  map_get url [(MANIFEST_URL, js "manifest"); (demo_version_url, js "version"); (demo_fabric_url, js "fabric");
    (lock_primary_url, [1; 2; 3]); (lock_primary_url ++ js ".sha1", zdrop 24 (toy_digest [1; 2; 3]) ++ js "  loader.jar");
    (lock_server_url, [4; 5])].

#[local] Instance demo_net : CatalogNet unit := {|
  net_fetch url _ :=
    (Ok (option_map (fun b => mkResponse 200 false [] None (Some (to_radix 10 (zlen b))) (Stream [Chunk (VBytes b)]))
       (demo_content url)), tt);
  net_timer _ := (false, tt);
  net_sleep _ _ := tt |}.

Definition demo_generation : res jsval * (unit * list jsstr) := Eval vm_compute in
  generateToolchainCatalog lock_runtime_bytes [demo_candidate] (tt, []).
Definition demo_lock : jsval := Eval vm_compute in get_ok VUndef demo_generation.1.

Lemma demo_generated : generateToolchainCatalog lock_runtime_bytes [demo_candidate] (tt, []) = (Ok demo_lock, demo_generation.2).
Proof. vm_cast_no_check (eq_refl (@Ok jsval demo_lock, demo_generation.2)). Qed.

(** Six requests, all answered. *)
Example demo_requests : length demo_generation.2.2 = 6%nat.
Proof. reflexivity. Qed.

Lemma generated_lock_pinned_witness :
  zlen (get_list (opt_prop demo_lock "toolchains")) = 1 /\
  Forall (fun t => Forall (pinned (W := unit)) (get_list (opt_prop t "artifacts")) /\ primary_confirmed (W := unit) t)
    (get_list (opt_prop demo_lock "toolchains")).
Proof.
  split; [vm_compute; reflexivity|].
  exact (proj2 (generated_lock_pinned lock_runtime_bytes [demo_candidate] (tt, []) demo_lock demo_generation.2 demo_generated)).
Defined.

(** The shipped candidates pass their own validation. *)
Example supported_candidates_valid : validateCandidates SUPPORTED_TOOLCHAIN_CANDIDATES = Ok tt.
Proof. vm_compute. reflexivity. Qed.
