(* ===== verification/Builder.v ===== *)
(** * The reviewed runtime builder ([reviewed-builder.mjs])

    [ReviewedRuntimeBuilder.build]: resolve the toolchain, resolve the JRE,
    download the artifacts, assemble in the sandbox, add the bundle's files, the
    remote mods and the two generated files, package and validate.  The JRE
    registry, the downloader and the sandbox are interfaces; nothing is assumed
    of what they answer. *)

From S2P Require Import Prelude JsText JsNum JsValue Regex Validators Limits Node TarZst Bundle Content Effects Catalog Downloader.

(** ** Dependencies *)

(** The JRE the sandbox runs, with the token of its read-only root. *)
Record verified_jre := mkVerifiedJre { vj_jre : jre; vj_rootToken : jsstr }.

(** One downloaded artifact handed to the sandbox. *)
Record supplied := mkSupplied { su_coordinate : jsstr; su_url : jsstr; su_bytes : bytes }.

Record assembly_request := mkAssembly {
  as_jre : verified_jre; as_plan : plan; as_artifacts : list supplied }.

(** What [assemble] resolves to: an attestation and a [Map] of files, whose
    values are not yet trusted ([None] is a value that is not a [Map]). *)
Record sandbox_result := mkSandboxResult {
  sr_attestation : jsval;
  sr_files : option (list (jsstr * jsval));
}.

Class Assembler (W : Type) := {
  jre_resolve : jre -> eff W jsval;
  capabilities : jsval;
  assemble : assembly_request -> eff W (option sandbox_result);
}.

Definition requiredSandboxCapabilities : list (string * jsval) :=
  [("ephemeralWorkspace", VBool true); ("nonRoot", VBool true); ("readOnlyBaseFilesystem", VBool true);
   ("noSecrets", VBool true); ("noDockerSocket", VBool true); ("boundedResources", VBool true);
   ("egress", VText "approved-artifacts-only")]%string.

Definition hasCapabilities (v : jsval) : bool :=
  plainObject v && forallb (fun kv => strict_eq (opt_prop v kv.1) kv.2) requiredSandboxCapabilities.

Definition validSandboxAttestation (v : jsval) : bool :=
  plainObject v && strict_eq (opt_prop v "ephemeralWorkspace") (VBool true) &&
  strict_eq (opt_prop v "nonRoot") (VBool true) && strict_eq (opt_prop v "readOnlyBaseFilesystem") (VBool true) &&
  strict_eq (opt_prop v "noSecrets") (VBool true) && strict_eq (opt_prop v "noDockerSocket") (VBool true) &&
  strict_eq (opt_prop v "boundedResources") (VBool true) && strict_eq (opt_prop v "network") (VText "disabled").

(** ** The sandbox output *)

(** [file?.bytes?.byteLength], when it is an integer *)
Definition byte_length (f : jsval) : option Z :=
  match opt_prop f "bytes" with
  | VBytes b => Some (zlen b)
  | v => match opt_prop v "byteLength" with VNum (NInt z) => Some z | _ => None end
  end.

Definition invalid_installer_output : exn := failure "invalid_installer_output".

Section builder.
Context {W : Type} `{Unicode} `{Sha256} `{UrlParser} `{JsonParse} `{JsonStringify}.
Context `{ArtifactDownloader W} `{Assembler W}.

(** One turn of the loop over [result.files]. *)
Definition accept_output (pf : jsstr * jsval) : res (jsstr * file) :=
  let '(path, f) := pf in
  if negb (safeOutputPath path) then Throw invalid_installer_output
  else if forbiddenOutputPath path then Throw invalid_installer_output
  else if starts_with (js ".xmcl/") path then Throw invalid_installer_output
  else
    match opt_prop f "bytes", opt_prop f "mode" with
    | VBytes b, VNum (NInt mode) =>
        if is_safe mode then Ok (path, mkFile b mode) else Throw invalid_installer_output
    | _, _ => Throw invalid_installer_output
    end.

Definition normalizeSandboxOutput (result : option sandbox_result) : res (list (jsstr * file)) :=
  match result with
  | None => Throw (failure "installer_failed")
  | Some r =>
      if negb (validSandboxAttestation (sr_attestation r)) then Throw (failure "installer_failed")
      else
        match sr_files r with
        | None => Throw invalid_installer_output
        | Some fs =>
            if (MAX_OUTPUT_FILES <? zlen fs) ||
               negb (outputSizeWithinLimit (map (fun pf => byte_length pf.2) fs) (Some maxSandboxBytes))
            then Throw invalid_installer_output
            else foldM_res (fun files pf => kv ← accept_output pf; Ok (map_set kv.1 kv.2 files)) [] fs
        end
  end.

(** ** Bundle files and remote mods *)
Definition invalid_local_content : exn := failure "invalid_local_content".

Definition copy_bundle_file (entries : list (jsstr * bytes)) (files : list (jsstr * file)) (f : mfile) :
    res (list (jsstr * file)) :=
  if negb (starts_with (js "instance/") (mf_path f)) then Ok files
  else
    let outputPath := zdrop (zlen (js "instance/")) (mf_path f) in
    match map_get (mf_path f) entries with
    | None => Throw invalid_local_content
    | Some source =>
        if negb (zlen source =? mf_sizeBytes f) || negb (streq (sha256 source) (mf_sha256 f)) ||
           negb (safeOutputPath outputPath) || forbiddenOutputPath outputPath || map_has outputPath files
        then Throw invalid_local_content
        else Ok (map_set outputPath (mkFile source MODE_644) files)
    end.

Definition copyValidatedBundleContent (files : list (jsstr * file)) (m : manifest)
    (entries : list (jsstr * bytes)) : res (list (jsstr * file)) :=
  foldM_res (copy_bundle_file entries) files (m_files m).

Definition collision_key (path : jsstr) : jsstr := toLowerCase (normalizeNFKC path).

(** One turn of the loop over the frozen mods; the state is the set of taken
    destinations and the files. *)
Definition add_remote_mod (state : list jsstr * list (jsstr * file)) (mod_ : jsval) :
    eff W (list jsstr * list (jsstr * file)) :=
  let '(destinations, files) := state in
  _ ← lift (validateRemoteMod MAX_ARTIFACT_BYTES mod_);
  let path := js "mods/" ++ get_str (opt_prop mod_ "filename") in
  let collisionKey := collision_key path in
  if str_in collisionKey destinations || negb (safeOutputPath path) || forbiddenOutputPath path
  then throw (failure "remote_mod_collision")
  else
    value ← downloadRemoteMod mod_;
    match value with
    | VBytes b =>
        if negb (zlen b =? get_int (opt_prop mod_ "sizeBytes")) ||
           negb (streq (sha256 b) (get_str (opt_prop mod_ "sha256")))
        then throw (failure "remote_mod_hash_mismatch")
        else mret (collisionKey :: destinations, map_set path (mkFile b MODE_644) files)
    | _ => throw (failure "remote_mod_hash_mismatch")
    end.

Definition addRemoteMods (files : list (jsstr * file)) (mods : jsval) : eff W (list (jsstr * file)) :=
  match mods with
  | VUndef => mret files
  | VArr l =>
      if MAX_OUTPUT_FILES <? zlen l then throw (failure "invalid_remote_mod")
      else
        state ← foldM_eff add_remote_mod (map collision_key (map_keys files), files) l;
        mret state.2
  | _ => throw (failure "invalid_remote_mod")
  end.

(** ** Generated files *)
Definition addGeneratedFile (files : list (jsstr * file)) (path : jsstr) (b : bytes) (mode : Z) :
    res (list (jsstr * file)) :=
  if map_has path files then Throw invalid_installer_output
  else Ok (map_set path (mkFile b mode) files).

Definition runtimeDescriptor (t : toolchain) (p : plan) : jsval :=
  obj [("schemaVersion", VInt 1); ("runtimeCatalogRevision", VStr (j_runtimeCatalogRevision (t_jre t)));
       ("minecraftVersion", VStr (t_minecraftVersion t)); ("loader", loader_object (t_kind t) (t_version t));
       ("java", obj [("component", VStr (t_component t)); ("major", VInt (t_major t));
          ("jreId", VStr (j_id (t_jre t)))]);
       ("launch", obj [("path", VStr LAUNCH_SH); ("kind", VText "generated-server-launcher");
          ("arguments", VArr (map VStr (p_arguments p)))])]%string.

Definition encodeJson (v : jsval) : bytes := utf8_encode (json_stringify v).

(** ** The JRE *)
Definition compiler_unavailable : exn := failure "compiler_unavailable".

(** [v?.toLowerCase()] *)
Definition lower_opt (v : jsval) : res jsval :=
  match v with
  | VStr s => Ok (VStr (toLowerCase s))
  | VUndef | VNull => Ok VUndef
  | _ => Throw (TypeError "toLowerCase is not a function")
  end.

Definition check_jre (actual : jsval) (expected : jre) : res verified_jre :=
  if negb (plainObject actual) || negb (strict_eq (opt_prop actual "verified") (VBool true)) ||
     negb (strict_eq (opt_prop actual "readOnly") (VBool true)) ||
     negb (strict_eq (opt_prop actual "id") (VStr (j_id expected)))
  then Throw compiler_unavailable
  else
    sha ← lower_opt (opt_prop actual "sha256");
    if negb (strict_eq sha (VStr (j_sha256 expected))) ||
       negb (strict_eq (opt_prop actual "component") (VStr (j_component expected))) ||
       negb (strict_eq (opt_prop actual "major") (VInt (j_major expected)))
    then Throw compiler_unavailable
    else
      revision ← lower_opt (opt_prop actual "runtimeCatalogRevision");
      if negb (strict_eq revision (VStr (j_runtimeCatalogRevision expected))) ||
         negb (vstr validIdentifier (opt_prop actual "rootToken"))
      then Throw compiler_unavailable
      else Ok (mkVerifiedJre
                 (mkJre (get_str (opt_prop actual "id")) (get_str sha) (get_str (opt_prop actual "component"))
                    (get_int (opt_prop actual "major")) (get_str revision))
                 (get_str (opt_prop actual "rootToken"))).

Definition resolveVerifiedJre (expected : jre) : eff W verified_jre :=
  actual ← try_catch (jre_resolve expected) (fun _ => throw compiler_unavailable);
  lift (check_jre actual expected).

(** ** [build] *)
Definition fetch_supplied (hosts : list jsstr) (artifacts : list supplied) (a : artifact) :
    eff W (list supplied) :=
  value ← download a hosts;
  match value with
  | VBytes b =>
      if negb (zlen b =? a_sizeBytes a) || negb (streq (sha256 b) (a_sha256 a))
      then throw (failure "artifact_hash_mismatch")
      else mret (artifacts ++ [mkSupplied (a_coordinate a) (a_url a) b])
  | _ => throw (failure "artifact_hash_mismatch")
  end.

(** The file set from the sandbox result to the generated files. *)
Definition collect_files (installed : option sandbox_result) (m : manifest) (entries : list (jsstr * bytes))
    (mods : jsval) (t : toolchain) (p : plan) : eff W (list (jsstr * file)) :=
  files ← lift (normalizeSandboxOutput installed);
  files ← lift (copyValidatedBundleContent files m entries);
  files ← addRemoteMods files mods;
  files ← lift (addGeneratedFile files RUNTIME_JSON (encodeJson (runtimeDescriptor t p)) MODE_644);
  launcher ← lift (generatedLauncher (p_arguments p));
  lift (addGeneratedFile files LAUNCH_SH launcher MODE_755).

Record built := mkBuilt { bt_archive : bytes; bt_content : jsval; bt_descriptor : jsval }.

Definition content_value (key : jsstr) (archive : bytes) (entries : list entry) : jsval :=
  obj [("key", VStr key); ("format", VText "tar.zst"); ("sha256", VStr (sha256 archive));
       ("sizeBytes", VInt (zlen archive)); ("entries", VArr (map entry_value entries))]%string.

Definition descriptor_value (runtimeHash : jsstr) : jsval :=
  obj [("schemaVersion", VInt 1);
       ("runtime", obj [("path", VStr RUNTIME_JSON); ("sha256", VStr runtimeHash)]);
       ("launch", obj [("path", VStr LAUNCH_SH); ("kind", VText "generated-server-launcher");
          ("arguments", VArr [])])]%string.

(** Packaging and validation of the finished file set. *)
Definition finish_build (key : jsstr) (files : list (jsstr * file)) : res built :=
  entries ← validateOutputFiles files;
  archive ← packageDeterministicTarZst files;
  let content := content_value key archive entries in
  hash ← entryHash entries RUNTIME_JSON;
  let descriptor := descriptor_value hash in
  _ ← validateImmutableContent archive content descriptor;
  Ok (mkBuilt archive content descriptor).

(** [new ReviewedRuntimeBuilder({ toolchainCatalog })]: the catalog the builder keeps. *)
Definition builder_catalog (toolchainCatalog : jsval) : option catalog :=
  match ReviewedToolchainCatalog toolchainCatalog None with Ok c => Some c | Throw _ => None end.

(** [build({ bundle, frozenManifest, expectedContentKey })] for a validated bundle;
    [catalog] is [None] when the constructor rejected the document. *)
Definition build (cat : option catalog) (m : manifest) (entries : list (jsstr * bytes))
    (frozenManifest : jsval) (expectedContentKey : jsstr) : eff W built :=
  match cat with
  | None => throw compiler_unavailable
  | Some c =>
      if negb (hasCapabilities capabilities) then throw compiler_unavailable
      else if negb (validContentKey expectedContentKey) then throw (failure "invalid_builder_input")
      else
        t ← lift (resolve_toolchain c m);
        if negb (strict_eq
             (opt_prop (opt_prop (opt_prop frozenManifest "compatibility") "runtimeCatalog") "sha256")
             (VStr (c_runtimeCatalogRevision c)))
        then throw unsupported_compatibility
        else
          j ← resolveVerifiedJre (t_jre t);
          p ← lift (createAssemblyPlan t);
          artifacts ← foldM_eff (fetch_supplied (c_approvedArtifactHosts c)) [] (t_artifacts t);
          installed ← try_catch (assemble (mkAssembly j p artifacts)) (fun _ => throw (failure "installer_failed"));
          files ← collect_files installed m entries (opt_prop frozenManifest "mods") t p;
          lift (finish_build expectedContentKey files)
  end.
End builder.

(** ** Where every file comes from *)

(** [files'] extends [files]: nothing is overwritten or removed. *)
Definition extends (files files' : list (jsstr * file)) : Prop :=
  forall path f, map_get path files = Some f -> map_get path files' = Some f.

#[export] Instance extends_preorder : PreOrder extends.
Proof. split; [intros files path f; done|]. intros a b c H1 H2 path f Hf. auto. Qed.

Section provenance.
Context {W : Type} `{Unicode} `{Sha256} `{UrlParser} `{JsonParse} `{JsonStringify}.
Context `{ArtifactDownloader W} `{Assembler W}.
Implicit Types files : list (jsstr * file).

Lemma map_has_get {V} k (l : list (jsstr * V)) : map_has k l = false -> map_get k l = None.
Proof. intros ?%map_has_false. by apply map_get_None. Qed.

Lemma extends_set files path f : map_get path files = None -> extends files (map_set path f files).
Proof.
  intros Hn p g Hg. destruct (decide (p = path)) as [->|]; [congruence|]. by rewrite map_get_set_ne.
Qed.

(** The four origins of an output file. *)
Definition from_sandbox (fs : list (jsstr * jsval)) (path : jsstr) (f : file) : Prop :=
  exists v, (path, v) ∈ fs /\ opt_prop v "bytes" = VBytes (f_bytes f) /\ opt_prop v "mode" = VInt (f_mode f) /\
    safeOutputPath path = true /\ forbiddenOutputPath path = false /\ starts_with (js ".xmcl/") path = false.

Definition from_bundle (m : manifest) (entries : list (jsstr * bytes)) (path : jsstr) (f : file) : Prop :=
  exists mf, mf ∈ m_files m /\ mf_path mf = js "instance/" ++ path /\
    map_get (mf_path mf) entries = Some (f_bytes f) /\ sha256 (f_bytes f) = mf_sha256 mf /\
    zlen (f_bytes f) = mf_sizeBytes mf /\ f_mode f = MODE_644.

Definition from_mod (mods : list jsval) (path : jsstr) (f : file) : Prop :=
  exists mod_, mod_ ∈ mods /\ validateRemoteMod MAX_ARTIFACT_BYTES mod_ = Ok tt /\
    path = js "mods/" ++ get_str (opt_prop mod_ "filename") /\
    sha256 (f_bytes f) = get_str (opt_prop mod_ "sha256") /\
    zlen (f_bytes f) = get_int (opt_prop mod_ "sizeBytes") /\ f_mode f = MODE_644.

Definition generated_file (t : toolchain) (p : plan) (path : jsstr) (f : file) : Prop :=
  (path = RUNTIME_JSON /\ f = mkFile (encodeJson (runtimeDescriptor t p)) MODE_644) \/
  (path = LAUNCH_SH /\ generatedLauncher (p_arguments p) = Ok (f_bytes f) /\ f_mode f = MODE_755).

(** *** A property of every file, kept by each step *)
Definition all_files (P : jsstr -> file -> Prop) files : Prop :=
  map_wf files /\ forall path f, map_get path files = Some f -> P path f.

Lemma all_files_set P files path f :
  all_files P files -> P path f -> all_files P (map_set path f files).
Proof.
  intros [Hwf Hall] Hp. split; [by apply map_wf_set|]. intros p g.
  destruct (decide (p = path)) as [->|]; [rewrite map_get_set_eq; congruence|].
  rewrite map_get_set_ne by done. auto.
Qed.

Lemma all_files_impl (P Q : jsstr -> file -> Prop) files :
  (forall path f, P path f -> Q path f) -> all_files P files -> all_files Q files.
Proof. intros HPQ [Hwf Hall]. split; [done|]. auto. Qed.

Lemma accept_output_ok fs pf path f :
  pf ∈ fs -> accept_output pf = Ok (path, f) -> pf.1 = path /\ from_sandbox fs path f.
Proof.
  destruct pf as [p v]. unfold accept_output. intros Hin.
  destruct (safeOutputPath p) eqn:E1; [|done]. destruct (forbiddenOutputPath p) eqn:E2; [done|].
  destruct (starts_with _ p) eqn:E3; [done|].
  destruct (opt_prop v "bytes") as [| | | | | | |b] eqn:Eb; try done.
  destruct (opt_prop v "mode") as [| | |[z| |]| | | |] eqn:Em; try done. destruct (is_safe z); [|done].
  intros [= <- <-]. split; [done|]. exists v. by split_and!.
Qed.

Lemma foldM_res_ind {A S} (f : S -> A -> res S) (Q : S -> Prop) l : forall s s',
  Q s -> (forall x s s', x ∈ l -> Q s -> f s x = Ok s' -> Q s') -> foldM_res f s l = Ok s' -> Q s'.
Proof.
  induction l as [|x l IH]; intros s s' Hs Hf; cbn [foldM_res]; [by intros [= <-]|].
  intros (s1 & Hx & Hrest)%bind_ok. eapply IH; [|intros; eapply Hf; [by right|done..]|done].
  eapply Hf; [left|done|done].
Qed.

Lemma normalize_ok installed files :
  normalizeSandboxOutput installed = Ok files ->
  exists r fs, installed = Some r /\ validSandboxAttestation (sr_attestation r) = true /\
    sr_files r = Some fs /\ zlen fs <= MAX_OUTPUT_FILES /\ all_files (from_sandbox fs) files.
Proof.
  unfold normalizeSandboxOutput. destruct installed as [r|]; [|done].
  destruct (validSandboxAttestation _) eqn:Ea; cbn [negb]; [|done].
  destruct (sr_files r) as [fs|] eqn:Ef; [|done]. destruct (_ || _) eqn:El; [done|].
  apply orb_false_iff in El as [El%Z.ltb_ge _]. intros Hr. exists r, fs. split_and!; try done.
  eapply (foldM_res_ind _ (all_files (from_sandbox fs))); [|clear Hr|exact Hr].
  - split; [constructor|done].
  - intros pf s s' Hin Hs ([path f] & Hk & [= <-])%bind_ok.
    apply (accept_output_ok fs) in Hk as [_ Hk]; [|done]. by apply all_files_set.
Qed.

Lemma copy_ok (P : jsstr -> file -> Prop) files m entries files' :
  copyValidatedBundleContent files m entries = Ok files' -> all_files P files ->
  all_files (fun path f => P path f \/ from_bundle m entries path f) files' /\ extends files files'.
Proof.
  intros Hc Hall. eapply (foldM_res_ind _ (fun s => all_files _ s /\ extends files s)); [|clear Hc|exact Hc].
  { split; [|done]. eapply all_files_impl; [|done]. auto. }
  intros mf s s' Hin [Hs Hx]. unfold copy_bundle_file.
  destruct (starts_with _ _) eqn:Ep; cbn [negb]; [|by intros [= <-]].
  apply starts_with_spec in Ep as [out Ep]. cbv zeta. rewrite Ep.
  rewrite (zdrop_app_exact _ (js "instance/") out eq_refl). rewrite <- Ep.
  destruct (map_get (mf_path mf) entries) as [source|] eqn:Es; [|done].
  destruct (_ || _) eqn:Eg; [done|]. intros [= <-].
  rewrite !orb_false_iff, !negb_false_iff, Z.eqb_eq, streq_true in Eg.
  destruct Eg as [[[[Hz Hh] _] _] Hf%map_has_get]. split.
  - apply all_files_set; [done|]. right. exists mf. by split_and!.
  - etransitivity; [exact Hx|]. by apply extends_set.
Qed.

(** The taken destinations cover the files, so a mod never overwrites one. *)
Definition destinations_cover (state : list jsstr * list (jsstr * file)) : Prop :=
  forall path, is_Some (map_get path state.2) -> collision_key path ∈ state.1.

Definition mod_output (mod_ : jsval) : jsstr := js "mods/" ++ get_str (opt_prop mod_ "filename").

(** One accepted mod: a new file with the frozen size and hash. *)
Lemma add_remote_mod_inv s mod_ w s' w' :
  destinations_cover s -> add_remote_mod s mod_ w = (Ok s', w') ->
  exists b, s' = (collision_key (mod_output mod_) :: s.1, map_set (mod_output mod_) (mkFile b MODE_644) s.2) /\
    map_get (mod_output mod_) s.2 = None /\ validateRemoteMod MAX_ARTIFACT_BYTES mod_ = Ok tt /\
    zlen b = get_int (opt_prop mod_ "sizeBytes") /\ sha256 b = get_str (opt_prop mod_ "sha256") /\
    destinations_cover s'.
Proof.
  destruct s as [dest fs]. intros Hd ([] & w1 & [Hv _]%lift_ok & Hr)%eff_bind_ok. cbv zeta in Hr.
  fold (mod_output mod_) in Hr. set (path := mod_output mod_) in *.
  destruct (_ || _) eqn:Eg; [done|]. rewrite !orb_false_iff in Eg. destruct Eg as [[Hc _] _].
  apply eff_bind_ok in Hr as (v & w2 & _ & Hr). destruct v as [| | | | | | |b]; try done.
  destruct (_ || _) eqn:Eh; [done|]. apply mret_ok in Hr as [-> _].
  rewrite orb_false_iff, !negb_false_iff, Z.eqb_eq, streq_true in Eh. destruct Eh as [Hz Hh].
  assert (map_get path fs = None) as Hnone.
  { destruct (map_get path fs) eqn:E; [|done]. assert (str_in (collision_key path) dest = true); [|congruence].
    apply str_in_spec, Hd. by eexists. }
  exists b. split_and!; try done. intros p Hp. cbn [fst snd] in *.
  destruct (decide (p = path)) as [->|]; [left|right]. apply Hd. cbn [snd]. by rewrite map_get_set_ne in Hp.
Qed.

Lemma addRemoteMods_start files : destinations_cover (map collision_key (map_keys files), files).
Proof.
  intros p [f Hp]. cbn. apply list_elem_of_fmap. exists p. split; [done|].
  apply list_elem_of_fmap. exists (p, f). split; [done|]. by apply map_get_In.
Qed.

Lemma addRemoteMods_ok (P : jsstr -> file -> Prop) files mods w files' w' :
  addRemoteMods files mods w = (Ok files', w') -> all_files P files ->
  all_files (fun path f => P path f \/ from_mod (get_list mods) path f) files' /\ extends files files'.
Proof.
  unfold addRemoteMods. intros Hr Hall.
  assert (all_files (fun path f => P path f \/ from_mod (get_list mods) path f) files) as Hall'
    by (eapply all_files_impl; [|exact Hall]; auto).
  destruct mods as [| | | | |l| |]; try done; [by apply mret_ok in Hr as [-> _]|].
  destruct (_ <? _); [done|]. apply eff_bind_ok in Hr as (s & w1 & Hf & [-> _]%mret_ok). cbn [get_list] in *.
  apply (foldM_eff_ind add_remote_mod (fun s => destinations_cover s /\
    all_files (fun path f => P path f \/ from_mod l path f) s.2 /\ extends files s.2)) in Hf; [tauto| |].
  - split_and!; [apply addRemoteMods_start|done|done].
  - intros mod_ s0 w0 s1 w2 Hin (Hd & Ha & Hx) Hstep.
    apply add_remote_mod_inv in Hstep as (b & -> & Hn & Hv & Hz & Hh & Hd'); [|done]. cbn [snd].
    split_and!; [done| |by etransitivity; [exact Hx|apply extends_set]].
    apply all_files_set; [done|]. right. exists mod_. by split_and!.
Qed.

Lemma addGeneratedFile_ok (P : jsstr -> file -> Prop) files path b mode files' :
  addGeneratedFile files path b mode = Ok files' -> all_files P files -> P path (mkFile b mode) ->
  all_files P files' /\ extends files files' /\ map_get path files' = Some (mkFile b mode).
Proof.
  unfold addGeneratedFile. destruct (map_has path files) eqn:E; [done|]. intros [= <-] Hall Hp.
  split_and!; [by apply all_files_set|by apply extends_set, map_has_get|by rewrite map_get_set_eq].
Qed.

(** The complete file set: its origins, and that no origin is lost. *)
Definition origin (fs : list (jsstr * jsval)) m entries mods t p (path : jsstr) (f : file) : Prop :=
  ((from_sandbox fs path f \/ from_bundle m entries path f) \/ from_mod mods path f) \/ generated_file t p path f.

Lemma collect_files_ok installed m entries mods t p w files w' :
  collect_files installed m entries mods t p w = (Ok files, w') ->
  exists r fs, installed = Some r /\ validSandboxAttestation (sr_attestation r) = true /\ sr_files r = Some fs /\
    all_files (origin fs m entries (get_list mods) t p) files /\
    map_get RUNTIME_JSON files = Some (mkFile (encodeJson (runtimeDescriptor t p)) MODE_644) /\
    exists launcher, generatedLauncher (p_arguments p) = Ok launcher /\
      map_get LAUNCH_SH files = Some (mkFile launcher MODE_755).
Proof.
  unfold collect_files. intros (f1 & w1 & [Hf1 _]%lift_ok & Hr)%eff_bind_ok.
  apply eff_bind_ok in Hr as (f2 & w2 & [Hf2 _]%lift_ok & Hr).
  apply eff_bind_ok in Hr as (f3 & w3 & Hf3 & Hr).
  apply eff_bind_ok in Hr as (f4 & w4 & [Hf4 _]%lift_ok & Hr).
  apply eff_bind_ok in Hr as (l & w5 & [Hl _]%lift_ok & [Hf5 _]%lift_ok).
  apply normalize_ok in Hf1 as (r & fs & -> & Ha & Hfs & _ & Hall). exists r, fs.
  eapply copy_ok in Hf2 as [Hall2 _]; [|exact Hall].
  eapply addRemoteMods_ok in Hf3 as [Hall3 _]; [|exact Hall2].
  assert (all_files (origin fs m entries (get_list mods) t p) f3) as Hall3'
    by (eapply all_files_impl; [|exact Hall3]; unfold origin; auto).
  eapply addGeneratedFile_ok in Hf4 as (Hall4 & _ & Hrt); [|exact Hall3'|by right; left].
  eapply addGeneratedFile_ok in Hf5 as (Hall5 & Hx & Hln); [|exact Hall4|by right; right].
  split_and!; try done; [by apply Hx|eauto].
Qed.
(** *** Nothing is lost *)

(** In a loop whose steps are related by a preorder, every element had its turn
    and what it left is related to the end. *)
Lemma foldM_res_turn {A S} (R : relation S) `{!PreOrder R} (f : S -> A -> res S) l : forall s s' x,
  (forall s x s', f s x = Ok s' -> R s s') -> foldM_res f s l = Ok s' -> x ∈ l ->
  exists s1 s2, f s1 x = Ok s2 /\ R s2 s'.
Proof.
  induction l as [|y l IH]; intros s s' x Hstep; cbn [foldM_res]; [by intros _ ?%not_elem_of_nil|].
  intros (s1 & Hy & Hrest)%bind_ok [->|Hx]%elem_of_cons; [|by eapply IH].
  exists s, s1. split; [done|]. eapply (foldM_res_ind f (R s1)); [reflexivity| |exact Hrest].
  intros z a b _ Ha Hz. etransitivity; [exact Ha|]. by eapply Hstep.
Qed.

Lemma foldM_eff_turn {A S} (R : relation S) `{!PreOrder R} (Q : S -> Prop) (f : S -> A -> eff W S) l :
  forall s w s' w' x, Q s ->
  (forall s x w s' w', Q s -> f s x w = (Ok s', w') -> Q s' /\ R s s') ->
  foldM_eff f s l w = (Ok s', w') -> x ∈ l ->
  exists s1 s2 w1 w2, f s1 x w1 = (Ok s2, w2) /\ Q s1 /\ R s2 s'.
Proof.
  induction l as [|y l IH]; intros s w s' w' x Hs Hstep; cbn [foldM_eff]; [by intros _ ?%not_elem_of_nil|].
  intros (s1 & w1 & Hy & Hrest)%eff_bind_ok. destruct (Hstep _ _ _ _ _ Hs Hy) as [Hs1 _].
  intros [->|Hx]%elem_of_cons; [|by eapply IH].
  exists s, s1, w, w1. split_and!; [done..|].
  eapply (foldM_eff_ind f (fun a => Q a /\ R s1 a)); [| |exact Hrest]; [by split|].
  intros z a wa b wb _ [Ha Hr] Hz. destruct (Hstep _ _ _ _ _ Ha Hz). split; [done|]. by etransitivity.
Qed.

Definition put_output files (pf : jsstr * jsval) : res (list (jsstr * file)) :=
  kv ← accept_output pf; Ok (map_set kv.1 kv.2 files).

Lemma accept_output_key pf kv : accept_output pf = Ok kv -> kv.1 = pf.1 /\ opt_prop pf.2 "bytes" = VBytes (f_bytes kv.2).
Proof.
  intros Hk. destruct kv as [path f]. apply (accept_output_ok [pf]) in Hk as [<- (v & Hin & Hb & _)]; [|left].
  apply list_elem_of_singleton in Hin. by rewrite <- Hin.
Qed.

Lemma put_outputs_keep fs path : forall files files',
  foldM_res put_output files fs = Ok files' -> path ∉ map_keys fs -> map_get path files' = map_get path files.
Proof.
  induction fs as [|pf fs IH]; intros files files'; cbn [foldM_res]; [by intros [= <-]|].
  intros (s1 & (kv & [Hk _]%accept_output_key & [= <-])%bind_ok & Hrest)%bind_ok
    [Hne Hni]%not_elem_of_cons.
  rewrite (IH _ _ Hrest Hni). apply map_get_set_ne. congruence.
Qed.

Lemma put_outputs_all fs : forall files files' path v,
  foldM_res put_output files fs = Ok files' -> map_wf fs -> (path, v) ∈ fs ->
  exists f, map_get path files' = Some f /\ opt_prop v "bytes" = VBytes (f_bytes f).
Proof.
  induction fs as [|pf fs IH]; intros files files' path v; cbn [foldM_res]; [by intros _ _ ?%not_elem_of_nil|].
  intros (s1 & (kv & [Hk Hb]%accept_output_key & [= <-])%bind_ok & Hrest)%bind_ok.
  unfold map_wf, map_keys. cbn. intros [Hni Hnd]%NoDup_cons [<-|Hin]%elem_of_cons; [|by eapply IH].
  exists kv.2. split; [|done]. cbn in Hk. subst path.
  rewrite (put_outputs_keep fs kv.1 _ _ Hrest Hni). apply map_get_set_eq.
Qed.

Lemma normalize_all r fs files path v :
  normalizeSandboxOutput (Some r) = Ok files -> sr_files r = Some fs -> map_wf fs -> (path, v) ∈ fs ->
  exists f, map_get path files = Some f /\ opt_prop v "bytes" = VBytes (f_bytes f).
Proof.
  unfold normalizeSandboxOutput. destruct (negb _); [done|]. intros Hr E. rewrite E in Hr. destruct (_ || _); [done|].
  by apply (put_outputs_all fs []).
Qed.

Lemma copy_bundle_file_extends entries files mf files' :
  copy_bundle_file entries files mf = Ok files' -> extends files files'.
Proof.
  unfold copy_bundle_file. destruct (negb _); [by intros [= <-]|]. destruct (map_get _ _); [|done].
  destruct (_ || _) eqn:Eg; [done|]. intros [= <-]. apply orb_false_iff in Eg as [_ Hh%map_has_get].
  by apply extends_set.
Qed.

Lemma copy_all files m entries files' mf path :
  copyValidatedBundleContent files m entries = Ok files' -> mf ∈ m_files m ->
  mf_path mf = js "instance/" ++ path ->
  exists f, map_get path files' = Some f /\ sha256 (f_bytes f) = mf_sha256 mf.
Proof.
  intros Hc Hin Hp. destruct (foldM_res_turn extends _ _ _ _ mf (copy_bundle_file_extends entries) Hc Hin)
    as (s1 & s2 & Hs & Hx).
  unfold copy_bundle_file in Hs. rewrite Hp, starts_with_app in Hs. cbn [negb] in Hs. cbv zeta in Hs.
  rewrite (zdrop_app_exact _ (js "instance/") path eq_refl) in Hs.
  destruct (map_get _ entries) as [source|]; [|done]. destruct (_ || _) eqn:Eg; [done|]. injection Hs as <-.
  rewrite !orb_false_iff, !negb_false_iff, streq_true in Eg. exists (mkFile source MODE_644).
  split; [apply Hx, map_get_set_eq|]. tauto.
Qed.

Definition extends_state (s s' : list jsstr * list (jsstr * file)) : Prop := extends s.2 s'.2.

#[local] Instance extends_state_preorder : PreOrder extends_state.
Proof. split; [intros s path f; done|]. intros a b c Hab Hbc path f Hf. auto. Qed.

Lemma addRemoteMods_all files l w files' w' mod_ :
  addRemoteMods files (VArr l) w = (Ok files', w') -> mod_ ∈ l ->
  exists f, map_get (mod_output mod_) files' = Some f /\ sha256 (f_bytes f) = get_str (opt_prop mod_ "sha256").
Proof.
  unfold addRemoteMods. destruct (_ <? _); [done|].
  intros (s & w1 & Hf & [-> _]%mret_ok)%eff_bind_ok Hin.
  edestruct (foldM_eff_turn extends_state destinations_cover add_remote_mod) as (s1 & s2 & w2 & w3 & Ht & Hs1 & Hx);
    [apply addRemoteMods_start| |exact Hf|exact Hin|].
  - intros a x wa b wb Ha (y & -> & Hn & _ & _ & _ & Hd)%add_remote_mod_inv; [|done].
    split; [done|]. by apply extends_set.
  - apply add_remote_mod_inv in Ht as (b & -> & _ & _ & _ & Hh & _); [|done].
    exists (mkFile b MODE_644). split; [apply Hx; cbn; apply map_get_set_eq|done].
Qed.

(** The stages of the file set and that each extends the previous. *)
Lemma collect_files_stages installed m entries mods t p w files w' :
  collect_files installed m entries mods t p w = (Ok files, w') ->
  exists f1 f2 f3 w1 w2, normalizeSandboxOutput installed = Ok f1 /\
    copyValidatedBundleContent f1 m entries = Ok f2 /\ addRemoteMods f2 mods w1 = (Ok f3, w2) /\
    extends f1 f2 /\ extends f2 f3 /\ extends f3 files.
Proof.
  unfold collect_files. intros (f1 & w1 & [Hf1 _]%lift_ok & Hr)%eff_bind_ok.
  apply eff_bind_ok in Hr as (f2 & w2 & [Hf2 _]%lift_ok & Hr).
  apply eff_bind_ok in Hr as (f3 & w3 & Hf3 & Hr).
  apply eff_bind_ok in Hr as (f4 & w4 & [Hf4 _]%lift_ok & Hr).
  apply eff_bind_ok in Hr as (l & w5 & [Hl _]%lift_ok & [Hf5 _]%lift_ok).
  pose proof Hf1 as (r & fs & _ & _ & _ & _ & [Hwf1 _])%normalize_ok.
  pose proof (fun P Hp => copy_ok P _ _ _ _ Hf2 Hp) as Hcopy.
  destruct (Hcopy (fun _ _ => True)) as [Hall2 H12]; [done|].
  destruct (addRemoteMods_ok (fun _ _ => True) _ _ _ _ _ Hf3) as [Hall3 H23]; [by destruct Hall2|].
  destruct (addGeneratedFile_ok (fun _ _ => True) _ _ _ _ _ Hf4) as (Hall4 & H34 & _); [by destruct Hall3|done|].
  destruct (addGeneratedFile_ok (fun _ _ => True) _ _ _ _ _ Hf5) as (_ & H45 & _); [done..|].
  exists f1, f2, f3, w2, w3. split_and!; try done. by etransitivity.
Qed.
End provenance.

(** ** The whole build *)
Section build_proofs.
Context {W : Type} `{Unicode} `{Sha256} `{UrlParser} `{JsonParse} `{JsonStringify}.
Context `{ArtifactDownloader W} `{Assembler W}.

(** What the sandbox receives for a reviewed artifact. *)
Definition supplies (a : artifact) (s : supplied) : Prop :=
  su_coordinate s = a_coordinate a /\ su_url s = a_url a /\
  zlen (su_bytes s) = a_sizeBytes a /\ sha256 (su_bytes s) = a_sha256 a.

Lemma lower_opt_str v r s : lower_opt v = Ok r -> strict_eq r (VStr s) = true -> r = VStr s.
Proof. by intros _ ?%strict_eq_str. Qed.

Lemma check_jre_ok actual expected j : check_jre actual expected = Ok j -> vj_jre j = expected.
Proof.
  unfold check_jre. intros Hr. guard Hr as E1. apply bind_ok in Hr as (sha & Hsha & Hr).
  guard Hr as E2. apply bind_ok in Hr as (rev & Hrev & Hr). guard Hr as E3. injection Hr as <-.
  destruct E1 as [_ Hid%strict_eq_str], E2 as [[Hs%strict_eq_str Hc%strict_eq_str] Hm%strict_eq_int],
    E3 as [Hv%strict_eq_str _]. subst. cbn. rewrite Hid, Hc, Hm. by destruct expected.
Qed.

(** The downloads of a build, one after the other, each answered with the
    reviewed bytes. *)
Inductive downloaded (hosts : list jsstr) : list artifact -> list supplied -> W -> W -> Prop :=
  | downloaded_nil w : downloaded hosts [] [] w w
  | downloaded_cons a s l ss w w1 w' :
      download a hosts w = (Ok (VBytes (su_bytes s)), w1) -> supplies a s ->
      downloaded hosts l ss w1 w' -> downloaded hosts (a :: l) (s :: ss) w w'.

Lemma downloaded_supplies hosts l ss w w' : downloaded hosts l ss w w' -> Forall2 supplies l ss.
Proof. induction 1; by constructor. Qed.

Lemma fetch_downloads hosts l : forall acc w out w',
  foldM_eff (fetch_supplied hosts) acc l w = (Ok out, w') ->
  exists ss, out = acc ++ ss /\ downloaded hosts l ss w w'.
Proof.
  induction l as [|a l IH]; intros acc w out w'; cbn [foldM_eff].
  { intros [-> ->]%mret_ok. exists []. rewrite app_nil_r. split; [done|constructor]. }
  intros (acc' & w1 & Ha & Hrest)%eff_bind_ok. apply eff_bind_ok in Ha as (v & w2 & Hd & Ha).
  destruct v as [| | | | | | |b]; try done. destruct (_ || _) eqn:E; [done|]. apply mret_ok in Ha as [-> ->].
  rewrite orb_false_iff, !negb_false_iff, Z.eqb_eq, streq_true in E. destruct E.
  destruct (IH _ _ _ _ Hrest) as (ss & -> & Hss).
  exists (mkSupplied (a_coordinate a) (a_url a) b :: ss). split; [by rewrite <- app_assoc|].
  econstructor; [exact Hd|by repeat split|exact Hss].
Qed.

(** From the world [w] on, the registry verified the toolchain's JRE, every
    artifact of the toolchain was downloaded with its reviewed size and hash, and
    the sandbox, given exactly these, answered [r]. *)
Definition sandbox_ran (c : catalog) (t : toolchain) (p : plan) (w : W) (r : sandbox_result) (w' : W) : Prop :=
  exists actual j artifacts w1 w2,
    jre_resolve (t_jre t) w = (Ok actual, w1) /\ check_jre actual (t_jre t) = Ok j /\ vj_jre j = t_jre t /\
    downloaded (c_approvedArtifactHosts c) (t_artifacts t) artifacts w1 w2 /\
    assemble (mkAssembly j p artifacts) w2 = (Ok (Some r), w').

(** The steps of a successful build. *)
Lemma build_steps c m entries frozen key w b w' :
  build (Some c) m entries frozen key w = (Ok b, w') ->
  exists t p r files w1,
    resolve_toolchain c m = Ok t /\ createAssemblyPlan t = Ok p /\ sandbox_ran c t p w r w1 /\
    collect_files (Some r) m entries (opt_prop frozen "mods") t p w1 = (Ok files, w') /\
    finish_build key files = Ok b.
Proof.
  unfold build. destruct (negb _); [done|]. destruct (negb _); [done|].
  intros (t & wt & [Ht ->]%lift_ok & Hr)%eff_bind_ok. destruct (negb _); [done|].
  apply eff_bind_ok in Hr as (j & wj & (actual & wa & Hres%try_throw_ok & [Hj ->]%lift_ok)%eff_bind_ok & Hr).
  apply eff_bind_ok in Hr as (p & wp & [Hp ->]%lift_ok & Hr).
  apply eff_bind_ok in Hr as (artifacts & w1 & Hf & Hr).
  apply eff_bind_ok in Hr as (installed & w2 & Ha%try_throw_ok & Hr).
  apply eff_bind_ok in Hr as (files & w4 & Hc & [Hb ->]%lift_ok).
  destruct (collect_files_ok _ _ _ _ _ _ _ _ _ Hc) as (r & fs & -> & _).
  apply fetch_downloads in Hf as (ss & -> & Hss).
  exists t, p, r, files, w2. split_and!; try done. exists actual, j, ss, wa, w1. split_and!; try done.
  by eapply check_jre_ok.
Qed.

Lemma finish_build_ok key files b :
  finish_build key files = Ok b ->
  packageDeterministicTarZst files = Ok (bt_archive b) /\
  validateImmutableContent (bt_archive b) (bt_content b) (bt_descriptor b) = Ok tt /\
  opt_prop (bt_content b) "key" = VStr key.
Proof.
  unfold finish_build. intros (es & _ & (archive & Ha & (hash & _ & ([] & Hv & [= <-])%bind_ok)%bind_ok)%bind_ok)%bind_ok.
  done.
Qed.

(** Provenance of a build.  When a build succeeds, the sandbox ran the JRE and
    the artifacts the reviewed catalog names for exactly the requested versions,
    each artifact with its reviewed size and hash, and attested its isolation;
    every file of the published archive is either a sandbox output under a path
    that is neither reserved nor forbidden, a file the bundle manifest lists,
    with its hash, a frozen remote mod with its frozen hash, or one of the two
    generated files; and the archive passes the final validation. *)
Theorem build_provenance c m entries frozen key w b w' :
  build (Some c) m entries frozen key w = (Ok b, w') ->
  exists t p r fs files w1,
    (resolve_toolchain c m = Ok t /\ createAssemblyPlan t = Ok p) /\ sandbox_ran c t p w r w1 /\
    validSandboxAttestation (sr_attestation r) = true /\ sr_files r = Some fs /\
    all_files (origin fs m entries (get_list (opt_prop frozen "mods")) t p) files /\
    packageDeterministicTarZst files = Ok (bt_archive b) /\
    validateImmutableContent (bt_archive b) (bt_content b) (bt_descriptor b) = Ok tt /\
    opt_prop (bt_content b) "key" = VStr key.
Proof.
  intros (t & p & r & files & w1 & Ht & Hp & Hs & Hc & Hb)%build_steps.
  apply collect_files_ok in Hc as (r' & fs & [= <-] & Hr & Hfs & Hall & _).
  apply finish_build_ok in Hb as (Hpack & Hv & Hk).
  exists t, p, r, fs, files, w1. by split_and!.
Qed.

(** The file set holds everything it should: every output of the sandbox, every
    file the manifest lists under [instance/] and every frozen mod. *)
Definition complete_files (fs : list (jsstr * jsval)) (m : manifest) (mods : jsval) (files : list (jsstr * file)) : Prop :=
  (map_wf fs -> forall path v, (path, v) ∈ fs ->
     exists f, map_get path files = Some f /\ opt_prop v "bytes" = VBytes (f_bytes f)) /\
  (forall mf path, mf ∈ m_files m -> mf_path mf = js "instance/" ++ path ->
     exists f, map_get path files = Some f /\ sha256 (f_bytes f) = mf_sha256 mf) /\
  (forall mod_, mod_ ∈ get_list mods ->
     exists f, map_get (mod_output mod_) files = Some f /\
       sha256 (f_bytes f) = get_str (opt_prop mod_ "sha256")).

Lemma collect_complete r fs m entries mods t p w files w' :
  collect_files (Some r) m entries mods t p w = (Ok files, w') -> sr_files r = Some fs ->
  complete_files fs m mods files.
Proof.
  intros Hc Hfs.
  destruct (collect_files_stages _ _ _ _ _ _ _ _ _ Hc) as (f1 & f2 & f3 & w5 & w6 & Hn & Hcp & Hm & H12 & H23 & H34).
  split_and!.
  - intros Hwf path v Hin. destruct (normalize_all _ _ _ _ _ Hn Hfs Hwf Hin) as (f & Hf & Hb).
    exists f. split; [by apply H34, H23, H12|done].
  - intros mf path Hin Hp. destruct (copy_all _ _ _ _ _ _ Hcp Hin Hp) as (f & Hf & Hh).
    exists f. split; [by apply H34, H23|done].
  - intros mod_ Hin. destruct mods as [| | | | |l| |]; try by apply not_elem_of_nil in Hin.
    destruct (addRemoteMods_all _ _ _ _ _ _ Hm Hin) as (f & Hf & Hh).
    exists f. split; [by apply H34|done].
Qed.

(** C20: A build loses nothing.  Let a build that starts in the world [w]
    succeed, and let [r] be the answer of the sandbox call it made, on the JRE and
    the artifacts it had just verified: every file of [r], every file the bundle
    manifest lists under [instance/] and every frozen mod is in the file set that
    the archive packages, with the sandbox's bytes or the listed hash. *)
Theorem build_complete c m entries frozen key w b w' :
  build (Some c) m entries frozen key w = (Ok b, w') ->
  exists t p r fs files w1,
    resolve_toolchain c m = Ok t /\ createAssemblyPlan t = Ok p /\ sandbox_ran c t p w r w1 /\ sr_files r = Some fs /\
    complete_files fs m (opt_prop frozen "mods") files /\ packageDeterministicTarZst files = Ok (bt_archive b).
Proof.
  intros (t & p & r & files & w1 & Ht & Hp & Hs & Hc & Hb)%build_steps. apply finish_build_ok in Hb as (Hpack & _).
  destruct (collect_files_ok _ _ _ _ _ _ _ _ _ Hc) as (r' & fs & [= <-] & _ & Hfs & _).
  exists t, p, r, fs, files, w1. split_and!; try done. by eapply collect_complete.
Qed.
End build_proofs.

(** ** The final validation never rejects the builder's own output *)
Section self_validation.
Context {W : Type} `{Unicode} `{Sha256} `{UrlParser} `{JsonParse} `{JsonStringify}.
Context `{ArtifactDownloader W} `{Assembler W}.

Lemma map_get_sorted {V} (m : list (jsstr * V)) k : map_wf m -> map_get k (sort_entries m) = map_get k m.
Proof.
  intros Hwf. pose proof (map_wf_perm _ _ (symmetry (sort_entries_perm m)) Hwf) as Hwf'.
  destruct (map_get k m) as [v|] eqn:E.
  - apply map_wf_get; [done|]. rewrite sort_entries_perm. by apply map_get_In.
  - apply map_get_None. apply map_get_None in E. unfold map_keys in *. by rewrite sort_entries_perm.
Qed.

Lemma entryHash_of files path f :
  map_wf files -> map_get path files = Some f ->
  entryHash (map entry_of (sort_entries files)) path = Ok (sha256 (f_bytes f)).
Proof.
  intros Hwf Hf. rewrite <- (map_get_sorted files path Hwf) in Hf. unfold entryHash.
  induction (sort_entries files) as [|[p g] l IH]; [done|]. cbn in *.
  destruct (decide (path = p)) as [->|Hne].
  - rewrite streq_refl. rewrite bool_decide_true in Hf by done. by injection Hf as <-.
  - rewrite (proj2 (streq_false _ _)) by congruence. rewrite bool_decide_false in Hf by done. auto.
Qed.

(** The launcher is ASCII, so it decodes to its text. *)
Lemma launcher_decodes arguments b :
  generatedLauncher arguments = Ok b -> exists text, text_decode b = Some text.
Proof.
  unfold generatedLauncher. destruct (forallb _ arguments) eqn:E; [|done]. intros [= <-].
  assert (is_ascii (launcher_text arguments) = true) as Ha.
  { assert (forall a b, is_ascii (a ++ b) = is_ascii a && is_ascii b) as Happ by (intros; apply forallb_app).
    unfold launcher_text. rewrite !Happ. unfold shellQuote. rewrite map_id.
    replace (is_ascii (join (js " ") arguments)) with true; [reflexivity|]. symmetry.
    rewrite forallb_forall in E. induction arguments as [|a l IH]; [done|].
    assert (is_ascii a = true) as Ha.
    { apply forallb_forall. intros c Hc%list_elem_of_In.
      assert (matches (plus (Cls argument_char)) a = true) as Hm by (apply E; by left).
      apply matches_plus_cls in Hm as [Hm _]. rewrite Forall_forall in Hm. specialize (Hm c Hc).
      cbv -[Z.leb Z.eqb orb andb] in Hm.
      rewrite ?orb_true_iff, ?andb_true_iff, ?Z.leb_le, ?Z.eqb_eq in Hm.
      rewrite andb_true_iff, Z.leb_le, Z.ltb_lt. lia. }
    destruct l as [|a' l]; [done|].
    change (join (js " ") (a :: a' :: l)) with (a ++ js " " ++ join (js " ") (a' :: l)).
    rewrite !Happ, Ha, IH; [done|]. intros x Hx. apply E. by right. }
  exists (launcher_text arguments). rewrite utf8_encode_ascii by done. by apply text_decode_ascii.
Qed.

Definition json_faithful (v : jsval) : Prop := parse_bytes (encodeJson v) = Some v.

Lemma loader_object_valid kind version template :
  map_get kind loaderTemplates = Some template -> validLoaderVersion version = true ->
  validLoader (loader_object kind version) = true.
Proof.
  intros Ht Hv. unfold validLoader.
  replace (sameKeys (loader_object kind version) ["kind"; "version"]%string) with true
    by (symmetry; by apply sameKeys_obj).
  change (opt_prop (loader_object kind version) "kind") with (VStr kind).
  change (opt_prop (loader_object kind version) "version") with (VStr version).
  cbn [vstr]. rewrite Hv. unfold has_template, map_has. cbn [to_string]. by rewrite Ht.
Qed.

Definition java_object (t : toolchain) : jsval :=
  obj [("component", VStr (t_component t)); ("major", VInt (t_major t)); ("jreId", VStr (j_id (t_jre t)))]%string.

Definition launch_object (arguments : list jsstr) : jsval :=
  obj [("path", VStr LAUNCH_SH); ("kind", VText "generated-server-launcher");
       ("arguments", VArr (map VStr arguments))]%string.

Lemma runtime_validates hosts revision t p launcher :
  toolchain_ok hosts revision t -> validSha256 revision = true -> createAssemblyPlan t = Ok p ->
  json_faithful (runtimeDescriptor t p) -> generatedLauncher (p_arguments p) = Ok launcher ->
  validateGeneratedRuntimeAndLauncher (encodeJson (runtimeDescriptor t p)) launcher = Ok tt.
Proof.
  intros ([Hmc Hv] & Htpl & [Hc Hmaj] & (_ & _ & Hid & Hrev & _) & _) Hsha Hp Hj Hl.
  unfold createAssemblyPlan in Hp. rewrite Htpl in Hp. injection Hp as <-. cbn [p_arguments] in *.
  unfold validateGeneratedRuntimeAndLauncher. rewrite Hj. cbv zeta. set (v := runtimeDescriptor t _).
  replace (sameKeys v _) with true by (symmetry; by apply sameKeys_obj).
  change (opt_prop v "java") with (java_object t).
  change (opt_prop v "loader") with (loader_object (t_kind t) (t_version t)).
  change (opt_prop v "launch") with
    (launch_object (launchArguments (VStr (t_kind t)) (t_minecraftVersion t) (t_version t))).
  change (opt_prop v "schemaVersion") with (VInt 1).
  change (opt_prop v "runtimeCatalogRevision") with (VStr (j_runtimeCatalogRevision (t_jre t))).
  change (opt_prop v "minecraftVersion") with (VStr (t_minecraftVersion t)).
  change (plainObject v) with true. clear v. set (l := loader_object _ _).
  replace (validLoader l) with true by (symmetry; by eapply loader_object_valid).
  change (opt_prop l "kind") with (VStr (t_kind t)). change (opt_prop l "version") with (VStr (t_version t)).
  cbn [get_str]. set (arguments := launchArguments _ _ _) in *.
  replace (sameKeys (java_object t) _) with true by (symmetry; by apply sameKeys_obj).
  replace (sameKeys (launch_object arguments) _) with true by (symmetry; by apply sameKeys_obj).
  change (opt_prop (java_object t) "component") with (VStr (t_component t)).
  change (opt_prop (java_object t) "major") with (VInt (t_major t)).
  change (opt_prop (java_object t) "jreId") with (VStr (j_id (t_jre t))).
  change (opt_prop (launch_object arguments) "path") with (VStr LAUNCH_SH).
  change (opt_prop (launch_object arguments) "kind") with (VText "generated-server-launcher").
  change (opt_prop (launch_object arguments) "arguments") with (VArr (map VStr arguments)).
  cbn [vstr is_array is_safe_integer VInt]. rewrite Hrev, Hsha, Hmc, Hc, Hid, !streq_refl.
  replace (is_safe (t_major t)) with true
    by (symmetry; apply is_safe_spec; unfold MAX_SAFE_INTEGER; lia).
  change (plainObject (java_object t)) with true. change (plainObject (launch_object arguments)) with true.
  cbn [negb orb strict_eq VText]. rewrite !streq_refl. cbn [negb orb].
  change (strict_eq (VNum (NInt 1)) (VNum (NInt 1))) with true.
  destruct (launcher_decodes _ _ Hl) as [text Ht]. rewrite Ht, Hl. cbn [mbind res_bind]. rewrite Ht.
  by rewrite bool_decide_true.
Qed.

Lemma descriptor_valid h : validSha256 h = true -> validGeneratedDescriptor (descriptor_value h) = true.
Proof.
  intros Hh. unfold validGeneratedDescriptor. cbv zeta. set (d := descriptor_value h).
  change (opt_prop (opt_prop d "runtime") "sha256") with (VStr h). cbn [vstr]. rewrite Hh. reflexivity.
Qed.

Lemma archive_size_safe files archive : packageDeterministicTarZst files = Ok archive -> is_safe (zlen archive) = true.
Proof.
  intros (tar & _ & Hz%rawZstd_bounded)%bind_ok. apply is_safe_spec. pose proof (zlen_nonneg archive).
  unfold maxPackageArchiveBytes, MAX_SAFE_INTEGER in *. lia.
Qed.

Lemma immutable_content_validates hosts revision t p launcher key files entries archive :
  toolchain_ok hosts revision t -> validSha256 revision = true -> createAssemblyPlan t = Ok p ->
  json_faithful (runtimeDescriptor t p) -> generatedLauncher (p_arguments p) = Ok launcher ->
  validContentKey key = true -> map_wf files -> Forall (fun e => tar_clean e.1 = true) files ->
  map_get RUNTIME_JSON files = Some (mkFile (encodeJson (runtimeDescriptor t p)) MODE_644) ->
  map_get LAUNCH_SH files = Some (mkFile launcher MODE_755) ->
  validateOutputFiles files = Ok entries -> packageDeterministicTarZst files = Ok archive ->
  validateImmutableContent archive (content_value key archive entries)
    (descriptor_value (sha256 (encodeJson (runtimeDescriptor t p)))) = Ok tt.
Proof.
  intros Ht Hrev Hp Hj Hl Hkey Hwf Hclean Hrt Hln Hout Hpack.
  destruct (packaged_validates files entries archive Hwf Hclean Hout Hpack) as (Hmeta & Hunpack & Hlen & Hmatch).
  unfold validateImmutableContent. set (v := content_value key archive entries).
  change (plainObject v) with true. change (opt_prop v "format") with (VText "tar.zst").
  change (opt_prop v "key") with (VStr key). change (opt_prop v "sha256") with (VStr (sha256 archive)).
  change (opt_prop v "sizeBytes") with (VInt (zlen archive)).
  change (opt_prop v "entries") with (VArr (map entry_value entries)).
  cbn [vstr vint VInt is_array strict_eq VText get_list].
  rewrite Hkey, sha256_valid, !streq_refl, Z.eqb_refl, (archive_size_safe _ _ Hpack), descriptor_valid
    by apply sha256_valid.
  cbn [negb orb andb]. rewrite Hmeta. cbn [mbind res_bind]. rewrite Hunpack. cbn [mbind res_bind].
  rewrite Hlen, Z.eqb_refl, Hmatch. cbn [negb]. rewrite !map_get_map, !map_get_sorted, Hrt, Hln by done. cbn [fmap option_fmap option_map].
  set (h := sha256 (encodeJson _)).
  change (opt_prop (opt_prop (descriptor_value h) "runtime") "sha256") with (VStr h).
  cbn [u_sha256 unpacked_of f_bytes strict_eq u_bytes]. subst h. rewrite streq_refl. cbn [negb].
  by eapply runtime_validates.
Qed.

(** The builder never rejects its own work at the end: for a toolchain of a
    constructed catalog, any file set that was collected and whose paths a tar
    header can hold is published as soon as the output check and the packer
    accept it; the final validation of archive, entries and descriptor is
    guaranteed to pass.  [json_faithful] is the round trip of [JSON.stringify]
    and [JSON.parse] on the one descriptor written. *)
Theorem build_self_validates document families c m installed bundle_entries mods t p key w files w' :
  ReviewedToolchainCatalog document families = Ok c -> resolve_toolchain c m = Ok t ->
  createAssemblyPlan t = Ok p -> validContentKey key = true -> json_faithful (runtimeDescriptor t p) ->
  collect_files installed m bundle_entries mods t p w = (Ok files, w') ->
  Forall (fun e => tar_clean e.1 = true) files ->
  finish_build key files =
    (entries ← validateOutputFiles files;
     archive ← packageDeterministicTarZst files;
     Ok (mkBuilt archive (content_value key archive entries)
           (descriptor_value (sha256 (encodeJson (runtimeDescriptor t p)))))).
Proof.
  intros (Hrev%lowerSha256_valid & Hok & _)%catalog_constructed [Hin _]%resolve_toolchain_ok Hp Hkey Hj Hc Hclean.
  rewrite Forall_forall in Hok. specialize (Hok t Hin).
  apply collect_files_ok in Hc as (r & fs & _ & _ & _ & [Hwf _] & Hrt & launcher & Hl & Hln).
  unfold finish_build. destruct (validateOutputFiles files) as [es|e] eqn:Hout; [|done]. cbn [mbind res_bind].
  destruct (packageDeterministicTarZst files) as [archive|e] eqn:Hpack; [|done]. cbn [mbind res_bind].
  pose proof (validateOutputFiles_ok _ _ Hout) as (_ & Hes & _).
  rewrite Hes at 1. rewrite (entryHash_of files _ _ Hwf Hrt). cbn [mbind res_bind f_bytes].
  by rewrite (immutable_content_validates _ _ _ _ _ _ _ _ _ Hok Hrev Hp Hj Hl Hkey Hwf Hclean Hrt Hln Hout Hpack).
Qed.
End self_validation.

(** ** A run: the Fabric toolchain, one bundle file, one remote mod *)
Definition bld_mod_url : jsstr := js "https://cdn.modrinth.com/data/b.jar".

Definition bld_urls : UrlParser := {| parse_url s :=
  if streq s bld_mod_url then Some (mkUrl (js "https:") [] [] (js "cdn.modrinth.com") [] (js "/data/b.jar") [] []
    bld_mod_url (js "https://cdn.modrinth.com"))
  else parse_url (UrlParser := cat_urls) s |}.

#[local] Existing Instance ascii_unicode.
#[local] Existing Instance toy_sha256.
#[local] Existing Instance bld_urls.

Definition bld_toolchain : toolchain := Eval vm_compute in
  default (mkToolchain [] [] [] [] 0 (mkJre [] [] [] 0 []) [] []) (head (c_toolchains cat_catalog)).
Definition bld_plan : plan := Eval vm_compute in
  get_ok (mkPlan [] [] [] [] 0 (t_jre bld_toolchain) [] [] []) (createAssemblyPlan bld_toolchain).

#[local] Instance bld_parse : JsonParse := {| json_parse s :=
  if streq s (js "runtime") then Some (runtimeDescriptor bld_toolchain bld_plan) else None |}.
#[local] Instance bld_stringify : JsonStringify := {| json_stringify v :=
  match v with VArr _ => to_string v | _ => js "runtime" end |}.

#[local] Instance bld_fetch : Fetch nat := {|
  fetchImpl url n := (Ok (
    if streq url cat_url then Some (mkResponse 200 false cat_url None (Some (js "3"))
      (Stream [Chunk (VBytes [1; 2]); Chunk (VBytes [3])]))
    else if streq url bld_mod_url then Some (mkResponse 200 false [] None (Some (js "2"))
      (Stream [Chunk (VBytes [7; 8])]))
    else None), S n);
  timer n := (Ok false, n);
  artifactCacheReader := None |}.
#[local] Instance bld_downloader : ArtifactDownloader nat := strict_downloader MAX_ARTIFACT_BYTES.

Definition bld_attestation : jsval :=
  obj [("ephemeralWorkspace", VBool true); ("nonRoot", VBool true); ("readOnlyBaseFilesystem", VBool true);
       ("noSecrets", VBool true); ("noDockerSocket", VBool true); ("boundedResources", VBool true);
       ("network", VText "disabled")]%string.

Definition bld_outputs : list (jsstr * jsval) :=
  [(js "server.jar", obj [("bytes", VBytes [80; 75]); ("mode", VInt MODE_644)]%string)].

#[local] Instance bld_assembler : Assembler nat := {|
  jre_resolve j n := (Ok (obj [("verified", VBool true); ("readOnly", VBool true); ("id", VStr (j_id j));
    ("sha256", VStr (j_sha256 j)); ("component", VStr (j_component j)); ("major", VInt (j_major j));
    ("runtimeCatalogRevision", VStr (j_runtimeCatalogRevision j)); ("rootToken", VText "root-1")]%string), n);
  capabilities := obj requiredSandboxCapabilities;
  assemble _ n := (Ok (Some (mkSandboxResult bld_attestation (Some bld_outputs))), n) |}.

Definition bld_entries : list (jsstr * bytes) := [(js "instance/config/a.cfg", [9; 9; 9])].
Definition bld_manifest : manifest :=
  mkManifest (js "demo") (js "1.21.1") (js "fabric") (js "0.16.9") (js "java-runtime") 21 cat_sha
    [mkMfile (js "instance/config/a.cfg") (toy_digest [9; 9; 9]) 3].

Definition bld_frozen : jsval :=
  obj [("compatibility", obj [("runtimeCatalog", obj [("sha256", VStr cat_sha)])]);
       ("mods", VArr [obj [("downloadUrl", VStr bld_mod_url); ("fileId", VText "8"); ("filename", VText "b.jar");
          ("projectId", VText "7"); ("provider", VText "modrinth"); ("sha256", VStr (toy_digest [7; 8]));
          ("sizeBytes", VInt 2)]])]%string.

Definition bld_key : jsstr := js "content/demo.tar.zst".

Definition bld_built : built := Eval vm_compute in
  get_ok (mkBuilt [] VNull VNull) (build (Some cat_catalog) bld_manifest bld_entries bld_frozen bld_key 0%nat).1.

Lemma bld_builds :
  build (Some cat_catalog) bld_manifest bld_entries bld_frozen bld_key 0%nat = (Ok bld_built, 2%nat).
Proof. vm_cast_no_check (eq_refl (Ok bld_built, 2%nat)). Qed.

Lemma build_provenance_witness :
  exists files, packageDeterministicTarZst files = Ok (bt_archive bld_built) /\
    validateImmutableContent (bt_archive bld_built) (bt_content bld_built) (bt_descriptor bld_built) = Ok tt.
Proof.
  destruct (build_provenance cat_catalog bld_manifest bld_entries bld_frozen bld_key 0%nat bld_built 2%nat bld_builds)
    as (t & p & r & fs & files & w1 & _ & _ & _ & _ & _ & Hp & Hv & _).
  exists files. split; assumption.
Defined.

Lemma build_complete_witness :
  exists files f, packageDeterministicTarZst files = Ok (bt_archive bld_built) /\
    map_get (js "config/a.cfg") files = Some f /\ sha256 (f_bytes f) = toy_digest [9; 9; 9].
Proof.
  destruct (build_complete cat_catalog bld_manifest bld_entries bld_frozen bld_key 0%nat bld_built 2%nat bld_builds)
    as (t & p & r & fs & files & w1 & _ & _ & _ & _ & (_ & Hb & _) & Hp).
  destruct (Hb (mkMfile (js "instance/config/a.cfg") (toy_digest [9; 9; 9]) 3) (js "config/a.cfg"))
    as (f & Hf & Hh); [left|reflexivity|].
  exists files, f. split; [assumption|]. split; assumption.
Defined.

Definition bld_installed : option sandbox_result := Some (mkSandboxResult bld_attestation (Some bld_outputs)).

Definition bld_files : list (jsstr * file) := Eval vm_compute in
  get_ok [] (collect_files bld_installed bld_manifest bld_entries (opt_prop bld_frozen "mods") bld_toolchain
    bld_plan 0%nat).1.

Lemma bld_collects :
  collect_files bld_installed bld_manifest bld_entries (opt_prop bld_frozen "mods") bld_toolchain bld_plan 0%nat =
    (Ok bld_files, 1%nat).
Proof. vm_cast_no_check (eq_refl (Ok bld_files, 1%nat)). Qed.

Lemma bld_constructed : ReviewedToolchainCatalog cat_document cat_families = Ok cat_catalog.
Proof. vm_cast_no_check (eq_refl (Ok cat_catalog)). Qed.

Lemma bld_resolved : resolve_toolchain cat_catalog bld_manifest = Ok bld_toolchain.
Proof. vm_cast_no_check (eq_refl (Ok bld_toolchain)). Qed.

Lemma bld_files_clean : Forall (fun e => tar_clean e.1 = true) bld_files.
Proof. repeat constructor. Qed.

Lemma build_self_validates_witness :
  finish_build bld_key bld_files =
    (entries ← validateOutputFiles bld_files;
     archive ← packageDeterministicTarZst bld_files;
     Ok (mkBuilt archive (content_value bld_key archive entries)
           (descriptor_value (sha256 (encodeJson (runtimeDescriptor bld_toolchain bld_plan)))))).
Proof.
  exact (build_self_validates cat_document cat_families cat_catalog bld_manifest bld_installed bld_entries
    (opt_prop bld_frozen "mods") bld_toolchain bld_plan bld_key 0%nat bld_files 1%nat
    bld_constructed bld_resolved eq_refl eq_refl eq_refl bld_collects bld_files_clean).
Defined.
