(* ===== verification/Fakes.v ===== *)
(** * The deterministic test doubles ([reviewed-builder.mjs], [DeterministicFake...])

    The module exports doubles of the three dependencies of the builder: a
    downloader over a map of bytes, a registry over a list of JRE roots, and a
    sandbox that returns files derived from the assembly plan.  They are instances
    of the interfaces the builder is proved against; the theorem below states
    what a build over honestly filled doubles does, call by call. *)

From S2P Require Import Prelude JsText JsNum JsValue Regex Validators Limits Node TarZst Bundle Content Effects Catalog Downloader Builder.

(** ** The doubles and their recorded calls *)
Inductive fake_call :=
  | CalledDownload (coordinate : jsstr)
  | CalledResolve (id : jsstr)
  | CalledAssemble (request : assembly_request).

(** [fk_files]: the [files] option, as entries when it is a [Map] or an array
    ([Some None] is another value, [None] is absent or falsy). *)
Record fakes := mkFakes {
  fk_artifacts : list (jsstr * jsval);
  fk_roots : list (jsstr * jsval);
  fk_files : option (option (list jsval));
  fk_fail : bool;
  fk_calls : list fake_call;
}.

Definition record_call (c : fake_call) (w : fakes) : fakes :=
  mkFakes (fk_artifacts w) (fk_roots w) (fk_files w) (fk_fail w) (fk_calls w ++ [c]).

(** [new DeterministicFakeJreRegistry(roots)] *)
Definition fake_registry (roots : list jsval) : list (jsstr * jsval) :=
  fold_left (fun m root => map_set (get_str (opt_prop root "id")) root m) roots [].

Section fakes.
Context `{Unicode} `{Sha256} `{UrlParser} `{JsonParse} `{JsonStringify}.

(** [bytes instanceof Uint8Array] or a failure with this code. *)
Definition fake_bytes (code : string) (v : option jsval) : res jsval :=
  match v with Some (VBytes b) => Ok (VBytes b) | _ => Throw (failure code) end.

(** [DeterministicFakeArtifactDownloader.download] *)
Definition fake_download (a : artifact) (approvedHosts : list jsstr) : eff fakes jsval := fun w =>
  match validateApprovedArtifact MAX_ARTIFACT_BYTES a approvedHosts with
  | Throw e => (Throw e, w)
  | Ok _ =>
      (fake_bytes "artifact_download_failed" (map_get (a_coordinate a) (fk_artifacts w)),
       record_call (CalledDownload (a_coordinate a)) w)
  end.

Definition remote_coordinate (mod_ : jsval) : jsstr :=
  js "remote:" ++ to_string (opt_prop mod_ "provider") ++ js ":" ++ to_string (opt_prop mod_ "projectId") ++
  js ":" ++ to_string (opt_prop mod_ "fileId").

(** [DeterministicFakeArtifactDownloader.downloadRemoteMod] *)
Definition fake_downloadRemoteMod (mod_ : jsval) : eff fakes jsval := fun w =>
  match validateRemoteMod MAX_ARTIFACT_BYTES mod_ with
  | Throw e => (Throw e, w)
  | Ok _ =>
      (fake_bytes "remote_mod_download_failed" (map_get (remote_coordinate mod_) (fk_artifacts w)),
       record_call (CalledDownload (remote_coordinate mod_)) w)
  end.

#[export] Instance fake_downloader : ArtifactDownloader fakes := {|
  download := fake_download;
  downloadRemoteMod := fake_downloadRemoteMod;
|}.

(** [{ ...root, verified: true, readOnly: true, rootToken }] *)
Definition fake_root (root : jsval) : jsval :=
  let fields := match root with VObj f => f | _ => [] end in
  let token := match opt_prop root "rootToken" with
               | VUndef | VNull => VStr (js "fake-jre-" ++ to_string (opt_prop root "id"))
               | v => v
               end in
  VObj (map_set (js "rootToken") token (map_set (js "readOnly") (VBool true) (map_set (js "verified") (VBool true) fields))).

(** [DeterministicFakeJreRegistry.resolve] *)
Definition fake_resolve (request : jre) : eff fakes jsval := fun w =>
  (match map_get (j_id request) (fk_roots w) with
   | Some root => Ok (fake_root root)
   | None => Throw (failure "compiler_unavailable")
   end, record_call (CalledResolve (j_id request)) w).

(** The plan as a value, for [JSON.stringify(plan)]. *)
Definition plan_value (p : plan) : jsval :=
  obj [("schemaVersion", VInt 1); ("family", VStr (p_family p)); ("minecraftVersion", VStr (p_minecraftVersion p));
       ("loader", obj [("kind", VStr (p_family p)); ("version", VStr (p_version p))]);
       ("java", obj [("component", VStr (p_component p)); ("major", VInt (p_major p))]);
       ("jre", obj [("id", VStr (j_id (p_jre p))); ("sha256", VStr (j_sha256 (p_jre p)));
          ("component", VStr (j_component (p_jre p))); ("major", VInt (j_major (p_jre p)));
          ("runtimeCatalogRevision", VStr (j_runtimeCatalogRevision (p_jre p)))]);
       ("artifacts", VArr (map (fun '(coordinate, sha, size) =>
          obj [("coordinate", VStr coordinate); ("sha256", VStr sha); ("sizeBytes", VInt size)]) (p_artifacts p)));
       ("launch", obj [("template", VStr (p_template p)); ("arguments", VArr (map VStr (p_arguments p)))])]%string.

(** The bytes of a hexadecimal digest. *)
Fixpoint digest_bytes (hex : jsstr) : bytes :=
  match hex with
  | a :: b :: rest => parse_radix 16 [a; b] :: digest_bytes rest
  | _ => []
  end.

Definition file_value (b : bytes) (mode : jsval) : jsval := obj [("bytes", VBytes b); ("mode", mode)]%string.

Definition fakeServerFiles (p : plan) : list (jsstr * jsval) :=
  let seed := utf8_encode (json_stringify (plan_value p)) in
  let files := [(js "server.jar", file_value (digest_bytes (sha256 seed)) (VInt MODE_644))] in
  match List.find (starts_with (js "@")) (p_arguments p) with
  | Some argument => map_set (zdrop 1 argument) (file_value (utf8_encode (js "-jar server.jar" ++ [10])) (VInt MODE_644)) files
  | None => files
  end.

Definition installer_failed : exn := failure "installer_failed".

(** One turn of the loop of [cloneFiles]. *)
Definition clone_file (files : list (jsstr * jsval)) (e : jsval) : res (list (jsstr * jsval)) :=
  match e with
  | VArr [VStr path; f] =>
      let mode := match f with VBytes _ => VInt MODE_644 | _ =>
                    match opt_prop f "mode" with VUndef | VNull => VInt MODE_644 | v => v end end in
      match (match f with VBytes _ => f | _ => opt_prop f "bytes" end) with
      | VBytes b => if map_has path files then Throw installer_failed else Ok (map_set path (file_value b mode) files)
      | _ => Throw installer_failed
      end
  | _ => Throw installer_failed
  end.

Definition cloneFiles (value : option (list jsval)) : res (list (jsstr * jsval)) :=
  match value with
  | None => Throw installer_failed
  | Some entries =>
      if MAX_OUTPUT_FILES <? zlen entries then Throw installer_failed else foldM_res clone_file [] entries
  end.

Definition fake_attestation : jsval :=
  obj [("ephemeralWorkspace", VBool true); ("nonRoot", VBool true); ("readOnlyBaseFilesystem", VBool true);
       ("noSecrets", VBool true); ("noDockerSocket", VBool true); ("boundedResources", VBool true);
       ("network", VText "disabled")]%string.

(** [DeterministicFakeSandboxRunner.assemble] *)
Definition fake_assemble (request : assembly_request) : eff fakes (option sandbox_result) := fun w =>
  (if fk_fail w then Throw installer_failed
   else
     files ← match fk_files w with Some value => cloneFiles value | None => Ok (fakeServerFiles (as_plan request)) end;
     Ok (Some (mkSandboxResult fake_attestation (Some files))),
   record_call (CalledAssemble request) w).

#[export] Instance fake_assembler : Assembler fakes := {|
  jre_resolve := fake_resolve;
  capabilities := obj requiredSandboxCapabilities;
  assemble := fake_assemble;
|}.

(** ** A build over the doubles *)

(** What the downloader holds for an artifact, as the sandbox will get it. *)
Definition held (hosts : list jsstr) (w : fakes) (a : artifact) (s : supplied) : Prop :=
  validateApprovedArtifact MAX_ARTIFACT_BYTES a hosts = Ok tt /\ supplies a s /\
  map_get (a_coordinate a) (fk_artifacts w) = Some (VBytes (su_bytes s)).

Definition with_calls (w : fakes) (calls : list fake_call) : fakes :=
  mkFakes (fk_artifacts w) (fk_roots w) (fk_files w) (fk_fail w) calls.

Lemma record_with_calls c w calls : record_call c (with_calls w calls) = with_calls w (calls ++ [c]).
Proof. done. Qed.

Lemma fetch_held hosts w l sup : Forall2 (held hosts w) l sup -> forall calls acc,
  foldM_eff (fetch_supplied hosts) acc l (with_calls w calls) =
  (Ok (acc ++ sup), with_calls w (calls ++ map (fun a => CalledDownload (a_coordinate a)) l)).
Proof.
  induction 1 as [|a s l sup (Hv & (Hc & Hu & Hz & Hh) & Hg) _ IH]; intros calls acc; cbn [foldM_eff map].
  { by rewrite !app_nil_r. }
  unfold mbind, eff_bind. unfold fetch_supplied at 1. unfold mbind, eff_bind. cbn [download fake_downloader].
  unfold fake_download. rewrite Hv. cbn [fk_artifacts with_calls]. rewrite Hg. cbn [fake_bytes].
  rewrite Hz, Z.eqb_refl, Hh, streq_refl. cbn [negb orb]. unfold mret at 1, eff_ret. rewrite record_with_calls, IH.
  rewrite <- !app_assoc. cbn [app]. by destruct s; cbn in Hc, Hu; subst.
Qed.

(** A build over honestly filled doubles runs to the packaging step.  When
    the registry double knows the JRE of the resolved toolchain and the downloader
    double holds the reviewed bytes of every artifact, [build] resolves the JRE,
    downloads each artifact once and in the order of the catalog, hands exactly
    those bytes to the sandbox, and its result is that of collecting and packaging
    the files of the sandbox double. *)
Theorem fake_build_exact c m entries frozen key w t p j sup root :
  resolve_toolchain c m = Ok t -> createAssemblyPlan t = Ok p -> validContentKey key = true ->
  strict_eq (opt_prop (opt_prop (opt_prop frozen "compatibility") "runtimeCatalog") "sha256")
    (VStr (c_runtimeCatalogRevision c)) = true ->
  map_get (j_id (t_jre t)) (fk_roots w) = Some root -> check_jre (fake_root root) (t_jre t) = Ok j ->
  Forall2 (held (c_approvedArtifactHosts c) w) (t_artifacts t) sup ->
  fk_fail w = false -> fk_files w = None ->
  build (Some c) m entries frozen key w =
    (files ← collect_files (Some (mkSandboxResult fake_attestation (Some (fakeServerFiles p)))) m entries
               (opt_prop frozen "mods") t p;
     lift (finish_build key files))
    (with_calls w (fk_calls w ++ [CalledResolve (j_id (t_jre t))] ++
       map (fun a => CalledDownload (a_coordinate a)) (t_artifacts t) ++ [CalledAssemble (mkAssembly j p sup)])).
Proof.
  intros Ht Hp Hkey Hfrozen Hroot Hj Hheld Hfail Hfiles. unfold build.
  change (hasCapabilities capabilities) with true. rewrite Hkey. cbn [negb]. rewrite Ht.
  unfold mbind at 1, eff_bind at 1. cbn [lift]. rewrite Hfrozen. cbn [negb].
  unfold mbind at 1, eff_bind at 1. unfold resolveVerifiedJre, mbind at 1, eff_bind at 1, try_catch at 1.
  cbn [jre_resolve fake_assembler]. unfold fake_resolve. rewrite Hroot. cbn [lift]. rewrite Hj, Hp.
  unfold mbind at 1, eff_bind at 1. cbn [lift]. unfold mbind at 1, eff_bind at 1.
  change (record_call (CalledResolve (j_id (t_jre t))) w)
    with (with_calls w (fk_calls w ++ [CalledResolve (j_id (t_jre t))])).
  rewrite (fetch_held _ _ _ _ Hheld). cbn [app]. unfold mbind at 1, eff_bind at 1, try_catch at 1.
  cbn [assemble fake_assembler]. unfold fake_assemble. cbn [fk_fail fk_files with_calls as_plan]. rewrite Hfail, Hfiles.
  cbn [mbind res_bind].
  by rewrite record_with_calls, <- !app_assoc.
Qed.
End fakes.

(** ** A run: the Fabric toolchain over the doubles *)
#[local] Existing Instance ascii_unicode.
#[local] Existing Instance toy_sha256.
#[local] Existing Instance bld_urls.
#[local] Existing Instance bld_parse.
#[local] Existing Instance bld_stringify.

Definition demo_root : jsval :=
  let j := t_jre bld_toolchain in
  obj [("id", VStr (j_id j)); ("sha256", VStr (j_sha256 j)); ("component", VStr (j_component j));
       ("major", VInt (j_major j)); ("runtimeCatalogRevision", VStr (j_runtimeCatalogRevision j))]%string.

Definition demo_fakes : fakes := mkFakes
  (map (fun a => (a_coordinate a, VBytes [1; 2; 3])) (t_artifacts bld_toolchain) ++
   [(js "remote:modrinth:7:8", VBytes [7; 8])])
  (fake_registry [demo_root]) None false [].

Definition demo_supplied : list supplied :=
  map (fun a => mkSupplied (a_coordinate a) (a_url a) [1; 2; 3]) (t_artifacts bld_toolchain).

Definition demo_jre : verified_jre := Eval vm_compute in
  get_ok (mkVerifiedJre (t_jre bld_toolchain) []) (check_jre (fake_root demo_root) (t_jre bld_toolchain)).

Example demo_fake_build :
  is_ok (build (Some cat_catalog) bld_manifest bld_entries bld_frozen bld_key demo_fakes).1 = true.
Proof. vm_cast_no_check (eq_refl true). Qed.

Lemma demo_held : Forall2 (held (c_approvedArtifactHosts cat_catalog) demo_fakes) (t_artifacts bld_toolchain) demo_supplied.
Proof. repeat constructor; vm_compute; reflexivity. Qed.

Lemma fake_build_exact_witness :
  build (Some cat_catalog) bld_manifest bld_entries bld_frozen bld_key demo_fakes =
    (files ← collect_files (Some (mkSandboxResult fake_attestation (Some (fakeServerFiles bld_plan)))) bld_manifest bld_entries
               (opt_prop bld_frozen "mods") bld_toolchain bld_plan;
     lift (finish_build bld_key files))
    (with_calls demo_fakes ([CalledResolve (j_id (t_jre bld_toolchain))] ++
       map (fun a => CalledDownload (a_coordinate a)) (t_artifacts bld_toolchain) ++
       [CalledAssemble (mkAssembly demo_jre bld_plan demo_supplied)])).
Proof.
  apply (fake_build_exact cat_catalog bld_manifest bld_entries bld_frozen bld_key demo_fakes bld_toolchain bld_plan
    demo_jre demo_supplied demo_root).
  - exact bld_resolved.
  - vm_compute. reflexivity.
  - vm_compute. reflexivity.
  - vm_compute. reflexivity.
  - vm_compute. reflexivity.
  - vm_compute. reflexivity.
  - exact demo_held.
  - reflexivity.
  - reflexivity.
Defined.
