(* ===== verification/Installer.v ===== *)
(** * Rewriting the NeoForge installer ([bubblewrap-sandbox.mjs])

    [rewriteNeoForgeInstaller] unpacks the installer archive, removes the one
    processor that downloads mappings, and repacks the archive without
    compression.  The archive is bytes; the theorems show that unpacking the
    result gives back the entries of the input with only the install profile
    changed. *)

From S2P Require Import Prelude JsText JsNum JsValue Regex Validators Node Bundle.

Module Installer.

Definition installer_failed : exn := failure "installer_failed".

(** [writeUInt16LE] and [writeUInt32LE] throw a [RangeError]. *)
Definition out_of_range : exn := PlainError "ERR_OUT_OF_RANGE".

(** ** Integers *)
Definition readU16 (b : bytes) (offset : Z) : Z :=
  js_or (byte_at b offset) (js_shl (byte_at b (offset + 1)) 8).

Definition readU32 (b : bytes) (offset : Z) : Z :=
  js_ushr (js_or (readU16 b offset) (js_shl (readU16 b (offset + 2)) 16)) 0.

Definition writeUInt16LE (b : bytes) (value offset : Z) : res bytes :=
  if (0 <=? value) && (value <? 2 ^ 16) then Ok (set_bytes b offset (take 2 (littleEndian32 value)))
  else Throw out_of_range.

Definition writeUInt32LE (b : bytes) (value offset : Z) : res bytes :=
  if (0 <=? value) && (value <? 2 ^ 32) then Ok (set_bytes b offset (littleEndian32 value))
  else Throw out_of_range.

(** The same code as in [bundle.mjs]. *)
Definition crc32 : bytes -> Z := Bundle.crc32.

(** ** Reading *)
Record zentry := mkZentry { z_name : jsstr; z_bytes : bytes }.

(** [name.includes("\\") || name.startsWith("/") || name.split("/").includes("..")] *)
Definition bad_name (name : jsstr) : bool :=
  includes_char BACKSLASH name || starts_with (js "/") name || str_in (js "..") (split_on SLASH name).

Section read.
Context `{InflateRaw}.

(** One record of the central directory, and the offset of the next. *)
Definition read_entry (b : bytes) (central : Z) : res (zentry * Z) :=
  if negb (readU32 b central =? 0x02014b50) then Throw installer_failed
  else
    let method := readU16 b (central + 10) in
    let compressedSize := readU32 b (central + 20) in
    let size := readU32 b (central + 24) in
    let nameLength := readU16 b (central + 28) in
    let extraLength := readU16 b (central + 30) in
    let commentLength := readU16 b (central + 32) in
    let local := readU32 b (central + 42) in
    match text_decode (subarray b (central + 46) (central + 46 + nameLength)) with
    | None => Throw (TypeError "ERR_ENCODING_INVALID_ENCODED_DATA")
    | Some name =>
        if negb (readU32 b local =? 0x04034b50) || bad_name name then Throw installer_failed
        else
          let localNameLength := readU16 b (local + 26) in
          let localExtraLength := readU16 b (local + 28) in
          let start := local + 30 + localNameLength + localExtraLength in
          let compressed := subarray b start (start + compressedSize) in
          let next := central + (46 + nameLength + extraLength + commentLength) in
          let accept content :=
            if negb (zlen content =? size) then Throw installer_failed else Ok (mkZentry name content, next) in
          if method =? 0 then accept compressed
          else if method =? 8 then
            match inflateRawSync compressed with
            | Some content => accept content
            | None => Throw (PlainError "Z_DATA_ERROR")
            end
          else Throw installer_failed
    end.

Fixpoint read_entries (count : nat) (b : bytes) (central : Z) (entries : list zentry) : res (list zentry) :=
  match count with
  | O => Ok entries
  | S count =>
      r ← read_entry b central;
      read_entries count b r.2 (entries ++ [r.1])
  end.

(** The backwards search for the end record. *)
Fixpoint find_end (count : nat) (b : bytes) (offset : Z) : option Z :=
  match count with
  | O => None
  | S count => if readU32 b offset =? 0x06054b50 then Some offset else find_end count b (offset - 1)
  end.

Definition readZip (b : bytes) : res (list zentry) :=
  if zlen b <? 22 then Throw installer_failed
  else
    match find_end (eocd_count b) b (zlen b - 22) with
    | None => Throw installer_failed
    | Some offset => read_entries (Z.to_nat (readU16 b (offset + 10))) b (readU32 b (offset + 16)) []
    end.
End read.

(** ** Writing *)
Definition local_header (checksum size nameLength : Z) : res bytes :=
  h ← writeUInt32LE (zeros 30) 0x04034b50 0;
  h ← writeUInt16LE h 20 4;
  h ← writeUInt16LE h 0x800 6;
  h ← writeUInt32LE h checksum 14;
  h ← writeUInt32LE h size 18;
  h ← writeUInt32LE h size 22;
  writeUInt16LE h nameLength 26.

Definition directory_record (checksum size nameLength offset : Z) : res bytes :=
  d ← writeUInt32LE (zeros 46) 0x02014b50 0;
  d ← writeUInt16LE d 20 4;
  d ← writeUInt16LE d 20 6;
  d ← writeUInt16LE d 0x800 8;
  d ← writeUInt32LE d checksum 16;
  d ← writeUInt32LE d size 20;
  d ← writeUInt32LE d size 24;
  d ← writeUInt16LE d nameLength 28;
  writeUInt32LE d offset 42.

Definition end_record (count centralSize offset : Z) : res bytes :=
  e ← writeUInt32LE (zeros 22) 0x06054b50 0;
  e ← writeUInt16LE e count 8;
  e ← writeUInt16LE e count 10;
  e ← writeUInt32LE e centralSize 12;
  writeUInt32LE e offset 16.

Fixpoint write_entries (entries : list zentry) (local central : list bytes) (offset : Z) :
    res (list bytes * list bytes * Z) :=
  match entries with
  | [] => Ok (local, central, offset)
  | entry :: rest =>
      let name := utf8_encode (z_name entry) in
      let content := z_bytes entry in
      let checksum := crc32 content in
      header ← local_header checksum (zlen content) (zlen name);
      directory ← directory_record checksum (zlen content) (zlen name) offset;
      write_entries rest (local ++ [header; name; content]) (central ++ [directory; name])
        (offset + (zlen header + zlen name + zlen content))
  end.

Definition writeStoredZip (entries : list zentry) : res bytes :=
  r ← write_entries entries [] [] 0;
  let '(local, central, offset) := r in
  let centralBytes := concat central in
  stop ← end_record (zlen entries) (zlen centralBytes) offset;
  Ok (concat local ++ centralBytes ++ stop).

(** ** [rewriteNeoForgeInstaller] *)
Definition PROFILE : jsstr := js "install_profile.json".

(** [processor?.args] contains ["DOWNLOAD_MOJMAPS"]. *)
Definition downloads_mappings (processor : jsval) : bool :=
  match opt_prop processor "args" with
  | VArr args => existsb (fun a => strict_eq a (VText "DOWNLOAD_MOJMAPS")) args
  | _ => false
  end.

(** [profile.bytes = content] for the entry that [find] returns. *)
Fixpoint set_profile (content : bytes) (entries : list zentry) : list zentry :=
  match entries with
  | [] => []
  | e :: rest =>
      if streq (z_name e) PROFILE then mkZentry (z_name e) content :: rest
      else e :: set_profile content rest
  end.

Section rewrite.
Context `{InflateRaw} `{JsonParse} `{JsonStringify}.

Definition rewriteNeoForgeInstaller (b : bytes) : res bytes :=
  entries ← readZip b;
  match List.find (fun e => streq (z_name e) PROFILE) entries with
  | None => Throw installer_failed
  | Some profile =>
      match parse_bytes (z_bytes profile) with
      | None => Throw installer_failed
      | Some document =>
          before ← prop document "processors";
          match before, document with
          | VArr before, VObj fields =>
              let processors := List.filter (fun p => negb (downloads_mappings p)) before in
              if negb (zlen processors =? zlen before - 1) then Throw installer_failed
              else
                let document := VObj (map_set (js "processors") (VArr processors) fields) in
                writeStoredZip (set_profile (utf8_encode (json_stringify document)) entries)
          | _, _ => Throw installer_failed
          end
      end
  end.
End rewrite.

(** ** Integers are read back *)
Lemma byte_at_beyond a b k : 0 <= k -> byte_at (a ++ b) (zlen a + k) = byte_at b k.
Proof.
  intros Hk. unfold byte_at. rewrite zdrop_app. rewrite (zdrop_ge _ a) by lia. cbn [app].
  by replace (zlen a + k - zlen a) with k by lia.
Qed.

Lemma byte_at_app_l a b k : 0 <= k < zlen a -> byte_at (a ++ b) k = byte_at a k.
Proof.
  intros Hk. unfold byte_at. rewrite zdrop_app, (zdrop_le0 (k - zlen a)) by lia.
  destruct (zdrop k a) as [|x t] eqn:E; [|done]. pose proof (zlen_zdrop k a) as Hz. rewrite E in Hz. zlia.
Qed.

Lemma byte_at_set_bytes t o bs i :
  0 <= o -> o + zlen bs <= zlen t -> 0 <= i < zlen t ->
  byte_at (set_bytes t o bs) i = if (o <=? i) && (i <? o + zlen bs) then byte_at bs (i - o) else byte_at t i.
Proof.
  intros Ho Hfit Hi. pose proof (zlen_nonneg bs). assert (zlen (ztake o t) = o) as Hto by zlia. unfold set_bytes.
  destruct (Z.leb_spec o i), (Z.ltb_spec i (o + zlen bs)); cbn [andb].
  - replace i with (zlen (ztake o t) + (i - o)) at 1 by lia. by rewrite byte_at_beyond, byte_at_app_l by lia.
  - replace i with (zlen (ztake o t) + (zlen bs + (i - o - zlen bs))) at 1 by lia.
    rewrite byte_at_beyond, byte_at_beyond by lia. unfold byte_at. rewrite zdrop_zdrop by lia.
    by replace (o + zlen bs + (i - o - zlen bs)) with i by lia.
  - rewrite byte_at_app_l by lia. unfold byte_at. rewrite <- (ztake_zdrop o t) at 2. rewrite zdrop_app.
    destruct (zdrop i (ztake o t)) as [|x r] eqn:E; [|done]. pose proof (zlen_zdrop i (ztake o t)) as Hz. rewrite E in Hz. zlia.
  - lia.
Qed.

Lemma byte_at_set_in t o bs i k :
  0 <= o -> o + zlen bs <= zlen t -> 0 <= k < zlen bs -> i = o + k -> byte_at (set_bytes t o bs) i = byte_at bs k.
Proof.
  intros Ho Hfit Hk ->. rewrite byte_at_set_bytes by lia.
  rewrite (proj2 (Z.leb_le o _)), (proj2 (Z.ltb_lt _ _)) by lia. cbn [andb]. f_equal. lia.
Qed.

Definition le16 (v : Z) : bytes := take 2 (littleEndian32 v).

Lemma zlen_le16 v : zlen (le16 v) = 2.
Proof. done. Qed.

Lemma low_byte v : is_byte (v mod 256) = true.
Proof. unfold is_byte. rewrite andb_true_iff, !Z.leb_le. Z.div_mod_to_equations. lia. Qed.

(** The value of two bytes, and of four. *)
Lemma value16 b0 b1 : is_byte b0 = true -> is_byte b1 = true -> js_or b0 (js_shl b1 8) = b0 + 256 * b1.
Proof.
  unfold is_byte. rewrite !andb_true_iff, !Z.leb_le. intros ? ?. rewrite js_or_shl by lia. lia.
Qed.

Lemma value32 u v : 0 <= u < 2 ^ 16 -> 0 <= v < 2 ^ 16 -> js_ushr (js_or u (js_shl v 16)) 0 = u + 65536 * v.
Proof.
  intros Hu Hv. unfold js_or, js_shl, js_ushr. rewrite Z.shiftr_0_r, Z.shiftl_mul_pow2 by lia.
  rewrite (to_int32_id u), (to_int32_id v) by lia.
  assert (to_int32 (to_int32 (v * 2 ^ 16)) = (if v <? 2 ^ 15 then v else v - 2 ^ 16) * 2 ^ 16) as ->.
  { destruct (Z.ltb_spec v (2 ^ 15)).
    - by rewrite !(to_int32_id (v * 2 ^ 16)) by lia.
    - assert (to_int32 (v * 2 ^ 16) = (v - 2 ^ 16) * 2 ^ 16) as ->; [|by rewrite to_int32_id by lia].
      unfold to_int32. rewrite Z.mod_small by lia. rewrite (proj2 (Z.ltb_ge _ _)) by lia. lia. }
  rewrite lor_shifted by lia. unfold to_uint32. destruct (Z.ltb_spec v (2 ^ 15)); [rewrite Z.mod_small by lia; lia|].
  rewrite <- (Z.mod_add _ 1) by done. rewrite Z.mod_small by lia. lia.
Qed.

Lemma le_bytes v : 0 <= v < 2 ^ 32 ->
  littleEndian32 v = [v mod 256; v / 256 mod 256; v / 65536 mod 256; v / 16777216 mod 256].
Proof. intros Hv. unfold littleEndian32. by rewrite !js_and_255, !js_ushr_div by lia. Qed.

Lemma readU16_le16 v : 0 <= v < 2 ^ 16 -> readU16 (le16 v) 0 = v.
Proof.
  intros Hv. unfold readU16, le16. rewrite le_bytes by lia. cbn [take].
  change (js_or (v mod 256) (js_shl (v / 256 mod 256) 8) = v). rewrite value16 by apply low_byte.
  Z.div_mod_to_equations. lia.
Qed.

Lemma readU32_le32 v : 0 <= v < 2 ^ 32 -> readU32 (littleEndian32 v) 0 = v.
Proof.
  intros Hv. unfold readU32, readU16. rewrite le_bytes by lia.
  change (js_ushr (js_or (js_or (v mod 256) (js_shl (v / 256 mod 256) 8))
    (js_shl (js_or (v / 65536 mod 256) (js_shl (v / 16777216 mod 256) 8)) 16)) 0 = v).
  rewrite !value16 by apply low_byte. rewrite value32 by (Z.div_mod_to_equations; lia).
  replace (v / 16777216) with (v / 65536 / 256) by (by rewrite Z.div_div by lia).
  replace (v / 65536) with (v / 256 / 256) by (by rewrite Z.div_div by lia).
  set (q1 := v / 256). set (q2 := q1 / 256). set (q3 := q2 / 256).
  assert (v = 256 * q1 + v mod 256) by (unfold q1; Z.div_mod_to_equations; lia).
  assert (q1 = 256 * q2 + q1 mod 256) by (unfold q2; Z.div_mod_to_equations; lia).
  assert (q2 = 256 * q3 + q2 mod 256) by (unfold q3; Z.div_mod_to_equations; lia).
  assert (0 <= q3 < 256) by (unfold q3, q2, q1; Z.div_mod_to_equations; lia). rewrite (Z.mod_small q3) by lia. lia.
Qed.

(** What a write of [width] bytes at [o] does to the buffer. *)
Record written (width o : Z) (b b' : bytes) : Prop := {
  written_zlen : zlen b' = zlen b;
  written_16 : forall k, 0 <= k -> k + 2 <= o \/ o + width <= k -> k + 2 <= zlen b -> readU16 b' k = readU16 b k;
  written_32 : forall k, 0 <= k -> k + 4 <= o \/ o + width <= k -> k + 4 <= zlen b -> readU32 b' k = readU32 b k;
}.

Lemma set_bytes_written o bs b : 0 <= o -> o + zlen bs <= zlen b -> written (zlen bs) o b (set_bytes b o bs).
Proof.
  intros Ho Hfit. pose proof (zlen_nonneg bs).
  assert (forall k, 0 <= k < zlen b -> k < o \/ o + zlen bs <= k -> byte_at (set_bytes b o bs) k = byte_at b k) as Hb.
  { intros k Hk Hd. rewrite byte_at_set_bytes by lia.
    destruct (Z.leb_spec o k), (Z.ltb_spec k (o + zlen bs)); cbn [andb]; lia || done. }
  split.
  - by apply zlen_set_bytes.
  - intros k Hk Hd Hl. unfold readU16. by rewrite !Hb by lia.
  - intros k Hk Hd Hl. unfold readU32, readU16. by rewrite !Hb by lia.
Qed.

Lemma write16_ok b v o b' :
  writeUInt16LE b v o = Ok b' -> 0 <= o -> o + 2 <= zlen b ->
  0 <= v < 2 ^ 16 /\ readU16 b' o = v /\ written 2 o b b'.
Proof.
  unfold writeUInt16LE. destruct (_ && _) eqn:Eg; [|done]. rewrite andb_true_iff, Z.leb_le, Z.ltb_lt in Eg.
  intros E Ho Hfit. assert (b' = set_bytes b o (le16 v)) as -> by (unfold le16; congruence). split; [done|]. split; [|by apply (set_bytes_written o (le16 v))].
  etrans; [|by apply (readU16_le16 v)]. unfold readU16. pose proof (zlen_le16 v).
  by rewrite (byte_at_set_in b o (le16 v) o 0), (byte_at_set_in b o (le16 v) (o + 1) 1) by lia.
Qed.

Lemma write32_ok b v o b' :
  writeUInt32LE b v o = Ok b' -> 0 <= o -> o + 4 <= zlen b ->
  0 <= v < 2 ^ 32 /\ readU32 b' o = v /\ written 4 o b b'.
Proof.
  unfold writeUInt32LE. destruct (_ && _) eqn:Eg; [|done]. rewrite andb_true_iff, Z.leb_le, Z.ltb_lt in Eg.
  intros E Ho Hfit. assert (b' = set_bytes b o (littleEndian32 v)) as -> by congruence. split; [done|].
  split; [|by apply (set_bytes_written o (littleEndian32 v))].
  etrans; [|by apply (readU32_le32 v)]. unfold readU32, readU16. pose proof (zlen_littleEndian32 v).
  rewrite (byte_at_set_in b o (littleEndian32 v) o 0), (byte_at_set_in b o (littleEndian32 v) (o + 1) 1) by lia.
  by rewrite (byte_at_set_in b o (littleEndian32 v) (o + 2) 2), (byte_at_set_in b o (littleEndian32 v) (o + 2 + 1) 3) by lia.
Qed.

(** Invert a sequence of writes and read a field through the later ones. *)
Ltac written_inv :=
  repeat match goal with
  | H : _ ≫= _ = Ok _ |- _ => apply bind_ok in H; destruct H as (? & ? & ?)
  end;
  repeat match goal with
  | H : writeUInt16LE ?b _ _ = Ok _, Hz : zlen ?b = _ |- _ =>
      apply write16_ok in H; [|lia|rewrite Hz; lia];
      let Hn := fresh "Hz" in destruct H as (? & ? & [Hn ? ?]); rewrite Hz in Hn
  | H : writeUInt32LE ?b _ _ = Ok _, Hz : zlen ?b = _ |- _ =>
      apply write32_ok in H; [|lia|rewrite Hz; lia];
      let Hn := fresh "Hz" in destruct H as (? & ? & [Hn ? ?]); rewrite Hz in Hn
  end.

Ltac read_field :=
  repeat match goal with
  | H : forall k, _ -> _ -> _ -> readU16 ?b k = _ |- context [readU16 ?b _] => rewrite H by lia
  | H : forall k, _ -> _ -> _ -> readU32 ?b k = _ |- context [readU32 ?b _] => rewrite H by lia
  end.

Lemma local_header_ok checksum size nameLength h :
  local_header checksum size nameLength = Ok h ->
  zlen h = 30 /\ readU32 h 0 = 0x04034b50 /\ readU16 h 26 = nameLength /\ readU16 h 28 = 0.
Proof.
  unfold local_header. intros Hh. assert (zlen (zeros 30) = 30) by done.
  written_inv. split_and!; read_field; done || lia.
Qed.

Lemma directory_record_ok checksum size nameLength offset d :
  directory_record checksum size nameLength offset = Ok d ->
  zlen d = 46 /\ readU32 d 0 = 0x02014b50 /\ readU16 d 10 = 0 /\ readU32 d 20 = size /\ readU32 d 24 = size /\
  readU16 d 28 = nameLength /\ readU16 d 30 = 0 /\ readU16 d 32 = 0 /\ readU32 d 42 = offset.
Proof.
  unfold directory_record. intros Hd. assert (zlen (zeros 46) = 46) by done.
  written_inv. split_and!; read_field; done || lia.
Qed.

Lemma end_record_ok count centralSize offset e :
  end_record count centralSize offset = Ok e ->
  zlen e = 22 /\ readU32 e 0 = 0x06054b50 /\ readU16 e 10 = count /\ readU32 e 16 = offset.
Proof.
  unfold end_record. intros He. assert (zlen (zeros 22) = 22) by done.
  written_inv. split_and!; read_field; done || lia.
Qed.

(** ** The layout of a stored archive *)

(** [packed es o l c]: [l] holds the local records of [es] from offset [o] on,
    and [c] their directory records. *)
Inductive packed : list zentry -> Z -> bytes -> bytes -> Prop :=
  | packed_nil o : packed [] o [] []
  | packed_cons e es o h d l c :
      local_header (crc32 (z_bytes e)) (zlen (z_bytes e)) (zlen (utf8_encode (z_name e))) = Ok h ->
      directory_record (crc32 (z_bytes e)) (zlen (z_bytes e)) (zlen (utf8_encode (z_name e))) o = Ok d ->
      packed es (o + (zlen h + zlen (utf8_encode (z_name e)) + zlen (z_bytes e))) l c ->
      packed (e :: es) o (h ++ utf8_encode (z_name e) ++ z_bytes e ++ l) (d ++ utf8_encode (z_name e) ++ c).

Lemma write_entries_packed es : forall local central o local' central' o',
  write_entries es local central o = Ok (local', central', o') ->
  exists l c, packed es o l c /\ concat local' = concat local ++ l /\ concat central' = concat central ++ c /\ o' = o + zlen l.
Proof.
  induction es as [|e es IH]; intros local central o local' central' o'; cbn [write_entries].
  - intros [= <- <- <-]. exists [], []. rewrite !app_nil_r. split_and!; [constructor|done..|zlia].
  - intros (h & Hh & (d & Hd & Hr)%bind_ok)%bind_ok. apply IH in Hr as (l & c & Hp & Hl & Hc & ->).
    eexists _, _. split; [by econstructor|]. rewrite Hl, Hc, !concat_app. cbn [concat].
    rewrite !app_nil_r, <- !app_assoc. split_and!; [done..|]. zlia.
Qed.

Lemma readU16_mid a x b k : 0 <= k -> k + 2 <= zlen x -> readU16 (a ++ x ++ b) (zlen a + k) = readU16 x k.
Proof.
  intros. unfold readU16. rewrite byte_at_beyond, byte_at_app_l by lia.
  replace (zlen a + k + 1) with (zlen a + (k + 1)) by lia. by rewrite byte_at_beyond, byte_at_app_l by lia.
Qed.

Lemma readU32_mid a x b k : 0 <= k -> k + 4 <= zlen x -> readU32 (a ++ x ++ b) (zlen a + k) = readU32 x k.
Proof.
  intros. unfold readU32. rewrite readU16_mid by lia.
  replace (zlen a + k + 2) with (zlen a + (k + 2)) by lia. by rewrite readU16_mid by lia.
Qed.

Lemma subarray_mid a x b : subarray (a ++ x ++ b) (zlen a) (zlen a + zlen x) = x.
Proof.
  unfold subarray. rewrite zdrop_app_exact by done. apply ztake_app_exact. lia.
Qed.

(** Names that survive encoding and that the reader admits. *)
Definition name_ok (e : zentry) : Prop :=
  text_decode (utf8_encode (z_name e)) = Some (z_name e) /\ bad_name (z_name e) = false.

Section roundtrip.
Context `{InflateRaw}.

(** One entry, given where its two records are. *)
Lemma read_entry_packed e o h d b al bl ac bc :
  local_header (crc32 (z_bytes e)) (zlen (z_bytes e)) (zlen (utf8_encode (z_name e))) = Ok h ->
  directory_record (crc32 (z_bytes e)) (zlen (z_bytes e)) (zlen (utf8_encode (z_name e))) o = Ok d ->
  name_ok e -> zlen al = o ->
  b = al ++ (h ++ utf8_encode (z_name e) ++ z_bytes e) ++ bl ->
  b = ac ++ (d ++ utf8_encode (z_name e)) ++ bc ->
  read_entry b (zlen ac) = Ok (e, zlen ac + zlen (d ++ utf8_encode (z_name e))).
Proof.
  intros (Hzh & Hh0 & Hh26 & Hh28)%local_header_ok
    (Hzd & Hd0 & Hd10 & Hd20 & Hd24 & Hd28 & Hd30 & Hd32 & Hd42)%directory_record_ok [Hname Hbad] Ho Hl Hc.
  set (name := utf8_encode (z_name e)) in *.
  assert (forall k, 0 <= k -> k + 4 <= 46 -> readU32 b (zlen ac + k) = readU32 d k) as Hd32'.
  { intros k ? ?. rewrite Hc, <- app_assoc. apply readU32_mid; lia. }
  assert (forall k, 0 <= k -> k + 2 <= 46 -> readU16 b (zlen ac + k) = readU16 d k) as Hd16'.
  { intros k ? ?. rewrite Hc, <- app_assoc. apply readU16_mid; lia. }
  assert (readU32 b o = 0x04034b50) as Hsig.
  { rewrite <- Ho, Hl, <- app_assoc. replace (zlen al) with (zlen al + 0) by lia. rewrite readU32_mid by lia. done. }
  assert (readU16 b (o + 26) = zlen name /\ readU16 b (o + 28) = 0) as [H26 H28].
  { rewrite <- Ho, Hl, <- !app_assoc, !readU16_mid by lia. done. }
  unfold read_entry. replace (zlen ac) with (zlen ac + 0) at 1 by lia. rewrite Hd32', Hd0 by lia.
  cbn [Z.eqb Pos.eqb negb]. rewrite !Hd32', !Hd16', Hd10, Hd20, Hd24, Hd28, Hd30, Hd32, Hd42 by lia.
  replace (subarray b (zlen ac + 46) (zlen ac + 46 + zlen name)) with name.
  2:{ rewrite Hc. replace (ac ++ (d ++ name) ++ bc) with ((ac ++ d) ++ name ++ bc) by (by rewrite <- !app_assoc).
      replace (zlen ac + 46) with (zlen (ac ++ d)) by (rewrite zlen_app; lia). by rewrite subarray_mid. }
  rewrite Hname, Hsig, Hbad, H26, H28. cbn [Z.eqb Pos.eqb negb orb].
  replace (subarray b (o + 30 + zlen name + 0) (o + 30 + zlen name + 0 + zlen (z_bytes e))) with (z_bytes e).
  2:{ rewrite Hl. replace (al ++ (h ++ name ++ z_bytes e) ++ bl) with ((al ++ h ++ name) ++ z_bytes e ++ bl)
        by (by rewrite <- !app_assoc).
      replace (o + 30 + zlen name + 0) with (zlen (al ++ h ++ name)) by (rewrite !zlen_app; lia). by rewrite subarray_mid. }
  rewrite Z.eqb_refl. cbn [negb]. destruct e as [nm content]. cbn [z_name z_bytes] in *. do 2 f_equal.
  rewrite zlen_app. lia.
Qed.

Lemma read_entries_packed es o l c : packed es o l c -> Forall name_ok es ->
  forall pre mid post acc, zlen pre = o ->
  read_entries (length es) (pre ++ l ++ mid ++ c ++ post) (zlen (pre ++ l ++ mid)) acc = Ok (acc ++ es).
Proof.
  induction 1 as [o|e es o h d l c Hh Hd _ IH]; intros Hn pre mid post acc Hpre; cbn [length read_entries].
  { by rewrite app_nil_r. }
  apply Forall_cons in Hn as [Hne Hn]. set (name := utf8_encode (z_name e)) in *.
  rewrite (read_entry_packed e o h d _ pre (l ++ mid ++ (d ++ name ++ c) ++ post)
    (pre ++ (h ++ name ++ z_bytes e ++ l) ++ mid) (c ++ post)); [|done..|by rewrite <- !app_assoc|by rewrite <- !app_assoc].
  cbn [mbind res_bind fst snd]. fold name.
  specialize (IH Hn (pre ++ h ++ name ++ z_bytes e) (mid ++ d ++ name) post (acc ++ [e])).
  rewrite <- !app_assoc in IH. rewrite <- !app_assoc. cbn [app] in IH.
  replace (zlen (pre ++ h ++ name ++ z_bytes e ++ l ++ mid) + zlen (d ++ name))
    with (zlen (pre ++ h ++ name ++ z_bytes e ++ l ++ mid ++ d ++ name)) by (rewrite !zlen_app; lia).
  apply IH. rewrite !zlen_app. lia.
Qed.

(** Unpacking what was packed gives the same entries in the same order. *)
Lemma readZip_writeStoredZip es b : writeStoredZip es = Ok b -> Forall name_ok es -> readZip b = Ok es.
Proof.
  intros ([[local central] o] & Hw & (stop & Hs & [= <-])%bind_ok)%bind_ok Hn.
  apply write_entries_packed in Hw as (l & c & Hp & -> & -> & ->). cbn [concat app].
  apply end_record_ok in Hs as (Hz & H0' & H10 & H16). set (b := l ++ c ++ stop).
  assert (zlen b = zlen (l ++ c) + 22) as Hlen by (unfold b; rewrite !zlen_app; lia).
  pose proof (zlen_nonneg (l ++ c)).
  assert (b = (l ++ c) ++ stop ++ []) as Hb by (unfold b; by rewrite app_nil_r, <- app_assoc).
  unfold readZip. rewrite (proj2 (Z.ltb_ge _ _)) by lia.
  assert (exists n, eocd_count b = S n) as [n ->].
  { exists (pred (eocd_count b)). unfold eocd_count. lia. }
  cbn [find_end]. replace (zlen b - 22) with (zlen (l ++ c) + 0) by lia.
  rewrite Hb at 1. rewrite readU32_mid, H0' by lia. cbn [Z.eqb Pos.eqb].
  replace (zlen (l ++ c) + 0 + 10) with (zlen (l ++ c) + 10) by lia.
  replace (zlen (l ++ c) + 0 + 16) with (zlen (l ++ c) + 16) by lia.
  rewrite Hb, readU16_mid, readU32_mid, H10, H16, <- Hb by lia. unfold zlen at 1. rewrite Nat2Z.id.
  pose proof (read_entries_packed es 0 l c Hp Hn [] [] stop [] eq_refl) as Hr. cbn [app] in Hr.
  rewrite app_nil_r in Hr. by rewrite Z.add_0_l.
Qed.
End roundtrip.

(** ** The rewritten installer *)

(** The fatal decoder only returns strings that encode back. *)
Lemma utf8_decode_well_formed b : bytes_ok b -> forall s, utf8_decode b = Some s -> well_formed s = true.
Proof.
  induction b as [b IH] using (induction_ltof1 _ (@length Z)). unfold ltof in IH. intros Hok s.
  assert (forall c t r, bytes_ok t -> (length t < length b)%nat -> 0 <= c < 0x10000 -> is_high c = false -> is_low c = false ->
    cons c <$> utf8_decode t = Some r -> well_formed r = true) as Hunit.
  { intros c t r Ht Hlt Hc Hh Hl Hr. apply fmap_Some in Hr as (r' & Hr' & ->). cbn [well_formed].
    rewrite Hh, Hl, (IH t Hlt Ht r' Hr'). rewrite (proj2 (Z.leb_le _ _)), (proj2 (Z.ltb_lt _ _)) by lia. done. }
  assert (forall z, is_byte z = true -> 0 <= z <= 255) as Hbyte.
  { intros z. unfold is_byte. by rewrite andb_true_iff, !Z.leb_le. }
  destruct b as [|b0 t]; cbn [utf8_decode]; [by intros [= <-]|]. unfold bytes_ok in *. apply Forall_cons in Hok as [H0 Ht].
  apply Hbyte in H0. unfold is_high, is_low in *.
  destruct (Z.ltb_spec b0 0x80); [apply Hunit; [done|cbn; lia|lia|..]; zcases; cbn [andb]; done|].
  destruct ((0xc2 <=? b0) && (b0 <=? 0xdf)) eqn:E2.
  { zbool E2. destruct t as [|b1 t]; [done|]. destruct (is_cont b1) eqn:E1; [|done]. unfold is_cont in E1. zbool E1.
    apply Forall_cons in Ht as [_ Ht]. apply Hunit; [done|cbn; lia|lia|..]; zcases; cbn [andb]; lia || done. }
  destruct ((0xe0 <=? b0) && (b0 <=? 0xef)) eqn:E3.
  { zbool E3. destruct t as [|b1 [|b2 t]]; [done..|]. match goal with |- (if ?g then _ else _) = _ -> _ => destruct g eqn:E1; [|done] end.
    apply andb_true_iff in E1 as [E1 Ec]. unfold is_cont in Ec. zbool Ec. rewrite andb_true_iff, !Z.leb_le in E1.
    rewrite !Forall_cons in Ht. destruct Ht as (_ & _ & Ht).
    apply Hunit; [done|cbn; lia|..]; destruct (Z.eqb_spec b0 0xe0), (Z.eqb_spec b0 0xed); zcases; cbn [andb]; lia || done. }
  destruct ((0xf0 <=? b0) && (b0 <=? 0xf4)) eqn:E4; [|done].
  zbool E4. destruct t as [|b1 [|b2 [|b3 t]]]; [done..|]. match goal with |- (if ?g then _ else _) = _ -> _ => destruct g eqn:E1; [|done] end.
  apply andb_true_iff in E1 as [E1 Ec3]. apply andb_true_iff in E1 as [E1 Ec2]. unfold is_cont in Ec2, Ec3.
  zbool Ec2. zbool Ec3. rewrite andb_true_iff, !Z.leb_le in E1. cbv zeta.
  set (cp := (b0 - 0xf0) * 262144 + (b1 - 0x80) * 4096 + (b2 - 0x80) * 64 + (b3 - 0x80) - 0x10000).
  assert (0 <= cp < 0x100000) as Hcp.
  { unfold cp. destruct (Z.eqb_spec b0 0xf0), (Z.eqb_spec b0 0xf4); lia. }
  rewrite !Forall_cons in Ht. destruct Ht as (_ & _ & _ & Ht).
  intros Hr. apply fmap_Some in Hr as (r & Hr & ->). cbn [well_formed]. unfold is_high, is_low.
  rewrite (IH t ltac:(cbn; lia) Ht r Hr).
  assert (0 <= cp / 1024 < 1024 /\ 0 <= cp mod 1024 < 1024) by (Z.div_mod_to_equations; lia).
  zcases; cbn [andb]; lia || done.
Qed.

Lemma bytes_ok_subarray b i j : bytes_ok b -> bytes_ok (subarray b i j).
Proof.
  intros Hb. unfold subarray, bytes_ok. rewrite ztake_take, zdrop_drop. by apply Forall_take, Forall_drop.
Qed.

Lemma forallb_bytes_ok b : forallb is_byte b = true -> bytes_ok b.
Proof. rewrite forallb_forall. intros H. apply Forall_forall. intros x Hx. by apply H, list_elem_of_In. Qed.

Lemma bytes_ok_strip b : bytes_ok b -> bytes_ok (strip_bom b).
Proof.
  unfold strip_bom, bytes_ok. intros Hb. destruct b as [|b0 [|b1 [|b2 t]]]; [done..|]. destruct (_ && _); [|done].
  rewrite !Forall_cons in Hb. tauto.
Qed.

Section rewrite_proofs.
Context `{InflateRaw} `{JsonParse} `{JsonStringify}.

(** What the reader admits encodes back, unless it starts with a byte order
    mark. *)
Lemma read_entry_name b central e next :
  bytes_ok b -> read_entry b central = Ok (e, next) -> has_bom (z_name e) = false -> name_ok e.
Proof.
  intros Hb. unfold read_entry. destruct (negb _); [done|]. cbv zeta.
  destruct (text_decode _) as [name|] eqn:Et; [|done]. destruct (negb _ || bad_name name) eqn:Eg; [done|].
  apply orb_false_iff in Eg as [_ Hbad]. intros Hr Hbom.
  assert (z_name e = name) as En.
  { repeat match type of Hr with
    | (if ?g then _ else _) = _ => destruct g
    | match ?x with _ => _ end = _ => destruct x
    end; try done; by injection Hr as <- _. }
  rewrite En in Hbom. split; rewrite En; [|done]. apply text_roundtrip; [|done].
  eapply utf8_decode_well_formed; [|exact Et]. by apply bytes_ok_strip, bytes_ok_subarray.
Qed.

Lemma read_entries_names count b : bytes_ok b -> forall central acc es,
  read_entries count b central acc = Ok es -> Forall name_ok acc ->
  Forall (fun e => has_bom (z_name e) = false) es -> Forall name_ok es.
Proof.
  intros Hb. assert (forall count central acc es, read_entries count b central acc = Ok es -> exists more, es = acc ++ more) as Hpre.
  { induction count0 as [|count0 IH]; intros central acc es; cbn [read_entries].
    - intros [= <-]. exists []. by rewrite app_nil_r.
    - intros ([e next] & _ & Hr)%bind_ok. apply IH in Hr as [more ->]. exists ([e] ++ more). by rewrite <- app_assoc. }
  induction count as [|count IH]; intros central acc es; cbn [read_entries]; [by intros [= <-]|].
  intros ([e next] & He & Hr)%bind_ok Hacc Hbom. eapply IH; [exact Hr| |done].
  apply Forall_app. split; [done|]. constructor; [|done]. eapply read_entry_name; [done|exact He|].
  apply Hpre in Hr as [more ->]. cbn [fst] in Hbom. rewrite !Forall_app, Forall_cons in Hbom. tauto.
Qed.

Lemma readZip_names b es :
  bytes_ok b -> readZip b = Ok es -> Forall (fun e => has_bom (z_name e) = false) es -> Forall name_ok es.
Proof.
  intros Hb. unfold readZip. destruct (_ <? _); [done|]. destruct (find_end _ _ _); [|done]. intros Hr.
  by eapply read_entries_names.
Qed.

Lemma set_profile_names content es : Forall name_ok es -> Forall name_ok (set_profile content es).
Proof.
  induction 1 as [|e es He Hes IH]; cbn; [constructor|]. destruct (streq _ _); by constructor.
Qed.

Lemma filter_one {A} (f : A -> bool) (l : list A) :
  zlen (List.filter (fun x => negb (f x)) l) = zlen l - 1 ->
  exists l1 x l2, l = l1 ++ x :: l2 /\ f x = true /\ List.filter (fun x => negb (f x)) l = l1 ++ l2 /\
    Forall (fun x => f x = false) (l1 ++ l2).
Proof.
  assert (forall l, zlen (List.filter (fun x => negb (f x)) l) <= zlen l /\
    (zlen (List.filter (fun x => negb (f x)) l) = zlen l ->
     List.filter (fun x => negb (f x)) l = l /\ Forall (fun x => f x = false) l)) as Hall.
  { induction l0 as [|x l0 [IH1 IH2]]; [done|]. cbn. destruct (f x) eqn:E; cbn [negb]; rewrite !zlen_cons; [split; lia|].
    split; [lia|]. intros Hz. destruct IH2 as [IH2 IH3]; [lia|]. rewrite IH2. split; [done|]. by constructor. }
  induction l as [|x l IH]; [done|]. cbn. destruct (f x) eqn:E; cbn [negb]; rewrite !zlen_cons; intros Hz.
  - destruct (Hall l) as [_ [Hl Hf]]; [lia|]. exists [], x, l. by rewrite Hl.
  - destruct IH as (l1 & y & l2 & -> & Hy & Hl & Hf); [lia|]. exists (x :: l1), y, l2. cbn. rewrite Hl.
    split_and!; try done. by constructor.
Qed.

(** C32: The rewritten installer is the reviewed one with a single change.
    Reading the repacked archive gives exactly the entries of the original, in
    the same order and with the same bytes, except that the install profile has
    lost exactly the one processor that downloads mappings; everything else in
    the profile is kept. *)
Theorem installer_rewrite_exact b out es :
  bytes_ok b -> readZip b = Ok es -> Forall (fun e => has_bom (z_name e) = false) es ->
  rewriteNeoForgeInstaller b = Ok out ->
  exists profile fields before processor after,
    List.find (fun e => streq (z_name e) PROFILE) es = Some profile /\
    parse_bytes (z_bytes profile) = Some (VObj fields) /\
    map_get (js "processors") fields = Some (VArr (before ++ processor :: after)) /\
    downloads_mappings processor = true /\ Forall (fun p => downloads_mappings p = false) (before ++ after) /\
    readZip out = Ok (set_profile
      (utf8_encode (json_stringify (VObj (map_set (js "processors") (VArr (before ++ after)) fields)))) es).
Proof.
  intros Hb Hz Hbom. unfold rewriteNeoForgeInstaller. rewrite Hz. cbn [mbind res_bind].
  destruct (List.find _ es) as [profile|] eqn:Ef; [|done].
  destruct (parse_bytes (z_bytes profile)) as [document|] eqn:Ep; [|done].
  intros (v & Hv & Hr)%bind_ok. destruct v as [| | | | |l| |]; try done. destruct document as [| | | | | |fields|]; try done.
  destruct (negb _) eqn:Eg; [done|]. apply negb_false_iff, Z.eqb_eq in Eg.
  apply filter_one in Eg as (before & processor & after & -> & Hp & Hl & Hf). rewrite Hl in Hr.
  exists profile, fields, before, processor, after. split_and!; try done.
  - apply (f_equal (get_ok VUndef)) in Hv.
    change (default VUndef (map_get (js "processors") fields) = VArr (before ++ processor :: after)) in Hv.
    destruct (map_get (js "processors") fields) as [v|]; cbn in Hv; congruence.
  - eapply readZip_writeStoredZip; [exact Hr|]. by eapply set_profile_names, readZip_names.
Qed.
End rewrite_proofs.

(** ** An installer *)
#[local] Instance no_inflate : InflateRaw := {| inflateRawSync _ := None |}.

Definition demo_processors : list jsval :=
  [obj [("args", VArr [VText "--task"; VText "EXTRACT"])]; obj [("args", VArr [VText "--task"; VText "DOWNLOAD_MOJMAPS"])]]%string.

#[local] Instance profile_json : JsonParse := {|
  json_parse s := if streq s (js "profile") then Some (obj [("processors", VArr demo_processors); ("spec", VInt 1)]%string) else None |}.
#[local] Instance profile_text : JsonStringify := {| json_stringify _ := js "rewritten" |}.

Definition demo_installer : list zentry :=
  [mkZentry (js "data/server.lzma") [1; 2; 3]; mkZentry PROFILE (js "profile"); mkZentry (js "Main.class") []].

Definition demo_jar : bytes := Eval vm_compute in get_ok [] (writeStoredZip demo_installer).
Definition demo_offline : bytes := Eval vm_compute in get_ok [] (rewriteNeoForgeInstaller demo_jar).

Lemma demo_rewritten : rewriteNeoForgeInstaller demo_jar = Ok demo_offline.
Proof. vm_compute. reflexivity. Qed.

Lemma demo_jar_bytes : bytes_ok demo_jar.
Proof. apply forallb_bytes_ok. vm_compute. reflexivity. Qed.

Lemma installer_rewrite_exact_witness :
  exists es, readZip demo_offline = Ok es /\ map z_name es = map z_name demo_installer.
Proof.
  destruct (installer_rewrite_exact demo_jar demo_offline demo_installer) as (p & f & b & pr & a & _ & _ & _ & _ & _ & Hr).
  - exact demo_jar_bytes.
  - vm_compute. reflexivity.
  - repeat constructor.
  - exact demo_rewritten.
  - eexists. split; [exact Hr|]. reflexivity.
Defined.
End Installer.
