(* ===== verification/Sandbox.v ===== *)
(** * The bubblewrap sandbox ([bubblewrap-sandbox.mjs])

    [BubblewrapSandboxAdapter]: the configuration it accepts, the command line
    of the sandboxed installer, the placement of the reviewed artifacts in a
    fresh workspace, and the collection of the files the installer leaves.  The
    host (temporary directories, the process itself, removal) is a class; the
    directories are values: a list of written files before the run and a tree
    of directory entries after it. *)

From S2P Require Import Prelude JsText JsNum JsValue Regex Validators Limits Node TarZst Bundle Content Effects Catalog Downloader Builder Installer.
From Stdlib Require Import Ascii.

Import Installer.

Definition bounded (value minimum maximum : Z) : bool :=
  is_safe value && (minimum <=? value) && (value <=? maximum).

Record sandbox_config := mkSandboxConfig {
  sc_workspaceRoot : jsstr;
  sc_bubblewrapPath : jsstr;
  sc_prlimitPath : jsstr;
  sc_timeoutMs : Z;
  sc_addressSpaceBytes : Z;
  sc_fileSizeBytes : Z;
  sc_processLimit : Z;
  sc_cpuSeconds : Z;
}.

(** The checks of the constructor. *)
Definition valid_sandbox (c : sandbox_config) : bool :=
  absoluteNormalizedPath (sc_workspaceRoot c) && absoluteNormalizedPath (sc_bubblewrapPath c) &&
  absoluteNormalizedPath (sc_prlimitPath c) && bounded (sc_timeoutMs c) 10000 (15 * 60 * 1000) &&
  bounded (sc_addressSpaceBytes c) (512 * 1024 * 1024) (8 * 1024 * 1024 * 1024) &&
  bounded (sc_fileSizeBytes c) (64 * 1024 * 1024) maxFileBytes &&
  bounded (sc_processLimit c) 16 1024 && bounded (sc_cpuSeconds c) 10 600.

(** [this.capabilities] *)
Definition sandbox_capabilities : jsval :=
  obj [("ephemeralWorkspace", VBool true); ("nonRoot", VBool true); ("readOnlyBaseFilesystem", VBool true);
       ("noSecrets", VBool true); ("noDockerSocket", VBool true); ("boundedResources", VBool true);
       ("egress", VText "approved-artifacts-only")]%string.

(** ** The command line *)
Definition command (c : sandbox_config) (jreRoot inputs output : jsstr) : list jsstr :=
  [js "--as=" ++ to_radix 10 (sc_addressSpaceBytes c); js "--fsize=" ++ to_radix 10 (sc_fileSizeBytes c);
   js "--nproc=" ++ to_radix 10 (sc_processLimit c); js "--cpu=" ++ to_radix 10 (sc_cpuSeconds c); js "--";
   sc_bubblewrapPath c; js "--die-with-parent"; js "--new-session"; js "--unshare-all"; js "--uid"; js "10001";
   js "--gid"; js "10001"; js "--clearenv"; js "--tmpfs"; js "/"; js "--dir"; js "/usr"; js "--proc"; js "/proc";
   js "--dev"; js "/dev"; js "--dir"; js "/work"; js "--dir"; js "/inputs"; js "--dir"; js "/jre"; js "--dir";
   js "/tmp"; js "--ro-bind"; js "/lib"; js "/lib"; js "--ro-bind"; js "/lib64"; js "/lib64"; js "--ro-bind";
   js "/usr/lib"; js "/usr/lib"; js "--ro-bind"; jreRoot; js "/jre"; js "--ro-bind"; inputs; js "/inputs";
   js "--bind"; output; js "/work"; js "--chdir"; js "/work"; js "/jre/bin/java"; js "-Djava.awt.headless=true";
   js "-Duser.home=/work"; js "-Djava.io.tmpdir=/tmp"; js "-Xms128m"; js "-Xmx1024m"; js "-Xss512k";
   js "-XX:MaxMetaspaceSize=512m"; js "-XX:CompressedClassSpaceSize=256m"; js "-XX:ReservedCodeCacheSize=128m";
   js "-XX:MaxDirectMemorySize=256m"; js "-XX:ActiveProcessorCount=2"; js "-jar"; js "/inputs/installer.jar";
   js "--offline"; js "--installServer"; js "/work"].

(** ** Where an artifact goes *)

(** [l.at(-1)] *)
Definition last_of (l : list jsstr) : jsstr := List.last l [].

(** [/^(?:jar|zip|txt)$/] *)
Definition extension_ok : re := alts [lit "jar"; lit "zip"; lit "txt"].

(** [/^[0-9A-Za-z._+/-]+$/] *)
Definition path_char : Z -> bool := alnum ∪c chr1 "." ∪c chr1 "_" ∪c chr1 "+" ∪c chr1 "/" ∪c chr1 "-".

(** [group.replaceAll(".", "/")] *)
Definition dots_to_slashes (s : jsstr) : jsstr := map (fun c => if c =? ch "." then SLASH else c) s.

(** The path of the four parts of a coordinate; a missing classifier is empty. *)
Definition maven_file `{UrlParser} (a : supplied) (group name version classifier : jsstr) : res jsstr :=
  match parse_url (su_url a) with
  | None => Throw installer_failed
  | Some u =>
      let filename := last_of (split_on SLASH (u_pathname u)) in
      let extension := last_of (split_on (ch ".") filename) in
      if negb (matches extension_ok extension) then Throw installer_failed
      else
        let filename := name ++ js "-" ++ version ++
          (if streq classifier [] then [] else js "-" ++ classifier) ++ js "." ++ extension in
        let path := dots_to_slashes group ++ js "/" ++ name ++ js "/" ++ version ++ js "/" ++ filename in
        if negb (matches (plus (Cls path_char)) path) || includes (js "..") path then Throw installer_failed
        else Ok path
  end.

Definition mavenPath `{UrlParser} (a : supplied) : res jsstr :=
  match split_on (ch ":") (su_coordinate a) with
  | [group; name; version] => maven_file a group name version []
  | [group; name; version; classifier] => maven_file a group name version classifier
  | _ => Throw installer_failed
  end.

Definition installer_coordinate (p : plan) : jsstr := js "net.neoforged:neoforge:" ++ p_version p ++ js ":installer".
Definition server_coordinate (p : plan) : jsstr :=
  js "com.mojang:minecraft-server:" ++ p_minecraftVersion p ++ js ":server".

(** [request.artifacts.find(...)], as the position of the object and the
    object. *)
Fixpoint find_artifact (coordinate : jsstr) (index : nat) (l : list supplied) : option (nat * supplied) :=
  match l with
  | [] => None
  | a :: rest => if streq (su_coordinate a) coordinate then Some (index, a) else find_artifact coordinate (S index) rest
  end.

Definition selectNeoForgeArtifacts (r : assembly_request) : res ((nat * supplied) * (nat * supplied)) :=
  match find_artifact (installer_coordinate (as_plan r)) 0 (as_artifacts r),
        find_artifact (server_coordinate (as_plan r)) 0 (as_artifacts r) with
  | Some installer, Some server =>
      if zlen (as_artifacts r) <? 3 then Throw installer_failed else Ok (installer, server)
  | _, _ => Throw installer_failed
  end.

(** ** What the installer leaves *)
Inductive dirent :=
  | DFile (name : jsstr) (content : bytes) (mode : Z)
  | DDir (name : jsstr) (entries : list dirent)
  | DOther (name : jsstr).

Definition dirent_name (e : dirent) : jsstr := match e with DFile n _ _ | DDir n _ | DOther n => n end.

Definition leftovers : list jsstr :=
  map js ["run.sh"; "run.bat"; "user_jvm_args.txt"; "installer.log"; "installer.jar.log"]%string.

Definition invalid_output : exn := failure "invalid_installer_output".

(** [prefix ? `${prefix}/${name}` : name] *)
Definition relative_name (prefix name : jsstr) : jsstr :=
  if streq prefix [] then name else prefix ++ js "/" ++ name.

Definition collected : Type := list (jsstr * file) * Z.

Fixpoint visit (prefix : jsstr) (e : dirent) (st : collected) : res collected :=
  match e with
  | DOther _ => Throw invalid_output
  | DDir name entries =>
      (fix visit_all (entries : list dirent) (st : collected) : res collected :=
         match entries with
         | [] => Ok st
         | e :: rest => st' ← visit (relative_name prefix name) e st; visit_all rest st'
         end) entries st
  | DFile name content mode =>
      let total := st.2 + zlen content in
      if (maxFileBytes <? zlen content) || (maxFiles <=? zlen st.1) || (maxSandboxBytes <? total)
      then Throw invalid_output
      else
        Ok (map_set (relative_name prefix name)
              (mkFile content (if js_and mode 73 (* 0o111 *) =? 0 then MODE_644 else MODE_755)) st.1, total)
  end.

Fixpoint visit_all (prefix : jsstr) (entries : list dirent) (st : collected) : res collected :=
  match entries with
  | [] => Ok st
  | e :: rest => st' ← visit prefix e st; visit_all prefix rest st'
  end.

Definition collectFiles (entries : list dirent) : res (list (jsstr * file)) :=
  st ← visit_all [] entries ([], 0);
  Ok st.1.

(** ** [assemble] *)

(** The calls into the host.  [CMkdtemp] answers with the random characters it
    appends to the prefix; [CReadTree] with the entries below a directory, as
    [readdir], [stat] and [readFile] give them: the calls of [collectFiles] are one
    call, on the tree as it is after the installer has ended, and fail together. *)
Inductive call :=
  | CRootForToken (token : jsstr)
  | CAccess (path : jsstr)
  | CMkdirp (path : jsstr)
  | CMkdtemp (prefix : jsstr)
  | CMkdir (path : jsstr)
  | CWriteNew (path : jsstr) (content : bytes)
  | CRun (executable : jsstr) (args : list jsstr) (timeoutMs : Z)
  | CRemoveFile (path : jsstr)
  | CReadTree (path : jsstr)
  | CRemoveAll (path : jsstr).

Definition answer (cl : call) : Type :=
  match cl with
  | CRootForToken _ | CMkdtemp _ => jsstr
  | CReadTree _ => list dirent
  | _ => unit
  end.

Class SandboxHost (W : Type) := perform : forall cl, eff W (answer cl).

(** [validateRequest(value)] *)
Definition validateRequest (value : jsval) : res unit :=
  let sandbox := opt_prop value "sandbox" in
  throw_if
    (negb (truthy value) || negb (strict_eq (opt_prop value "schemaVersion") (VInt 1)) ||
     negb (truthy (opt_prop value "plan")) || negb (truthy (opt_prop value "jre")) ||
     negb (is_array (opt_prop value "artifacts")) ||
     negb (strict_eq (opt_prop sandbox "ephemeralWorkspace") (VBool true)) ||
     negb (strict_eq (opt_prop sandbox "nonRoot") (VBool true)) ||
     negb (strict_eq (opt_prop sandbox "readOnlyBaseFilesystem") (VBool true)) ||
     negb (strict_eq (opt_prop sandbox "noSecrets") (VBool true)) ||
     negb (strict_eq (opt_prop sandbox "noDockerSocket") (VBool true)) ||
     negb (strict_eq (opt_prop sandbox "boundedResources") (VBool true)))
    installer_failed.

(** The object the builder passes, as far as it is checked. *)
Definition request_value (r : assembly_request) : jsval :=
  obj [("schemaVersion", VInt 1); ("sandbox", obj requiredSandboxCapabilities);
       ("jre", obj [("rootToken", VStr (vj_rootToken (as_jre r)))]);
       ("plan", obj [("family", VStr (p_family (as_plan r)))]);
       ("artifacts", VArr (map (fun a => obj [("coordinate", VStr (su_coordinate a))]) (as_artifacts r)))]%string.

Definition sandbox_attestation : jsval :=
  obj [("ephemeralWorkspace", VBool true); ("nonRoot", VBool true); ("readOnlyBaseFilesystem", VBool true);
       ("noSecrets", VBool true); ("noDockerSocket", VBool true); ("boundedResources", VBool true);
       ("network", VText "disabled")]%string.

(** The [Map] of files as the builder sees it. *)
Definition file_value (f : file) : jsval := obj [("bytes", VBytes (f_bytes f)); ("mode", VInt (f_mode f))]%string.

Section assemble.
Context {W : Type} `{UrlParser} `{InflateRaw} `{JsonParse} `{JsonStringify} {host : SandboxHost W}.
Context (c : sandbox_config).

(** The host and the log of the calls it was asked for. *)
Notation M := (eff (W * list call)).

Definition ask (cl : call) : M (answer cl) := logged cl (perform cl).

(** [Promise.all]: every operation is started, the first rejection is the
    result. *)
Fixpoint promise_all (l : list (M unit)) : M unit :=
  match l with
  | [] => mret tt
  | m :: rest => fun s =>
      let '(a, s1) := m s in
      let '(b, s2) := promise_all rest s1 in
      (match a with Ok _ => b | Throw e => Throw e end, s2)
  end.

(** The namespace probe of [initialize]. *)
Definition probe (uid gid : Z) : list jsstr :=
  [js "--die-with-parent"; js "--new-session"; js "--unshare-all"; js "--uid"; to_radix 10 uid; js "--gid";
   to_radix 10 gid; js "--clearenv"; js "--tmpfs"; js "/"; js "--dir"; js "/bin"; js "--dir"; js "/usr";
   js "--proc"; js "/proc"; js "--dev"; js "/dev"; js "--ro-bind"; js "/bin"; js "/bin"; js "--ro-bind"; js "/lib";
   js "/lib"; js "--ro-bind"; js "/lib64"; js "/lib64"; js "--ro-bind"; js "/usr/lib"; js "/usr/lib";
   js "/bin/true"].

(** [initialize()]; [None] is a platform without [process.getuid]. *)
Definition initialize (uid gid : option Z) : M unit :=
  match uid, gid with
  | Some u, Some g =>
      if negb (u =? 10001) || negb (g =? 10001) then throw (TypeError "sandbox worker must run as uid/gid 10001")
      else
        _ ← promise_all [ask (CAccess (sc_bubblewrapPath c)); ask (CAccess (sc_prlimitPath c));
                         ask (CMkdirp (sc_workspaceRoot c))];
        ask (CRun (sc_bubblewrapPath c) (probe u g) 10000)
  | _, _ => throw (TypeError "sandbox worker must run as uid/gid 10001")
  end.

Definition server_directory (output : jsstr) (p : plan) : jsstr :=
  output ++ js "/libraries/net/minecraft/server/" ++ p_minecraftVersion p.

(** One turn of the loop over the artifacts; [index] is the position of the
    object, which stands for its identity. *)
Definition place_dependency (output : jsstr) (installer server : nat) (index : nat) (a : supplied) : M nat :=
  if Nat.eqb index installer || Nat.eqb index server then mret (S index)
  else
    relative ← lift (mavenPath a);
    let target := output ++ js "/libraries/" ++ relative in
    _ ← ask (CMkdirp (resolve (target ++ js "/..")));
    _ ← ask (CWriteNew target (su_bytes a));
    mret (S index).

(** [rm(path, { force: true })] *)
Definition remove_leftover (output name : jsstr) : M unit := ask (CRemoveFile (output ++ js "/" ++ name)).

(** The [try] block. *)
Definition install (r : assembly_request) (jreRoot inputs output : jsstr) : M (list (jsstr * file)) :=
  _ ← ask (CMkdir inputs);
  _ ← ask (CMkdir output);
  sel ← lift (selectNeoForgeArtifacts r);
  offlineInstaller ← lift (rewriteNeoForgeInstaller (su_bytes sel.1.2));
  _ ← ask (CWriteNew (inputs ++ js "/installer.jar") offlineInstaller);
  let serverDirectory := server_directory output (as_plan r) in
  _ ← ask (CMkdirp serverDirectory);
  _ ← ask (CWriteNew (serverDirectory ++ js "/server-" ++ p_minecraftVersion (as_plan r) ++ js ".jar")
             (su_bytes sel.2.2));
  _ ← foldM_eff (place_dependency output sel.1.1 sel.2.1) 0%nat (as_artifacts r);
  _ ← ask (CRun (sc_prlimitPath c) (command c jreRoot inputs output) (sc_timeoutMs c));
  _ ← promise_all (map (remove_leftover output) leftovers);
  entries ← ask (CReadTree output);
  lift (collectFiles entries).

Definition workspace_prefix : jsstr := sc_workspaceRoot c ++ js "/job-".

(** [try { install } catch { ... } finally { rm(workspace).catch(...) }] *)
Definition sandboxed (r : assembly_request) (jreRoot workspace : jsstr) : M (list (jsstr * file)) := fun s =>
  let '(files, s1) :=
    try_catch (install r jreRoot (workspace ++ js "/inputs") (workspace ++ js "/output"))
      (fun e => throw (as_failure "installer_failed" e)) s in
  (files, (ask (CRemoveAll workspace) s1).2).

Definition sandbox_assemble (r : assembly_request) : M (option sandbox_result) :=
  _ ← lift (validateRequest (request_value r));
  if negb (streq (p_family (as_plan r)) (js "neoforge")) then throw (failure "unsupported_compatibility")
  else
    jreRoot ← ask (CRootForToken (vj_rootToken (as_jre r)));
    _ ← ask (CMkdirp (sc_workspaceRoot c));
    suffix ← ask (CMkdtemp workspace_prefix);
    files ← sandboxed r jreRoot (workspace_prefix ++ suffix);
    mret (Some (mkSandboxResult sandbox_attestation (Some (map (fun pf => (pf.1, file_value pf.2)) files)))).
End assemble.

(** ** [runProcess]

    The callbacks of one child process: output on its error stream, the timer,
    a failure to spawn, its exit.  A promise settles once. *)
Inductive proc_event :=
  | PStderr (chunk : jsstr)
  | PTimer
  | PError
  | PExit (code : option Z) (signalled : bool).

Record process := mkProcess {
  pr_stderr : jsstr;
  pr_timer : bool;
  pr_killed : bool;
  pr_settled : option (res unit);
}.

Definition process_start : process := mkProcess [] true false None.

Definition settle (outcome : res unit) (p : process) : process :=
  mkProcess (pr_stderr p) (pr_timer p) (pr_killed p)
    (match pr_settled p with None => Some outcome | Some o => Some o end).

Definition exit_outcome (code : option Z) (signalled : bool) : res unit :=
  if bool_decide (code = Some 0) && negb signalled then Ok tt else Throw (failure "installer_process_failed").

Definition process_step (p : process) (ev : proc_event) : process :=
  match ev with
  | PStderr chunk =>
      if zlen (pr_stderr p) <? 16384
      then mkProcess (pr_stderr p ++ ztake (16384 - zlen (pr_stderr p)) chunk) (pr_timer p) (pr_killed p) (pr_settled p)
      else p
  | PTimer =>
      if pr_timer p
      then settle (Throw (failure "installer_timeout")) (mkProcess (pr_stderr p) false true (pr_settled p))
      else p
  | PError => settle (Throw (failure "installer_spawn_failed")) p
  | PExit code signalled =>
      settle (exit_outcome code signalled) (mkProcess (pr_stderr p) false (pr_killed p) (pr_settled p))
  end.

Definition runProcess (events : list proc_event) : process := fold_left process_step events process_start.

(** The outcome of the first event that is no output. *)
Fixpoint first_outcome (events : list proc_event) : option (res unit) :=
  match events with
  | [] => None
  | PStderr _ :: rest => first_outcome rest
  | PTimer :: _ => Some (Throw (failure "installer_timeout"))
  | PError :: _ => Some (Throw (failure "installer_spawn_failed"))
  | PExit code signalled :: _ => Some (exit_outcome code signalled)
  end.

Definition stderr_text (events : list proc_event) : jsstr :=
  concat (map (fun ev => match ev with PStderr chunk => chunk | _ => [] end) events).

Lemma settled_stays events : forall p o,
  pr_settled p = Some o -> pr_settled (fold_left process_step events p) = Some o.
Proof.
  induction events as [|ev events IH]; intros p o Hp; [done|]. cbn [fold_left]. apply IH.
  destruct ev; cbn [process_step]; repeat case_match; cbn; by rewrite ?Hp.
Qed.

Lemma process_settled events : forall p,
  pr_settled p = None -> pr_timer p = true ->
  pr_settled (fold_left process_step events p) = first_outcome events.
Proof.
  induction events as [|ev events IH]; intros p Hp Ht; [done|]. cbn [fold_left first_outcome].
  destruct ev; cbn [process_step].
  - destruct (_ <? _); by apply IH.
  - rewrite Ht. apply settled_stays. cbn. by rewrite Hp.
  - apply settled_stays. cbn. by rewrite Hp.
  - apply settled_stays. cbn. by rewrite Hp.
Qed.

Lemma ztake_fill (N : Z) (s chunk rest : jsstr) :
  zlen s <= N -> ztake N ((s ++ ztake (N - zlen s) chunk) ++ rest) = ztake N (s ++ chunk ++ rest).
Proof.
  intros Hs. destruct (Z.le_gt_cases (zlen chunk) (N - zlen s)) as [Hc|Hc].
  - by rewrite (ztake_ge _ chunk), <- app_assoc.
  - rewrite (ztake_app N (s ++ _)), (ztake_app N s), (ztake_app N s (chunk ++ rest)), (ztake_app _ chunk).
    rewrite ztake_ztake, Z.min_id, (ztake_le0 _ rest) by zlia. rewrite (ztake_le0 _ rest) by zlia.
    by rewrite !app_nil_r.
Qed.

Lemma process_stderr events : forall p,
  zlen (pr_stderr p) <= 16384 ->
  pr_stderr (fold_left process_step events p) = ztake 16384 (pr_stderr p ++ stderr_text events).
Proof.
  induction events as [|ev events IH]; intros p Hp; cbn [fold_left].
  { unfold stderr_text. cbn [map concat]. by rewrite app_nil_r, ztake_ge. }
  unfold stderr_text. cbn [map concat]. fold (stderr_text events).
  destruct ev as [chunk| | |]; cbn [process_step app]; [|destruct (pr_timer p); by rewrite IH|by rewrite IH..].
  destruct (Z.ltb_spec (zlen (pr_stderr p)) 16384) as [Hl|Hl].
  - rewrite IH; cbn [pr_stderr]; [by apply ztake_fill|zlia].
  - rewrite IH, !(ztake_app_exact 16384 (pr_stderr p)) by lia. done.
Qed.

(** The promise of [runProcess] is settled by the first callback that is not
    output, and the captured error stream is its first 16384 code units. *)
Lemma runProcess_outcome events :
  pr_settled (runProcess events) = first_outcome events /\
  pr_stderr (runProcess events) = ztake 16384 (stderr_text events).
Proof. split; [by apply process_settled|by apply process_stderr]. Qed.

(** ** The files of a tree *)

(** Induction over nested entries. *)
Lemma dirent_ind2 (P : dirent -> Prop) :
  (forall name content mode, P (DFile name content mode)) -> (forall name, P (DOther name)) ->
  (forall name entries, Forall P entries -> P (DDir name entries)) -> forall e, P e.
Proof.
  intros Hf Ho Hd. fix IH 1. intros [name content mode|name entries|name]; [apply Hf| |apply Ho].
  apply Hd. induction entries as [|e entries IHl]; constructor; [apply IH|exact IHl].
Qed.

(** The regular files below an entry, by the names on the way to each. *)
Fixpoint tree_files (e : dirent) : list (list jsstr * (bytes * Z)) :=
  match e with
  | DFile name content mode => [([name], (content, mode))]
  | DDir name entries => map (fun pf => (name :: pf.1, pf.2)) (flat_map tree_files entries)
  | DOther _ => []
  end.

(** No symbolic link, socket or device anywhere. *)
Fixpoint regular (e : dirent) : bool :=
  match e with
  | DFile _ _ _ => true
  | DDir _ entries => forallb regular entries
  | DOther _ => false
  end.

(** A directory as the operating system presents it: names are not empty, hold
    no slash and are distinct within a directory. *)
Definition name_ok (name : jsstr) : bool := negb (streq name []) && negb (includes_char SLASH name).

Fixpoint tree_wf (e : dirent) : bool :=
  name_ok (dirent_name e) &&
  match e with
  | DDir _ entries => forallb tree_wf entries && bool_decide (NoDup (map dirent_name entries))
  | _ => true
  end.

Definition directory_wf (entries : list dirent) : bool :=
  forallb tree_wf entries && bool_decide (NoDup (map dirent_name entries)).

(** The collected map: slash-joined paths, the executable bit kept as 0755. *)
Definition output_file (pf : list jsstr * (bytes * Z)) : jsstr * file :=
  (join (js "/") pf.1, mkFile pf.2.1 (if js_and pf.2.2 73 =? 0 then MODE_644 else MODE_755)).

Definition output_files (entries : list dirent) : list (jsstr * file) :=
  map output_file (flat_map tree_files entries).

Definition output_bytes (l : list (list jsstr * (bytes * Z))) : Z :=
  foldr (fun pf total => zlen pf.2.1 + total) 0 l.

Definition output_ok (entries : list dirent) : bool :=
  let l := flat_map tree_files entries in
  forallb regular entries && forallb (fun pf => zlen pf.2.1 <=? maxFileBytes) l &&
  (zlen l <=? maxFiles) && (output_bytes l <=? maxSandboxBytes).

(** *** The visit is a loop over those files *)
Definition add_file (st : collected) (pf : jsstr * (bytes * Z)) : res collected :=
  let total := st.2 + zlen pf.2.1 in
  if (maxFileBytes <? zlen pf.2.1) || (maxFiles <=? zlen st.1) || (maxSandboxBytes <? total)
  then Throw invalid_output
  else Ok (map_set pf.1 (mkFile pf.2.1 (if js_and pf.2.2 73 =? 0 then MODE_644 else MODE_755)) st.1, total).

Lemma foldM_res_app {A S} (f : S -> A -> res S) l1 l2 : forall s,
  foldM_res f s (l1 ++ l2) = (s' ← foldM_res f s l1; foldM_res f s' l2).
Proof.
  induction l1 as [|x l1 IH]; intros s; [done|]. cbn [app foldM_res]. unfold mbind, res_bind in *.
  destruct (f s x); [apply IH|done].
Qed.

Definition below (prefix : list jsstr) (pf : list jsstr * (bytes * Z)) : jsstr * (bytes * Z) :=
  (join (js "/") (prefix ++ pf.1), pf.2).

Lemma join_names_nonempty cs : forallb name_ok cs = true -> cs <> [] -> join (js "/") cs <> [].
Proof.
  destruct cs as [|w ws]; [done|]. cbn [forallb]. unfold name_ok at 1. rewrite !andb_true_iff, negb_true_iff.
  intros [[Hw _] _] _ ->%join_nil_head. done.
Qed.

Lemma relative_name_join cs n :
  forallb name_ok cs = true -> relative_name (join (js "/") cs) n = join (js "/") (cs ++ [n]).
Proof.
  intros Hcs. unfold relative_name. destruct cs as [|w ws]; [done|].
  destruct (streq _ []) eqn:E; [apply streq_true in E; by apply join_names_nonempty in Hcs|].
  by rewrite join_app.
Qed.

Lemma visit_dir prefix name entries st :
  visit prefix (DDir name entries) st = visit_all (relative_name prefix name) entries st.
Proof.
  cbn [visit]. revert st. induction entries as [|e entries IH]; intros st; [done|].
  cbn [visit_all]. unfold mbind, res_bind. destruct (visit _ e st); [apply IH|done].
Qed.

Lemma add_files_throw l : forall st ex, foldM_res add_file st l = Throw ex -> ex = invalid_output.
Proof.
  induction l as [|x l IH]; intros st ex; [done|].
  cbn [foldM_res]. unfold mbind, res_bind. destruct (add_file st x) as [st1|?] eqn:Ea; [apply IH|].
  intros [= <-]. unfold add_file in Ea. destruct (_ || _); congruence.
Qed.

(** A regular entry contributes its files in order; an irregular one, and a
    file beyond a limit, reject. *)
Definition visit_agrees (e : dirent) : Prop := forall cs st,
  forallb name_ok cs = true -> tree_wf e = true ->
  visit (join (js "/") cs) e st =
  if regular e then foldM_res add_file st (map (below cs) (tree_files e)) else Throw invalid_output.

Lemma visit_all_agrees entries : Forall visit_agrees entries -> forall cs st,
  forallb name_ok cs = true -> forallb tree_wf entries = true ->
  visit_all (join (js "/") cs) entries st =
  if forallb regular entries then foldM_res add_file st (map (below cs) (flat_map tree_files entries))
  else Throw invalid_output.
Proof.
  induction 1 as [|e entries He _ IH]; intros cs st Hcs Hwf; [done|].
  cbn [forallb] in Hwf. apply andb_true_iff in Hwf as [Hw Hwf].
  cbn [visit_all forallb flat_map]. rewrite He by done. destruct (regular e); cbn [andb]; [|done].
  rewrite map_app, foldM_res_app. unfold mbind, res_bind.
  destruct (foldM_res _ st _) as [st1|ex] eqn:Ef; [by apply IH|].
  apply add_files_throw in Ef as ->. by destruct (forallb regular entries).
Qed.

Lemma visit_spec e : visit_agrees e.
Proof.
  induction e as [name content mode|name|name entries IH] using dirent_ind2; intros cs st Hcs Hwf; [|done|].
  - cbn [visit regular tree_files map foldM_res below fst snd]. rewrite relative_name_join by done.
    unfold add_file, mbind, res_bind. cbn [fst snd]. by destruct (_ || _).
  - rewrite visit_dir, relative_name_join by done. cbn [tree_wf dirent_name] in Hwf.
    rewrite !andb_true_iff in Hwf. destruct Hwf as [Hn [Hwf _]]. cbn [regular tree_files].
    rewrite visit_all_agrees; [|done|rewrite forallb_app, Hcs; cbn; by rewrite Hn|done].
    rewrite map_map. destruct (forallb regular entries); [|done]. f_equal. apply map_ext.
    intros [p q]. unfold below. cbn. by rewrite <- app_assoc.
Qed.

(** *** Distinct files have distinct paths *)
Lemma tree_files_head e pf : pf ∈ tree_files e -> exists rest, pf.1 = dirent_name e :: rest.
Proof.
  destruct e as [n b m|n es|n]; cbn [tree_files dirent_name].
  - intros ->%list_elem_of_singleton. by exists [].
  - intros (x & -> & _)%list_elem_of_fmap. by eexists.
  - by intros ?%not_elem_of_nil.
Qed.

Lemma flat_map_files_NoDup entries :
  Forall (fun e => NoDup (map fst (tree_files e))) entries -> NoDup (map dirent_name entries) ->
  NoDup (map fst (flat_map tree_files entries)).
Proof.
  induction 1 as [|e entries He _ IH]; [constructor|]. cbn [map flat_map]. intros [Hni Hnd]%NoDup_cons.
  rewrite map_app. apply NoDup_app. split_and!; [done| |by apply IH].
  intros path (pf & -> & (rest & Hh)%tree_files_head)%list_elem_of_fmap.
  intros (pf' & Heq & Hin)%list_elem_of_fmap. apply Hni.
  apply list_elem_of_In, in_flat_map in Hin as (e' & Hin & Hpf%list_elem_of_In).
  apply tree_files_head in Hpf as (rest' & Hh'). rewrite Hh, Hh' in Heq. injection Heq as -> _.
  apply list_elem_of_fmap. exists e'. split; [done|]. by apply list_elem_of_In.
Qed.

Lemma tree_files_NoDup e : tree_wf e = true -> NoDup (map fst (tree_files e)).
Proof.
  induction e as [n b m|n|n es IH] using dirent_ind2; intros Hwf; cbn [tree_files].
  - apply NoDup_singleton.
  - constructor.
  - cbn [tree_wf] in Hwf. rewrite !andb_true_iff, bool_decide_eq_true in Hwf. destruct Hwf as [_ [Hwf Hnd]].
    rewrite map_map. cbn [fst]. rewrite <- map_map. apply (NoDup_fmap_2 (cons n)).
    apply flat_map_files_NoDup; [|done]. rewrite forallb_forall in Hwf. rewrite Forall_forall in *.
    intros e He. apply IH; [done|]. apply Hwf. by apply list_elem_of_In.
Qed.

Lemma tree_files_names e pf : tree_wf e = true -> pf ∈ tree_files e -> forallb name_ok pf.1 = true.
Proof.
  revert pf. induction e as [n b m|n|n es IH] using dirent_ind2; intros pf Hwf; cbn [tree_files tree_wf dirent_name] in *.
  - rewrite andb_true_r in Hwf. intros ->%list_elem_of_singleton. cbn. by rewrite Hwf.
  - by intros ?%not_elem_of_nil.
  - rewrite !andb_true_iff in Hwf. destruct Hwf as [Hn [Hwf _]]. rewrite forallb_forall in Hwf.
    intros (x & -> & (e & He & Hx)%list_elem_of_In%in_flat_map)%list_elem_of_fmap. cbn. rewrite Hn. cbn.
    rewrite Forall_forall in IH. apply (IH e); [by apply list_elem_of_In|by apply Hwf|by apply list_elem_of_In].
Qed.

Lemma join_names_inj a b :
  forallb name_ok a = true -> forallb name_ok b = true -> a <> [] -> b <> [] ->
  join (js "/") a = join (js "/") b -> a = b.
Proof.
  assert (forall l, forallb name_ok l = true -> Forall (fun w => SLASH ∉ w) l) as Hfree.
  { intros l. rewrite forallb_forall, Forall_forall. intros Hl w Hw%list_elem_of_In%Hl.
    unfold name_ok in Hw. rewrite andb_true_iff, !negb_true_iff, includes_char_false in Hw. tauto. }
  intros Ha Hb Hna Hnb Heq. change (js "/") with [SLASH] in Heq.
  rewrite <- (split_join_words SLASH a), <- (split_join_words SLASH b); auto. by rewrite Heq.
Qed.

Lemma output_paths_NoDup entries :
  directory_wf entries = true -> NoDup (map fst (output_files entries)).
Proof.
  unfold directory_wf. rewrite andb_true_iff, bool_decide_eq_true, forallb_forall. intros [Hwf Hnd].
  assert (NoDup (map fst (flat_map tree_files entries))) as Hpaths.
  { apply flat_map_files_NoDup; [|done]. apply Forall_forall. intros e He. apply tree_files_NoDup, Hwf.
    by apply list_elem_of_In. }
  unfold output_files. rewrite map_map. change (fun x => (output_file x).1) with (fun x : list jsstr * (bytes * Z) => join (js "/") x.1).
  assert (forall pf, pf ∈ flat_map tree_files entries -> forallb name_ok pf.1 = true /\ pf.1 <> []) as Hok.
  { intros pf (e & He & Hpf%list_elem_of_In)%list_elem_of_In%in_flat_map. split.
    - eapply tree_files_names; [|done]. by apply Hwf.
    - destruct (tree_files_head _ _ Hpf) as (rest & ->). done. }
  revert Hpaths Hok. clear. induction (flat_map tree_files entries) as [|pf l IH]; [constructor|].
  cbn [map]. intros [Hni Hnd]%NoDup_cons Hok. constructor; [|apply IH; [done|]; intros; apply Hok; by right].
  intros (pf' & Heq & Hin)%list_elem_of_fmap. apply Hni.
  destruct (Hok pf) as [H1 H2]; [left|]. destruct (Hok pf') as [H3 H4]; [by right|].
  apply join_names_inj in Heq; [|done..]. rewrite Heq. by apply list_elem_of_fmap_2.
Qed.

(** *** The limits of the whole collection *)
Lemma output_bytes_nonneg l : 0 <= output_bytes l.
Proof. unfold output_bytes. induction l as [|pf l IH]; cbn [foldr]; [done|]. pose proof (zlen_nonneg pf.2.1). lia. Qed.

Lemma add_files_exact l : forall (acc : list (jsstr * file)) total,
  NoDup (map fst acc ++ map (fun pf => join (js "/") pf.1) l) -> 
  foldM_res add_file (acc, total) (map (below []) l) =
  if forallb (fun pf => zlen pf.2.1 <=? maxFileBytes) l && ((zlen acc + zlen l <=? maxFiles) || (zlen l =? 0)) &&
     ((total + output_bytes l <=? maxSandboxBytes) || (zlen l =? 0))
  then Ok (acc ++ map output_file l, total + output_bytes l) else Throw invalid_output.
Proof.
  induction l as [|pf l IH]; intros acc total Hnd.
  { cbn. by rewrite !orb_true_r, app_nil_r, Z.add_0_r. }
  cbn [map foldM_res forallb]. unfold mbind, res_bind, add_file. cbn [below fst snd app].
  assert (output_bytes (pf :: l) = zlen pf.2.1 + output_bytes l) as -> by done.
  pose proof (output_bytes_nonneg l). pose proof (zlen_nonneg l). rewrite zlen_cons.
  destruct (Z.ltb_spec maxFileBytes (zlen pf.2.1)); cbn [orb].
  { rewrite (proj2 (Z.leb_gt _ _)) by lia. done. }
  rewrite (proj2 (Z.leb_le (zlen pf.2.1) _)) by lia. rewrite (proj2 (Z.eqb_neq (1 + zlen l) 0)), !orb_false_r by lia.
  destruct (Z.leb_spec maxFiles (zlen acc)); cbn [orb].
  { rewrite (proj2 (Z.leb_gt _ maxFiles)), andb_false_r by lia. done. }
  destruct (Z.ltb_spec maxSandboxBytes (total + zlen pf.2.1)).
  { rewrite (proj2 (Z.leb_gt _ maxSandboxBytes)), andb_false_r by lia. done. }
  cbn [map] in Hnd. rewrite map_set_fresh.
  2:{ apply map_get_None. intros Hin. apply NoDup_app in Hnd as (_ & Hd & _). eapply Hd; [exact Hin|left]. }
  rewrite IH; cycle 1.
  { by rewrite map_app, <- app_assoc. }
  rewrite <- app_assoc, zlen_app. cbn [andb]. change (zlen [_]) with 1.
  replace (zlen acc + 1 + zlen l) with (zlen acc + (1 + zlen l)) by lia.
  replace (total + zlen pf.2.1 + output_bytes l) with (total + (zlen pf.2.1 + output_bytes l)) by lia.
  destruct (Z.eqb_spec (zlen l) 0) as [Hl|]; [|by rewrite !orb_false_r].
  destruct l; [|rewrite zlen_cons in Hl; pose proof (zlen_nonneg l); lia]. cbn [forallb].
  rewrite !orb_true_r. cbn [andb]. change (zlen []) with 0 in *. change (output_bytes []) with 0 in *.
  by rewrite !(proj2 (Z.leb_le _ _)) by lia.
Qed.

Lemma collectFiles_spec entries :
  directory_wf entries = true ->
  collectFiles entries = if output_ok entries then Ok (output_files entries) else Throw invalid_output.
Proof.
  intros Hwf. pose proof (output_paths_NoDup _ Hwf) as Hnd.
  unfold directory_wf in Hwf. apply andb_true_iff in Hwf as [Hwf _].
  pose proof (visit_all_agrees entries (Forall_true _ _ visit_spec) [] ([], 0) eq_refl Hwf) as Hv.
  change (join (js "/") []) with (@nil Z) in Hv. unfold collectFiles. rewrite Hv. clear Hv.
  unfold output_ok. destruct (forallb regular entries); [|done]. cbn [andb].
  unfold output_files in *. rewrite add_files_exact by (cbn [map app]; by rewrite map_map in Hnd).
  cbn [zlen app map] in *. change (zlen (@nil (jsstr * file))) with 0. rewrite !Z.add_0_l.
  destruct (Z.eqb_spec (zlen (flat_map tree_files entries)) 0) as [Hz|]; [|rewrite !orb_false_r; by destruct (_ && _)].
  rewrite !orb_true_r, !andb_true_r. destruct (flat_map tree_files entries) as [|x l]; [done|].
  rewrite zlen_cons in Hz. pose proof (zlen_nonneg l). lia.
Qed.

(** C30: The recursive collection of the installer's output computes the tree's
    regular files exactly: when the tree has only regular files and directories,
    no file is over the size limit, and neither their number nor their total
    size is over its limit, the map has every file once, at its slash-joined
    path, with its bytes and its executable bit, in the order of the tree; in
    every other case it is [invalid_installer_output].  The tree is any tree of
    entries with legal names that are distinct in their directory. *)
Theorem collectFiles_exact entries :
  directory_wf entries = true ->
  collectFiles entries = if output_ok entries then Ok (output_files entries) else Throw invalid_output.
Proof. apply collectFiles_spec. Qed.

Lemma collectFiles_exact_witness :
  let tree := [DDir (js "libraries") [DFile (js "a.jar") [1; 2] 420; DDir (js "b") [DFile (js "run") [3] 493]]] in
  collectFiles tree = Ok [(js "libraries/a.jar", mkFile [1; 2] MODE_644); (js "libraries/b/run", mkFile [3] MODE_755)].
Proof. intros tree. rewrite (collectFiles_exact tree eq_refl). vm_compute. reflexivity. Defined.

(** ** What the builder makes of it *)
Lemma attestation_valid : validSandboxAttestation sandbox_attestation = true.
Proof. vm_compute. reflexivity. Qed.

Lemma capabilities_suffice : hasCapabilities sandbox_capabilities = true.
Proof. vm_compute. reflexivity. Qed.

(** The paths the builder takes from a sandbox. *)
Definition output_path_ok `{Unicode} (path : jsstr) : bool :=
  safeOutputPath path && negb (forbiddenOutputPath path) && negb (starts_with (js ".xmcl/") path).

Lemma mode_safe (b : bool) : is_safe (if b then MODE_644 else MODE_755) = true.
Proof. by destruct b. Qed.

Lemma accept_file_value `{Unicode} pf :
  is_safe (f_mode pf.2) = true ->
  accept_output (pf.1, file_value pf.2) =
  if output_path_ok pf.1 then Ok pf else Throw invalid_installer_output.
Proof.
  intros Hm. destruct pf as [path [b m]]. unfold accept_output, output_path_ok. cbn [fst snd f_mode] in *.
  destruct (safeOutputPath path); cbn [negb andb]; [|done].
  destruct (forbiddenOutputPath path); cbn [negb andb]; [done|].
  destruct (starts_with _ path); cbn [negb andb]; [done|].
  change (opt_prop (file_value (mkFile b m)) "bytes") with (VBytes b).
  change (opt_prop (file_value (mkFile b m)) "mode") with (VInt m). unfold VInt. by rewrite Hm.
Qed.

Lemma accept_files `{Unicode} l : forall acc,
  Forall (fun pf => is_safe (f_mode pf.2) = true) l -> NoDup (map fst acc ++ map fst l) ->
  foldM_res (fun files pf => kv ← accept_output pf; Ok (map_set kv.1 kv.2 files)) acc
    (map (fun pf => (pf.1, file_value pf.2)) l) =
  if forallb (fun pf => output_path_ok pf.1) l then Ok (acc ++ l) else Throw invalid_installer_output.
Proof.
  induction l as [|pf l IH]; intros acc Hm Hnd; [cbn; by rewrite app_nil_r|].
  apply Forall_cons in Hm as [Hm1 Hm]. cbn [map foldM_res forallb].
  rewrite accept_file_value by done. unfold mbind, res_bind. destruct (output_path_ok pf.1); cbn [andb]; [|done].
  cbn [map] in Hnd. rewrite map_set_fresh.
  2:{ apply map_get_None. intros Hin. apply NoDup_app in Hnd as (_ & Hd & _). eapply Hd; [exact Hin|left]. }
  destruct pf as [path f]. cbn [fst snd] in *. rewrite IH; [by rewrite <- app_assoc|done|].
  by rewrite map_app, <- app_assoc.
Qed.

(** Within the sandbox's own limits, only the paths decide. *)
Lemma normalize_output `{Unicode} entries :
  directory_wf entries = true -> output_ok entries = true ->
  normalizeSandboxOutput
    (Some (mkSandboxResult sandbox_attestation
       (Some (map (fun pf => (pf.1, file_value pf.2)) (output_files entries))))) =
  if forallb (fun pf => output_path_ok pf.1) (output_files entries) then Ok (output_files entries)
  else Throw invalid_installer_output.
Proof.
  intros Hwf Hok. unfold normalizeSandboxOutput. cbn [sr_attestation sr_files]. rewrite attestation_valid. cbn [negb].
  unfold output_ok in Hok. rewrite !andb_true_iff, !Z.leb_le in Hok. destruct Hok as [[[_ Hsz] Hn] Hb].
  assert (zlen (map (fun pf : jsstr * file => (pf.1, file_value pf.2)) (output_files entries)) =
    zlen (flat_map tree_files entries)) as Hlen by (unfold zlen, output_files; by rewrite !length_map).
  rewrite Hlen. rewrite (proj2 (Z.ltb_ge MAX_OUTPUT_FILES _)) by exact Hn.
  rewrite (proj2 (outputSizeWithinLimit_true _ _)); cbn [orb negb]; cycle 1.
  { split; [done|]. split; [done|]. unfold output_files. rewrite !map_map.
    change (fun x => byte_length (file_value (output_file x).2)) with
      (fun x : list jsstr * (bytes * Z) => Some (zlen x.2.1)). split.
    - rewrite forallb_forall in Hsz. apply Forall_forall. intros z (x & -> & Hx)%list_elem_of_fmap.
      apply list_elem_of_In, Hsz, Z.leb_le in Hx. eexists. split; [done|]. split; [apply zlen_nonneg|exact Hx].
    - replace (size_sum _) with (output_bytes (flat_map tree_files entries)); [done|]. clear.
      unfold size_sum, output_bytes. induction (flat_map tree_files entries) as [|x l IH]; [done|].
      cbn [map foldr default]. rewrite IH. done. }
  apply accept_files.
  - apply Forall_forall. intros pf (x & -> & _)%list_elem_of_fmap. apply mode_safe.
  - cbn [map app]. by apply output_paths_NoDup.
Qed.

(** ** Where the artifacts are written *)
Lemma includes_spec p s : includes p s = true <-> exists a b, s = a ++ p ++ b.
Proof.
  induction s as [|x s IH]; cbn [includes]; rewrite orb_true_iff, starts_with_spec.
  - split; [intros [(t & Ht)|?]; [exists [], t; done|done]|].
    intros (a & b & Hab). left. symmetry in Hab. apply app_nil in Hab as [-> Hb]. by exists b.
  - rewrite IH. split.
    + intros [(t & ->)|(a & b & ->)]; [by exists [], t|]. by exists (x :: a), b.
    + intros ([|y a] & b & Hab); [left; by exists b|]. injection Hab as -> ->. right. by exists a, b.
Qed.

(** A part of a split string is a substring of it. *)
Lemma split_part_infix c s w : w ∈ split_on c s -> exists a b, s = a ++ w ++ b.
Proof.
  induction s as [|x s IH] in w |- *; cbn [split_on].
  - intros ->%list_elem_of_singleton. by exists [], [].
  - destruct (x =? c).
    + intros [->|(a & b & ->)%IH]%elem_of_cons; [by exists [], (x :: s)|]. by exists (x :: a), b.
    + destruct (split_on_cons c s) as (v & vs & E). rewrite E in IH |- *.
      intros [->|Hw]%elem_of_cons.
      * pose proof (join_split c s) as Hj. rewrite E in Hj. destruct vs as [|v' vs]; cbn in Hj.
        { exists [], []. by rewrite app_nil_r, Hj. }
        exists [], (c :: join [c] (v' :: vs)). cbn. by rewrite <- Hj.
      * destruct (IH w) as (a & b & ->); [by right|]. by exists (x :: a), b.
Qed.

Lemma no_dotdot p : includes (js "..") p = false -> str_in (js "..") (split_on SLASH p) = false.
Proof.
  intros Hi. apply not_true_iff_false. intros (a & b & ->)%str_in_spec%split_part_infix.
  rewrite <- not_true_iff_false, includes_spec in Hi. apply Hi. by exists a, b.
Qed.

(** A path with a dash is not made of dropped parts only. *)
Lemma dashed_kept p : ch "-" ∈ p -> List.filter kept_part (split_on SLASH p) <> [].
Proof.
  intros Hdash Hnil. rewrite <- (join_split SLASH p) in Hdash.
  assert (Forall (fun w => kept_part w = false) (split_on SLASH p)) as Hall.
  { apply Forall_forall. intros w Hw. destruct (kept_part w) eqn:E; [|done]. exfalso.
    assert (In w (List.filter kept_part (split_on SLASH p))) as Hin
      by (apply filter_In; split; [by apply list_elem_of_In|done]). by rewrite Hnil in Hin. }
  revert Hdash Hall. generalize (split_on SLASH p). clear. intros l.
  induction l as [|w l IH]; intros Hd Ha; [by apply not_elem_of_nil in Hd|].
  apply Forall_cons in Ha as [Hw Ha]. unfold kept_part in Hw.
  rewrite negb_false_iff, orb_true_iff, !streq_true in Hw.
  assert (ch "-" ∉ w) by (destruct Hw as [->| ->]; [apply not_elem_of_nil|by intros [?|?%not_elem_of_nil]%elem_of_cons]).
  destruct l as [|w' l]; cbn [join] in Hd; [done|]. rewrite !elem_of_app in Hd.
  destruct Hd as [?|[[?|?%not_elem_of_nil]%elem_of_cons|?]]; [done|done|done|by apply IH].
Qed.

Lemma mavenPath_ok `{UrlParser} a p :
  mavenPath a = Ok p ->
  str_in (js "..") (split_on SLASH p) = false /\ List.filter kept_part (split_on SLASH p) <> [].
Proof.
  assert (forall g n v k, maven_file a g n v k = Ok p ->
    str_in (js "..") (split_on SLASH p) = false /\ List.filter kept_part (split_on SLASH p) <> []) as Hgo.
  { intros g n v k. unfold maven_file. destruct (parse_url _) as [u|]; [|done].
    destruct (negb (matches extension_ok _)); [done|].
    match goal with |- (if ?x || includes _ ?q then _ else _) = _ -> _ =>
      destruct (x || includes (js "..") q) eqn:Eg; [done|]; assert (ch "-" ∈ q) as Hdash end.
    { rewrite !elem_of_app. do 7 right. left. left. }
    intros Hp. apply orb_false_iff in Eg as [_ Hd]. apply (f_equal (fun x => match x with Ok y => y | _ => [] end)) in Hp.
    cbv beta iota in Hp. rewrite Hp in *. split; [by apply no_dotdot|by apply dashed_kept]. }
  unfold mavenPath. destruct (split_on (ch ":") _) as [|g [|n [|v [|k [|]]]]]; try done; apply Hgo.
Qed.

(** ** What a command line asks for

    The documented options of [prlimit] and [bwrap], as far as they bear on the
    isolation of what is run: the limits, and the jail. *)
Inductive mount :=
  | MTmpfs (dst : jsstr)
  | MDir (dst : jsstr)
  | MProc (dst : jsstr)
  | MDev (dst : jsstr)
  | MReadOnly (src dst : jsstr)
  | MWritable (src dst : jsstr).

Record jail := mkJail {
  jl_namespaces : bool;    (* every namespace is new, the network included *)
  jl_session : bool;
  jl_parent : bool;        (* dies with its parent *)
  jl_environment : bool;   (* the environment is cleared *)
  jl_uid : option jsstr;
  jl_gid : option jsstr;
  jl_mounts : list mount;  (* in the order they are made *)
  jl_directory : option jsstr;
  jl_program : list jsstr;
}.

Definition no_jail : jail := mkJail false false false false None None [] None [].

Definition with_mount (j : jail) (m : mount) : jail :=
  mkJail (jl_namespaces j) (jl_session j) (jl_parent j) (jl_environment j) (jl_uid j) (jl_gid j) (jl_mounts j ++ [m])
    (jl_directory j) (jl_program j).

(** [bwrap args]: options, then the program. *)
Fixpoint bwrap (args : list jsstr) (j : jail) : jail :=
  let 'mkJail ns se pa en u g ms d pr := j in
  match args with
  | [] => j
  | x :: rest =>
      if streq x (js "--unshare-all") then bwrap rest (mkJail true se pa en u g ms d pr)
      else if streq x (js "--new-session") then bwrap rest (mkJail ns true pa en u g ms d pr)
      else if streq x (js "--die-with-parent") then bwrap rest (mkJail ns se true en u g ms d pr)
      else if streq x (js "--clearenv") then bwrap rest (mkJail ns se pa true u g ms d pr)
      else if str_in x (map js ["--uid"; "--gid"; "--chdir"; "--tmpfs"; "--dir"; "--proc"; "--dev"]%string) then
        match rest with
        | [] => j
        | a :: rest =>
            bwrap rest
              (if streq x (js "--uid") then mkJail ns se pa en (Some a) g ms d pr
               else if streq x (js "--gid") then mkJail ns se pa en u (Some a) ms d pr
               else if streq x (js "--chdir") then mkJail ns se pa en u g ms (Some a) pr
               else with_mount j (if streq x (js "--tmpfs") then MTmpfs a
                                  else if streq x (js "--dir") then MDir a
                                  else if streq x (js "--proc") then MProc a else MDev a))
        end
      else if streq x (js "--ro-bind") || streq x (js "--bind") then
        match rest with
        | a :: b :: rest => bwrap rest (with_mount j (if streq x (js "--ro-bind") then MReadOnly a b else MWritable a b))
        | _ => j
        end
      else mkJail ns se pa en u g ms d args
  end.

(** [prlimit args]: the limits, and the command after [--]. *)
Fixpoint prlimit (args : list jsstr) : list jsstr * list jsstr :=
  match args with
  | [] => ([], [])
  | x :: rest =>
      if streq x (js "--") then ([], rest)
      else let '(limits, command) := prlimit rest in (x :: limits, command)
  end.

(** The jail of an installer: all namespaces of its own, so no network; no
    environment; the unprivileged user; a root directory that starts empty, into which
    of the host only the libraries, the JRE and the inputs come, read-only, and the
    output directory, the only thing that can be written; under the configured limits;
    and in it the installer, offline. *)
Definition isolated (c : sandbox_config) (jreRoot inputs output : jsstr) (args : list jsstr) : Prop :=
  exists bwrap_args, prlimit args =
    ([js "--as=" ++ to_radix 10 (sc_addressSpaceBytes c); js "--fsize=" ++ to_radix 10 (sc_fileSizeBytes c);
      js "--nproc=" ++ to_radix 10 (sc_processLimit c); js "--cpu=" ++ to_radix 10 (sc_cpuSeconds c)],
     sc_bubblewrapPath c :: bwrap_args) /\
  let j := bwrap bwrap_args no_jail in
  (jl_namespaces j = true /\ jl_session j = true /\ jl_parent j = true /\ jl_environment j = true) /\
  (jl_uid j = Some (js "10001") /\ jl_gid j = Some (js "10001")) /\
  (exists rest, jl_mounts j = MTmpfs (js "/") :: rest) /\
  (forall src dst, MWritable src dst ∈ jl_mounts j -> src = output /\ dst = js "/work") /\
  (forall src dst, MReadOnly src dst ∈ jl_mounts j ->
     (src = dst /\ src ∈ [js "/lib"; js "/lib64"; js "/usr/lib"]) \/ (src = jreRoot /\ dst = js "/jre") \/
     (src = inputs /\ dst = js "/inputs")) /\
  jl_directory j = Some (js "/work") /\
  exists options, jl_program j = js "/jre/bin/java" :: options ++
    [js "-jar"; js "/inputs/installer.jar"; js "--offline"; js "--installServer"; js "/work"].

Lemma command_isolated c jreRoot inputs output : isolated c jreRoot inputs output (command c jreRoot inputs output).
Proof.
  unfold isolated, command. eexists. split.
  { reflexivity. }
  cbv zeta. match goal with |- context [bwrap ?l no_jail] => set (j := bwrap l no_jail) end. vm_compute in j. subst j.
  cbn [jl_namespaces jl_session jl_parent jl_environment jl_uid jl_gid jl_mounts jl_directory jl_program].
  split; [done|]. split; [done|]. split; [by eexists|]. split; [|split; [|split; [done|]]].
  - intros src dst. rewrite !elem_of_cons, elem_of_nil. naive_solver.
  - intros src dst. rewrite !elem_of_cons, elem_of_nil. naive_solver.
  - match goal with |- exists _, ?p :: ?l = _ => exists (take (length l - 5) l) end. reflexivity.
Qed.

(** ** What the sandbox does to the host *)

(** [mkdtemp] appends characters that are no separators; a directory has legal,
    distinct names. *)
Class SandboxHostLaws (W : Type) {host : SandboxHost W} := {
  mkdtemp_plain prefix w suffix w' : perform (CMkdtemp prefix) w = (Ok suffix, w') -> SLASH ∉ suffix;
  read_tree_wf path w entries w' : perform (CReadTree path) w = (Ok entries, w') -> directory_wf entries = true;
}.

Section confinement.
Context {W : Type} `{Unicode} `{UrlParser} `{InflateRaw} `{JsonParse} `{JsonStringify} {host : SandboxHost W}.
Context {laws : SandboxHostLaws W} (c : sandbox_config) (r : assembly_request).

Definition is_artifact (b : bytes) : Prop := exists a, a ∈ as_artifacts r /\ su_bytes a = b.

(** The calls made between the creation of a workspace and its removal. *)
Definition confined (jreRoot workspace : jsstr) (cl : call) : Prop :=
  let inputs := workspace ++ js "/inputs" in
  let output := workspace ++ js "/output" in
  match cl with
  | CMkdir p => p = inputs \/ p = output
  | CMkdirp p => within output p = true
  | CWriteNew p b =>
      (p = inputs ++ js "/installer.jar" /\
         exists source, is_artifact source /\ rewriteNeoForgeInstaller source = Ok b) \/
      (within (output ++ js "/libraries") p = true /\ is_artifact b)
  | CRun executable args timeoutMs =>
      executable = sc_prlimitPath c /\ isolated c jreRoot inputs output args /\ timeoutMs = sc_timeoutMs c
  | CRemoveFile p => exists name, name ∈ leftovers /\ p = output ++ js "/" ++ name
  | CReadTree p => p = output
  | _ => False
  end.

Lemma find_artifact_In coordinate l : forall index i a, find_artifact coordinate index l = Some (i, a) -> a ∈ l.
Proof.
  induction l as [|x l IH]; intros index i a; cbn [find_artifact]; [done|].
  destruct (streq _ _); [intros [= _ <-]; left|]. intros ?%IH. by right.
Qed.

Lemma selected_In sel : selectNeoForgeArtifacts r = Ok sel -> sel.1.2 ∈ as_artifacts r /\ sel.2.2 ∈ as_artifacts r.
Proof.
  unfold selectNeoForgeArtifacts. destruct (find_artifact _ 0 _) as [[i a]|] eqn:E1; [|done].
  destruct (find_artifact (server_coordinate _) 0 _) as [[j b]|] eqn:E2; [|done]. destruct (_ <? 3); [done|].
  intros [= <-]. split; eapply find_artifact_In; eassumption.
Qed.

Lemma ask_calls (ok : call -> Prop) cl : ok cl -> only_calls ok (ask (W := W) cl).
Proof. apply only_calls_logged. Qed.

Lemma ask_log cl (s : W * list call) : (ask cl s).2.2 = s.2 ++ [cl].
Proof. apply logged_log. Qed.

Lemma promise_all_calls (ok : call -> Prop) (l : list (eff (W * list call) unit)) :
  Forall (only_calls ok) l -> only_calls ok (promise_all l).
Proof.
  induction 1 as [|m l Hm _ IH]; cbn [promise_all]; [apply only_calls_ret|]. intros s.
  destruct (Hm s) as (l1 & Hl1 & Hok1). destruct (m s) as [a s1]. cbn [snd] in Hl1.
  destruct (IH s1) as (l2 & Hl2 & Hok2). destruct (promise_all l s1) as [b s2]. cbn [snd] in *.
  exists (l1 ++ l2). rewrite Hl2, Hl1, app_assoc. split; [done|]. by apply Forall_app.
Qed.

Lemma normal_part root p : safe_part p = true -> SLASH ∉ p ->
  normalize_parts [] (split_on SLASH (root ++ js "/" ++ p)) = normalize_parts [] (split_on SLASH root) ++ [p].
Proof.
  intros Hp Hs. change (js "/" ++ p) with (SLASH :: p). rewrite split_on_app_sep, (split_on_word _ _ Hs), normalize_parts_app.
  rewrite normalize_parts_safe, reverse_involutive; [done|]. cbn. by rewrite Hp.
Qed.

Lemma snoc_nonempty {A} (l : list A) x : l ++ [x] <> [].
Proof. by destruct l. Qed.

(** The two places below the output directory. *)
Lemma library_parts ws rel :
  str_in (js "..") (split_on SLASH rel) = false ->
  normalize_parts [] (split_on SLASH ((ws ++ js "/output") ++ js "/libraries/" ++ rel)) =
  normalize_parts [] (split_on SLASH ((ws ++ js "/output") ++ js "/libraries")) ++
    List.filter kept_part (split_on SLASH rel).
Proof.
  intros Hr. change (js "/libraries/" ++ rel) with (js "/libraries" ++ js "/" ++ rel).
  rewrite (app_assoc (ws ++ js "/output") (js "/libraries")). by apply normalize_below.
Qed.

Lemma output_parts ws :
  normalize_parts [] (split_on SLASH (ws ++ js "/output")) =
  normalize_parts [] (split_on SLASH ws) ++ [js "output"].
Proof. apply (normal_part ws (js "output")); [done|]. apply includes_char_false. done. Qed.

Lemma libraries_parts ws :
  normalize_parts [] (split_on SLASH ((ws ++ js "/output") ++ js "/libraries")) =
  normalize_parts [] (split_on SLASH (ws ++ js "/output")) ++ [js "libraries"].
Proof. apply (normal_part (ws ++ js "/output") (js "libraries")); [done|]. apply includes_char_false. done. Qed.

Lemma library_within ws rel :
  str_in (js "..") (split_on SLASH rel) = false -> List.filter kept_part (split_on SLASH rel) <> [] ->
  within ((ws ++ js "/output") ++ js "/libraries") ((ws ++ js "/output") ++ js "/libraries/" ++ rel) = true.
Proof.
  intros Hr Hk. eapply within_parts; [|exact Hk|by apply library_parts].
  rewrite libraries_parts. apply snoc_nonempty.
Qed.

Lemma library_in_output ws rel :
  str_in (js "..") (split_on SLASH rel) = false ->
  within (ws ++ js "/output") ((ws ++ js "/output") ++ js "/libraries/" ++ rel) = true.
Proof.
  intros Hr. eapply within_parts; [rewrite output_parts; apply snoc_nonempty| |].
  2:{ rewrite library_parts, libraries_parts by done. by rewrite <- app_assoc. }
  done.
Qed.

Lemma library_parent_in_output ws rel :
  str_in (js "..") (split_on SLASH rel) = false -> List.filter kept_part (split_on SLASH rel) <> [] ->
  within (ws ++ js "/output") (resolve (((ws ++ js "/output") ++ js "/libraries/" ++ rel) ++ js "/..")) = true.
Proof.
  intros Hr Hk. eapply within_parts; [rewrite output_parts; apply snoc_nonempty| |].
  2:{ rewrite normalize_resolve, normalize_parent, library_parts, libraries_parts, removelast_app by done.
      by rewrite <- app_assoc. }
  done.
Qed.

Definition version_char (ch : Z) : Prop := digit ch || (ch =? 46) = true.

Lemma version_chars v : validMinecraftVersion v = true -> Forall version_char v.
Proof.
  unfold validMinecraftVersion. rewrite matches_spec. intros Hl. eapply lang_classes; [exact Hl|].
  assert (classes_within version_char upto3) as Hu.
  { cbn [upto3 classes_within lit]. split; [cbn; class_incl|]. split; [class_incl|].
    apply classes_within_rep. cbn [classes_within]. class_incl. }
  cbn [classes_within seqs foldr opt].
  repeat match goal with |- _ /\ _ => split end; try done; try exact Hu; try (cbn; class_incl).
  all: first [class_incl | apply classes_within_rep; cbn [classes_within]; class_incl | cbn; split; class_incl].
Qed.

Lemma version_plain v : validMinecraftVersion v = true -> SLASH ∉ v /\ v <> js "..".
Proof.
  intros Hv. split; [|by intros ->].
  intros Hs. pose proof (version_chars v Hv) as Ha. rewrite Forall_forall in Ha. by apply Ha in Hs.
Qed.

Lemma server_parts v : SLASH ∉ v -> 
  split_on SLASH (js "net/minecraft/server/" ++ v) = [js "net"; js "minecraft"; js "server"; v] /\
  split_on SLASH (js "net/minecraft/server/" ++ v ++ js "/server-" ++ v ++ js ".jar") =
    [js "net"; js "minecraft"; js "server"; v; js "server-" ++ v ++ js ".jar"].
Proof.
  intros Hv. pose proof (split_on_word SLASH v Hv) as Hw.
  assert (split_on SLASH (js "server-" ++ v ++ js ".jar") = [js "server-" ++ v ++ js ".jar"]) as Hf.
  { apply split_on_word. rewrite !not_elem_of_app. split_and!; [|done|]; by apply includes_char_false. }
  change (js "net/minecraft/server/" ++ v) with (js "net/minecraft/server" ++ SLASH :: v).
  change (js "net/minecraft/server/" ++ v ++ js "/server-" ++ v ++ js ".jar") with
    (js "net/minecraft/server" ++ SLASH :: (v ++ SLASH :: (js "server-" ++ v ++ js ".jar"))).
  rewrite !split_on_app_sep, Hw, Hf. done.
Qed.

Lemma server_clean v :
  validMinecraftVersion v = true ->
  str_in (js "..") (split_on SLASH (js "net/minecraft/server/" ++ v)) = false /\
  str_in (js "..") (split_on SLASH (js "net/minecraft/server/" ++ v ++ js "/server-" ++ v ++ js ".jar")) = false /\
  List.filter kept_part (split_on SLASH (js "net/minecraft/server/" ++ v ++ js "/server-" ++ v ++ js ".jar")) <> [].
Proof.
  intros [Hs Hd]%version_plain. destruct (server_parts v Hs) as [-> ->].
  assert (streq (js "..") v = false) as Hv by (apply not_true_iff_false; by intros Hv%streq_true).
  cbn [str_in existsb]. rewrite Hv. cbn. rewrite !orb_false_r. done.
Qed.

Lemma place_dependency_calls jreRoot ws i s index a :
  a ∈ as_artifacts r -> only_calls (confined jreRoot ws) (place_dependency (W := W) (ws ++ js "/output") i s index a).
Proof.
  intros Ha. unfold place_dependency. destruct (_ || _); [apply only_calls_ret|].
  intros st. destruct (mavenPath a) as [rel|e] eqn:Em; [|by exists []; rewrite app_nil_r].
  apply mavenPath_ok in Em as [Hr Hk]. revert st. change (only_calls (confined jreRoot ws)
    (_ ← ask (CMkdirp (resolve (((ws ++ js "/output") ++ js "/libraries/" ++ rel) ++ js "/..")));
     _ ← ask (CWriteNew ((ws ++ js "/output") ++ js "/libraries/" ++ rel) (su_bytes a)); mret (S index))).
  apply only_calls_bind; [apply ask_calls; by apply library_parent_in_output|intros _].
  apply only_calls_bind; [apply ask_calls|intros _; apply only_calls_ret].
  right. split; [by apply library_within|by exists a].
Qed.

Lemma only_calls_lift_bind {A B} (ok : call -> Prop) (x : res A) (f : A -> eff (W * list call) B) :
  (forall a, x = Ok a -> only_calls ok (f a)) -> only_calls ok (lift x ≫= f).
Proof. intros Hf s. unfold mbind, eff_bind, lift. destruct x as [a|e]; [by apply Hf|]. exists []. by rewrite app_nil_r. Qed.

Lemma install_calls jreRoot ws :
  validMinecraftVersion (p_minecraftVersion (as_plan r)) = true ->
  only_calls (confined jreRoot ws) (install (W := W) c r jreRoot (ws ++ js "/inputs") (ws ++ js "/output")).
Proof.
  intros Hv. destruct (server_clean _ Hv) as (Hd & Hf & Hk). unfold install.
  apply only_calls_bind; [apply ask_calls; by left|intros _].
  apply only_calls_bind; [apply ask_calls; by right|intros _].
  apply only_calls_lift_bind. intros sel [Hi Hs]%selected_In.
  apply only_calls_lift_bind. intros offline Ho.
  apply only_calls_bind; [apply ask_calls; left; split; [done|]; exists (su_bytes sel.1.2); split; [by exists sel.1.2|done]|intros _].
  cbv zeta. unfold server_directory.
  apply only_calls_bind; [apply ask_calls; exact (library_in_output ws _ Hd)|intros _].
  apply only_calls_bind; [apply ask_calls; right; split; [|by exists sel.2.2]|intros _].
  { rewrite <- (app_assoc (ws ++ js "/output")). exact (library_within ws _ Hf Hk). }
  apply only_calls_bind; [apply only_calls_foldM; intros; by apply place_dependency_calls|intros _].
  apply only_calls_bind; [apply ask_calls; split_and!; [done|apply command_isolated|done]|intros _].
  apply only_calls_bind.
  { apply promise_all_calls, Forall_forall. intros m (name & -> & Hn)%list_elem_of_fmap.
    exact (ask_calls (confined jreRoot ws) (CRemoveFile _) (ex_intro _ name (conj Hn eq_refl))). }
  intros _. apply only_calls_bind; [by apply (ask_calls (confined jreRoot ws) (CReadTree _))|intros entries].
  apply only_calls_lift.
Qed.

(** A run of the [try] statement: confined calls, then the removal. *)
Lemma sandboxed_calls jreRoot ws s :
  validMinecraftVersion (p_minecraftVersion (as_plan r)) = true ->
  exists inside, (sandboxed (W := W) c r jreRoot ws s).2.2 = s.2 ++ inside ++ [CRemoveAll ws] /\
    Forall (confined jreRoot ws) inside.
Proof.
  intros Hv. unfold sandboxed.
  destruct (only_calls_try (confined jreRoot ws) _ (fun e => throw (as_failure "installer_failed" e))
    (install_calls jreRoot ws Hv) (fun e => only_calls_lift _ _) s) as (inside & Hl & Hok).
  destruct (try_catch _ _ s) as [files s1]. cbn [snd] in *. exists inside. split; [|done].
  rewrite ask_log, Hl. by rewrite <- app_assoc.
Qed.

Lemma sandboxed_throws jreRoot ws : eff_throws is_failure (sandboxed (W := W) c r jreRoot ws).
Proof.
  intros s. unfold sandboxed. pose proof (eff_throws_try is_failure
    (install (W := W) c r jreRoot (ws ++ js "/inputs") (ws ++ js "/output"))
    (fun e => throw (as_failure "installer_failed" e))) as Ht.
  assert (forall e, eff_throws (W := W * list call) is_failure
    (throw (as_failure "installer_failed" e) : eff _ (list (jsstr * file)))) as Hh.
  { intros e s'. cbn. unfold is_failure, failure. destruct e; eexists; reflexivity. }
  specialize (Ht Hh s). by destruct (try_catch _ _ s).
Qed.

Lemma ask_ok cl (s : W * list call) a s' :
  ask cl s = (Ok a, s') -> s'.2 = s.2 ++ [cl] /\ perform cl s.1 = (Ok a, s'.1).
Proof. unfold ask, logged. destruct (perform cl s.1) as [x w]. by intros [= -> <-]. Qed.

Lemma workspace_within suffix :
  valid_sandbox c = true -> SLASH ∉ suffix -> within (sc_workspaceRoot c) (workspace_prefix c ++ suffix) = true.
Proof.
  intros Hc Hs. unfold valid_sandbox in Hc. rewrite !andb_true_iff in Hc.
  assert (absoluteNormalizedPath (sc_workspaceRoot c) = true) as Hp by tauto. clear Hc.
  unfold absoluteNormalizedPath in Hp. rewrite !andb_true_iff, Z.ltb_lt, streq_true in Hp.
  eapply (within_parts _ _ [js "job-" ++ suffix]); [|done|].
  - intros Hn. destruct Hp as [[Hlen _] Hr]. rewrite <- Hr, resolve_parts, Hn in Hlen. done.
  - unfold workspace_prefix. rewrite <- app_assoc. apply (normal_part (sc_workspaceRoot c) (js "job-" ++ suffix)); [done|].
    rewrite not_elem_of_app. split; [by apply includes_char_false|done].
Qed.

(** The calls made before there is a workspace. *)
Definition preparation : list call :=
  [CRootForToken (vj_rootToken (as_jre r)); CMkdirp (sc_workspaceRoot c); CMkdtemp (workspace_prefix c)].

(** A rejection with no workspace created: of the sandbox itself, before any call,
    or the very error with which the host answered the last of the preparing
    calls, which need not be a [CompilerFailure]. *)
Definition refused_early (e : exn) (calls : list call) : Prop :=
  (is_failure e /\ calls = []) \/
  exists before cl after w w', preparation = before ++ cl :: after /\ calls = before ++ [cl] /\
    perform cl w = (Throw e, w').

Lemma ask_throws cl (s : W * list call) e s' :
  ask cl s = (Throw e, s') -> s'.2 = s.2 ++ [cl] /\ perform cl s.1 = (Throw e, s'.1).
Proof. unfold ask, logged. destruct (perform cl s.1) as [x w]. by intros [= -> <-]. Qed.


Lemma install_collected jreRoot inputs output s files s' :
  install (W := W) c r jreRoot inputs output s = (Ok files, s') ->
  exists w1 entries w2, perform (CReadTree output) w1 = (Ok entries, w2) /\ collectFiles entries = Ok files.
Proof.
  unfold install. cbv zeta. intros Hi.
  repeat match type of Hi with
  | (lift _) _ = _ => fail 1
  | (_ ≫= (fun entries => lift (collectFiles entries))) _ = _ => fail 1
  | (_ ≫= _) _ = _ => apply eff_bind_ok in Hi as (? & ? & _ & Hi)
  end.
  apply eff_bind_ok in Hi as (entries & s2 & Hp & [Hf _]%lift_ok).
  apply (ask_ok (CReadTree output)) in Hp as [_ Hp]. eauto.
Qed.

(** C31: What the builder does with a successful run: the result is the files of
    the tree the installer left, within the limits of the sandbox, and the
    builder's checks of attestation, number, sizes and modes pass; it takes
    exactly those files, or rejects because of a path outside its rules. *)
Theorem sandbox_output_accepted s result s' :
  sandbox_assemble c r s = (Ok result, s') ->
  exists workspace w1 entries w2,
    perform (CReadTree (workspace ++ js "/output")) w1 = (Ok entries, w2) /\ output_ok entries = true /\
    normalizeSandboxOutput result =
      if forallb (fun pf => output_path_ok pf.1) (output_files entries) then Ok (output_files entries)
      else Throw invalid_installer_output.
Proof.
  unfold sandbox_assemble. intros (u & s1 & _ & Hr)%eff_bind_ok. destruct (negb _); [done|].
  apply eff_bind_ok in Hr as (root & s2 & _ & Hr). apply eff_bind_ok in Hr as (u2 & s3 & _ & Hr).
  apply eff_bind_ok in Hr as (suffix & s4 & _ & Hr). apply eff_bind_ok in Hr as (files & s5 & Hs & [-> _]%mret_ok).
  set (ws := workspace_prefix c ++ suffix) in *. unfold sandboxed in Hs.
  destruct (try_catch _ _ s4) as [x s6] eqn:Et. apply (f_equal fst) in Hs. cbn [fst] in Hs. subst x.
  unfold try_catch in Et. destruct (install _ _ _ _ _ s4) as [[y|e] s7] eqn:Ei; [|done].
  assert (y = files) as -> by congruence. apply install_collected in Ei as (w1 & entries & w2 & Hp & Hf).
  pose proof (read_tree_wf _ _ _ _ Hp) as Hwf. rewrite (collectFiles_spec _ Hwf) in Hf.
  destruct (output_ok entries) eqn:Eo; [|done]. assert (files = output_files entries) as -> by congruence.
  exists ws, w1, entries, w2. split; [done|]. split; [done|]. by apply normalize_output.
Qed.
End confinement.

(** ** A run *)
#[local] Existing Instance ascii_unicode.

#[local] Instance box_urls : UrlParser := {| parse_url s :=
  Some (mkUrl (js "https:") [] [] (js "maven.neoforged.net") [] (js "/x/lib.jar") [] [] s (js "https://maven.neoforged.net")) |}.
#[local] Existing Instance no_inflate.
#[local] Existing Instance profile_json.
#[local] Existing Instance profile_text.

Definition box_tree : list dirent :=
  [DDir (js "libraries") [DFile (js "a.jar") [1; 2] 420]; DFile (js "tool.dat") [3] 493].

(** The world counts the calls. *)
#[local] Instance box_host : SandboxHost nat := fun cl n =>
  (match cl return res (answer cl) with
   | CRootForToken _ => Ok (js "/opt/jre/one")
   | CMkdtemp _ => Ok (js "x7Gh2p")
   | CReadTree _ => Ok box_tree
   | CAccess _ | CMkdirp _ | CMkdir _ | CWriteNew _ _ | CRun _ _ _ | CRemoveFile _ | CRemoveAll _ => Ok tt
   end, S n).

#[local] Instance box_laws : SandboxHostLaws nat.
Proof.
  split.
  - intros prefix w suffix w'. cbn. intros [= <- <-]. by apply includes_char_false.
  - intros path w entries w'. cbn. intros [= <- <-]. vm_compute. reflexivity.
Qed.

Definition box_config : sandbox_config :=
  mkSandboxConfig (js "/work") (js "/usr/bin/bwrap") (js "/usr/bin/prlimit") 300000 (3 * 1024 * 1024 * 1024)
    maxFileBytes 256 240.

Definition box_jre : jre := mkJre (js "jre") (js "0") (js "java-runtime") 21 (js "rev").

Definition box_request : assembly_request :=
  mkAssembly (mkVerifiedJre box_jre (js "token-1"))
    (mkPlan (js "neoforge") (js "1.21.1") (js "21.1.1") (js "java-runtime") 21 box_jre [] (js "neoforge") [])
    [mkSupplied (js "net.neoforged:neoforge:21.1.1:installer") (js "u1") demo_jar;
     mkSupplied (js "com.mojang:minecraft-server:1.21.1:server") (js "u2") [5; 6];
     mkSupplied (js "org.ow2:asm:9.7") (js "u3") [7; 8]].

Definition box_run := Eval vm_compute in sandbox_assemble box_config box_request (0%nat, []).

Lemma box_runs : sandbox_assemble box_config box_request (0%nat, []) = box_run.
Proof. vm_cast_no_check (eq_refl box_run). Qed.


Lemma sandbox_output_accepted_witness :
  exists result, box_run.1 = Ok result /\
    normalizeSandboxOutput result =
      Ok [(js "libraries/a.jar", mkFile [1; 2] MODE_644); (js "tool.dat", mkFile [3] MODE_755)].
Proof.
  eexists. split; [reflexivity|].
  edestruct (sandbox_output_accepted box_config box_request (0%nat, [])) as (ws & w1 & entries & w2 & Hp & _ & Hn).
  - rewrite box_runs. reflexivity.
  - assert (entries = box_tree) as -> by (injection Hp as <- _; reflexivity). rewrite Hn. vm_compute. reflexivity.
Defined.
