(* ===== verification/JreRegistry.v ===== *)
(** * The verified JRE registry ([verified-jre-registry.mjs])

    The registry document names, for every JRE the catalog uses, the directory
    it is installed in.  A JRE is handed to the builder only after the
    directory was found on a read-only mount and every entry of the reviewed
    resolution document was compared with what is on disk.  One call reads one
    state of the file system, which it never writes: the readings are a record.
    The theorem shows everything that holds of a resolved JRE, and that the
    builder accepts it. *)

From S2P Require Import Prelude JsText JsNum JsValue Regex Validators Limits Node TarZst Bundle Content Effects Catalog Downloader Builder Sandbox.
From Stdlib Require Import Ascii.

Definition invalid_registry : exn := TypeError "invalid verified JRE registry configuration".

Record jre_root := mkJreRoot { jr_jre : jre; jr_path : jsstr }.

(** ** The registry document *)
Definition expected_jres (c : catalog) : list (jsstr * jre) :=
  fold_left (fun m t => map_set (j_id (t_jre t)) (t_jre t) m) (c_toolchains c) [].

Definition add_root (rootDirectory : jsstr) (expected : list (jsstr * jre)) (roots : list (jsstr * jre_root))
    (entry : jsval) : res (list (jsstr * jre_root)) :=
  if negb (plainObject entry) ||
     negb (sameKeys entry ["id"; "sha256"; "component"; "major"; "runtimeCatalogRevision"; "path"]%string)
  then Throw invalid_registry
  else
    match opt_prop entry "id", opt_prop entry "path" with
    | VStr id, VStr path =>
        if map_has id roots then Throw invalid_registry
        else
          match map_get id expected with
          | None => Throw invalid_registry
          | Some reviewed =>
              if negb (absoluteNormalizedPath path) || negb (within rootDirectory path) then Throw invalid_registry
              else if negb (strict_eq (opt_prop entry "sha256") (VStr (j_sha256 reviewed))) ||
                      negb (strict_eq (opt_prop entry "component") (VStr (j_component reviewed))) ||
                      negb (strict_eq (opt_prop entry "major") (VInt (j_major reviewed))) ||
                      negb (strict_eq (opt_prop entry "runtimeCatalogRevision")
                              (VStr (j_runtimeCatalogRevision reviewed)))
              then Throw invalid_registry
              else
                Ok (map_set id
                      (mkJreRoot (mkJre id (get_str (opt_prop entry "sha256")) (get_str (opt_prop entry "component"))
                         (get_int (opt_prop entry "major")) (get_str (opt_prop entry "runtimeCatalogRevision"))) path)
                      roots)
          end
    | _, _ => Throw invalid_registry
    end.

Definition parseRegistry (value : jsval) (c : catalog) (rootDirectory : jsstr) : res (list (jsstr * jre_root)) :=
  if negb (plainObject value) ||
     negb (sameKeys value ["schemaVersion"; "catalogRevision"; "runtimeCatalogRevision"; "roots"]%string) ||
     negb (strict_eq (opt_prop value "schemaVersion") (VInt 1)) ||
     negb (strict_eq (opt_prop value "catalogRevision")
             (match c_catalogRevision c with Some r => VStr r | None => VUndef end)) ||
     negb (strict_eq (opt_prop value "runtimeCatalogRevision") (VStr (c_runtimeCatalogRevision c))) ||
     negb (is_array (opt_prop value "roots")) || (zlen (get_list (opt_prop value "roots")) <? 1) ||
     (32 <? zlen (get_list (opt_prop value "roots")))
  then Throw invalid_registry
  else
    let expected := expected_jres c in
    roots ← foldM_res (add_root rootDirectory expected) [] (get_list (opt_prop value "roots"));
    if existsb (fun e => negb (map_has e.1 roots)) expected then Throw invalid_registry else Ok roots.

(** The object: the parsed roots and the tokens handed out. *)
Record registry := mkRegistry {
  rg_rootDirectory : jsstr;
  rg_roots : list (jsstr * jre_root);
  rg_tokens : list (jsstr * jsstr);
}.

(** The constructor, for a catalog. *)
Definition new_registry (document : jsval) (c : catalog) (rootDirectory : jsstr) : res registry :=
  if negb (absoluteNormalizedPath rootDirectory) then Throw invalid_registry
  else
    roots ← parseRegistry document c rootDirectory;
    Ok (mkRegistry rootDirectory roots []).

(** ** Mounts *)
Definition octal_digit (c : Z) : bool := (48 <=? c) && (c <=? 55).

(** [value.replace(/\\([0-7]{3})/g, ...)] *)
Fixpoint unescapeMount (s : jsstr) : jsstr :=
  match s with
  | [] => []
  | x :: t =>
      if x =? BACKSLASH then
        match t with
        | a :: b :: c :: t' =>
            if octal_digit a && octal_digit b && octal_digit c
            then ((a - 48) * 64 + (b - 48) * 8 + (c - 48)) :: unescapeMount t'
            else x :: unescapeMount t
        | _ => x :: unescapeMount t
        end
      else x :: unescapeMount t
  end.

(** [fields.indexOf("-")] *)
Fixpoint index_of (w : jsstr) (l : list jsstr) : option nat :=
  match l with
  | [] => None
  | x :: t => if streq x w then Some 0%nat else S <$> index_of w t
  end.

(** One line of the table: its mount point and its options. *)
Definition mount_line (line : jsstr) : option (jsstr * list jsstr) :=
  let fields := split_on 32 line in
  match index_of (js "-") fields with
  | Some separator =>
      if (separator <? 6)%nat then None
      else Some (unescapeMount (List.nth 4 fields []), split_on (ch ",") (List.nth 5 fields []))
  | None => None
  end.

Definition covers (mountPoint path : jsstr) : bool :=
  streq path mountPoint || starts_with (mountPoint ++ js "/") path.

(** One turn of the loop. *)
Definition select_mount (path : jsstr) (selected : option (jsstr * list jsstr)) (line : jsstr) :
    option (jsstr * list jsstr) :=
  match mount_line line with
  | None => selected
  | Some (mountPoint, options) =>
      if covers mountPoint path &&
         match selected with None => true | Some s => zlen s.1 <? zlen mountPoint end
      then Some (mountPoint, options) else selected
  end.

Definition readOnlyMount (mountInfo path : jsstr) : bool :=
  match fold_left (select_mount path) (split_on 10 mountInfo) None with
  | Some (_, options) => str_in (js "ro") options
  | None => false
  end.

(** ** The file system, as one call reads it *)
Inductive node_kind := KFile | KDirectory | KLink | KOther.

#[export] Instance node_kind_eq_dec : EqDecision node_kind.
Proof. solve_decision. Defined.

Record metadata := mkMetadata { md_kind : node_kind; md_size : Z; md_mode : Z }.

Record jre_fs := mkJreFs {
  fs_realpath : jsstr -> res jsstr;
  fs_mountinfo : res jsstr;
  fs_read : jsstr -> res bytes;
  fs_lstat : jsstr -> res metadata;
  fs_stat : jsstr -> res metadata;
  fs_readlink : jsstr -> res jsstr;
  fs_access : jsstr -> res unit;
}.

(** [value.split("/").every(...)] and the length *)
Definition safeRelativePath (v : jsval) : bool :=
  vstr (fun s => negb (zlen s =? 0) && (zlen s <=? 512) && negb (includes_char BACKSLASH s) &&
    negb (starts_with (js "/") s) && forallb safe_part (split_on SLASH s)) v.

(** The [canonicalize] of this module. *)
Fixpoint canonical (v : jsval) : jsval :=
  match v with
  | VArr l => VArr (map canonical l)
  | VObj fields => VObj (merge_sort key_le (map (fun kv => (kv.1, canonical kv.2)) fields))
  | _ => v
  end.

Section registry.
Context `{Unicode} `{Sha256} `{Sha1} `{JsonParse} `{JsonStringify}.

Definition resolution_error : exn := PlainError "JRE resolution does not match reviewed digest".

(** The first loop: the declared paths and their types. *)
Definition declare_path (paths : list (jsstr * jsstr)) (entry : jsval) : res (list (jsstr * jsstr)) :=
  if negb (plainObject entry) || negb (safeRelativePath (opt_prop entry "path")) ||
     map_has (get_str (opt_prop entry "path")) paths ||
     negb (val_in (opt_prop entry "type") ["directory"; "file"; "link"]%string)
  then Throw (PlainError "invalid JRE resolution entry")
  else Ok (map_set (get_str (opt_prop entry "path")) (get_str (opt_prop entry "type")) paths).

(** [parts.slice(0, index).join("/")] for [index] from 1 *)
Definition parents (path : jsstr) : list jsstr :=
  let parts := split_on SLASH path in
  map (fun index => join (js "/") (take index parts)) (seq 1 (length parts - 1)).

(** [/^[a-f0-9]{40}$/] *)
Definition hex40 (v : jsval) : bool := vstr (fun s => (zlen s =? 40) && forallb hex_lower s) v.

(** The checks of one entry by its type. *)
Definition check_entry (fs : jre_fs) (path : jsstr) (md : metadata) (entry : jsval) : res unit :=
  let type := get_str (opt_prop entry "type") in
  if streq type (js "directory")
  then throw_if (negb (bool_decide (md_kind md = KDirectory))) (PlainError "JRE directory mismatch")
  else if streq type (js "link") then
    if negb (bool_decide (md_kind md = KLink)) || negb (is_string (opt_prop entry "target"))
    then Throw (PlainError "JRE link mismatch")
    else
      target ← fs_readlink fs path;
      throw_if (negb (strict_eq (VStr target) (opt_prop entry "target"))) (PlainError "JRE link mismatch")
  else
    let hashes := opt_prop entry "hashes" in
    if negb (bool_decide (md_kind md = KFile)) || negb (strict_eq (VInt (md_size md)) (opt_prop entry "size")) ||
       negb (plainObject hashes) || negb (hex40 (opt_prop hashes "sha1"))
    then Throw (PlainError "JRE file mismatch")
    else
      content ← fs_read fs path;
      throw_if
        (negb (strict_eq (VStr (sha1 content)) (opt_prop hashes "sha1")) ||
         (strict_eq (opt_prop entry "executable") (VBool true) && (js_and (md_mode md) 73 =? 0)))
        (PlainError "JRE file mismatch").

(** One turn of the second loop. *)
Definition verify_entry (fs : jre_fs) (root : jsstr) (paths : list (jsstr * jsstr)) (_ : unit) (entry : jsval) :
    res unit :=
  let relative := get_str (opt_prop entry "path") in
  if existsb (fun p => negb (bool_decide (map_get p paths = Some (js "directory")))) (parents relative)
  then Throw (PlainError "JRE entry has undeclared parent")
  else
    let path := root ++ js "/" ++ relative in
    md ← fs_lstat fs path;
    real ← fs_realpath fs path;
    if negb (within root real) then Throw (PlainError "JRE entry escaped root") else check_entry fs path md entry.

Definition verifyRuntimeRoot (fs : jre_fs) (root : jsstr) (expected : jre) : res unit :=
  raw ← fs_read fs (root ++ js "/.xmcl-runtime-resolution.json");
  resolution ← match text_decode raw with
               | Some text => match json_parse text with Some v => Ok v | None => Throw resolution_error end
               | None => Throw resolution_error
               end;
  if negb (plainObject resolution) ||
     negb (strict_eq (opt_prop resolution "component") (VStr (j_component expected))) ||
     negb (strict_eq (opt_prop resolution "major") (VInt (j_major expected))) ||
     negb (is_array (opt_prop resolution "files")) ||
     negb (streq (sha256 (utf8_encode (json_stringify (canonical resolution)))) (j_sha256 expected))
  then Throw resolution_error
  else
    let files := get_list (opt_prop resolution "files") in
    paths ← foldM_res declare_path [] files;
    foldM_res (verify_entry fs root paths) tt files.

(** The [try] block of [resolve]. *)
Definition verify_root (fs : jre_fs) (rootDirectory : jsstr) (root : jre_root) : res jsstr :=
  actualRoot ← fs_realpath fs (jr_path root);
  if negb (within rootDirectory actualRoot) then Throw (PlainError "JRE root is not a read-only mount")
  else
    mountInfo ← fs_mountinfo fs;
    if negb (readOnlyMount mountInfo actualRoot) then Throw (PlainError "JRE root is not a read-only mount")
    else
      _ ← verifyRuntimeRoot fs actualRoot (jr_jre root);
      let java := actualRoot ++ js "/bin/java" in
      md ← fs_stat fs java;
      _ ← fs_access fs java;
      if negb (bool_decide (md_kind md = KFile)) || negb (js_and (md_mode md) 18 =? 0)
      then Throw (PlainError "unsafe java") else Ok actualRoot.

Definition jre_token (j : jre) (actualRoot : jsstr) : jsstr :=
  js "jre-" ++ sha256_text (j_id j ++ [0] ++ j_sha256 j ++ [0] ++ actualRoot).

Definition resolved_jre (j : jre) (token : jsstr) : jsval :=
  obj [("id", VStr (j_id j)); ("sha256", VStr (j_sha256 j)); ("component", VStr (j_component j));
       ("major", VInt (j_major j)); ("runtimeCatalogRevision", VStr (j_runtimeCatalogRevision j));
       ("verified", VBool true); ("readOnly", VBool true); ("rootToken", VStr token)]%string.

Definition same_jre (a b : jre) : bool :=
  streq (j_sha256 a) (j_sha256 b) && streq (j_component a) (j_component b) && (j_major a =? j_major b) &&
  streq (j_runtimeCatalogRevision a) (j_runtimeCatalogRevision b).

(** [resolve(expected)] *)
Definition registry_resolve (fs : jre_fs) (expected : jre) : eff registry jsval := fun g =>
  match map_get (j_id expected) (rg_roots g) with
  | None => (Throw compiler_unavailable, g)
  | Some root =>
      if negb (same_jre (jr_jre root) expected) then (Throw compiler_unavailable, g)
      else
        match verify_root fs (rg_rootDirectory g) root with
        | Throw _ => (Throw compiler_unavailable, g)
        | Ok actualRoot =>
            let token := jre_token (jr_jre root) actualRoot in
            (Ok (resolved_jre (jr_jre root) token),
             mkRegistry (rg_rootDirectory g) (rg_roots g) (map_set token actualRoot (rg_tokens g)))
        end
  end.

(** [initialize()] *)
Definition registry_initialize (fs : jre_fs) : eff registry unit := fun g =>
  foldM_eff (fun _ kv => _ ← registry_resolve fs (jr_jre kv.2); mret tt) tt (rg_roots g) g.

Definition registry_rootForToken (g : registry) (token : jsstr) : res jsstr :=
  match map_get token (rg_tokens g) with
  | Some root => if streq root [] then Throw compiler_unavailable else Ok root
  | None => Throw compiler_unavailable
  end.
End registry.

(** ** Which mount decides *)

(** The entries of the table that cover a path. *)
Definition covering (mountInfo path : jsstr) : list (jsstr * list jsstr) :=
  List.filter (fun m => covers m.1 path) (omap mount_line (split_on 10 mountInfo)).

(** [m] has the longest mount point of [l], and is the first such entry. *)
Definition first_longest (l : list (jsstr * list jsstr)) (m : jsstr * list jsstr) : Prop :=
  exists pre post, l = pre ++ m :: post /\ Forall (fun x => zlen x.1 < zlen m.1) pre /\
    Forall (fun x => zlen x.1 <= zlen m.1) post.

Definition better (selected : option (jsstr * list jsstr)) (m : jsstr * list jsstr) : option (jsstr * list jsstr) :=
  if match selected with None => true | Some s => zlen s.1 <? zlen m.1 end then Some m else selected.

Lemma select_mount_covering path lines : forall selected,
  fold_left (select_mount path) lines selected =
  fold_left better (List.filter (fun m => covers m.1 path) (omap mount_line lines)) selected.
Proof.
  induction lines as [|line lines IH]; intros selected; [done|]. cbn [fold_left omap list_omap].
  rewrite IH. unfold select_mount. cbn [omap list_omap]. destruct (mount_line line) as [[mp options]|]; [|done].
  cbn [List.filter fst]. destruct (covers mp path); cbn [andb fold_left]; [|done]. done.
Qed.

Lemma better_first_longest l : forall s,
  first_longest (s :: l) (default s (fold_left better l (Some s))) /\ is_Some (fold_left better l (Some s)).
Proof.
  induction l as [|m l IH]; intros s.
  { split; [|done]. exists [], []. split_and!; [done|constructor|constructor]. }
  cbn [fold_left]. change (better (Some s) m) with (if zlen s.1 <? zlen m.1 then Some m else Some s). destruct (Z.ltb_spec (zlen s.1) (zlen m.1)) as [Hlt|Hge].
  - destruct (IH m) as [(pre & post & Hl & Hpre & Hpost) [x Hx]]. rewrite Hx in *. cbn [default] in *. split; [|done].
    exists (s :: pre), post. split; [by rewrite Hl|]. split; [|done]. constructor; [|done].
    destruct pre as [|y pre]; [by injection Hl as -> _|]. injection Hl as -> _. apply Forall_cons in Hpre as [? _]. lia.
  - destruct (IH s) as [(pre & post & Hl & Hpre & Hpost) [x Hx]]. rewrite Hx in *. cbn [default] in *. split; [|done].
    destruct pre as [|y pre]; injection Hl as -> Hl.
    + exists [], (m :: post). split; [by rewrite Hl|]. split; [constructor|]. constructor; [exact Hge|done].
    + apply Forall_cons in Hpre as [Hs Hpre]. exists (y :: m :: pre), post. split; [by rewrite Hl|].
      split; [|done]. constructor; [done|]. constructor; [|done]. eapply Z.le_lt_trans; [exact Hge|exact Hs].
Qed.

Lemma first_longest_unique l a b : first_longest l a -> first_longest l b -> a = b.
Proof.
  intros (p & q & -> & Hp & Hq) (p' & q' & E & Hp' & Hq').
  revert p' E Hp'. induction p as [|x p IH]; intros [|x' p'] E Hp'; cbn in E; injection E as E1 E2.
  - done.
  - subst x'. apply Forall_cons in Hp' as [Hlt _]. rewrite E2 in Hq.
    apply Forall_app in Hq as [_ Hq]. apply Forall_cons in Hq as [? _]. lia.
  - subst x. apply Forall_cons in Hp as [Hlt _]. rewrite <- E2 in Hq'.
    apply Forall_app in Hq' as [_ Hq']. apply Forall_cons in Hq' as [? _]. lia.
  - apply Forall_cons in Hp as [_ Hp]. apply Forall_cons in Hp' as [_ Hp']. by eapply IH.
Qed.

(** A path counts as read-only exactly when, among the lines of
    [/proc/self/mountinfo] whose mount point covers it, the first one with the
    longest mount point has the option [ro]; a path no line covers does not.
    (When two mounts are stacked on one mount point, the first line is the
    hidden one.) *)
Theorem readOnlyMount_exact mountInfo path :
  readOnlyMount mountInfo path = true <->
  exists m, first_longest (covering mountInfo path) m /\ js "ro" ∈ m.2.
Proof.
  unfold readOnlyMount, covering. rewrite select_mount_covering. set (l := List.filter _ _). clearbody l.
  destruct l as [|s l].
  { cbn. split; [done|]. intros (m & (pre & post & E & _) & _). by destruct pre. }
  change (fold_left better (s :: l) None) with (fold_left better l (Some s)).
  destruct (better_first_longest l s) as [Hf [x Hx]]. rewrite Hx in *. cbn [default] in Hf.
  destruct x as [mp options]. rewrite str_in_spec. split.
  - intros Hro. by exists (mp, options).
  - intros (m & Hm & Hro). by rewrite (first_longest_unique _ _ _ Hm Hf) in Hro.
Qed.


(** ** What the mount table means

    [/proc/self/mountinfo], as the system documents it: one line per mount, the
    identifiers of the mount and of its parent, the device, the root of the mount
    in its file system, its mount point, its options, any number of tags, a dash
    and what concerns the file system.  Spaces, tabs, line feeds and backslashes
    of the paths are escaped in octal. *)
Record mounted := mkMounted {
  mo_id : jsstr;
  mo_parent : jsstr;
  mo_device : jsstr;
  mo_root : jsstr;
  mo_point : jsstr;
  mo_options : list jsstr;
  mo_tags : list jsstr;
  mo_filesystem : jsstr;
}.

Definition escape_char (c : Z) : jsstr :=
  if bool_decide (c ∈ [9; 10; 32; BACKSLASH]) then [BACKSLASH; 48 + c / 64; 48 + c / 8 mod 8; 48 + c mod 8] else [c].

Definition escape (s : jsstr) : jsstr := flat_map escape_char s.

Definition mount_fields (m : mounted) : list jsstr :=
  [mo_id m; mo_parent m; mo_device m; escape (mo_root m); escape (mo_point m); join (js ",") (mo_options m)] ++
  mo_tags m.

Definition mountinfo_line (m : mounted) : jsstr :=
  join (js " ") (mount_fields m) ++ js " - " ++ mo_filesystem m.

Definition mountinfo_text (table : list mounted) : jsstr := flat_map (fun m => mountinfo_line m ++ [10]) table.

(** A path is at or below a mount point. *)
Definition under (point path : jsstr) : Prop :=
  point = js "/" \/ path = point \/ exists rest, path = point ++ js "/" ++ rest.

(** The walk of the system along a path: from the root mount, whose parent is
    outside the table, to the mount attached to the current one that the path meets
    first, until there is none. *)
Definition attached (table : list mounted) (path : jsstr) (c m : mounted) : Prop :=
  m ∈ table /\ mo_parent m = mo_id c /\ under (mo_point m) path.

Inductive walked (table : list mounted) (path : jsstr) : mounted -> Prop :=
  | walked_root m :
      m ∈ table -> mo_point m = js "/" -> (forall x, x ∈ table -> mo_id x <> mo_parent m) -> walked table path m
  | walked_next c m :
      walked table path c -> attached table path c m ->
      (forall x, attached table path c x -> zlen (mo_point m) <= zlen (mo_point x)) -> walked table path m.

(** The mount that a path is on. *)
Definition mount_of (table : list mounted) (path : jsstr) (m : mounted) : Prop :=
  walked table path m /\ forall x, ~ attached table path m x.

(** Nothing is mounted over a mount that the path is below: the walk meets them
    all, no two at one mount point. *)
Definition nothing_hidden (table : list mounted) (path : jsstr) : Prop :=
  forall m, m ∈ table -> under (mo_point m) path ->
    walked table path m /\ forall x, x ∈ table -> mo_point x = mo_point m -> x = m.

Definition mount_word (s : jsstr) : Prop := 32 ∉ s /\ 10 ∉ s /\ s <> js "-".

(** What the system guarantees of a table. *)
Definition mount_wf (table : list mounted) (m : mounted) : Prop :=
  Forall mount_word ([mo_id m; mo_parent m; mo_device m] ++ mo_options m ++ mo_tags m) /\
  Forall (fun o => ch "," ∉ o) (mo_options m) /\ mo_options m <> [] /\ mo_root m <> js "-" /\
  starts_with (js "/") (mo_point m) = true /\ 10 ∉ mo_filesystem m /\ mo_parent m <> mo_id m /\
  forall x, x ∈ table -> mo_parent x = mo_id m -> under (mo_point m) (mo_point x).

Definition on_read_only_mount (table : list mounted) (path : jsstr) : Prop :=
  exists m, mount_of table path m /\ js "ro" ∈ mo_options m.

Lemma unescape_char c s : unescapeMount (escape_char c ++ s) = c :: unescapeMount s.
Proof.
  unfold escape_char. case_bool_decide as Hc.
  - rewrite !elem_of_cons, elem_of_nil in Hc. destruct Hc as [->|[->|[->|[->|[]]]]]; done.
  - cbn [app unescapeMount]. destruct (Z.eqb_spec c BACKSLASH) as [->|]; [|done]. exfalso. apply Hc. set_solver.
Qed.

Lemma unescape_escape s : unescapeMount (escape s) = s.
Proof. induction s as [|c s IH]; [done|]. change (escape (c :: s)) with (escape_char c ++ escape s). by rewrite unescape_char, IH. Qed.

Lemma escape_word s : s <> js "-" -> mount_word (escape s).
Proof.
  intros Hs. assert (forall c, c = 32 \/ c = 10 -> c ∉ escape s) as Hc.
  { intros c Hc Hin. unfold escape in Hin. apply list_elem_of_In, in_flat_map in Hin as (x & _ & Hin%list_elem_of_In).
    unfold escape_char in Hin. case_bool_decide as Hx.
    - rewrite !elem_of_cons, elem_of_nil in Hx. destruct Hx as [->|[->|[->|[->|[]]]]]; destruct Hc as [->| ->]; vm_compute in Hin; set_solver.
    - apply list_elem_of_singleton in Hin as ->. apply Hx. destruct Hc as [->| ->]; set_solver. }
  split; [auto|]. split; [auto|]. intros E. apply Hs. rewrite <- (unescape_escape s), E. done.
Qed.

Lemma join_free c sep l : c ∉ sep -> Forall (fun w => c ∉ w) l -> c ∉ join sep l.
Proof.
  intros Hsep Hl. induction Hl as [|w l Hw Hl IH]; [apply not_elem_of_nil|]. destruct l as [|w' l]; [done|].
  change (join sep (w :: w' :: l)) with (w ++ sep ++ join sep (w' :: l)). rewrite !not_elem_of_app. done.
Qed.

Lemma mount_fields_word table m : mount_wf table m -> Forall mount_word (mount_fields m).
Proof.
  intros (Hw & _ & Hne & Hr & Hp & _). rewrite !Forall_app, !Forall_cons in Hw. destruct Hw as ((Hi & Hpa & Hd & _) & Ho & Ht).
  unfold mount_fields. apply Forall_app. split; [|done]. repeat (apply Forall_cons; split); try done; [by apply escape_word|..].
  - apply escape_word. intros E. by rewrite E in Hp.
  - split; [|split].
    1,2: apply join_free; [by apply includes_char_false|]; eapply Forall_impl; [exact Ho|]; by intros o (? & ? & ?).
    destruct (mo_options m) as [|o l]; [done|]. apply Forall_cons in Ho as [(_ & _ & Ho) _]. destruct l as [|o' l]; [done|].
    intros E. assert (ch "," ∈ js "-") as Hin; [|by vm_compute in Hin; set_solver]. rewrite <- E.
    change (join (js ",") (o :: o' :: l)) with (o ++ js "," ++ join (js ",") (o' :: l)). apply elem_of_app. right. by left.
Qed.

Lemma index_of_first w l r : Forall (fun x => x <> w) l -> index_of w (l ++ w :: r) = Some (length l).
Proof.
  induction 1 as [|x l Hx _ IH]; cbn [app index_of length].
  - by rewrite streq_refl.
  - destruct (streq x w) eqn:E; [by apply streq_true in E|]. by rewrite IH.
Qed.

(** The parser of the registry reads back a line of the table. *)
Lemma mount_line_reads table m : mount_wf table m -> mount_line (mountinfo_line m) = Some (mo_point m, mo_options m).
Proof.
  intros Hwf. pose proof (mount_fields_word _ _ Hwf) as Hw. unfold mount_line, mountinfo_line.
  change (js " - " ++ mo_filesystem m) with (32 :: (js "-" ++ 32 :: mo_filesystem m)).
  rewrite !split_on_app_sep. change (js " ") with [32]. rewrite split_join_words.
  2:{ done. } 2:{ eapply Forall_impl; [exact Hw|]. by intros ? [? _]. }
  change (split_on 32 (js "-")) with [js "-"]. cbn [app]. rewrite index_of_first.
  2:{ eapply Forall_impl; [exact Hw|]. by intros ? (_ & _ & ?). }
  unfold mount_fields. cbn [app length Nat.ltb Nat.leb List.nth]. rewrite unescape_escape.
  change (js ",") with [ch ","]. rewrite split_join_words; [done|apply Hwf|apply Hwf].
Qed.

Lemma line_free table m : mount_wf table m -> 10 ∉ mountinfo_line m.
Proof.
  intros Hwf. pose proof (mount_fields_word _ _ Hwf) as Hw. unfold mountinfo_line. rewrite !not_elem_of_app.
  split; [|split; [by apply includes_char_false|apply Hwf]]. apply join_free; [by apply includes_char_false|].
  eapply Forall_impl; [exact Hw|]. by intros ? (_ & ? & _).
Qed.

Lemma table_reads table : Forall (mount_wf table) table ->
  omap mount_line (split_on 10 (mountinfo_text table)) = map (fun m => (mo_point m, mo_options m)) table.
Proof.
  generalize table at 1 as all. intros all Hwf. induction Hwf as [|m table Hm _ IH]; [done|].
  change (mountinfo_text (m :: table)) with ((mountinfo_line m ++ [10]) ++ mountinfo_text table).
  rewrite <- app_assoc. change ([10] ++ ?x) with (10 :: x). rewrite split_on_app_sep, split_on_word by (by eapply line_free).
  cbn [app]. change (omap mount_line (mountinfo_line m :: ?l)) with
    (match mount_line (mountinfo_line m) with Some y => y :: omap mount_line l | None => omap mount_line l end).
  by rewrite (mount_line_reads _ _ Hm), IH.
Qed.

Lemma covers_under point path : covers point path = true -> under point path.
Proof.
  unfold covers. rewrite orb_true_iff, streq_true, starts_with_spec. intros [->|(t & ->)]; right; [by left|].
  right. exists t. by rewrite <- app_assoc.
Qed.

Lemma under_covers point path : under point path -> point <> js "/" -> covers point path = true.
Proof.
  unfold covers. rewrite orb_true_iff, streq_true, starts_with_spec. intros [?|[->|(t & ->)]] Hne; [done|by left|].
  right. exists t. by rewrite <- app_assoc.
Qed.

Lemma covers_same_length a b path : covers a path = true -> covers b path = true -> zlen a = zlen b -> a = b.
Proof.
  intros Ha Hb Hlen. assert (forall p, covers p path = true -> exists r, path = p ++ r) as Hp.
  { intros p. unfold covers. rewrite orb_true_iff, streq_true, starts_with_spec. intros [<-|(t & ->)].
    - exists []. by rewrite app_nil_r.
    - rewrite <- app_assoc. eauto. }
  destruct (Hp a Ha) as [ra Ea], (Hp b Hb) as [rb Eb]. rewrite Ea in Eb. apply app_inj_1 in Eb as [? _]; [done|].
  unfold zlen in Hlen. lia.
Qed.

Lemma child_not_shorter table m x : mount_wf table m -> mount_wf table x -> x ∈ table -> mo_parent x = mo_id m ->
  zlen (mo_point m) <= zlen (mo_point x).
Proof.
  intros (_ & _ & _ & _ & _ & _ & _ & Hu) (_ & _ & _ & _ & Hs & _) Hx Hp. apply starts_with_spec in Hs as (t & Ht).
  destruct (Hu x Hx Hp) as [E|[E|(r & E)]].
  - rewrite E, Ht, zlen_app. unfold zlen. lia.
  - rewrite E. lia.
  - rewrite E, zlen_app. unfold zlen. lia.
Qed.

(** The check of the registry decides what it means to, where nothing is hidden. *)
Lemma read_only_mount_means table path :
  Forall (mount_wf table) table -> nothing_hidden table path ->
  readOnlyMount (mountinfo_text table) path = true -> on_read_only_mount table path.
Proof.
  intros Hwf Hh ((point & options) & (pre & post & Hc & Hpre & Hpost) & Hro)%readOnlyMount_exact. cbn [fst snd] in *.
  unfold covering in Hc. rewrite table_reads in Hc by done.
  assert (Forall (fun x => zlen x.1 <= zlen point) (pre ++ (point, options) :: post)) as Hmax.
  { apply Forall_app. split; [eapply Forall_impl; [exact Hpre|]; cbn; lia|]. constructor; [cbn; lia|done]. }
  assert ((point, options) ∈ pre ++ (point, options) :: post) as Hin by (apply elem_of_app; right; left).
  rewrite <- Hc in Hin, Hmax. clear Hc Hpre Hpost pre post. rewrite Forall_forall in Hmax. rewrite Forall_forall in Hwf.
  apply list_elem_of_In, filter_In in Hin as [Hin Hcov]. apply in_map_iff in Hin as (m & [= <- <-] & Hm%list_elem_of_In).
  cbn [fst] in Hcov. destruct (Hh m Hm (covers_under _ _ Hcov)) as [Hwalk Huniq].
  exists m. split; [|done]. split; [done|]. intros x (Hx & Hpar & Hu).
  pose proof (child_not_shorter _ _ _ (Hwf m Hm) (Hwf x Hx) Hx Hpar) as Hlen.
  assert (x = m) as ->; [|by apply (Hwf m Hm)].
  apply Huniq; [done|]. destruct (decide (mo_point x = js "/")) as [Er|Er].
  - pose proof (Hwf m Hm) as (_ & _ & _ & _ & Hs & _). apply starts_with_spec in Hs as (t & Ht).
    rewrite Er, Ht in *. destruct t as [|z t]; [done|]. rewrite zlen_app in Hlen. unfold zlen in Hlen. cbn [length] in Hlen.
    change (length (js "/")) with 1%nat in Hlen. lia.
  - pose proof (under_covers _ _ Hu Er) as Hcx. eapply covers_same_length; [exact Hcx|exact Hcov|].
    apply Z.le_antisymm; [|done]. apply (Hmax (mo_point x, mo_options x)).
    apply list_elem_of_In, filter_In. split; [|done]. apply in_map_iff. exists x. split; [done|]. by apply list_elem_of_In.
Qed.

(** ** What is verified *)
Section verified.
Context `{Unicode} `{Sha256} `{Sha1} `{JsonParse} `{JsonStringify}.

Definition entry_path (entry : jsval) : jsstr := get_str (opt_prop entry "path").
Definition entry_type (entry : jsval) : jsstr := get_str (opt_prop entry "type").

(** The entry on disk is what the document declares. *)
Definition entry_agrees (fs : jre_fs) (path : jsstr) (md : metadata) (entry : jsval) : Prop :=
  (entry_type entry = js "directory" /\ md_kind md = KDirectory) \/
  (entry_type entry = js "link" /\ md_kind md = KLink /\
     exists target, fs_readlink fs path = Ok target /\ opt_prop entry "target" = VStr target) \/
  (entry_type entry = js "file" /\ md_kind md = KFile /\ opt_prop entry "size" = VInt (md_size md) /\
     (exists content, fs_read fs path = Ok content /\
        opt_prop (opt_prop entry "hashes") "sha1" = VStr (sha1 content)) /\
     (opt_prop entry "executable" = VBool true -> js_and (md_mode md) 73 <> 0)).

Definition entry_verified (fs : jre_fs) (root : jsstr) (files : list jsval) (entry : jsval) : Prop :=
  forallb safe_part (split_on SLASH (entry_path entry)) = true /\
  (forall p, p ∈ parents (entry_path entry) ->
     exists e, e ∈ files /\ entry_path e = p /\ entry_type e = js "directory") /\
  exists md real,
    fs_lstat fs (root ++ js "/" ++ entry_path entry) = Ok md /\
    fs_realpath fs (root ++ js "/" ++ entry_path entry) = Ok real /\ within root real = true /\
    entry_agrees fs (root ++ js "/" ++ entry_path entry) md entry.

(** A root with the reviewed digest, all of whose declared entries are there, below
    the directory of the registry; by the mount table that was read it is on a
    read-only mount, unless a mount it is below is itself mounted over. *)
Definition verified_on_disk (fs : jre_fs) (rootDirectory : jsstr) (j : jre) (root : jsstr) : Prop :=
  within rootDirectory root = true /\
  (exists mountInfo, fs_mountinfo fs = Ok mountInfo /\ forall table,
     mountInfo = mountinfo_text table -> Forall (mount_wf table) table -> nothing_hidden table root ->
     on_read_only_mount table root) /\
  (exists raw text resolution,
     fs_read fs (root ++ js "/.xmcl-runtime-resolution.json") = Ok raw /\ text_decode raw = Some text /\
     json_parse text = Some resolution /\
     sha256 (utf8_encode (json_stringify (canonical resolution))) = j_sha256 j /\
     opt_prop resolution "component" = VStr (j_component j) /\ opt_prop resolution "major" = VInt (j_major j) /\
     exists files, opt_prop resolution "files" = VArr files /\ NoDup (map entry_path files) /\
       Forall (entry_verified fs root files) files) /\
  exists md, fs_stat fs (root ++ js "/bin/java") = Ok md /\ fs_access fs (root ++ js "/bin/java") = Ok tt /\
    md_kind md = KFile /\ js_and (md_mode md) 18 = 0.

(** The declared paths: distinct, safe, each with its type. *)
Definition declared (files : list jsval) (paths : list (jsstr * jsstr)) : Prop :=
  paths = map (fun e => (entry_path e, entry_type e)) files /\ NoDup (map entry_path files) /\
  Forall (fun e => forallb safe_part (split_on SLASH (entry_path e)) = true /\
    (entry_type e = js "directory" \/ entry_type e = js "file" \/ entry_type e = js "link")) files.

Lemma declare_path_ok seen paths entry paths' :
  declared seen paths -> declare_path paths entry = Ok paths' -> declared (seen ++ [entry]) paths'.
Proof.
  intros (Hp & Hnd & Hall). unfold declare_path. fold (entry_path entry) (entry_type entry).
  match goal with |- (if ?g then _ else _) = _ -> _ => destruct g eqn:Eg; [done|] end. intros [= <-].
  rewrite !orb_false_iff, !negb_false_iff in Eg. destruct Eg as [[[_ Hs] Hh] Ht].
  apply map_has_get in Hh. rewrite map_set_fresh by done. unfold declared.
  rewrite !map_app, Hp. split; [done|]. split.
  - apply NoDup_app. split_and!; [done| |apply NoDup_singleton].
    intros x Hx ->%list_elem_of_singleton. apply map_get_None in Hh.
    apply Hh. rewrite Hp. unfold map_keys. rewrite <- list_fmap_compose. exact Hx.
  - apply Forall_app. split; [done|]. constructor; [|constructor]. split.
    + unfold safeRelativePath in Hs. apply vstr_true in Hs as (x & Hx & Hs). unfold entry_path. rewrite Hx. cbn.
      rewrite !andb_true_iff in Hs. tauto.
    + unfold val_in in Ht. apply vstr_true in Ht as (x & Hx & Ht). unfold entry_type. rewrite Hx. cbn [get_str].
      apply str_in_spec in Ht. cbn [map] in Ht. rewrite !elem_of_cons in Ht.
      destruct Ht as [->|[->|[->|?%not_elem_of_nil]]]; tauto.
Qed.

Lemma declare_all files paths : foldM_res declare_path [] files = Ok paths -> declared files paths.
Proof.
  assert (forall seen acc, declared seen acc -> foldM_res declare_path acc files = Ok paths ->
    declared (seen ++ files) paths) as Hgen.
  { induction files as [|e files IH]; intros seen acc Hd; cbn [foldM_res].
    - intros [= ->]. by rewrite app_nil_r.
    - intros (acc' & He & Hr)%bind_ok. replace (seen ++ e :: files) with ((seen ++ [e]) ++ files) by (by rewrite <- app_assoc).
      eapply IH; [|exact Hr]. by eapply declare_path_ok. }
  apply (Hgen [] []). split_and!; [done|constructor|constructor].
Qed.

Lemma check_entry_ok fs path md entry :
  entry_type entry = js "directory" \/ entry_type entry = js "file" \/ entry_type entry = js "link" ->
  check_entry fs path md entry = Ok tt -> entry_agrees fs path md entry.
Proof.
  unfold check_entry, entry_agrees. fold (entry_type entry). intros [-> | [-> | ->]]; cbn [streq].
  - change (streq (js "directory") (js "directory")) with true. cbv iota. unfold throw_if.
    case_bool_decide; [|done]. by left.
  - change (streq (js "file") (js "directory")) with false. change (streq (js "file") (js "link")) with false. cbv iota zeta.
    destruct (_ || _) eqn:Eg; [done|]. intros (content & Hc & Ht)%bind_ok. unfold throw_if in Ht.
    destruct (negb (strict_eq _ _) || _) eqn:Et; [done|]. rewrite !orb_false_iff, !negb_false_iff, bool_decide_eq_true in *.
    destruct Eg as [[[Hk Hz%strict_eq_sym_int] _] _]. destruct Et as [Hs%strict_eq_sym_str Hx].
    right. right. split; [done|]. split; [done|]. split; [done|]. split; [by exists content|].
    intros Hex. rewrite Hex in Hx. cbn in Hx. by apply Z.eqb_neq.
  - change (streq (js "link") (js "directory")) with false. change (streq (js "link") (js "link")) with true. cbv iota.
    destruct (_ || _) eqn:Eg; [done|]. intros (target & Hc & Ht)%bind_ok. unfold throw_if in Ht.
    destruct (negb (strict_eq _ _)) eqn:Et; [done|]. rewrite !orb_false_iff, !negb_false_iff, bool_decide_eq_true in *.
    right. left. split; [done|]. split; [tauto|]. exists target. split; [done|]. by apply strict_eq_sym_str.
Qed.

Lemma declared_directory files paths p :
  declared files paths -> map_get p paths = Some (js "directory") ->
  exists e, e ∈ files /\ entry_path e = p /\ entry_type e = js "directory".
Proof.
  intros (-> & _ & _) Hg. apply map_get_In in Hg. apply list_elem_of_fmap in Hg as (e & [= -> Ht] & He).
  by exists e.
Qed.

Lemma verify_entry_ok fs root files paths u entry :
  declared files paths -> entry ∈ files -> verify_entry fs root paths u entry = Ok tt ->
  entry_verified fs root files entry.
Proof.
  intros Hd Hin. unfold verify_entry. fold (entry_path entry).
  destruct (existsb _ _) eqn:Ep; [done|]. cbv zeta. intros (md & Hl & Hr)%bind_ok.
  apply bind_ok in Hr as (real & Hreal & Hr). destruct (within root real) eqn:Ew; cbn [negb] in Hr; [|done].
  pose proof Hd as (_ & _ & Hall). rewrite Forall_forall in Hall. destruct (Hall _ Hin) as [Hs Ht].
  split; [done|]. split.
  - intros p Hp. eapply declared_directory; [done|]. apply not_true_iff_false in Ep.
    destruct (decide (map_get p paths = Some (js "directory"))) as [|Hn]; [done|]. exfalso. apply Ep, existsb_exists.
    exists p. split; [by apply list_elem_of_In|]. by rewrite bool_decide_eq_false_2.
  - exists md, real. split_and!; [done|done|done|]. by apply check_entry_ok.
Qed.

Lemma foldM_unit_Forall {A} (f : unit -> A -> res unit) l u u' :
  foldM_res f u l = Ok u' -> Forall (fun x => f tt x = Ok tt) l.
Proof.
  revert u. induction l as [|x l IH]; intros u; cbn [foldM_res]; [constructor|].
  intros ([] & Hx & Hr)%bind_ok. destruct u. constructor; [done|by eapply IH].
Qed.

Lemma verify_root_ok fs dir root actual :
  verify_root fs dir root = Ok actual -> verified_on_disk fs dir (jr_jre root) actual.
Proof.
  unfold verify_root. intros (a & _ & Hr)%bind_ok. destruct (within dir a) eqn:Ew; cbn [negb] in Hr; [|done].
  apply bind_ok in Hr as (mi & Hmi & Hr). destruct (readOnlyMount mi a) eqn:Em; cbn [negb] in Hr; [|done].
  apply bind_ok in Hr as ([] & Hv & Hr). apply bind_ok in Hr as (md & Hs & Hr). apply bind_ok in Hr as ([] & Ha & Hr).
  destruct (_ || _) eqn:Ej; [done|]. injection Hr as <-.
  rewrite orb_false_iff, !negb_false_iff, bool_decide_eq_true, Z.eqb_eq in Ej. destruct Ej as [Hk Hm].
  split; [done|]. split; [|split; [|by exists md]].
  { exists mi. split; [done|]. intros table ->. intros. by apply read_only_mount_means. }
  unfold verifyRuntimeRoot in Hv. apply bind_ok in Hv as (raw & Hraw & Hv). apply bind_ok in Hv as (res & Hres & Hv).
  destruct (text_decode raw) as [text|] eqn:Et; [|done]. destruct (json_parse text) as [x|] eqn:Ex; [|done].
  assert (x = res) as -> by congruence. exists raw, text, res.
  destruct (_ || _) eqn:Eg; [done|]. rewrite !orb_false_iff, !negb_false_iff in Eg.
  destruct Eg as [[[[_ Hc%strict_eq_str] Hj%strict_eq_int] Harr] Hsha%streq_true].
  cbv zeta in Hv. apply bind_ok in Hv as (paths & Hp%declare_all & Hf%foldM_unit_Forall).
  split_and!; try done. destruct (opt_prop res "files") as [| | | | |files| |] eqn:Ef; try done. cbn [get_list] in *.
  exists files. split; [done|]. split; [apply Hp|]. rewrite Forall_forall in *.
  intros e He. eapply verify_entry_ok; [done|done|]. by apply Hf.
Qed.

(** *** The registry over time *)

(** A root of the registry is the catalog's JRE of that id. *)
Definition roots_ok (dir : jsstr) (expected : list (jsstr * jre)) (roots : list (jsstr * jre_root)) : Prop :=
  forall id root, map_get id roots = Some root ->
    map_get id expected = Some (jr_jre root) /\ j_id (jr_jre root) = id /\ within dir (jr_path root) = true.

Lemma expected_jres_spec c id j :
  map_get id (expected_jres c) = Some j -> j_id j = id /\ exists t, t ∈ c_toolchains c /\ t_jre t = j.
Proof.
  unfold expected_jres. assert (forall ts acc,
    (forall id j, map_get id acc = Some j -> j_id j = id /\ exists t, t ∈ c_toolchains c /\ t_jre t = j) ->
    (forall t, t ∈ ts -> t ∈ c_toolchains c) ->
    forall id j, map_get id (fold_left (fun m t => map_set (j_id (t_jre t)) (t_jre t) m) ts acc) = Some j ->
    j_id j = id /\ exists t, t ∈ c_toolchains c /\ t_jre t = j) as Hgen; [|by eapply Hgen].
  induction ts as [|t ts IH]; intros acc Hacc Hts; cbn [fold_left]; [done|]. apply IH.
  - intros id' j'. destruct (decide (id' = j_id (t_jre t))) as [->|Hne].
    + rewrite map_get_set_eq. intros [= <-]. split; [done|]. exists t. split; [|done]. apply Hts. left.
    + rewrite map_get_set_ne by done. apply Hacc.
  - intros t' Ht'. apply Hts. by right.
Qed.

Lemma add_root_ok dir c roots entry roots' :
  roots_ok dir (expected_jres c) roots -> add_root dir (expected_jres c) roots entry = Ok roots' ->
  roots_ok dir (expected_jres c) roots'.
Proof.
  intros Hok. unfold add_root. destruct (_ || _); [done|].
  destruct (opt_prop entry "id") as [| | | |id| | |]; try done.
  destruct (opt_prop entry "path") as [| | | |path| | |]; try done. destruct (map_has id roots); [done|].
  destruct (map_get id (expected_jres c)) as [j|] eqn:Ej; [|done].
  destruct (negb (absoluteNormalizedPath path) || _) eqn:Ep; [done|].
  match goal with |- (if ?b then _ else _) = _ -> _ => destruct b eqn:Eg; [done|] end. intros [= <-].
  rewrite !orb_false_iff, !negb_false_iff, !strict_eq_str, strict_eq_int in *.
  destruct Eg as [[[-> ->] ->] ->]. cbn [get_str get_int]. intros id' root.
  destruct (decide (id' = id)) as [->|Hne].
  - rewrite map_get_set_eq. intros [= <-]. cbn [jr_jre jr_path].
    destruct (expected_jres_spec _ _ _ Ej) as [<- _]. change (get_int (VInt (j_major j))) with (j_major j).
    split; [|tauto]. rewrite Ej. by destruct j.
  - rewrite map_get_set_ne by done. apply Hok.
Qed.

Lemma new_registry_ok document c dir g :
  new_registry document c dir = Ok g ->
  rg_rootDirectory g = dir /\ rg_tokens g = [] /\ roots_ok dir (expected_jres c) (rg_roots g).
Proof.
  unfold new_registry. destruct (negb _); [done|]. intros (roots & Hr & [= <-])%bind_ok. cbn.
  split; [done|]. split; [done|]. unfold parseRegistry in Hr.
  match type of Hr with (if ?b then _ else _) = _ => destruct b; [done|] end.
  cbv zeta in Hr. apply bind_ok in Hr as (rs & Hf & Hr). destruct (existsb _ _); [done|]. injection Hr as <-.
  eapply (foldM_res_ind _ (roots_ok dir (expected_jres c))); [|clear Hf|exact Hf].
  - by intros id root.
  - intros e s s' _ Hs He. by eapply add_root_ok.
Qed.

(** The states of a registry: constructed, then any number of [resolve] calls,
    each of which may see another state of the file system. *)
Inductive registry_reaches (g0 : registry) : registry -> Prop :=
  | registry_here : registry_reaches g0 g0
  | registry_after g fs expected : registry_reaches g0 g -> registry_reaches g0 (registry_resolve fs expected g).2.

(** What a resolve call does when it succeeds. *)
Lemma registry_resolve_inv fs expected g v g' :
  registry_resolve fs expected g = (Ok v, g') ->
  exists root actual, map_get (j_id expected) (rg_roots g) = Some root /\ same_jre (jr_jre root) expected = true /\
    verify_root fs (rg_rootDirectory g) root = Ok actual /\
    v = resolved_jre (jr_jre root) (jre_token (jr_jre root) actual) /\
    g' = mkRegistry (rg_rootDirectory g) (rg_roots g)
           (map_set (jre_token (jr_jre root) actual) actual (rg_tokens g)).
Proof.
  unfold registry_resolve. destruct (map_get _ _) as [root|]; [|done].
  destruct (same_jre _ _) eqn:Es; cbn [negb]; [|done].
  destruct (verify_root _ _ _) as [actual|] eqn:Ev; [|done]. cbv zeta. intros Hr.
  exists root, actual. split_and!; try done; congruence.
Qed.

Lemma registry_resolve_throw fs expected g e g' : registry_resolve fs expected g = (Throw e, g') -> g' = g.
Proof. unfold registry_resolve. repeat case_match; intros; congruence. Qed.

Lemma reaches_roots g0 g :
  registry_reaches g0 g -> rg_roots g = rg_roots g0 /\ rg_rootDirectory g = rg_rootDirectory g0.
Proof.
  induction 1 as [|g fs expected _ IH]; [done|].
  destruct (registry_resolve fs expected g) as [[v|e] g'] eqn:E; cbn [snd].
  - apply registry_resolve_inv in E as (root & actual & _ & _ & _ & _ & ->). done.
  - by apply registry_resolve_throw in E as ->.
Qed.

Lemma token_identifier j root : validIdentifier (jre_token j root) = true.
Proof.
  unfold jre_token. pose proof (sha256_hex (utf8_encode (j_id j ++ [0] ++ j_sha256 j ++ [0] ++ root))) as Hh.
  unfold sha256_text. set (h := sha256 _) in *. pose proof (validSha256_length h (lowerSha256_valid _ Hh)) as Hlen.
  unfold validIdentifier. rewrite zlen_app, Hlen. change (zlen (js "jre-")) with 4. cbn [Z.eqb negb andb Z.leb].
  change ((4 + 64 =? 0)) with false. change (4 + 64 <=? 128) with true. cbn [negb andb].
  change (js "jre-" ++ h) with (ch "j" :: (js "re-" ++ h)). rewrite matches_seq_cls. change (alnum (ch "j")) with true.
  cbn [andb]. apply matches_spec, lang_star_cls. apply Forall_app. split; [by repeat constructor|].
  unfold lowerSha256 in Hh. apply matches_rep_cls in Hh as [Hh _]. eapply Forall_impl; [exact Hh|].
  cbv beta. class_incl.
Qed.

Lemma resolved_passes j token :
  lowerSha256 (j_sha256 j) = true -> lowerSha256 (j_runtimeCatalogRevision j) = true -> validIdentifier token = true ->
  check_jre (resolved_jre j token) j = Ok (mkVerifiedJre j token).
Proof.
  intros Hs Hr Ht. unfold check_jre. set (v := resolved_jre j token).
  change (plainObject v) with true. change (opt_prop v "verified") with (VBool true).
  change (opt_prop v "readOnly") with (VBool true). change (opt_prop v "id") with (VStr (j_id j)).
  change (opt_prop v "sha256") with (VStr (j_sha256 j)). change (opt_prop v "component") with (VStr (j_component j)).
  change (opt_prop v "major") with (VInt (j_major j)).
  change (opt_prop v "runtimeCatalogRevision") with (VStr (j_runtimeCatalogRevision j)).
  change (opt_prop v "rootToken") with (VStr token). cbn [lower_opt]. rewrite !lowerSha256_fixed by done.
  rewrite !(proj2 (strict_eq_str _ _)), (proj2 (strict_eq_int _ _)) by done. cbn. rewrite !streq_refl, ?Ht. cbn. by destruct j.
Qed.

Lemma within_nonempty root : within root [] = true -> False.
Proof.
  unfold within. rewrite (resolve_parts root). change (resolve []) with [SLASH].
  change (js "/" ++ join (js "/") ?x) with (SLASH :: join (js "/") x). cbn [app starts_with].
  rewrite Z.eqb_refl. by destruct (join _ _).
Qed.

Section theorems.
Context (catalogDocument : jsval) (families : option (list jsstr)) (document : jsval).
Context `{UrlParser} (c : catalog) (dir : jsstr) (g0 : registry).
Hypothesis catalog_parsed : ReviewedToolchainCatalog catalogDocument families = Ok c.
Hypothesis registry_parsed : new_registry document c dir = Ok g0.

Lemma reached_root g id root :
  registry_reaches g0 g -> map_get id (rg_roots g) = Some root ->
  rg_rootDirectory g = dir /\ j_id (jr_jre root) = id /\ exists t, t ∈ c_toolchains c /\ t_jre t = jr_jre root.
Proof.
  intros [Hr Hd]%reaches_roots. destruct (new_registry_ok _ _ _ _ registry_parsed) as (Hdir & _ & Hok).
  rewrite Hr, Hd, Hdir. intros (He & Hid & _)%Hok. apply expected_jres_spec in He as [_ Ht]. done.
Qed.

(** C29: A JRE the registry resolves for a toolchain of the catalog was verified
    on disk: its root is below the configured directory; where nothing is mounted
    over a mount that it is below, the mount the system finds by walking the table
    that was read is read-only (with stacked mounts the code may look at a hidden
    one); the digest of its resolution document is the reviewed one, every
    declared entry is inside the root and has the declared kind, size, digest
    and link target, and its [java] is an accessible regular file that others
    cannot write.  The builder accepts the answer as exactly the reviewed JRE,
    and its token leads the sandbox to the verified root. *)
Theorem jre_resolve_verified g fs t v g' :
  registry_reaches g0 g -> t ∈ c_toolchains c -> registry_resolve fs (t_jre t) g = (Ok v, g') ->
  exists root, verified_on_disk fs dir (t_jre t) root /\
    check_jre v (t_jre t) = Ok (mkVerifiedJre (t_jre t) (jre_token (t_jre t) root)) /\
    registry_rootForToken g' (jre_token (t_jre t) root) = Ok root.
Proof.
  intros Hg Ht (root & actual & Hm & Hs & Hv & -> & ->)%registry_resolve_inv.
  destruct (reached_root _ _ _ Hg Hm) as (Hdir & Hid & _). rewrite Hdir in Hv. apply verify_root_ok in Hv.
  assert (jr_jre root = t_jre t) as Hj.
  { unfold same_jre in Hs. rewrite !andb_true_iff, !streq_true, Z.eqb_eq in Hs.
    destruct (jr_jre root), (t_jre t). cbn in *. destruct Hs as [[[-> ->] ->] ->]. by rewrite Hid. }
  rewrite Hj in *. exists actual. split; [done|]. apply catalog_constructed in catalog_parsed as (Hrev & Hok & _).
  rewrite Forall_forall in Hok. destruct (Hok t Ht) as (_ & _ & _ & (_ & _ & _ & Hr & Hsha) & _). split.
  - apply resolved_passes; [done|by rewrite Hr|apply token_identifier].
  - unfold registry_rootForToken. cbn [rg_tokens]. rewrite map_get_set_eq.
    destruct (streq actual []) eqn:E; [|done]. apply streq_true in E as ->. destruct Hv as [Hw _]. by apply within_nonempty in Hw.
Qed.

(** Whatever sequence of resolutions a registry went through, each against
    its own state of the file system, a token it answers for stands for a root
    that was verified on disk for a JRE of the catalog, and the token is the
    digest of that JRE and that root; unknown tokens are refused. *)
Theorem registry_tokens_verified g token root :
  registry_reaches g0 g -> registry_rootForToken g token = Ok root ->
  exists fs t, t ∈ c_toolchains c /\ token = jre_token (t_jre t) root /\ verified_on_disk fs dir (t_jre t) root.
Proof.
  intros Hg. revert token root. unfold registry_rootForToken.
  assert (forall token root, map_get token (rg_tokens g) = Some root ->
    exists fs t, t ∈ c_toolchains c /\ token = jre_token (t_jre t) root /\ verified_on_disk fs dir (t_jre t) root)
    as Hinv.
  { induction Hg as [|g fs expected Hg IH]; intros token root.
    { destruct (new_registry_ok _ _ _ _ registry_parsed) as (_ & -> & _). done. }
    destruct (registry_resolve fs expected g) as [[v|e] g'] eqn:E; cbn [snd].
    - apply registry_resolve_inv in E as (r & actual & Hm & _ & Hv & _ & ->). cbn [rg_tokens].
      destruct (decide (token = jre_token (jr_jre r) actual)) as [->|Hne]; [|rewrite map_get_set_ne by done; apply IH].
      rewrite map_get_set_eq. intros [= <-].
      destruct (reached_root _ _ _ Hg Hm) as (Hdir & _ & t & Ht & Hj). rewrite Hdir in Hv.
      exists fs, t. rewrite Hj. split_and!; [done|done|]. by apply verify_root_ok.
    - apply registry_resolve_throw in E as ->. apply IH. }
  intros token root Hr. destruct (map_get token _) as [x|] eqn:E; [|done]. destruct (streq x []); [done|].
  assert (x = root) as -> by congruence. by apply Hinv.
Qed.
End theorems.
End verified.

(** ** A run *)
#[local] Existing Instance ascii_unicode.
#[local] Existing Instance toy_sha256.
#[local] Existing Instance cat_urls.
#[local] Existing Instance cat_stringify.

(** Every object has one text, so one digest. *)
Definition box_digest : jsstr := Eval vm_compute in toy_digest (utf8_encode (js "[object Object]")).
Definition reg_sha1 : jsstr := replicate 40 97.

#[local] Instance reg_sha1s : Sha1 := {| sha1 _ := reg_sha1 |}.

Definition reg_resolution : jsval :=
  obj [("component", VText "java-runtime"); ("major", VInt 21);
       ("files", VArr [obj [("path", VText "bin"); ("type", VText "directory")];
                       obj [("path", VText "bin/java"); ("type", VText "file"); ("size", VInt 2);
                         ("executable", VBool true); ("hashes", obj [("sha1", VStr reg_sha1)])]])]%string.

#[local] Instance reg_parse : JsonParse := {|
  json_parse s := if streq s (js "resolution") then Some reg_resolution else None |}.

Definition reg_catalog_document : jsval :=
  obj [("schemaVersion", VInt 1); ("catalogRevision", VStr box_digest); ("runtimeCatalogRevision", VStr box_digest);
       ("approvedArtifactHosts", VArr [VText "maven.fabricmc.net"]);
       ("toolchains", VArr [
          obj [("minecraftVersion", VText "1.21.1"); ("loader", loader_object (js "fabric") (js "0.16.9"));
            ("java", cat_java);
            ("jre", obj [("id", VText "temurin-21"); ("sha256", VStr box_digest); ("component", VText "java-runtime");
               ("major", VInt 21); ("runtimeCatalogRevision", VStr box_digest)]);
            ("artifacts", opt_prop cat_toolchain "artifacts");
            ("launchTemplate", VText "fabric-server-jar-v1")]])]%string.

Definition reg_catalog : catalog := Eval vm_compute in
  get_ok cat_empty (ReviewedToolchainCatalog reg_catalog_document None).

Lemma reg_catalog_parsed : ReviewedToolchainCatalog reg_catalog_document None = Ok reg_catalog.
Proof. vm_cast_no_check (eq_refl (Ok reg_catalog)). Qed.

Definition reg_document : jsval :=
  obj [("schemaVersion", VInt 1); ("catalogRevision", VStr box_digest); ("runtimeCatalogRevision", VStr box_digest);
       ("roots", VArr [obj [("id", VText "temurin-21"); ("sha256", VStr box_digest); ("component", VText "java-runtime");
          ("major", VInt 21); ("runtimeCatalogRevision", VStr box_digest); ("path", VText "/opt/jre/one")]])]%string.

Definition reg_start : registry := Eval vm_compute in
  get_ok (mkRegistry [] [] []) (new_registry reg_document reg_catalog (js "/opt/jre")).

Lemma reg_parsed : new_registry reg_document reg_catalog (js "/opt/jre") = Ok reg_start.
Proof. vm_cast_no_check (eq_refl (Ok reg_start)). Qed.

Definition reg_mounts : list mounted :=
  [mkMounted (js "21") (js "1") (js "0:1") (js "/") (js "/") [js "rw"; js "relatime"] [] (js "overlay overlay rw");
   mkMounted (js "22") (js "21") (js "0:2") (js "/") (js "/opt") [js "rw"] [] (js "ext4 x rw");
   mkMounted (js "31") (js "22") (js "0:3") (js "/") (js "/opt/jre") [js "ro"] [js "shared:1"] (js "ext4 y ro")].

#[local] Instance mount_word_dec s : Decision (mount_word s).
Proof. unfold mount_word. apply _. Defined.

Lemma reg_under (a b : jsstr) : streq a (js "/") || covers a b = true -> under a b.
Proof. intros [->%streq_true|Hc]%orb_true_iff; [by left|by apply covers_under]. Qed.

Lemma reg_mounts_wf : Forall (mount_wf reg_mounts) reg_mounts.
Proof.
  assert (forall m, m ∈ reg_mounts ->
    Forall mount_word ([mo_id m; mo_parent m; mo_device m] ++ mo_options m ++ mo_tags m) /\
    Forall (fun o => ch "," ∉ o) (mo_options m) /\ mo_options m <> [] /\ mo_root m <> js "-" /\
    starts_with (js "/") (mo_point m) = true /\ 10 ∉ mo_filesystem m /\ mo_parent m <> mo_id m) as Ha.
  { apply Forall_forall, (bool_decide_unpack _). vm_compute. exact I. }
  apply Forall_forall. intros m Hm. destruct (Ha m Hm) as (? & ? & ? & ? & ? & ? & ?). split_and!; try done.
  intros x Hx Hp. apply reg_under. revert Hm Hx Hp. clear. unfold reg_mounts.
  rewrite !elem_of_cons, !elem_of_nil. intros [->|[->|[->|[]]]] [->|[->|[->|[]]]] Hp; try discriminate Hp; reflexivity.
Qed.

Lemma reg_walked : nothing_hidden reg_mounts (js "/opt/jre/one").
Proof.
  set (path := js "/opt/jre/one"). destruct reg_mounts as [|a [|b [|d []]]] eqn:E; try discriminate E.
  injection E as Ea Eb Ed.
  assert (walked [a; b; d] path a) as Wa.
  { apply walked_root; [left|by subst|]. intros x. rewrite !elem_of_cons, elem_of_nil.
    intros [->|[->|[->|[]]]]; subst; discriminate. }
  assert (walked [a; b; d] path b) as Wb.
  { apply (walked_next _ _ a); [done| |].
    - split; [right; left|]. split; [by subst|]. apply reg_under. by subst.
    - intros x (Hx & Hp & _). revert Hx Hp. rewrite !elem_of_cons, elem_of_nil.
      intros [->|[->|[->|[]]]]; subst; first [discriminate|done]. }
  assert (walked [a; b; d] path d) as Wd.
  { apply (walked_next _ _ b); [done| |].
    - split; [right; right; left|]. split; [by subst|]. apply reg_under. by subst.
    - intros x (Hx & Hp & _). revert Hx Hp. rewrite !elem_of_cons, elem_of_nil.
      intros [->|[->|[->|[]]]]; subst; first [discriminate|done]. }
  intros m Hm _. split.
  - revert Hm. rewrite !elem_of_cons, elem_of_nil. by intros [->|[->|[->|[]]]].
  - intros x Hx. revert Hm Hx. rewrite !elem_of_cons, !elem_of_nil.
    intros [->|[->|[->|[]]]] [->|[->|[->|[]]]]; subst; done.
Qed.

Definition reg_fs : jre_fs :=
  mkJreFs (fun p => Ok p)
    (Ok (mountinfo_text reg_mounts))
    (fun p => Ok (if ends_with (js ".json") p then js "resolution" else [1; 2]))
    (fun p => Ok (mkMetadata (if ends_with (js "java") p then KFile else KDirectory) 2 365))
    (fun p => Ok (mkMetadata KFile 2 365)) (fun p => Throw (PlainError "not a link")) (fun p => Ok tt).

Definition reg_jre : jre := mkJre (js "temurin-21") box_digest (js "java-runtime") 21 box_digest.
Definition reg_token : jsstr := Eval vm_compute in jre_token reg_jre (js "/opt/jre/one").
Definition reg_after : registry := mkRegistry (js "/opt/jre") (rg_roots reg_start) [(reg_token, js "/opt/jre/one")].

Lemma reg_resolves : registry_resolve reg_fs reg_jre reg_start = (Ok (resolved_jre reg_jre reg_token), reg_after).
Proof. vm_compute. reflexivity. Qed.

Lemma jre_resolve_verified_witness :
  exists root, verified_on_disk reg_fs (js "/opt/jre") reg_jre root /\ registry_rootForToken reg_after reg_token = Ok root /\
    on_read_only_mount reg_mounts root.
Proof.
  destruct (c_toolchains reg_catalog) as [|t ts] eqn:E; [discriminate E|].
  assert (t_jre t = reg_jre) as Hj by (injection E as <- <-; reflexivity).
  destruct (jre_resolve_verified reg_catalog_document None reg_document reg_catalog (js "/opt/jre") reg_start
    reg_catalog_parsed reg_parsed reg_start reg_fs t (resolved_jre reg_jre reg_token) reg_after) as (root & Hv & _ & Hr).
  - constructor.
  - rewrite E. left.
  - rewrite Hj. exact reg_resolves.
  - rewrite Hj in Hv, Hr. exists root. split; [exact Hv|].
    assert (root = js "/opt/jre/one") as ->.
    { revert Hr. unfold registry_rootForToken, map_get, reg_after. cbn [rg_tokens]. case_bool_decide; [|done].
      change (Ok (js "/opt/jre/one") = Ok root -> root = js "/opt/jre/one"). congruence. }
    split; [reflexivity|]. destruct Hv as (_ & (mi & Hmi & Hro) & _). injection Hmi as <-.
    apply Hro; [reflexivity|exact reg_mounts_wf|exact reg_walked].
Defined.

Lemma registry_tokens_verified_witness :
  exists fs t, t ∈ c_toolchains reg_catalog /\ reg_token = jre_token (t_jre t) (js "/opt/jre/one") /\
    verified_on_disk fs (js "/opt/jre") (t_jre t) (js "/opt/jre/one").
Proof.
  apply (registry_tokens_verified reg_document reg_catalog (js "/opt/jre") reg_start reg_parsed reg_after).
  - change reg_after with ((Ok (resolved_jre reg_jre reg_token), reg_after)).2. rewrite <- reg_resolves.
    apply registry_after. constructor.
  - vm_compute. reflexivity.
Defined.
