(* ===== verification/Materializer.v ===== *)
(** * The JRE materializer ([scripts/materialize_verified_jre.mjs])

    The script that installs a reviewed JRE: it picks the reviewed resolution of
    the runtime catalog, downloads every file of it, builds the tree in a staging
    directory and renames that into place.  The file system is a store of nodes by
    absolute path, on which each call acts as the system call does, or fails for
    any other reason the environment chooses; a link is a node of its own, and no
    call follows one.  [MaterializerTree] shows what a
    finished root holds and what is left after a failure, [MaterializerRoot] that
    the registry of the worker accepts a materialized root. *)

From S2P Require Import Prelude JsText JsNum JsValue Regex Validators Limits Node TarZst Bundle Content Effects Catalog Downloader ToolchainLock Builder Sandbox JreRegistry.
From Stdlib Require Import Ascii.

Definition MAX_FILE_BYTES : Z := 512 * 1024 * 1024.
Definition MAX_TOTAL_BYTES : Z := 2 * 1024 * 1024 * 1024.

Definition mat_failure (code : string) : exn := MaterializerFailure code.

(** ** The file system *)
Inductive node :=
  | Dir (mode : Z)
  | File (content : bytes) (mode : Z)
  | Link (target : jsstr).

Definition store : Type := jsstr -> option node.

Definition is_dir (n : option node) : bool := match n with Some (Dir _) => true | _ => false end.

Definition put (p : jsstr) (n : node) (f : store) : store := fun k => if streq k p then Some n else f k.

(** The path itself or one below it. *)
Definition at_or_below (p k : jsstr) : bool := streq k p || starts_with (p ++ js "/") k.

(** [dirname(path)] of an absolute path *)
Definition dirname (p : jsstr) : jsstr :=
  let d := join (js "/") (removelast (split_on SLASH p)) in if streq d [] then js "/" else d.

(** The directories from the root down to the path. *)
Definition ancestors (p : jsstr) : list jsstr :=
  let parts := normalize_parts [] (split_on SLASH p) in
  map (fun i => js "/" ++ join (js "/") (take i parts)) (seq 1 (length parts)).

Definition EEXIST : exn := CodedError "file already exists" "EEXIST".
Definition ENOENT : exn := CodedError "no such file or directory" "ENOENT".
Definition ENOTDIR : exn := CodedError "not a directory" "ENOTDIR".

(** What the environment decides: answers to [fetch], and whether a call fails. *)
Class MaterializerEnv (E : Type) := {
  mat_fetch : jsstr -> eff E (option response);
  mat_fault : E -> option exn * E;
}.

Record mat_world (E : Type) := mkMatWorld { mw_fs : store; mw_env : E }.
Arguments mkMatWorld {E} _ _.
Arguments mw_fs {E} _ _.
Arguments mw_env {E} _.

Section filesystem.
Context {E : Type} `{MaterializerEnv E}.
Context (umask : Z).
Abbreviation M := (eff (mat_world E)).

(** The mode of a new node. *)
Definition created (mode : Z) : Z := Z.land mode (Z.lnot umask).

(** One system call: it fails as the environment says, or acts.  A failing call
    leaves the store as it was; what a write or a recursive call that failed half
    way leaves behind is below the path it was given, which is the staging directory
    or a missing directory above the output root. *)
Definition syscall {A} (act : store -> res (A * store)) : M A := fun w =>
  let '(f, e) := mat_fault (mw_env w) in
  match f with
  | Some x => (Throw x, mkMatWorld (mw_fs w) e)
  | None =>
      match act (mw_fs w) with
      | Ok (a, fs) => (Ok a, mkMatWorld fs e)
      | Throw x => (Throw x, mkMatWorld (mw_fs w) e)
      end
  end.

Definition fs_readFile (p : jsstr) : M bytes :=
  syscall (fun f => match f p with Some (File b _) => Ok (b, f) | _ => Throw ENOENT end).

Definition fs_lstat_path (p : jsstr) : M unit :=
  syscall (fun f => match f p with Some _ => Ok (tt, f) | None => Throw ENOENT end).

Definition fs_mkdir (p : jsstr) (mode : Z) : M unit :=
  syscall (fun f =>
    match f p with
    | Some _ => Throw EEXIST
    | None => if is_dir (f (dirname p)) then Ok (tt, put p (Dir (created mode)) f) else Throw ENOENT
    end).

(** [mkdir(path, { recursive: true, mode })] *)
Definition make_missing (mode : Z) (f : store) (p : jsstr) : res store :=
  match f p with
  | Some (Dir _) => Ok f
  | Some _ => Throw ENOTDIR
  | None => Ok (put p (Dir (created mode)) f)
  end.

Definition fs_mkdirp (p : jsstr) (mode : Z) : M unit :=
  syscall (fun f => f' ← foldM_res (make_missing mode) f (ancestors p); Ok (tt, f')).

(** [writeFile(path, bytes, { flag: "wx", mode })] *)
Definition fs_write_new (p : jsstr) (b : bytes) (mode : Z) : M unit :=
  syscall (fun f =>
    match f p with
    | Some _ => Throw EEXIST
    | None => if is_dir (f (dirname p)) then Ok (tt, put p (File b (created mode)) f) else Throw ENOENT
    end).

Definition fs_chmod (p : jsstr) (mode : Z) : M unit :=
  syscall (fun f =>
    match f p with
    | Some (File b _) => Ok (tt, put p (File b mode) f)
    | Some (Dir _) => Ok (tt, put p (Dir mode) f)
    | _ => Throw ENOENT
    end).

Definition fs_symlink (target p : jsstr) : M unit :=
  syscall (fun f =>
    match f p with
    | Some _ => Throw EEXIST
    | None => if is_dir (f (dirname p)) then Ok (tt, put p (Link target) f) else Throw ENOENT
    end).

(** [rename(a, b)] of a directory.  A destination that exists is refused; the system
    would replace an empty directory there, but [assertMissing] has seen that there
    is none and nobody else writes to the store. *)
Definition move (a b : jsstr) (f : store) : store := fun k =>
  if at_or_below b k then f (a ++ zdrop (zlen b) k) else if at_or_below a k then None else f k.

Definition fs_rename (a b : jsstr) : M unit :=
  syscall (fun f =>
    if negb (is_dir (f a)) then Throw ENOENT
    else match f b with Some _ => Throw EEXIST | None => Ok (tt, move a b f) end).

(** [rm(path, { recursive: true, force: true })] *)
Definition fs_rm (p : jsstr) : M unit :=
  syscall (fun f => Ok (tt, fun k => if at_or_below p k then None else f k)).
End filesystem.

(** ** Validation of a resolution *)
Section script.
Context `{Unicode} `{Sha256} `{Sha1} `{JsonParse} `{JsonStringify} `{JsonPretty} `{UrlParser}.

Definition safePath (v : jsval) : bool :=
  vstr (fun s => negb (zlen s =? 0) && (zlen s <=? 512) && negb (includes_char BACKSLASH s) &&
    negb (starts_with (js "/") s) && forallb safe_part (split_on SLASH s)) v.

Definition safeLinkTarget (v : jsval) : bool :=
  vstr (fun s => negb (zlen s =? 0) && (zlen s <=? 512) && negb (includes_char BACKSLASH s) &&
    negb (starts_with (js "/") s) && no_control s) v.

(** [/^\/v1\/objects\/[a-f0-9]{40}\/[^/]+$/] *)
Definition object_path : re :=
  seqs [lit "/v1/objects/"; rep (Cls hex_lower) 40 0; lit "/"; plus (Cls (pnot (chr1 "/")))].

Definition exactMojangObjectUrl (value sha1 : jsval) : bool :=
  match parse_url (to_string value) with
  | None => false
  | Some u =>
      streq (u_protocol u) (js "https:") && streq (u_username u) [] && streq (u_password u) [] &&
      streq (u_port u) [] && streq (u_search u) [] && streq (u_hash u) [] &&
      streq (u_hostname u) (js "piston-data.mojang.com") &&
      starts_with (js "/v1/objects/" ++ to_string sha1 ++ js "/") (u_pathname u) && matches object_path (u_pathname u)
  end.

Definition mat_malformed : exn := mat_failure "jre_resolution_malformed".

(** The condition on an entry of each type. *)
Definition valid_file (entry : jsval) : bool :=
  let hashes := opt_prop entry "hashes" in
  sameKeys entry ["executable"; "hashes"; "path"; "size"; "type"; "url"]%string &&
  match opt_prop entry "executable" with VBool _ => true | _ => false end && plainObject hashes &&
  sameKeys hashes ["sha1"]%string && matches (rep (Cls hex_lower) 40 0) (to_string (opt_prop hashes "sha1")) &&
  vint (fun z => (1 <=? z) && (z <=? MAX_FILE_BYTES)) (opt_prop entry "size") &&
  exactMojangObjectUrl (opt_prop entry "url") (opt_prop hashes "sha1").

Definition has_type (name : string) (entry : jsval) : bool := strict_eq (opt_prop entry "type") (VText name).

(** One turn of the first loop. *)
Definition add_entry (paths : list (jsstr * jsstr)) (entry : jsval) : res (list (jsstr * jsstr)) :=
  if negb (plainObject entry) || negb (safePath (opt_prop entry "path")) ||
     map_has (get_str (opt_prop entry "path")) paths ||
     negb (val_in (opt_prop entry "type") ["directory"; "file"; "link"]%string)
  then Throw mat_malformed
  else if has_type "directory" entry && negb (sameKeys entry ["path"; "type"]%string) then Throw mat_malformed
  else if has_type "link" entry &&
          (negb (sameKeys entry ["path"; "target"; "type"]%string) || negb (safeLinkTarget (opt_prop entry "target")))
  then Throw mat_malformed
  else if has_type "file" entry && negb (valid_file entry) then Throw mat_malformed
  else Ok (map_set (get_str (opt_prop entry "path")) (get_str (opt_prop entry "type")) paths).

Definition check_parents (paths : list (jsstr * jsstr)) (_ : unit) (entry : jsval) : res unit :=
  throw_if (existsb (fun p => negb (bool_decide (map_get p paths = Some (js "directory"))))
              (parents (get_str (opt_prop entry "path")))) mat_malformed.

Definition validateResolution (resolution : jsval) : res (list jsval) :=
  let files := get_list (opt_prop resolution "files") in
  if negb (plainObject resolution) || negb (is_array (opt_prop resolution "files")) || (zlen files <? 1) ||
     (16384 <? zlen files)
  then Throw mat_malformed
  else
    paths ← foldM_res add_entry [] files;
    _ ← foldM_res (check_parents paths) tt files;
    Ok files.

(** ** Paths *)
Definition targetPath (root relative : jsstr) : res jsstr :=
  let target := resolve (root ++ js "/" ++ relative) in
  if negb (starts_with (resolve root ++ js "/") target) then Throw (mat_failure "jre_path_rejected") else Ok target.

Definition linkStaysWithinRoot (root path target : jsstr) : bool :=
  starts_with (resolve root ++ js "/") (resolve (dirname path ++ js "/" ++ target)).

(** ** Downloads *)
Fixpoint exact_loop (expectedSize : Z) (events : list read_event) (chunks : list bytes) (offset : Z) :
    res (list bytes * Z) :=
  match events with
  | [] => Ok (chunks, offset)
  | ReadError e :: _ => Throw e
  | Chunk (VBytes value) :: rest =>
      if expectedSize <? offset + zlen value then Throw (mat_failure "jre_artifact_mismatch")
      else exact_loop expectedSize rest (chunks ++ [value]) (offset + zlen value)
  | Chunk _ :: _ => Throw (mat_failure "jre_artifact_mismatch")
  end.

(** The chunks are written one after the other into an array of the size. *)
Definition readExactBody (b : body) (expectedSize : Z) : res bytes :=
  match b with
  | Stream events =>
      r ← exact_loop expectedSize events [] 0;
      let '(chunks, offset) := r in
      if negb (offset =? expectedSize) then Throw (mat_failure "jre_artifact_mismatch")
      else Ok (concatenate chunks expectedSize)
  | Buffer content =>
      b ← content;
      if negb (zlen b =? expectedSize) then Throw (mat_failure "jre_artifact_mismatch") else Ok b
  | NoBody => Throw (TypeError "arrayBuffer is not a function")
  end.

Definition check_download (entry : jsval) (r : response) : res bytes :=
  let size := get_int (opt_prop entry "size") in
  let url := to_string (opt_prop entry "url") in
  if negb (rs_status r =? 200) || rs_redirected r then Throw (mat_failure "jre_download_failed")
  else
    _ ← (if streq (rs_url r) [] then Ok tt
         else
           match parse_url (rs_url r) with
           | None => Throw (TypeError "Invalid URL")
           | Some u => throw_if (negb (strict_eq (VStr (u_href u)) (opt_prop entry "url"))) (mat_failure "jre_download_failed")
           end);
    if match rs_contentEncoding r with
       | Some e => negb (streq e []) && negb (streq (toLowerCase e) (js "identity"))
       | None => false
       end || negb (bool_decide (rs_contentLength r = Some (to_radix 10 size)))
    then Throw (mat_failure "jre_download_failed")
    else
      b ← readExactBody (rs_body r) size;
      if negb (strict_eq (VStr (sha1 b)) (opt_prop (opt_prop entry "hashes") "sha1"))
      then Throw (mat_failure "jre_artifact_mismatch") else Ok b.

(** [error instanceof MaterializerFailure] or the replacement *)
Definition as_mat_failure (code : string) (e : exn) : exn :=
  match e with MaterializerFailure _ => e | _ => mat_failure code end.

Section world.
Context {E : Type} `{MaterializerEnv E}.
Context (umask pid : Z) (random : bytes).
Abbreviation M := (eff (mat_world E)).

Definition outside_fs {A} (m : eff E A) : M A := fun w =>
  let '(r, e) := m (mw_env w) in (r, mkMatWorld (mw_fs w) e).

Definition downloadExact (entry : jsval) : M bytes :=
  try_catch
    (answer ← outside_fs (mat_fetch (to_string (opt_prop entry "url")));
     match answer with
     | None => throw (mat_failure "jre_download_failed")
     | Some r => lift (check_download entry r)
     end)
    (fun e => throw (as_mat_failure "jre_download_failed" e)).

Definition assertMissing (p : jsstr) : M unit := fun w =>
  match fs_lstat_path p w with
  | (Ok _, w') => (Throw (mat_failure "output_already_exists"), w')
  | (Throw (CodedError m code), w') =>
      if String.eqb code "ENOENT" then (Ok tt, w') else (Throw (CodedError m code), w')
  | (Throw e, w') => (Throw e, w')
  end.

(** ** Installation *)
Definition entry_rel (entry : jsval) : jsstr := get_str (opt_prop entry "path").

Definition install_directory (staging : jsstr) (_ : unit) (entry : jsval) : M unit :=
  target ← lift (targetPath staging (entry_rel entry)); fs_mkdirp umask target 493.

Definition file_mode (entry : jsval) : Z := if truthy (opt_prop entry "executable") then 493 else 420.

Definition install_file (staging : jsstr) (total : Z) (entry : jsval) : M Z :=
  let total' := total + get_int (opt_prop entry "size") in
  if MAX_TOTAL_BYTES <? total' then throw (mat_failure "jre_too_large")
  else
    b ← downloadExact entry;
    target ← lift (targetPath staging (entry_rel entry));
    _ ← fs_mkdirp umask (dirname target) 493;
    _ ← fs_write_new umask target b (file_mode entry);
    _ ← fs_chmod target (file_mode entry);
    mret total'.

Definition install_link (staging : jsstr) (_ : unit) (entry : jsval) : M unit :=
  target ← lift (targetPath staging (entry_rel entry));
  _ ← fs_mkdirp umask (dirname target) 493;
  if negb (linkStaysWithinRoot staging target (get_str (opt_prop entry "target")))
  then throw (mat_failure "jre_link_rejected")
  else fs_symlink (get_str (opt_prop entry "target")) target.

Definition of_type (name : string) (entries : list jsval) : list jsval := List.filter (has_type name) entries.

Definition MANIFEST : jsstr := js "/.xmcl-runtime-resolution.json".

Definition mat_result (expected : jre) (entries : list jsval) (total : Z) (outputRoot : jsstr) : jsval :=
  obj [("id", VStr (j_id expected)); ("component", VStr (j_component expected)); ("major", VInt (j_major expected));
       ("sha256", VStr (j_sha256 expected)); ("runtimeCatalogRevision", VStr (j_runtimeCatalogRevision expected));
       ("files", VInt (zlen (of_type "file" entries))); ("sizeBytes", VInt total); ("outputRoot", VStr outputRoot)]%string.

(** The [try] block. *)
Definition install_tree (expected : jre) (resolution : jsval) (entries : list jsval) (staging outputRoot : jsstr) :
    M jsval :=
  _ ← foldM_eff (install_directory staging) tt (of_type "directory" entries);
  total ← foldM_eff (install_file staging) 0 (of_type "file" entries);
  _ ← foldM_eff (install_link staging) tt (of_type "link" entries);
  let text := json_pretty (canonical resolution) ++ [10] in
  _ ← fs_write_new umask (staging ++ MANIFEST) (utf8_encode text) 420;
  parsed ← lift (match json_parse text with Some v => Ok v | None => Throw (PlainError "SyntaxError") end);
  b ← lift (canonicalJsonBytes parsed);
  if negb (streq (sha256 b) (j_sha256 expected)) then throw (mat_failure "jre_resolution_digest_mismatch")
  else
    _ ← fs_chmod staging 493;
    _ ← fs_rename staging outputRoot;
    mret (mat_result expected entries total outputRoot).

(** The staging directory is removed on every failure; a failure of the removal
    is ignored. *)
Definition materialize_into (expected : jre) (resolution : jsval) (entries : list jsval) (staging outputRoot : jsstr) :
    M jsval :=
  try_catch (install_tree expected resolution entries staging outputRoot) (fun e =>
    _ ← try_catch (fs_rm staging) (fun _ => mret tt);
    throw (as_mat_failure "jre_materialization_failed" e)).

Definition mat_parseJson (b : bytes) (code : string) : res jsval :=
  match text_decode b with
  | Some text =>
      match json_parse text with
      | Some v => if plainObject v then Ok v else Throw (mat_failure code)
      | None => Throw (mat_failure code)
      end
  | None => Throw (mat_failure code)
  end.

(** [randomBytes(8).toString("hex")] *)
Definition hex_text (b : bytes) : jsstr := concat (map (fun x => pad_start 2 (to_radix 16 x)) b).

Definition staging_of (outputRoot : jsstr) : jsstr :=
  outputRoot ++ js ".partial-" ++ to_radix 10 pid ++ js "-" ++ hex_text random.

(** The reviewed resolution of the JRE. *)
Definition select_resolution (runtimeBytes : bytes) (runtime : jsval) (c : catalog) (jreId : jsstr) : res (jre * jsval) :=
  let platform := opt_prop runtime "platform" in
  if negb (streq (sha256 runtimeBytes) (c_runtimeCatalogRevision c)) ||
     negb (strict_eq (opt_prop platform "os") (VText "linux")) ||
     negb (strict_eq (opt_prop platform "architecture") (VText "x64")) || negb (is_array (opt_prop runtime "resolutions"))
  then Throw (mat_failure "runtime_catalog_mismatch")
  else
    match List.filter (fun t => streq (j_id (t_jre t)) jreId) (c_toolchains c) with
    | [t] =>
        let expected := t_jre t in
        match List.filter (fun r => strict_eq (opt_prop r "component") (VStr (j_component expected)) &&
                strict_eq (opt_prop r "major") (VInt (j_major expected))) (get_list (opt_prop runtime "resolutions")) with
        | [resolution] =>
            b ← canonicalJsonBytes resolution;
            if negb (streq (sha256 b) (j_sha256 expected)) then Throw (mat_failure "jre_resolution_digest_mismatch")
            else Ok (expected, resolution)
        | _ => Throw (mat_failure "jre_resolution_missing")
        end
    | _ => Throw (mat_failure "jre_not_supported")
    end.

(** The reviewed JRE, its resolution and the validated entries. *)
Definition reviewed_inputs (runtimeCatalogPath toolchainCatalogPath jreId : jsstr) : M (jre * jsval * list jsval) :=
  runtimeBytes ← fs_readFile runtimeCatalogPath;
  runtime ← lift (mat_parseJson runtimeBytes "runtime_catalog_malformed");
  catalogBytes ← fs_readFile toolchainCatalogPath;
  document ← lift (mat_parseJson catalogBytes "toolchain_catalog_malformed");
  c ← lift (ReviewedToolchainCatalog document (Some [js "neoforge"]));
  selected ← lift (select_resolution runtimeBytes runtime c jreId);
  entries ← lift (validateResolution selected.2);
  mret (selected, entries).

Definition materializeVerifiedJre (runtimeCatalogPath toolchainCatalogPath outputRoot jreId : jsstr) : M jsval :=
  if negb (absoluteNormalizedPath runtimeCatalogPath) || negb (absoluteNormalizedPath toolchainCatalogPath) ||
     negb (absoluteNormalizedPath outputRoot) || negb (streq jreId (js "java-runtime-delta-21"))
  then throw (mat_failure "invalid_arguments")
  else
    inputs ← reviewed_inputs runtimeCatalogPath toolchainCatalogPath jreId;
    let '(expected, resolution, entries) := inputs in
    _ ← assertMissing outputRoot;
    _ ← fs_mkdirp umask (dirname outputRoot) 493;
    _ ← fs_mkdir umask (staging_of outputRoot) 448;
    materialize_into expected resolution entries (staging_of outputRoot) outputRoot.
End world.
End script.

(** ** The command line *)

(** [resolve(path)] in the working directory *)
Definition resolve_from (cwd p : jsstr) : jsstr :=
  if starts_with (js "/") p then resolve p else resolve (cwd ++ js "/" ++ p).

Definition mat_options : list jsstr :=
  map js ["--runtime-catalog-lock"; "--toolchain-catalog-lock"; "--output-root"; "--jre-id"]%string.

(** The loop of [parseArguments]: names and values in turn. *)
Fixpoint read_options (arguments : list jsstr) (values : list (jsstr * jsstr)) : res (list (jsstr * jsstr)) :=
  match arguments with
  | [] => Ok values
  | name :: value :: rest =>
      if streq value [] || map_has name values || negb (str_in name mat_options)
      then Throw (mat_failure "invalid_arguments") else read_options rest (map_set name value values)
  | [_] => Throw (mat_failure "invalid_arguments")
  end.

Record mat_arguments := mkMatArguments {
  ma_runtimeCatalogPath : jsstr;
  ma_toolchainCatalogPath : jsstr;
  ma_outputRoot : jsstr;
  ma_jreId : jsstr;
}.

Definition mat_parseArguments (cwd : jsstr) (arguments : list jsstr) : res mat_arguments :=
  values ← read_options arguments [];
  match map_get (js "--runtime-catalog-lock") values, map_get (js "--toolchain-catalog-lock") values,
        map_get (js "--output-root") values with
  | Some runtimeCatalog, Some toolchainCatalog, Some outputRoot =>
      Ok (mkMatArguments (resolve_from cwd runtimeCatalog) (resolve_from cwd toolchainCatalog) (resolve_from cwd outputRoot)
            (default (js "java-runtime-delta-21") (map_get (js "--jre-id") values)))
  | _, _, _ => Throw (mat_failure "invalid_arguments")
  end.
