(* ===== verification/MaterializerTree.v ===== *)
(** * The tree the materializer builds

    The proofs about [Materializer]: paths as lists of words, the staging directory
    as an invariant of the three installing loops, the checks of a resolution, the
    removal after a failure, and the whole run from the inputs to the rename. *)

From S2P Require Import Prelude JsText JsNum JsValue Regex Validators Limits Node TarZst Bundle Content Effects Catalog Downloader ToolchainLock Builder Sandbox JreRegistry Materializer.
From Stdlib Require Import Ascii.

(** ** Paths as lists of words *)
Definition word (w : jsstr) : Prop := safe_part w = true /\ SLASH ∉ w.

Definition abs (ps : list jsstr) : jsstr := js "/" ++ join (js "/") ps.

Lemma words_safe ps : Forall word ps -> forallb safe_part ps = true.
Proof. intros Hp. apply forallb_forall. intros w Hw%list_elem_of_In. rewrite Forall_forall in Hp. by apply Hp. Qed.

Lemma words_free ps : Forall word ps -> Forall (fun w => SLASH ∉ w) ps.
Proof. intros Hp. eapply Forall_impl; [exact Hp|]. by intros w [_ ?]. Qed.

Lemma split_abs ps : ps <> [] -> Forall word ps -> split_on SLASH (abs ps) = [] :: ps.
Proof.
  intros Hne Hp. unfold abs. change (js "/" ++ join (js "/") ps) with ([] ++ SLASH :: join [SLASH] ps).
  by rewrite split_on_app_sep, split_join_words by (done || by apply words_free).
Qed.

Lemma normalize_abs ps : ps <> [] -> Forall word ps -> normalize_parts [] (split_on SLASH (abs ps)) = ps.
Proof.
  intros Hne Hp. rewrite split_abs by done. rewrite normalize_parts_cons_empty. by apply normalize_parts_safe, words_safe.
Qed.

Lemma resolve_abs ps : ps <> [] -> Forall word ps -> resolve (abs ps) = abs ps.
Proof. intros Hne Hp. rewrite resolve_parts, normalize_abs by done. done. Qed.

Lemma normal_path p :
  absoluteNormalizedPath p = true -> exists ps, ps <> [] /\ Forall word ps /\ p = abs ps.
Proof.
  unfold absoluteNormalizedPath. rewrite !andb_true_iff, Z.ltb_lt, streq_true. intros [[Hl _] Hr].
  exists (normalize_parts [] (split_on SLASH p)). rewrite resolve_parts in Hr. split_and!; [|by apply normalize_parts_result; [apply split_on_free|constructor]|done].
  intros Hn. rewrite Hn in Hr. rewrite <- Hr in Hl. done.
Qed.

Lemma abs_app ps qs : ps <> [] -> qs <> [] -> abs (ps ++ qs) = abs ps ++ js "/" ++ join (js "/") qs.
Proof. intros. unfold abs. by rewrite join_app, <- !app_assoc by done. Qed.

(** A safe relative path is its words. *)
Lemma safe_words rel :
  forallb safe_part (split_on SLASH rel) = true ->
  split_on SLASH rel <> [] /\ Forall word (split_on SLASH rel) /\ rel = join (js "/") (split_on SLASH rel).
Proof.
  intros Hs. split; [by destruct (split_on_cons SLASH rel) as (w & ws & ->)|]. split.
  - pose proof (split_on_free SLASH rel) as Hf. rewrite Forall_forall in *. intros w Hw. split; [|by apply Hf].
    rewrite forallb_forall in Hs. apply Hs. by apply list_elem_of_In.
  - change (js "/") with [SLASH]. by rewrite join_split.
Qed.

Lemma below_abs ps rel :
  ps <> [] -> forallb safe_part (split_on SLASH rel) = true -> abs ps ++ js "/" ++ rel = abs (ps ++ split_on SLASH rel).
Proof. intros Hp Hs. destruct (safe_words rel Hs) as (Hne & _ & Hj). rewrite abs_app by done. by rewrite <- Hj. Qed.

Lemma ancestors_abs ps a :
  ps <> [] -> Forall word ps -> a ∈ ancestors (abs ps) <-> exists i, (1 <= i <= length ps)%nat /\ a = abs (take i ps).
Proof.
  intros Hne Hp. unfold ancestors. rewrite normalize_abs by done. rewrite list_elem_of_fmap. split.
  - intros (i & -> & Hi%elem_of_seq). exists i. split; [lia|done].
  - intros (i & Hi & ->). exists i. split; [done|]. apply elem_of_seq. lia.
Qed.

Lemma dirname_abs ps w : ps <> [] -> Forall word (ps ++ [w]) -> dirname (abs (ps ++ [w])) = abs ps.
Proof.
  intros Hne Hp. unfold dirname. rewrite split_abs by (done || by destruct ps).
  replace (removelast ([] :: ps ++ [w])) with (([] : jsstr) :: ps).
  2:{ change ([] :: ps ++ [w]) with (([] :: ps) ++ [w]). by rewrite removelast_last. }
  destruct ps as [|p ps]; [done|]. cbn [join]. done.
Qed.

(** The directories above an entry of a tree at [abs ps]: those above the tree
    and the parents of the entry. *)
Lemma ancestors_entry ps rel a :
  ps <> [] -> Forall word ps -> forallb safe_part (split_on SLASH rel) = true ->
  a ∈ ancestors (abs ps ++ js "/" ++ rel) ->
  a ∈ ancestors (abs ps) \/ (exists p, p ∈ parents rel /\ a = abs ps ++ js "/" ++ p) \/ a = abs ps ++ js "/" ++ rel.
Proof.
  intros Hne Hp Hs. destruct (safe_words rel Hs) as (Hw & Hf & Hj). rewrite below_abs by done.
  rewrite ancestors_abs by (by apply Forall_app || by destruct ps). intros (i & Hi & ->).
  destruct (decide (i <= length ps)%nat) as [Hle|Hgt].
  - left. apply ancestors_abs; [done..|]. exists i. split; [lia|]. by rewrite take_app_le.
  - right. rewrite take_app_ge by lia. rewrite length_app in Hi. set (ws := split_on SLASH rel) in *.
    destruct (decide (i - length ps = length ws)%nat) as [->|Hne'].
    + right. by rewrite take_ge by lia.
    + left. exists (join (js "/") (take (i - length ps) ws)). split.
      * unfold parents. fold ws. apply list_elem_of_fmap. exists (i - length ps)%nat. split; [done|]. apply elem_of_seq. lia.
      * apply abs_app; [done|]. intros E. apply (f_equal length) in E. rewrite length_take in E. cbn in E. lia.
Qed.

Lemma ancestors_dirname ps rel a :
  ps <> [] -> Forall word ps -> forallb safe_part (split_on SLASH rel) = true ->
  a ∈ ancestors (dirname (abs ps ++ js "/" ++ rel)) ->
  a ∈ ancestors (abs ps) \/ exists p, p ∈ parents rel /\ a = abs ps ++ js "/" ++ p.
Proof.
  intros Hne Hp Hs. destruct (safe_words rel Hs) as (Hw & Hf & _). rewrite below_abs by done.
  unfold parents. set (ws := split_on SLASH rel) in *. destruct (exists_last Hw) as (init & lst & E). rewrite E in *.
  rewrite app_assoc, dirname_abs by (by rewrite <- ?app_assoc; first [apply Forall_app | destruct ps]).
  apply Forall_app in Hf as [Hi _]. rewrite ancestors_abs by (by apply Forall_app || by destruct ps).
  intros (i & Hi' & ->). rewrite length_app in Hi'.
  destruct (decide (i <= length ps)%nat) as [Hle|Hgt].
  - left. apply ancestors_abs; [done..|]. exists i. split; [lia|]. by rewrite take_app_le.
  - right. rewrite take_app_ge by lia. exists (join (js "/") (take (i - length ps) (init ++ [lst]))). split.
    + apply list_elem_of_fmap. exists (i - length ps)%nat. split; [done|]. apply elem_of_seq. rewrite length_app. cbn. lia.
    + rewrite take_app_le by lia. apply abs_app; [done|]. intros Ei. apply (f_equal length) in Ei.
      rewrite length_take in Ei. cbn in Ei. lia.
Qed.

Lemma join_take_length (ps : list jsstr) : forall i, zlen (join (js "/") (take i ps)) <= zlen (join (js "/") ps).
Proof.
  induction ps as [|p ps IH]; intros [|i]; cbn [take join]; try lia; [apply zlen_nonneg|].
  specialize (IH i). destruct ps as [|q ps]; [by destruct i|]. destruct i as [|i]; cbn [take] in *.
  - rewrite !zlen_app. pose proof (zlen_nonneg (join (js "/") (q :: ps))). change (zlen (js "/")) with 1. lia.
  - rewrite !zlen_app. lia.
Qed.

Lemma ancestor_length ps a : ps <> [] -> Forall word ps -> a ∈ ancestors (abs ps) -> zlen a <= zlen (abs ps).
Proof.
  intros Hne Hp. rewrite ancestors_abs by done. intros (i & _ & ->). unfold abs. rewrite !zlen_app.
  pose proof (join_take_length ps i). lia.
Qed.

Lemma self_ancestor ps : ps <> [] -> Forall word ps -> abs ps ∈ ancestors (abs ps).
Proof.
  intros Hne Hp. apply ancestors_abs; [done..|]. exists (length ps). split; [destruct ps; [done|cbn; lia]|]. by rewrite take_ge.
Qed.

(** ** What an entry looks like on disk *)
Section staged.
Context `{Unicode} `{Sha256} `{Sha1} `{JsonParse} `{JsonStringify} `{JsonPretty} `{UrlParser}.
Context {E : Type} `{MaterializerEnv E}.

Definition downloaded_for (entry : jsval) (b : bytes) : Prop :=
  exists e e' r, mat_fetch (to_string (opt_prop entry "url")) e = (Ok (Some r), e') /\ check_download entry r = Ok b.

Definition fits (entry : jsval) (n : option node) : Prop :=
  (has_type "directory" entry = true /\ is_dir n = true) \/
  (has_type "file" entry = true /\ exists b, n = Some (File b (file_mode entry)) /\ downloaded_for entry b) \/
  (has_type "link" entry = true /\ n = Some (Link (get_str (opt_prop entry "target")))).

Lemma fits_some entry n : fits entry n -> n <> None.
Proof. intros [[_ Hd]|[[_ (b & -> & _)]|[_ ->]]]; [by destruct n|done|done]. Qed.

(** The declared entries, as validation leaves them. *)
Record entries_ok (F : list jsval) : Prop := {
  eo_safe : forall e, e ∈ F -> forallb safe_part (split_on SLASH (entry_rel e)) = true;
  eo_parents : forall e p, e ∈ F -> p ∈ parents (entry_rel e) ->
    exists d, d ∈ F /\ entry_rel d = p /\ has_type "directory" d = true;
}.

Context (ps : list jsstr) (Hne : ps <> []) (Hps : Forall word ps).
Context (F : list jsval) (HF : entries_ok F).
Notation S := (abs ps).

Definition at_entry (entry : jsval) : jsstr := S ++ js "/" ++ entry_rel entry.

(** The store while the tree grows, compared with the one it started from. *)
Record staged (f0 f : store) : Prop := {
  st_frame : forall k, at_or_below S k = false -> f k = f0 k;
  st_above : forall a, a ∈ ancestors S -> is_dir (f a) = true;
  st_only : forall rel, f (S ++ js "/" ++ rel) <> None ->
    exists e, e ∈ F /\ entry_rel e = rel /\ fits e (f (S ++ js "/" ++ rel));
}.

Definition keeps (f f' : store) : Prop := forall k, f k <> None -> f' k = f k.

Lemma keeps_refl f : keeps f f.
Proof. by intros k. Qed.

Lemma keeps_trans f g h : keeps f g -> keeps g h -> keeps f h.
Proof. intros Hfg Hgh k Hk. rewrite Hgh; [by apply Hfg|]. by rewrite Hfg. Qed.

Lemma keeps_fits f f' e k : keeps f f' -> fits e (f k) -> fits e (f' k).
Proof. intros Hk Hf. rewrite Hk; [done|]. by eapply fits_some. Qed.

Lemma put_same p n f : put p n f p = Some n.
Proof. unfold put. by rewrite streq_refl. Qed.

Lemma put_other p n f k : k <> p -> put p n f k = f k.
Proof. unfold put. intros Hk. by rewrite (proj2 (streq_false _ _) Hk). Qed.

Lemma keeps_put p n f : f p = None -> keeps f (put p n f).
Proof. intros Hp k Hk. apply put_other. by intros ->. Qed.

Lemma below_entry rel : at_or_below S (S ++ js "/" ++ rel) = true.
Proof. unfold at_or_below. rewrite app_assoc, starts_with_app. apply orb_true_r. Qed.

Lemma manifest_below : at_or_below S (S ++ MANIFEST) = true.
Proof. exact (below_entry (js ".xmcl-runtime-resolution.json")). Qed.

Lemma entry_not_ancestor rel : S ++ js "/" ++ rel ∉ ancestors S.
Proof.
  intros Ha%ancestor_length; [|done..]. rewrite !zlen_app in Ha. change (zlen (js "/")) with 1 in Ha.
  pose proof (zlen_nonneg rel). lia.
Qed.

Lemma entry_injective rel rel' : S ++ js "/" ++ rel = S ++ js "/" ++ rel' -> rel = rel'.
Proof. intros Hr%app_inv_head. by apply app_inv_head in Hr. Qed.

(** A node that fits one of the entries is added. *)
Lemma staged_put f0 f e n :
  staged f0 f -> e ∈ F -> fits e (Some n) -> staged f0 (put (at_entry e) n f).
Proof.
  intros [Hf Ha Ho] He Hn. unfold at_entry. split.
  - intros k Hk. rewrite put_other; [by apply Hf|]. intros ->. by rewrite below_entry in Hk.
  - intros a Hin. rewrite put_other; [by apply Ha|]. intros ->. by apply entry_not_ancestor in Hin.
  - intros rel. destruct (decide (rel = entry_rel e)) as [->|Hr].
    + intros _. exists e. rewrite put_same. done.
    + rewrite put_other; [by apply Ho|]. intros Hk. by apply entry_injective in Hk.
Qed.

(** [mkdir -p] below the tree adds declared directories only. *)
Lemma make_missing_staged umask mode f0 l : forall f f',
  staged f0 f ->
  (forall a, a ∈ l -> a ∈ ancestors S \/ exists d, d ∈ F /\ has_type "directory" d = true /\ a = at_entry d) ->
  foldM_res (make_missing umask mode) f l = Ok f' ->
  staged f0 f' /\ keeps f f' /\ forall a, a ∈ l -> is_dir (f' a) = true.
Proof.
  induction l as [|a l IH]; intros f f' Hs Hl; cbn [foldM_res].
  { intros [= <-]. split_and!; [done|apply keeps_refl|]. by intros a ?%not_elem_of_nil. }
  intros (f1 & Hm1 & Hm2)%bind_ok.
  assert (staged f0 f1 /\ keeps f f1 /\ is_dir (f1 a) = true) as (Hs1 & Hk1 & Hd1).
  { unfold make_missing in Hm1. destruct (f a) as [[m|b m|t]|] eqn:Efa; try done; injection Hm1 as <-.
    - split_and!; [done|apply keeps_refl|]. by rewrite Efa.
    - destruct (Hl a ltac:(left)) as [Hin|(d & Hd & Ht & ->)].
      + apply (st_above _ _ Hs) in Hin. by rewrite Efa in Hin.
      + split_and!; [apply staged_put; [done..|]; by left|by apply keeps_put|]. by rewrite put_same. }
  destruct (IH f1 f' Hs1 ltac:(intros; apply Hl; by right) Hm2) as (Hs2 & Hk2 & Hd2).
  split_and!; [done|by eapply keeps_trans|]. intros a' [->|Ha]%elem_of_cons; [|by apply Hd2].
  rewrite Hk2; [done|]. by destruct (f1 a).
Qed.

Lemma entry_safe e : e ∈ F -> forallb safe_part (split_on SLASH (entry_rel e)) = true.
Proof. apply (eo_safe F HF). Qed.

(** *** The calls *)
Lemma syscall_ok {A} (act : store -> res (A * store)) (w : mat_world E) a w' :
  syscall act w = (Ok a, w') -> act (mw_fs w) = Ok (a, mw_fs w').
Proof.
  unfold syscall. destruct (mat_fault (mw_env w)) as [[x|] e]; [done|].
  destruct (act (mw_fs w)) as [[a' fs]|x] eqn:Ea; [|done]. by intros [= -> <-].
Qed.

Lemma mkdirp_ok umask p mode (w w' : mat_world E) u :
  fs_mkdirp umask p mode w = (Ok u, w') -> foldM_res (make_missing umask mode) (mw_fs w) (ancestors p) = Ok (mw_fs w').
Proof. intros Hm%syscall_ok. by apply bind_ok in Hm as (f' & Hf & [= _ <-]). Qed.

Lemma targetPath_ok rel : forallb safe_part (split_on SLASH rel) = true -> targetPath S rel = Ok (S ++ js "/" ++ rel).
Proof.
  intros Hs. unfold targetPath. cbv zeta. rewrite resolve_join, resolve_abs by (done || by rewrite normalize_abs).
  by rewrite app_assoc, starts_with_app.
Qed.

(** What a step of the installation does to the store. *)
Definition steps_to (f0 f f' : store) (e : jsval) : Prop :=
  staged f0 f' /\ keeps f f' /\ fits e (f' (at_entry e)).

Lemma parents_declared e a :
  e ∈ F -> a ∈ ancestors (dirname (at_entry e)) ->
  a ∈ ancestors S \/ exists d, d ∈ F /\ has_type "directory" d = true /\ a = at_entry d.
Proof.
  intros He Ha. apply ancestors_dirname in Ha as [?|(p & Hp & ->)]; [by left| |done..|by apply entry_safe].
  right. destruct (eo_parents F HF e p He Hp) as (d & Hd & <- & Ht). by exists d.
Qed.

Lemma install_directory_ok umask f0 u e (w w' : mat_world E) u' :
  staged f0 (mw_fs w) -> e ∈ F -> has_type "directory" e = true ->
  install_directory umask S u e w = (Ok u', w') -> steps_to f0 (mw_fs w) (mw_fs w') e.
Proof.
  intros Hs He Ht. unfold install_directory. rewrite targetPath_ok by (by apply entry_safe).
  intros (t & w1 & Hl & Hm)%eff_bind_ok. apply lift_ok in Hl as [Ht' ->]. assert (t = S ++ js "/" ++ entry_rel e) as -> by congruence.
  apply mkdirp_ok in Hm.
  apply (make_missing_staged umask 493 f0) in Hm as (Hs' & Hk & Hd); [|done|].
  - split_and!; [done..|]. left. split; [done|]. apply Hd. unfold at_entry.
    rewrite below_abs by (done || by apply entry_safe). apply self_ancestor; [by destruct ps|].
    apply Forall_app. split; [done|]. by apply safe_words, entry_safe.
  - intros a Ha. apply ancestors_entry in Ha as [?|[(p & Hp & ->)| ->]]; [by left| | |done..|by apply entry_safe].
    + right. destruct (eo_parents F HF e p He Hp) as (d & Hd & <- & Htd). by exists d.
    + right. by exists e.
Qed.

Lemma mat_download_ok e (w w' : mat_world E) b :
  downloadExact e w = (Ok b, w') -> downloaded_for e b /\ mw_fs w' = mw_fs w.
Proof.
  unfold downloadExact. intros Ew. apply try_throw_ok in Ew. apply eff_bind_ok in Ew as (answer & w2 & Ha & Hr). unfold outside_fs in Ha.
  destruct (mat_fetch _ (mw_env w)) as [r e'] eqn:Ef. injection Ha as -> <-. destruct answer as [r|]; [|done].
  apply lift_ok in Hr as [Hc ->]. split; [|done]. by exists (mw_env w), e', r.
Qed.

Lemma install_file_ok umask f0 total e (w w' : mat_world E) total' :
  staged f0 (mw_fs w) -> e ∈ F -> has_type "file" e = true ->
  install_file umask S total e w = (Ok total', w') ->
  steps_to f0 (mw_fs w) (mw_fs w') e /\ total' = total + get_int (opt_prop e "size") /\ total' <= MAX_TOTAL_BYTES.
Proof.
  intros Hs He Ht. unfold install_file. cbv zeta. destruct (_ <? _) eqn:El; [done|].
  rewrite targetPath_ok by (by apply entry_safe). fold (at_entry e).
  intros (b & w1 & Hd & Hr)%eff_bind_ok. apply mat_download_ok in Hd as [Hd Hw1].
  apply eff_bind_ok in Hr as (t & w2 & Hl & Hr). apply lift_ok in Hl as [Ht' ->]. assert (t = at_entry e) as -> by congruence.
  apply eff_bind_ok in Hr as (u & w3 & Hm & Hr). apply mkdirp_ok in Hm. rewrite Hw1 in Hm.
  apply (make_missing_staged umask 493 f0) in Hm as (Hs3 & Hk3 & _); [|done|by intros; apply (parents_declared e)].
  apply eff_bind_ok in Hr as (u1 & w4 & Hw & Hr). apply syscall_ok in Hw.
  destruct (mw_fs w3 (at_entry e)) eqn:E3; [done|]. destruct (is_dir _); [|done]. injection Hw as _ Hw.
  apply eff_bind_ok in Hr as (u2 & w5 & Hc & Hr). apply syscall_ok in Hc. rewrite <- Hw, put_same in Hc.
  injection Hc as _ Hc. apply mret_ok in Hr as [-> ->]. split; [|split; [done|lia]].
  assert (forall k, mw_fs w5 k = put (at_entry e) (File b (file_mode e)) (mw_fs w3) k) as Hput.
  { intros k. rewrite <- Hc. unfold put. by destruct (streq k (at_entry e)). }
  assert (fits e (Some (File b (file_mode e)))) as Hfit by (right; left; split; [done|by exists b]).
  assert (steps_to f0 (mw_fs w3) (put (at_entry e) (File b (file_mode e)) (mw_fs w3)) e) as (Hst & Hkp & Hft).
  { split_and!; [by apply staged_put|by apply keeps_put|]. by rewrite put_same. }
  split_and!.
  - destruct Hst as [A B C]. split.
    + intros k Hk. rewrite Hput. by apply A.
    + intros a Ha. rewrite Hput. by apply B.
    + intros rel. rewrite Hput. apply C.
  - intros k Hk. rewrite Hput. rewrite Hkp; [by apply Hk3|]. by rewrite Hk3.
  - by rewrite Hput.
Qed.

Lemma install_link_ok umask f0 u e (w w' : mat_world E) u' :
  staged f0 (mw_fs w) -> e ∈ F -> has_type "link" e = true ->
  install_link umask S u e w = (Ok u', w') -> steps_to f0 (mw_fs w) (mw_fs w') e.
Proof.
  intros Hs He Ht. unfold install_link. rewrite targetPath_ok by (by apply entry_safe). fold (at_entry e).
  intros (t & w2 & Hl & Hr)%eff_bind_ok. apply lift_ok in Hl as [Ht' ->]. assert (t = at_entry e) as -> by congruence.
  apply eff_bind_ok in Hr as (u1 & w3 & Hm & Hr). apply mkdirp_ok in Hm.
  apply (make_missing_staged umask 493 f0) in Hm as (Hs3 & Hk3 & _); [|done|by intros; apply (parents_declared e)].
  destruct (negb _); [done|]. apply syscall_ok in Hr. destruct (mw_fs w3 (at_entry e)) eqn:E3; [done|].
  destruct (is_dir _); [|done]. injection Hr as _ Hr. rewrite <- Hr.
  assert (fits e (Some (Link (get_str (opt_prop e "target"))))) as Hfit by (by right; right).
  split_and!; [by apply staged_put| |by rewrite put_same].
  eapply keeps_trans; [exact Hk3|]. by apply keeps_put.
Qed.

(** *** The loops *)
Lemma loop_installs {A} (g : A -> jsval -> eff (mat_world E) A) f0 l :
  (forall a e w a' w', e ∈ l -> staged f0 (mw_fs w) -> g a e w = (Ok a', w') -> steps_to f0 (mw_fs w) (mw_fs w') e) ->
  forall a w a' w', staged f0 (mw_fs w) -> foldM_eff g a l w = (Ok a', w') ->
  staged f0 (mw_fs w') /\ keeps (mw_fs w) (mw_fs w') /\ forall e, e ∈ l -> fits e (mw_fs w' (at_entry e)).
Proof.
  induction l as [|x l IH]; intros Hg a w a' w' Hs; cbn [foldM_eff].
  { intros [-> ->]%mret_ok. split_and!; [done|apply keeps_refl|]. by intros e ?%not_elem_of_nil. }
  intros (a1 & w1 & Hx & Hl)%eff_bind_ok. apply Hg in Hx as (Hs1 & Hk1 & Hf1); [|left|done].
  destruct (IH ltac:(intros; eapply Hg; [by right|done..]) _ _ _ _ Hs1 Hl) as (Hs2 & Hk2 & Hf2).
  split_and!; [done|by eapply keeps_trans|]. intros e [->|He]%elem_of_cons; [by eapply keeps_fits|by apply Hf2].
Qed.

Lemma of_type_elem name e l : e ∈ of_type name l <-> e ∈ l /\ has_type name e = true.
Proof. unfold of_type. rewrite !list_elem_of_In, filter_In. done. Qed.

Lemma move_below a b f rel : move a b f (b ++ js "/" ++ rel) = f (a ++ js "/" ++ rel).
Proof.
  unfold move, at_or_below. rewrite app_assoc, starts_with_app, orb_true_r. rewrite <- app_assoc.
  f_equal. f_equal. by apply zdrop_app_exact.
Qed.

Lemma move_root a b f : move a b f b = f a.
Proof. unfold move, at_or_below. rewrite streq_refl. cbn [orb]. rewrite zdrop_ge by lia. by rewrite app_nil_r. Qed.

Lemma installed_total umask l (w w' : mat_world E) total :
  foldM_eff (install_file umask S) 0 l w = (Ok total, w') -> total <= MAX_TOTAL_BYTES.
Proof.
  apply (foldM_eff_ind _ (fun t => t <= MAX_TOTAL_BYTES)); [done|].
  intros e t x t' x' _ _. unfold install_file. cbv zeta. destruct (_ <? _) eqn:El; [done|]. intros Hr. eff_inv. lia.
Qed.

(** The three loops install every entry. *)
Lemma entries_installed umask f0 (w w1 w2 w3 : mat_world E) u1 total u3 :
  staged f0 (mw_fs w) -> (forall e, e ∈ F -> has_type "directory" e || has_type "file" e || has_type "link" e = true) ->
  foldM_eff (install_directory umask S) tt (of_type "directory" F) w = (Ok u1, w1) ->
  foldM_eff (install_file umask S) 0 (of_type "file" F) w1 = (Ok total, w2) ->
  foldM_eff (install_link umask S) tt (of_type "link" F) w2 = (Ok u3, w3) ->
  staged f0 (mw_fs w3) /\ forall e, e ∈ F -> fits e (mw_fs w3 (at_entry e)).
Proof.
  intros Hs Htypes Hd Hfi Hli.
  apply (loop_installs _ f0) in Hd as (Hs1 & Hk1 & Hf1); [|intros a e x a' x' [He Ht]%of_type_elem Hx Hg; by eapply install_directory_ok|done].
  apply (loop_installs _ f0) in Hfi as (Hs2 & Hk2 & Hf2); [|intros a e x a' x' [He Ht]%of_type_elem Hx Hg; by eapply install_file_ok|done].
  apply (loop_installs _ f0) in Hli as (Hs3 & Hk3 & Hf3); [|intros a e x a' x' [He Ht]%of_type_elem Hx Hg; by eapply install_link_ok|done].
  split; [done|]. intros e He. specialize (Htypes e He). rewrite !orb_true_iff in Htypes. destruct Htypes as [[Ht|Ht]|Ht].
  - eapply keeps_fits; [exact Hk3|]. eapply keeps_fits; [exact Hk2|]. apply Hf1. by apply of_type_elem.
  - eapply keeps_fits; [exact Hk3|]. apply Hf2. by apply of_type_elem.
  - apply Hf3. by apply of_type_elem.
Qed.

Lemma below_neq rel : S ++ js "/" ++ rel <> S.
Proof.
  intros Ek. apply (f_equal zlen) in Ek. rewrite !zlen_app in Ek. change (zlen (js "/")) with 1 in Ek. pose proof (zlen_nonneg rel). lia.
Qed.

(** The staging directory with its document, moved into place. *)
Lemma tree_moved f0 f3 f7 O (document : node) :
  staged f0 f3 -> (forall e, e ∈ F -> fits e (f3 (at_entry e))) -> at_or_below S O = false -> f3 (S ++ MANIFEST) = None ->
  (forall k, f7 k = put S (Dir 493) (put (S ++ MANIFEST) document f3) k) -> f7 O = None ->
  (forall e, e ∈ F -> fits e (move S O f7 (O ++ js "/" ++ entry_rel e))) /\ move S O f7 (O ++ MANIFEST) = Some document /\
  (forall rel, move S O f7 (O ++ js "/" ++ rel) <> None -> js "/" ++ rel = MANIFEST \/ exists e, e ∈ F /\ entry_rel e = rel) /\
  move S O f7 O = Some (Dir 493) /\ f0 O = None /\
  (forall k, at_or_below O k = false -> at_or_below S k = true -> move S O f7 k = None) /\
  (forall k, at_or_below O k = false -> at_or_below S k = false -> move S O f7 k = f0 k).
Proof.
  intros Hs3 Hfits HO E3 H7 E7.
  assert (O <> S) as HOS by (intros ->; unfold at_or_below in HO; by rewrite streq_refl in HO).
  assert (O <> S ++ MANIFEST) as HOM by (intros ->; by rewrite manifest_below in HO).
  assert (forall rel, move S O f7 (O ++ js "/" ++ rel) = put (S ++ MANIFEST) document f3 (S ++ js "/" ++ rel)) as Hrel.
  { intros rel. rewrite move_below, H7, put_other; [done|]. apply below_neq. }
  split_and!.
  - intros e He. rewrite Hrel. fold (at_entry e). specialize (Hfits e He).
    rewrite put_other; [done|]. intros Em. rewrite Em, E3 in Hfits. by apply fits_some in Hfits.
  - change (O ++ MANIFEST) with (O ++ js "/" ++ js ".xmcl-runtime-resolution.json"). rewrite Hrel. apply put_same.
  - intros rel. rewrite Hrel. destruct (decide (S ++ js "/" ++ rel = S ++ MANIFEST)) as [Em|Em].
    + intros _. left. by apply app_inv_head in Em.
    + rewrite put_other by done. intros Hn. right. apply (st_only _ _ Hs3) in Hn as (e & He & Hre & _). by exists e.
  - rewrite move_root, H7. apply put_same.
  - rewrite H7, !put_other in E7 by done. by rewrite (st_frame _ _ Hs3) in E7.
  - intros k HkO HkS. unfold move. by rewrite HkO, HkS.
  - intros k HkO HkS. unfold move. rewrite HkO, HkS, H7, !put_other.
    + by apply (st_frame _ _ Hs3).
    + intros ->. by rewrite manifest_below in HkS.
    + intros ->. unfold at_or_below in HkS. by rewrite streq_refl in HkS.
Qed.

(** What the whole of the [try] block leaves in the store. *)
Lemma install_tree_ok umask f0 expected resolution O (w w' : mat_world E) v :
  staged f0 (mw_fs w) -> (forall e, e ∈ F -> has_type "directory" e || has_type "file" e || has_type "link" e = true) ->
  at_or_below S O = false -> install_tree umask expected resolution F S O w = (Ok v, w') ->
  exists total, total <= MAX_TOTAL_BYTES /\ v = mat_result expected F total O /\
  (forall e, e ∈ F -> fits e (mw_fs w' (O ++ js "/" ++ entry_rel e))) /\
  mw_fs w' (O ++ MANIFEST) = Some (File (utf8_encode (json_pretty (canonical resolution) ++ [10])) (created umask 420)) /\
  (forall rel, mw_fs w' (O ++ js "/" ++ rel) <> None -> js "/" ++ rel = MANIFEST \/ exists e, e ∈ F /\ entry_rel e = rel) /\
  mw_fs w' O = Some (Dir 493) /\ f0 O = None /\
  (forall k, at_or_below O k = false -> at_or_below S k = true -> mw_fs w' k = None) /\
  (forall k, at_or_below O k = false -> at_or_below S k = false -> mw_fs w' k = f0 k) /\
  exists parsed b, json_parse (json_pretty (canonical resolution) ++ [10]) = Some parsed /\
    canonicalJsonBytes parsed = Ok b /\ sha256 b = j_sha256 expected.
Proof.
  intros Hs Htypes HO. unfold install_tree. cbv zeta. intros (u1 & w1 & Hd & Hr)%eff_bind_ok.
  apply eff_bind_ok in Hr as (total & w2 & Hfi & Hr). apply eff_bind_ok in Hr as (u3 & w3 & Hli & Hr).
  pose proof (installed_total _ _ _ _ _ Hfi) as Htotal.
  destruct (entries_installed umask f0 _ _ _ _ _ _ _ Hs Htypes Hd Hfi Hli) as [Hs3 Hfits].
  apply eff_bind_ok in Hr as (u4 & w4 & Hw & Hr). apply syscall_ok in Hw.
  destruct (mw_fs w3 (S ++ MANIFEST)) eqn:E3; [done|]. destruct (is_dir _); [|done]. injection Hw as _ Hw.
  apply eff_bind_ok in Hr as (parsed & w5 & Hp & Hr). apply lift_ok in Hp as [Hp ->].
  apply eff_bind_ok in Hr as (b & w6 & Hb & Hr). apply lift_ok in Hb as [Hb ->].
  destruct (streq (sha256 b) _) eqn:Esha; cbn [negb] in Hr; [|done]. apply streq_true in Esha.
  apply eff_bind_ok in Hr as (u7 & w7 & Hc & Hr). apply syscall_ok in Hc.
  apply eff_bind_ok in Hr as (u8 & w8 & Hmv & Hr). apply syscall_ok in Hmv. apply mret_ok in Hr as [-> ->].
  set (text := json_pretty (canonical resolution) ++ [10]) in *.
  assert (forall k, mw_fs w7 k = put S (Dir 493) (put (S ++ MANIFEST) (File (utf8_encode text) (created umask 420)) (mw_fs w3)) k) as H7.
  { intros k. rewrite <- Hw in Hc. rewrite put_other in Hc by (exact (not_eq_sym (below_neq (js ".xmcl-runtime-resolution.json")))).
    assert (is_dir (mw_fs w3 S) = true) as HdirS by (apply (st_above _ _ Hs3); by apply self_ancestor).
    destruct (mw_fs w3 S) as [[m| |]|]; try done. injection Hc as _ Hc. by rewrite <- Hc. }
  destruct (is_dir (mw_fs w7 S)); cbn [negb] in Hmv; [|done]. destruct (mw_fs w7 O) eqn:E7; [done|].
  injection Hmv as _ Hmv. destruct (tree_moved f0 _ _ O _ Hs3 Hfits HO E3 H7 E7) as (A1 & A2 & A3 & A4 & A5 & A6 & A7).
  rewrite Hmv in *. exists total. split_and!; [done..|].
  destruct (json_parse text) as [x|]; [|done]. injection Hp as ->. by exists parsed, b.
Qed.
End staged.

(** ** What validation leaves *)
Section validated.
Context `{Unicode} `{Sha256} `{Sha1} `{JsonParse} `{JsonStringify} `{JsonPretty} `{UrlParser}.

(** An entry has one of the three forms. *)
Definition entry_form (e : jsval) : Prop :=
  plainObject e = true /\ safePath (opt_prop e "path") = true /\
  ((has_type "directory" e = true /\ sameKeys e ["path"; "type"]%string = true) \/
   (has_type "link" e = true /\ sameKeys e ["path"; "target"; "type"]%string = true /\ safeLinkTarget (opt_prop e "target") = true) \/
   (has_type "file" e = true /\ valid_file e = true)).

Lemma has_type_value name e : has_type name e = true <-> opt_prop e "type" = VText name.
Proof. apply strict_eq_str. Qed.

Lemma add_entry_ok paths e paths' :
  add_entry paths e = Ok paths' -> declare_path paths e = Ok paths' /\ entry_form e.
Proof.
  unfold add_entry, declare_path. intros Hr. guard Hr as Eg. destruct Eg as [[[Hp Hs] Hm] Ht].
  match type of Hr with (if ?b then _ else _) = _ => destruct b eqn:E1; [done|] end.
  match type of Hr with (if ?b then _ else _) = _ => destruct b eqn:E2; [done|] end.
  match type of Hr with (if ?b then _ else _) = _ => destruct b eqn:E3; [done|] end.
  change (safeRelativePath (opt_prop e "path")) with (safePath (opt_prop e "path")). rewrite Hp, Hs, Hm, Ht. cbn [negb orb].
  split; [done|]. split; [done|]. split; [done|].
  apply val_in_true in Ht as (t & Hty & Hin). cbn [map] in Hin. rewrite !elem_of_cons in Hin.
  rewrite andb_false_iff in E1, E2, E3.
  assert (forall name, opt_prop e "type" = VText name -> has_type name e = true) as Hty' by (intros ?; apply has_type_value).
  destruct Hin as [->|[->|[->|Hin]]]; [| | |by apply not_elem_of_nil in Hin].
  - left. split; [by apply Hty'|]. destruct E1 as [E1|E1]; [by rewrite Hty' in E1|by apply negb_false_iff].
  - right. right. split; [by apply Hty'|]. destruct E3 as [E3|E3]; [by rewrite (Hty' "file"%string) in E3|by apply negb_false_iff].
  - right. left. split; [by apply Hty'|]. destruct E2 as [E2|E2]; [by rewrite (Hty' "link"%string) in E2|].
    by rewrite orb_false_iff, !negb_false_iff in E2.
Qed.

Lemma add_all_ok l : forall paths paths',
  foldM_res add_entry paths l = Ok paths' -> foldM_res declare_path paths l = Ok paths' /\ Forall entry_form l.
Proof.
  induction l as [|e l IH]; intros paths paths'; cbn [foldM_res]; [by intros [= <-]|].
  intros (p1 & He & Hl)%bind_ok. apply add_entry_ok in He as [Hd Hf]. apply IH in Hl as [Hl Hfs].
  rewrite Hd. cbn [mbind res_bind]. split; [done|by constructor].
Qed.

Lemma validateResolution_ok r F :
  validateResolution r = Ok F ->
  opt_prop r "files" = VArr F /\ Forall entry_form F /\ entries_ok F /\
  exists paths, foldM_res declare_path [] F = Ok paths /\ declared F paths /\ Forall (fun e => check_parents paths tt e = Ok tt) F.
Proof.
  unfold validateResolution. cbv zeta. intros Hr. guard Hr as Eg. destruct Eg as [[[_ Ha] _] _].
  apply bind_ok in Hr as (paths & Hp & Hr). apply bind_ok in Hr as (u & Hc & [= <-]).
  destruct (opt_prop r "files") as [| | | | |files| |] eqn:Ef; try done. cbn [get_list] in *.
  apply add_all_ok in Hp as [Hp Hform]. pose proof (declare_all _ _ Hp) as Hd.
  split; [done|]. split; [done|]. apply foldM_unit_Forall in Hc. split; [|by exists paths].
  pose proof Hd as (_ & _ & Hsafe). rewrite Forall_forall in Hsafe, Hc. split.
  - intros e He. by apply Hsafe.
  - intros e p He Hpa. specialize (Hc e He). unfold check_parents, throw_if in Hc.
    destruct (existsb _ _) eqn:Ex; [done|].
    destruct (declared_directory files paths p Hd) as (d & Hdin & Hdp & Hdt).
    { apply not_true_iff_false in Ex. destruct (decide (map_get p paths = Some (js "directory"))) as [|Hn]; [done|].
      exfalso. apply Ex, existsb_exists. exists p. split; [by apply list_elem_of_In|]. by rewrite bool_decide_eq_false_2. }
    exists d. split; [done|]. split; [done|]. apply has_type_value. rewrite Forall_forall in Hform.
    destruct (Hform d Hdin) as (_ & _ & [[Ht _]|[[Ht _]|[Ht _]]]); apply has_type_value in Ht; unfold entry_type in Hdt;
      rewrite Ht in Hdt; done.
Qed.

Lemma form_typed e : entry_form e -> has_type "directory" e || has_type "file" e || has_type "link" e = true.
Proof. intros (_ & _ & [[-> _]|[[-> _]|[-> _]]]); by rewrite ?orb_true_r. Qed.
End validated.

(** ** The staging directory *)
Lemma digits_no_slash base s : Forall (fun c => is_digit_of base c = true) s -> SLASH ∉ s.
Proof. intros Hs Hin. rewrite Forall_forall in Hs. by apply Hs in Hin. Qed.

Lemma hex_no_slash b : Forall (fun x => 0 <= x < 256) b -> SLASH ∉ hex_text b.
Proof.
  intros Hb. unfold hex_text. induction Hb as [|x b Hx _ IH]; [apply not_elem_of_nil|]. cbn [map concat].
  rewrite elem_of_app. intros [Hin|Hin]; [|done]. unfold pad_start in Hin. apply elem_of_app in Hin as [Hin|Hin].
  - by apply elem_of_replicate in Hin as [[=] _].
  - eapply digits_no_slash; [|exact Hin]. apply to_radix_digits; lia.
Qed.

Lemma abs_snoc init : exists pre, forall w, abs (init ++ [w]) = pre ++ w.
Proof.
  destruct (decide (init = [])) as [->|Hne]; [by exists (js "/")|]. exists (abs init ++ js "/").
  intros w. rewrite abs_app by done. by rewrite <- app_assoc.
Qed.

(** The staging directory is a sibling of the output root. *)
Lemma staging_sibling pid random O :
  absoluteNormalizedPath O = true -> 0 <= pid -> Forall (fun x => 0 <= x < 256) random ->
  exists init l l', O = abs (init ++ [l]) /\ staging_of pid random O = abs (init ++ [l']) /\
    Forall word (init ++ [l]) /\ Forall word (init ++ [l']) /\ zlen O < zlen (staging_of pid random O) /\
    starts_with (O ++ js "/") (staging_of pid random O) = false.
Proof.
  intros (ps & Hne & Hw & ->)%normal_path Hpid Hr. destruct (exists_last Hne) as (init & l & ->).
  set (suffix := js ".partial-" ++ to_radix 10 pid ++ js "-" ++ hex_text random).
  destruct (abs_snoc init) as (pre & Hpre). exists init, l, (l ++ suffix).
  assert (staging_of pid random (abs (init ++ [l])) = abs (init ++ [l ++ suffix])) as Es.
  { unfold staging_of. fold suffix. by rewrite !Hpre, <- app_assoc. }
  assert (SLASH ∉ suffix) as Hfree.
  { unfold suffix. rewrite !elem_of_app. intros [Hin|[Hin|[Hin|Hin]]].
    - by apply includes_char_spec in Hin.
    - eapply digits_no_slash; [|exact Hin]. apply to_radix_digits; lia.
    - by apply list_elem_of_singleton in Hin.
    - by apply hex_no_slash in Hin. }
  apply Forall_app in Hw as [Hi Hl]. apply Forall_singleton in Hl as [Hls Hlf]. rewrite Es.
  assert (9 <= zlen suffix) as Hlen.
  { unfold suffix. rewrite !zlen_app. change (zlen (js ".partial-")) with 9.
    pose proof (zlen_nonneg (to_radix 10 pid)). pose proof (zlen_nonneg (js "-")). pose proof (zlen_nonneg (hex_text random)). lia. }
  split_and!; [done|done| | | |].
  - apply Forall_app. split; [done|]. by constructor.
  - apply Forall_app. split; [done|]. constructor; [|constructor]. split; [|set_solver].
    unfold safe_part. rewrite !andb_true_iff, !negb_true_iff, !streq_false.
    assert (forall w, zlen w <= 2 -> l ++ suffix <> w) as Hlw.
    { intros w Hw <-. rewrite zlen_app in Hw. pose proof (zlen_nonneg l). lia. }
    split_and!; apply Hlw; done.
  - rewrite !Hpre, !zlen_app. lia.
  - rewrite !Hpre. rewrite <- app_assoc. apply not_true_iff_false. rewrite starts_with_spec. intros (t & Ht).
    rewrite <- !app_assoc in Ht. apply app_inv_head in Ht. apply app_inv_head in Ht. discriminate Ht.
Qed.

Lemma make_missing_plain umask mode l : forall f f',
  foldM_res (make_missing umask mode) f l = Ok f' ->
  keeps f f' /\ (forall a, a ∈ l -> is_dir (f' a) = true) /\
  (forall k, f' k = f k \/ (f k = None /\ k ∈ l /\ is_dir (f' k) = true)).
Proof.
  induction l as [|a l IH]; intros f f'; cbn [foldM_res].
  { intros [= <-]. split_and!; [apply keeps_refl|by intros a ?%not_elem_of_nil|by left]. }
  intros (f1 & Hm & Hr)%bind_ok. apply IH in Hr as (Hk & Hd & Hc).
  assert (keeps f f1 /\ is_dir (f1 a) = true /\ forall k, f1 k = f k \/ (f k = None /\ k = a)) as (Hk1 & Hd1 & Hc1).
  { unfold make_missing in Hm. destruct (f a) as [[m|b m|t]|] eqn:Efa; try done; injection Hm as <-.
    - split_and!; [apply keeps_refl|by rewrite Efa|by left].
    - split_and!; [by apply keeps_put|by rewrite put_same|]. intros k.
      destruct (decide (k = a)) as [->|Hk']; [by right|left; by apply put_other]. }
  split_and!; [by eapply keeps_trans| |].
  - intros x [->|Hx]%elem_of_cons; [|by apply Hd]. rewrite Hk; [done|]. by destruct (f1 a).
  - intros k. destruct (Hc1 k) as [E1|[E1 ->]].
    + destruct (Hc k) as [E2|(E2 & Hin & Hd2)]; [left; congruence|right]. rewrite <- E1. split_and!; [done|by right|done].
    + right. split; [done|]. split; [left|]. rewrite Hk; [done|]. by destruct (f1 a).
Qed.

Lemma below_length p k : at_or_below p k = true -> zlen p <= zlen k.
Proof.
  unfold at_or_below. intros [->%streq_true|Hb]%orb_true_iff; [done|]. apply starts_with_spec in Hb as (t & ->).
  rewrite !zlen_app. pose proof (zlen_nonneg t). pose proof (zlen_nonneg (js "/")). lia.
Qed.

Lemma ancestors_root : ancestors (js "/") = [].
Proof. reflexivity. Qed.

Lemma ancestors_snoc init w a :
  Forall word (init ++ [w]) -> a ∈ ancestors (abs (init ++ [w])) ->
  a ∈ ancestors (dirname (abs (init ++ [w]))) \/ a = abs (init ++ [w]).
Proof.
  intros Hw. rewrite ancestors_abs by (done || by destruct init). intros (i & Hi & ->). rewrite length_app in Hi. cbn in Hi.
  destruct (decide (i = length init + 1)%nat) as [->|Hi'].
  - right. by rewrite take_ge by (rewrite length_app; cbn; lia).
  - left. rewrite take_app_le by lia. assert (init <> []) as Hne by (intros ->; cbn in *; lia).
    rewrite dirname_abs by done. apply Forall_app in Hw as [Hw _]. apply ancestors_abs; [done..|]. exists i. split; [lia|done].
Qed.

Lemma dirname_sibling init l l' :
  Forall word (init ++ [l]) -> Forall word (init ++ [l']) -> dirname (abs (init ++ [l])) = dirname (abs (init ++ [l'])).
Proof.
  intros Hl Hl'. destruct (decide (init = [])) as [->|Hne]; [|by rewrite !dirname_abs].
  unfold dirname. cbn [app] in *. by rewrite !split_abs.
Qed.

Lemma dirname_ancestor_length init w a :
  Forall word (init ++ [w]) -> a ∈ ancestors (dirname (abs (init ++ [w]))) -> zlen a < zlen (abs (init ++ [w])).
Proof.
  intros Hw. destruct (decide (init = [])) as [->|Hne].
  { unfold dirname. cbn [app]. rewrite split_abs by done. cbn. by intros ?%not_elem_of_nil. }
  rewrite dirname_abs by done. apply Forall_app in Hw as [Hi _]. intros Ha%ancestor_length; [|done..].
  rewrite abs_app by done. rewrite !zlen_app. change (zlen (js "/")) with 1. pose proof (zlen_nonneg (join (js "/") [w])). lia.
Qed.

Section materialized.
Context `{Unicode} `{Sha256} `{Sha1} `{JsonParse} `{JsonStringify} `{JsonPretty} `{UrlParser}.
Context {E : Type} `{MaterializerEnv E}.

(** The store after the staging directory was made. *)
Lemma staging_prepared umask mode f fm init l F :
  Forall word (init ++ [l]) -> foldM_res (make_missing umask mode) f (ancestors (dirname (abs (init ++ [l])))) = Ok fm ->
  (forall k, at_or_below (abs (init ++ [l])) k = true -> f k = None) -> forall m,
  staged (init ++ [l]) F (put (abs (init ++ [l])) (Dir m) fm) (put (abs (init ++ [l])) (Dir m) fm).
Proof.
  intros Hw Hm Hfresh m. apply make_missing_plain in Hm as (_ & Hd & Hc). split.
  - done.
  - intros a [Ha| ->]%ancestors_snoc; [|by rewrite put_same|done]. rewrite put_other; [by apply Hd|].
    intros ->. apply dirname_ancestor_length in Ha; [lia|done].
  - intros rel Hrel. exfalso. apply Hrel. rewrite put_other.
    + destruct (Hc (abs (init ++ [l]) ++ js "/" ++ rel)) as [->|(_ & Hin & _)].
      * apply Hfresh. apply below_entry.
      * apply dirname_ancestor_length in Hin; [|done]. rewrite zlen_app in Hin. pose proof (zlen_nonneg (js "/" ++ rel)). lia.
    + intros Ek. apply (f_equal zlen) in Ek. rewrite !zlen_app in Ek. change (zlen (js "/")) with 1 in Ek.
      pose proof (zlen_nonneg rel). lia.
Qed.

(** *** Failures leave everything outside the staging directory as it was *)
Definition framed (ps : list jsstr) (f0 f : store) : Prop :=
  (forall k, at_or_below (abs ps) k = false -> f k = f0 k) /\
  (forall a, a ∈ ancestors (abs ps) -> is_dir (f a) = true).

Definition kept (ps : list jsstr) (f0 : store) (w : mat_world E) : Prop := framed ps f0 (mw_fs w).

Lemma syscall_kept {A} ps f0 (act : store -> res (A * store)) :
  (forall f a f', framed ps f0 f -> act f = Ok (a, f') -> framed ps f0 f') -> preserves (kept ps f0) (syscall act).
Proof.
  intros Hact w Hw. unfold syscall. destruct (mat_fault (mw_env w)) as [[x|] e]; [done|].
  destruct (act (mw_fs w)) as [[a f']|x] eqn:Ea; [|done]. by eapply Hact.
Qed.

Lemma framed_put ps f0 f k n :
  framed ps f0 f -> at_or_below (abs ps) k = true -> k ∉ ancestors (abs ps) -> framed ps f0 (put k n f).
Proof.
  intros [Hf Ha] Hb Hn. split.
  - intros k' Hk'. rewrite put_other; [by apply Hf|]. by intros ->; rewrite Hb in Hk'.
  - intros a Hin. rewrite put_other; [by apply Ha|]. by intros ->.
Qed.

Lemma mkdirp_kept umask ps f0 p mode :
  (forall a, a ∈ ancestors p -> a ∈ ancestors (abs ps) \/ (at_or_below (abs ps) a = true /\ a ∉ ancestors (abs ps))) ->
  preserves (kept ps f0) (fs_mkdirp umask p mode).
Proof.
  intros Hp. apply syscall_kept. intros f [] f' Hf (f1 & Hm & [= <-])%bind_ok.
  revert f Hf Hm. generalize dependent (ancestors p). intros l Hl. induction l as [|a l IH]; intros f Hf; cbn [foldM_res].
  { by intros [= <-]. }
  intros (f2 & Hm & Hr)%bind_ok. eapply IH; [intros; apply Hl; by right| |exact Hr].
  unfold make_missing in Hm. destruct (f a) as [[m|b m|t]|] eqn:Efa; try done; injection Hm as <-; [done|].
  destruct (Hl a ltac:(left)) as [Hin|[Hb Hn]]; [|by apply framed_put]. apply Hf in Hin. by rewrite Efa in Hin.
Qed.

Lemma new_kept {A} ps f0 k (n : node) (a : A) :
  at_or_below (abs ps) k = true -> k ∉ ancestors (abs ps) ->
  preserves (kept ps f0) (syscall (fun f =>
    match f k with Some _ => Throw EEXIST | None => if is_dir (f (dirname k)) then Ok (a, put k n f) else Throw ENOENT end)).
Proof.
  intros Hb Hn. apply syscall_kept. intros f a' f' Hf. destruct (f k); [done|]. destruct (is_dir _); [|done].
  intros [= <- <-]. by apply framed_put.
Qed.

Lemma chmod_kept ps f0 k mode : at_or_below (abs ps) k = true -> preserves (kept ps f0) (fs_chmod k mode).
Proof.
  intros Hb. apply syscall_kept. intros f [] f' [Hf Ha].
  assert (forall n, (is_dir (f k) = true -> is_dir (Some n) = true) -> framed ps f0 (put k n f)) as Hput.
  { intros n Hn. split.
    - intros k' Hk'. rewrite put_other; [by apply Hf|]. by intros ->; rewrite Hb in Hk'.
    - intros a Hin. destruct (decide (a = k)) as [->|Hk]; [|by rewrite put_other; [apply Ha|]].
      rewrite put_same. by apply Hn, Ha. }
  destruct (f k) as [[m|b m|t]|]; try done; intros [= <-]; by apply Hput.
Qed.

Lemma outside_kept {A} ps f0 (m : eff E A) : preserves (kept ps f0) (outside_fs m).
Proof. intros w Hw. unfold outside_fs. by destruct (m (mw_env w)). Qed.

Lemma preserves_foldM {S A X} (I : S -> Prop) (g : A -> X -> eff S A) l :
  (forall a x, x ∈ l -> preserves I (g a x)) -> forall a, preserves I (foldM_eff g a l).
Proof.
  induction l as [|x l IH]; intros Hg a; cbn [foldM_eff]; [apply preserves_ret|].
  apply preserves_bind; [apply Hg; left|]. intros a'. apply IH. intros. apply Hg. by right.
Qed.

Lemma bind_throw_kept {S A B} (I : S -> Prop) (m : eff S A) (k : A -> eff S B) s e s' :
  preserves I m -> (forall a s1, I s1 -> k a s1 = (Throw e, s') -> I s') -> I s -> (m ≫= k) s = (Throw e, s') -> I s'.
Proof.
  intros Hm Hk Hs. unfold mbind, eff_bind. specialize (Hm s Hs). destruct (m s) as [[a|x] s1]; [by apply Hk|].
  by intros [= _ <-].
Qed.

#[local] Hint Resolve outside_kept : preserves.

Section install_kept.
Context (ps : list jsstr) (Hne : ps <> []) (Hps : Forall word ps) (f0 : store).
Notation S := (abs ps).

Lemma entry_place rel : at_or_below S (S ++ js "/" ++ rel) = true /\ S ++ js "/" ++ rel ∉ ancestors S.
Proof. split; [apply below_entry|by apply entry_not_ancestor]. Qed.

Lemma parents_place rel a :
  forallb safe_part (split_on SLASH rel) = true -> a ∈ ancestors (dirname (S ++ js "/" ++ rel)) ->
  a ∈ ancestors S \/ (at_or_below S a = true /\ a ∉ ancestors S).
Proof. intros Hs [?|(p & _ & ->)]%ancestors_dirname; [by left|right; apply entry_place|done..]. Qed.

Lemma directory_kept umask u e :
  forallb safe_part (split_on SLASH (entry_rel e)) = true -> preserves (kept ps f0) (install_directory umask S u e).
Proof.
  intros Hs. unfold install_directory. rewrite targetPath_ok by done. apply preserves_lift_bind. intros t [= <-].
  apply mkdirp_kept. intros a [?|[(p & _ & ->)| ->]]%ancestors_entry; [by left|right; apply entry_place..|done|done|done].
Qed.

Lemma file_kept umask total e :
  forallb safe_part (split_on SLASH (entry_rel e)) = true -> preserves (kept ps f0) (install_file umask S total e).
Proof.
  intros Hs. unfold install_file. cbv zeta. rewrite targetPath_ok by done. destruct (_ <? _); [preserves|].
  apply preserves_bind; [unfold downloadExact; preserves|intros b]. apply preserves_lift_bind. intros t Ht.
  assert (t = S ++ js "/" ++ entry_rel e) as -> by congruence.
  apply preserves_bind; [apply mkdirp_kept; intros a; by apply parents_place|intros _].
  apply preserves_bind; [apply new_kept; apply entry_place|intros _].
  apply preserves_bind; [apply chmod_kept, entry_place|]. preserves.
Qed.

Lemma link_kept umask u e :
  forallb safe_part (split_on SLASH (entry_rel e)) = true -> preserves (kept ps f0) (install_link umask S u e).
Proof.
  intros Hs. unfold install_link. rewrite targetPath_ok by done. apply preserves_lift_bind. intros t Ht.
  assert (t = S ++ js "/" ++ entry_rel e) as -> by congruence.
  apply preserves_bind; [apply mkdirp_kept; intros a; by apply parents_place|intros _].
  destruct (negb _); [preserves|]. apply new_kept; apply entry_place.
Qed.

(** A failure of the [try] block changes nothing outside the staging directory. *)
Lemma install_tree_kept umask F expected resolution O (w w' : mat_world E) e :
  entries_ok F -> kept ps f0 w -> install_tree umask expected resolution F S O w = (Throw e, w') -> kept ps f0 w'.
Proof.
  intros HF Hw. unfold install_tree. cbv zeta.
  assert (forall name x, x ∈ of_type name F -> forallb safe_part (split_on SLASH (entry_rel x)) = true) as Hsafe.
  { intros name x [Hx _]%of_type_elem. by apply (eo_safe F HF). }
  apply bind_throw_kept; [apply preserves_foldM; intros; by eapply directory_kept, Hsafe| |done]. clear dependent w. intros _ w Hw.
  apply bind_throw_kept; [apply preserves_foldM; intros; by eapply file_kept, Hsafe| |done]. clear dependent w. intros total w Hw.
  apply bind_throw_kept; [apply preserves_foldM; intros; by eapply link_kept, Hsafe| |done]. clear dependent w. intros _ w Hw.
  apply bind_throw_kept; [apply new_kept; apply (entry_place (js ".xmcl-runtime-resolution.json"))| |done].
  clear dependent w. intros _ w Hw.
  apply bind_throw_kept; [preserves| |done]. clear dependent w. intros parsed w Hw.
  apply bind_throw_kept; [preserves| |done]. clear dependent w. intros b w Hw.
  destruct (negb _); [by intros [= _ <-]|].
  apply bind_throw_kept; [apply chmod_kept; unfold at_or_below; by rewrite streq_refl| |done]. clear dependent w. intros _ w Hw.
  intros Hr. unfold mbind, eff_bind in Hr. destruct (fs_rename S O w) as [[u|x] w1] eqn:Er; [done|]. injection Hr as _ <-.
  unfold fs_rename, syscall in Er. destruct (mat_fault (mw_env w)) as [[y|] e']; [by injection Er as _ <-|].
  destruct (negb _); [by injection Er as _ <-|]. destruct (mw_fs w O); [by injection Er as _ <-|done].
Qed.
End install_kept.

(** *** The whole script *)

(** Outside the output root only missing directories above it may appear. *)
Definition grown (O : jsstr) (f : store) (f' : store) (k : jsstr) : Prop :=
  f' k = f k \/ (f k = None /\ k ∈ ancestors (dirname O) /\ is_dir (f' k) = true).

(** The finished tree: the root, every entry, the resolution, and nothing else. *)
Definition root_exact (umask : Z) (f' : store) (O : jsstr) (resolution : jsval) (F : list jsval) : Prop :=
  f' O = Some (Dir 493) /\ (forall e, e ∈ F -> fits e (f' (O ++ js "/" ++ entry_rel e))) /\
  f' (O ++ MANIFEST) = Some (File (utf8_encode (json_pretty (canonical resolution) ++ [10])) (created umask 420)) /\
  forall rel, f' (O ++ js "/" ++ rel) <> None -> js "/" ++ rel = MANIFEST \/ exists e, e ∈ F /\ entry_rel e = rel.

(** A file holds this text of this JSON value. *)
Definition json_file (f : store) (p : jsstr) (raw : bytes) (v : jsval) : Prop :=
  exists mode text, f p = Some (File raw mode) /\ text_decode raw = Some text /\ json_parse text = Some v.

(** The resolution is the reviewed one: the reviewed toolchain catalog in the one
    file pins the digest of the runtime catalog in the other, which is for this
    platform; the JRE is the one of the only toolchain with that JRE identifier, and
    the resolution the only one of the runtime catalog for its component and major
    version; its canonical text has the digest the toolchain names. *)
Definition reviewed_resolution (f : store) (rp tp jreId : jsstr) (expected : jre) (resolution : jsval) : Prop :=
  exists runtimeBytes runtime catalogBytes document c t resolutions b,
    json_file f rp runtimeBytes runtime /\ json_file f tp catalogBytes document /\
    ReviewedToolchainCatalog document (Some [js "neoforge"]) = Ok c /\
    sha256 runtimeBytes = c_runtimeCatalogRevision c /\
    opt_prop (opt_prop runtime "platform") "os" = VText "linux" /\
    opt_prop (opt_prop runtime "platform") "architecture" = VText "x64" /\
    (t ∈ c_toolchains c /\ t_jre t = expected /\ j_id expected = jreId /\
       forall t', t' ∈ c_toolchains c -> j_id (t_jre t') = jreId -> t' = t) /\
    opt_prop runtime "resolutions" = VArr resolutions /\
    (resolution ∈ resolutions /\ opt_prop resolution "component" = VStr (j_component expected) /\
       opt_prop resolution "major" = VInt (j_major expected) /\
       forall r, r ∈ resolutions -> opt_prop r "component" = VStr (j_component expected) ->
         opt_prop r "major" = VInt (j_major expected) -> r = resolution) /\
    canonicalJsonBytes resolution = Ok b /\ sha256 b = j_sha256 expected.

Lemma filter_single {A} (g : A -> bool) l x :
  List.filter g l = [x] -> x ∈ l /\ g x = true /\ forall y, y ∈ l -> g y = true -> y = x.
Proof.
  intros Hf. assert (forall y, In y l /\ g y = true <-> y = x) as Hy.
  { intros y. rewrite <- filter_In, Hf. cbn. naive_solver. }
  split; [apply list_elem_of_In; by apply Hy|]. split; [by apply Hy|].
  intros y Hin Hg. apply Hy. split; [by apply list_elem_of_In|done].
Qed.

Lemma mat_parseJson_ok f p raw mode code v :
  f p = Some (File raw mode) -> mat_parseJson raw code = Ok v -> json_file f p raw v.
Proof.
  intros Hf. unfold mat_parseJson. destruct (text_decode raw) as [text|] eqn:Et; [|done].
  destruct (json_parse text) as [x|] eqn:Ex; [|done]. destruct (plainObject x); [|done]. intros [= <-]. by exists mode, text.
Qed.

Lemma select_resolution_ok f rp tp rb cb runtime document c jreId expected resolution :
  json_file f rp rb runtime -> json_file f tp cb document -> ReviewedToolchainCatalog document (Some [js "neoforge"]) = Ok c ->
  select_resolution rb runtime c jreId = Ok (expected, resolution) -> reviewed_resolution f rp tp jreId expected resolution.
Proof.
  intros Hrt Hdoc Hc. unfold select_resolution. cbv zeta. intros Hr. guard Hr as Eg.
  rewrite streq_true, !strict_eq_text in Eg. destruct Eg as [[[Hrev Hos] Harch] Harr].
  destruct (List.filter _ (c_toolchains c)) as [|t [|]] eqn:Et; try done.
  destruct (List.filter _ (get_list _)) as [|r [|]] eqn:Ef; try done. apply bind_ok in Hr as (b & Hb & Hr).
  destruct (streq _ _) eqn:Es; cbn [negb] in Hr; [|done]. injection Hr as <- <-. apply streq_true in Es.
  apply filter_single in Et as (Ht & Hid%streq_true & Htu).
  apply filter_single in Ef as (Hin & [Hco%strict_eq_str Hma%strict_eq_int]%andb_true_iff & Hru).
  destruct (opt_prop runtime "resolutions") as [| | | | |rs| |] eqn:Ers; try done. cbn [get_list] in *.
  exists rb, runtime, cb, document, c, t, rs, b. do 6 (split; [done|]). split.
  { split_and!; [done..|]. intros t' Ht' Hid'. apply Htu; [done|]. by apply streq_true. }
  split; [done|]. split; [|done]. split_and!; [done..|]. intros r' Hr' Hco' Hma'. apply Hru; [done|].
  apply andb_true_iff. split; [by apply strict_eq_str|by apply strict_eq_int].
Qed.

Section whole.
Context (umask pid : Z) (random : bytes) (O : jsstr).
Context (HO : absoluteNormalizedPath O = true) (Hpid : 0 <= pid) (Hrandom : Forall (fun x => 0 <= x < 256) random).
Notation S := (staging_of pid random O).

(** The staging name is not in use. *)
Definition fresh (f : store) : Prop := forall k, at_or_below S k = true -> f k = None.

(** From the staging directory on. *)
Lemma materialize_into_ok f fm expected resolution F (w : mat_world E) :
  fresh f -> foldM_res (make_missing umask 493) f (ancestors (dirname O)) = Ok fm ->
  mw_fs w = put S (Dir (created umask 448)) fm ->
  validateResolution resolution = Ok F ->
  let '(r, w') := materialize_into umask expected resolution F S O w in
  match r with
  | Ok v => exists total, (forall a, a ∈ ancestors O -> is_dir (mw_fs w' a) = true) /\ total <= MAX_TOTAL_BYTES /\ v = mat_result expected F total O /\
      root_exact umask (mw_fs w') O resolution F /\ f O = None /\
      (forall k, at_or_below O k = false -> grown O f (mw_fs w') k) /\
      exists parsed b, json_parse (json_pretty (canonical resolution) ++ [10]) = Some parsed /\
        canonicalJsonBytes parsed = Ok b /\ sha256 b = j_sha256 expected
  | Throw _ => (forall k, at_or_below S k = false -> grown O f (mw_fs w') k) /\
      ((forall k, at_or_below S k = true -> mw_fs w' k = None) \/
       exists x w1, fs_rm S w1 = (Throw x, w'))
  end.
Proof.
  intros Hfresh Hfm Hw HF. destruct (staging_sibling pid random O HO Hpid Hrandom) as (init & l & l' & EO & ES & Hwl & Hwl' & Hlen & Hnb).
  apply validateResolution_ok in HF as (_ & Hform & Hok & _).
  assert (foldM_res (make_missing umask 493) f (ancestors (dirname (abs (init ++ [l'])))) = Ok fm) as Hfm'.
  { rewrite <- (dirname_sibling init l l'), <- EO by done. done. }
  unfold fresh in Hfresh. rewrite ES in *.
  pose proof (staging_prepared umask 493 f fm init l' F Hwl' Hfm' Hfresh (created umask 448)) as Hst.
  assert (init ++ [l'] <> []) as Hne' by (by destruct init).
  assert (forall k, fm k = f k \/ (f k = None /\ k ∈ ancestors (dirname O) /\ is_dir (fm k) = true)) as Hgrow
    by (apply make_missing_plain in Hfm as (_ & _ & Hc); exact Hc).
  assert (at_or_below (abs (init ++ [l'])) O = false) as HSO.
  { unfold at_or_below. apply orb_false_iff. split; [apply streq_false; intros Eq; rewrite Eq in Hlen; lia|].
    apply not_true_iff_false. rewrite starts_with_spec. intros (t & Ht). rewrite Ht, !zlen_app in Hlen.
    pose proof (zlen_nonneg t). change (zlen (js "/")) with 1 in Hlen. lia. }
  unfold materialize_into, try_catch. destruct (install_tree _ _ _ _ _ _ w) as [[v|x] w1] eqn:Ei.
  - apply (install_tree_ok (init ++ [l']) Hne' Hwl' F Hok umask (put (abs (init ++ [l'])) (Dir (created umask 448)) fm)) in Ei
      as (total & Ht & Hv & Hfits & Hman & Honly & Hroot & HO0 & Hgone & Hframe & Hparsed);
      [|by rewrite Hw|intros e He; rewrite Forall_forall in Hform; by apply form_typed, Hform|done].
    exists total. split_and!; [|done..| | |done].
    + intros a. rewrite EO. intros [Ha| ->]%ancestors_snoc; [|by rewrite <- EO, Hroot|done].
      apply make_missing_plain in Hfm as (_ & Hd & _). rewrite <- EO in Ha.
      pose proof Ha as Hlt. rewrite EO in Hlt. apply dirname_ancestor_length in Hlt; [|done]. rewrite <- EO in Hlt.
      rewrite Hframe; [|apply not_true_iff_false; intros Hb%below_length; lia..].
      rewrite put_other; [by apply Hd|]. intros ->. lia.
    + rewrite put_other in HO0 by (intros Eq; rewrite Eq in Hlen; lia).
      destruct (Hgrow O) as [Ek|(Ek & _)]; [by rewrite <- Ek|done].
    + intros k Hk. unfold grown. destruct (at_or_below (abs (init ++ [l'])) k) eqn:EkS.
      * left. rewrite Hgone by done. symmetry. by apply Hfresh.
      * rewrite Hframe by done. rewrite put_other; [apply Hgrow|]. intros ->. unfold at_or_below in EkS. by rewrite streq_refl in EkS.
  - apply (install_tree_kept (init ++ [l']) Hne' Hwl' (put (abs (init ++ [l'])) (Dir (created umask 448)) fm)) in Ei as [Hframe _];
      [|done|split; rewrite Hw; [done|apply (st_above _ _ _ _ Hst)]].
    assert (forall k, at_or_below (abs (init ++ [l'])) k = false -> grown O f (mw_fs w1) k) as Hg.
    { intros k Hk. unfold grown. rewrite Hframe by done. rewrite put_other; [apply Hgrow|].
      intros ->. unfold at_or_below in Hk. by rewrite streq_refl in Hk. }
    unfold mbind, eff_bind, try_catch, fs_rm, syscall. destruct (mat_fault (mw_env w1)) as [[y|] e1] eqn:Ef.
    + cbn. split; [exact Hg|]. right. exists y, w1. unfold fs_rm, syscall. by rewrite Ef.
    + cbn. split.
      * intros k Hk. unfold grown. cbn. rewrite Hk. by apply Hg.
      * left. intros k Hk. by rewrite Hk.
Qed.

Lemma syscall_store {A} (act : store -> res (A * store)) (w : mat_world E) :
  let '(r, w') := syscall act w in
  match r with Ok a => act (mw_fs w) = Ok (a, mw_fs w') | Throw _ => mw_fs w' = mw_fs w end.
Proof.
  unfold syscall. destruct (mat_fault (mw_env w)) as [[x|] e]; [done|].
  by destruct (act (mw_fs w)) as [[a f']|x].
Qed.

Definition unchanged (f : store) (w : mat_world E) : Prop := mw_fs w = f.

Lemma read_unchanged f p : preserves (unchanged f) (fs_readFile p).
Proof.
  intros w Hw. unfold fs_readFile. pose proof (syscall_store
    (fun f => match f p with Some (File b _) => Ok (b, f) | _ => Throw ENOENT end) w) as Hs.
  destruct (syscall _ w) as [[b|x] w']; cbn [snd]; unfold unchanged in *; [|congruence].
  destruct (mw_fs w p) as [[m|c m|t]|]; try done. injection Hs as _ Hs. congruence.
Qed.

Lemma missing_unchanged f p : preserves (unchanged f) (assertMissing p).
Proof.
  intros w Hw. unfold assertMissing, fs_lstat_path. pose proof (syscall_store
    (fun f => match f p with Some _ => Ok (tt, f) | None => Throw ENOENT end) w) as Hs.
  destruct (syscall _ w) as [[b|x] w']; cbn [snd]; unfold unchanged in *.
  - destruct (mw_fs w p); [|done]. injection Hs as _ Hs. cbn. congruence.
  - destruct x; try (cbn; congruence). destruct (String.eqb _ _); cbn; congruence.
Qed.

Lemma staging_not_above k : at_or_below S k = true -> k ∈ ancestors (dirname O) -> False.
Proof.
  destruct (staging_sibling pid random O HO Hpid Hrandom) as (init & l & l' & EO & ES & Hwl & Hwl' & Hlen & _).
  intros Hb Hin. rewrite EO in Hin. apply dirname_ancestor_length in Hin; [|done]. rewrite <- EO in Hin.
  apply below_length in Hb. lia.
Qed.

Definition unharmed (f : store) (w' : mat_world E) : Prop :=
  (forall k, at_or_below S k = false -> grown O f (mw_fs w') k) /\
  ((forall k, at_or_below S k = true -> mw_fs w' k = None) \/ exists x w1, fs_rm S w1 = (Throw x, w')).

Lemma unchanged_unharmed f w : fresh f -> unchanged f w -> unharmed f w.
Proof. intros Hf Hu. unfold unharmed, unchanged in *. rewrite Hu. split; [by left|by left]. Qed.

(** The reading and checking part of the script writes nothing. *)
Lemma inputs_unchanged f rp tp jreId : preserves (unchanged f) (reviewed_inputs rp tp jreId).
Proof. unfold reviewed_inputs. repeat first [apply preserves_bind; [|intros ?]|apply read_unchanged|preserves]. Qed.

Lemma readFile_ok p (w w' : mat_world E) b :
  fs_readFile p w = (Ok b, w') -> mw_fs w' = mw_fs w /\ exists mode, mw_fs w p = Some (File b mode).
Proof.
  intros Hr%syscall_ok. destruct (mw_fs w p) as [[m|c m|t]|]; try done. injection Hr as -> <-. eauto.
Qed.

Lemma inputs_reviewed rp tp jreId (w w' : mat_world E) expected resolution entries :
  reviewed_inputs rp tp jreId w = (Ok (expected, resolution, entries), w') ->
  reviewed_resolution (mw_fs w) rp tp jreId expected resolution /\ validateResolution resolution = Ok entries.
Proof.
  unfold reviewed_inputs. intros (raw & w1 & Hread & Hr)%eff_bind_ok. apply readFile_ok in Hread as (Hw1 & mode & Hraw).
  apply eff_bind_ok in Hr as (runtime & w2 & Hp & Hr). apply lift_ok in Hp as [Hp ->].
  apply eff_bind_ok in Hr as (cb & w3 & Hread & Hr). apply readFile_ok in Hread as (_ & mode' & Hcb). rewrite Hw1 in Hcb.
  apply eff_bind_ok in Hr as (doc & w4 & Hd & Hr). apply lift_ok in Hd as [Hd ->].
  apply eff_bind_ok in Hr as (c & w5 & Hc & Hr). apply lift_ok in Hc as [Hc ->].
  apply eff_bind_ok in Hr as ([x y] & w6 & Hs & Hr). apply lift_ok in Hs as [Hs ->].
  apply eff_bind_ok in Hr as (es & w7 & Hv & Hr). apply lift_ok in Hv as [Hv ->]. apply mret_ok in Hr as [[= -> -> ->] ->].
  split; [|done]. eapply select_resolution_ok; [by eapply mat_parseJson_ok|by eapply mat_parseJson_ok|exact Hc|exact Hs].
Qed.

(** The run, from the inputs to the end. *)
Lemma materialize_run rp tp jreId (w : mat_world E) :
  fresh (mw_fs w) ->
  let '(r, w') := materializeVerifiedJre umask pid random rp tp O jreId w in
  match r with
  | Ok v => exists expected resolution entries total,
      reviewed_resolution (mw_fs w) rp tp jreId expected resolution /\ validateResolution resolution = Ok entries /\
      (forall a, a ∈ ancestors O -> is_dir (mw_fs w' a) = true) /\
      total <= MAX_TOTAL_BYTES /\ v = mat_result expected entries total O /\
      root_exact umask (mw_fs w') O resolution entries /\ mw_fs w O = None /\
      (forall k, at_or_below O k = false -> grown O (mw_fs w) (mw_fs w') k) /\
      exists parsed b, json_parse (json_pretty (canonical resolution) ++ [10]) = Some parsed /\
        canonicalJsonBytes parsed = Ok b /\ sha256 b = j_sha256 expected
  | Throw _ => unharmed (mw_fs w) w'
  end.
Proof.
  intros Hfresh. pose proof (fun w' => unchanged_unharmed (mw_fs w) w' Hfresh) as Hun.
  unfold materializeVerifiedJre. destruct (_ || _); [by apply Hun|].
  unfold mbind at 1, eff_bind at 1. pose proof (inputs_unchanged (mw_fs w) rp tp jreId w eq_refl) as Hu1.
  destruct (reviewed_inputs rp tp jreId w) as [[[[expected resolution] entries]|x] w1] eqn:Ei; [|by apply Hun].
  apply inputs_reviewed in Ei as (Hrev & Hval). cbn [snd] in Hu1.
  unfold mbind at 1, eff_bind at 1. pose proof (missing_unchanged (mw_fs w) O w1 Hu1) as Hu2.
  destruct (assertMissing O w1) as [[u2|x] w2]; [|by apply Hun]. cbn [snd] in Hu2.
  unfold mbind at 1, eff_bind at 1. unfold fs_mkdirp at 1.
  match goal with |- context [syscall ?act w2] => pose proof (syscall_store act w2) as Hs3; destruct (syscall act w2) as [[u3|x] w3] end;
    [|apply Hun; unfold unchanged in *; congruence].
  apply bind_ok in Hs3 as (fm & Hfm & [= _ Hs3]). rewrite Hu2 in Hfm.
  unfold mbind at 1, eff_bind at 1. unfold fs_mkdir at 1.
  match goal with |- context [syscall ?act w3] => pose proof (syscall_store act w3) as Hs4; destruct (syscall act w3) as [[u4|x] w4] end.
  - destruct (mw_fs w3 S) eqn:E3; [done|]. destruct (is_dir _); [|done]. injection Hs4 as _ Hs4. rewrite <- Hs3 in Hs4.
    pose proof (materialize_into_ok (mw_fs w) fm expected resolution entries w4 Hfresh Hfm (eq_sym Hs4) Hval) as Hm.
    destruct (materialize_into _ _ _ _ _ _ w4) as [[v|x] w5]; [|done].
    destruct Hm as (total & Habove & Hm). by exists expected, resolution, entries, total.
  - apply make_missing_plain in Hfm as (_ & _ & Hc). unfold unharmed. rewrite Hs4, <- Hs3.
    split; [intros k _; apply Hc|]. left. intros k Hk. destruct (Hc k) as [->|(_ & Habove & _)]; [by apply Hfresh|].
    by apply (staging_not_above k) in Hk.
Qed.
End whole.

(** The script checks the output path itself: any other path fails at once. *)
Lemma materialize_bad_root umask pid random rp tp O jreId (w : mat_world E) :
  absoluteNormalizedPath O = false ->
  materializeVerifiedJre umask pid random rp tp O jreId w = (Throw (mat_failure "invalid_arguments"), w).
Proof. intros HO. unfold materializeVerifiedJre. rewrite HO. cbn [negb]. by rewrite !orb_true_r. Qed.

(** What a successful run establishes. *)
Lemma materialize_parts umask pid random rp tp O jreId (w : mat_world E) v w' :
  0 <= pid -> Forall (fun x => 0 <= x < 256) random -> fresh pid random O (mw_fs w) ->
  materializeVerifiedJre umask pid random rp tp O jreId w = (Ok v, w') ->
  absoluteNormalizedPath O = true /\ exists expected resolution entries total parsed b,
    reviewed_resolution (mw_fs w) rp tp jreId expected resolution /\ validateResolution resolution = Ok entries /\
    v = mat_result expected entries total O /\ root_exact umask (mw_fs w') O resolution entries /\
    (forall a, a ∈ ancestors O -> is_dir (mw_fs w' a) = true) /\
    json_parse (json_pretty (canonical resolution) ++ [10]) = Some parsed /\
    canonicalJsonBytes parsed = Ok b /\ sha256 b = j_sha256 expected.
Proof.
  intros Hpid Hrandom Hfresh Hr. destruct (absoluteNormalizedPath O) eqn:HO; [|by rewrite materialize_bad_root in Hr].
  split; [done|]. pose proof (materialize_run umask pid random O HO Hpid Hrandom rp tp jreId w Hfresh) as Hm. rewrite Hr in Hm.
  destruct Hm as (expected & resolution & entries & total & Hrev & Hval & Hin & _ & Hv & Hroot & _ & _ & parsed & b & Hrest).
  by exists expected, resolution, entries, total, parsed, b.
Qed.
End materialized.
