(* ===== verification/MaterializerRoot.v ===== *)
(** * The materialized root

    The theorems about the materializer: a finished root is exact and a failed run
    leaves nothing behind, and the registry of the worker verifies a finished root.
    The last part is a run with a directory, an executable and a link. *)

From S2P Require Import Prelude JsText JsNum JsValue Regex Validators Limits Node TarZst Bundle Content Effects Catalog Downloader ToolchainLock Builder Sandbox JreRegistry Materializer MaterializerTree.
From Stdlib Require Import Ascii.

(** ** Canonical documents *)

(** Where the checked [canonicalize] succeeds, it is the unchecked one. *)
Fixpoint canonicalize_canonical (v : jsval) : forall x, canonicalize v = Ok x -> x = canonical v.
Proof.
  destruct v as [| |b|n|s|l|fields|b]; intros x; try (by intros [= <-]); try done.
  - cbn [canonicalize canonical]. destruct n; try (by intros [= <-]); try done. destruct (_ || _); [done|by intros [= <-]].
  - rewrite canonicalize_arr. intros (l' & Hm & [= <-])%bind_ok. cbn [canonical]. f_equal. revert l' Hm.
    induction l as [|y l IH]; intros l' Hm; cbn [mapM_res] in Hm; [by injection Hm as <-|].
    apply bind_ok in Hm as (y' & Hy & Hm). apply bind_ok in Hm as (l'' & Hl & [= <-]). cbn [map].
    apply canonicalize_canonical in Hy as ->. f_equal. by apply IH.
  - rewrite canonicalize_obj. intros (fs & Hm & [= <-])%bind_ok. cbn [canonical]. do 2 f_equal. revert fs Hm.
    induction fields as [|[k y] l IH]; intros l' Hm; cbn [mapM_res] in Hm; [by injection Hm as <-|].
    apply bind_ok in Hm as (y' & Hy & Hm). apply bind_ok in Hm as (l'' & Hl & [= <-]). cbn [map].
    unfold canonical_field in Hy. apply bind_ok in Hy as (y1 & Hy & [= <-]). cbn [fst snd] in *.
    apply canonicalize_canonical in Hy as ->. f_equal. by apply IH.
Qed.

Lemma canonical_prop fields k :
  map_wf fields -> opt_prop (canonical (VObj fields)) k = canonical (opt_prop (VObj fields) k).
Proof.
  intros Hwf. cbn [canonical opt_prop]. set (g := map (fun kv => (kv.1, canonical kv.2)) fields).
  assert (map_keys g = map_keys fields) as Hk by (unfold g, map_keys; by rewrite map_map).
  rewrite (map_get_perm _ g) by (by rewrite ?merge_sort_Permutation || (unfold map_wf; rewrite Hk; exact Hwf)).
  assert (forall q, map_get q g = canonical <$> map_get q fields) as ->.
  { intros q. unfold g. clear. induction fields as [|[k' x] l IH]; [done|]. cbn. case_bool_decide; [done|apply IH]. }
  by destruct (map_get (js k) fields).
Qed.

(** A field of an object with the given keys. *)
Lemma canonical_field_of v names k :
  plainObject v = true -> sameKeys v names = true -> forallb (fun k => negb (forallb (is_digit_of 10) (js k))) names = true ->
  names <> [] -> NoDup (map js names) -> opt_prop (canonical v) k = canonical (opt_prop v k).
Proof.
  intros Hp Hs Hn Hne Hnd. destruct (sameKeys_fields _ _ Hp Hs Hn Hne) as (fields & -> & Hperm).
  apply canonical_prop. unfold map_wf. by rewrite Hperm.
Qed.


(** ** Real paths

    [realpath]: the components in turn, each of which must exist; a link is replaced
    by its target, at most forty times. *)
Definition ELOOP : exn := CodedError "too many symbolic links" "ELOOP".

Fixpoint walk_path (links : nat) (f : store) : list jsstr -> list jsstr -> res jsstr :=
  fix walk (cur rest : list jsstr) : res jsstr :=
    match rest with
    | [] => Ok (abs cur)
    | p :: rest =>
        if streq p [] || streq p (js ".") then walk cur rest
        else if streq p (js "..") then walk (removelast cur) rest
        else
          match f (abs (cur ++ [p])) with
          | None => Throw ENOENT
          | Some (Dir _) => walk (cur ++ [p]) rest
          | Some (File _ _) => match rest with [] => Ok (abs (cur ++ [p])) | _ => Throw ENOTDIR end
          | Some (Link t) =>
              match links with
              | O => Throw ELOOP
              | S links => walk_path links f (if starts_with (js "/") t then [] else cur) (split_on SLASH t ++ rest)
              end
          end
    end.

Definition real_path (f : store) (p : jsstr) : res jsstr := walk_path 40 f [] (split_on SLASH p).

Lemma walk_word n f cur p rest : word p ->
  walk_path n f cur (p :: rest) =
  match f (abs (cur ++ [p])) with
  | None => Throw ENOENT
  | Some (Dir _) => walk_path n f (cur ++ [p]) rest
  | Some (File _ _) => match rest with [] => Ok (abs (cur ++ [p])) | _ => Throw ENOTDIR end
  | Some (Link t) =>
      match n with
      | O => Throw ELOOP
      | S n => walk_path n f (if starts_with (js "/") t then [] else cur) (split_on SLASH t ++ rest)
      end
  end.
Proof.
  intros [Hs _]. unfold safe_part in Hs. rewrite !andb_true_iff, !negb_true_iff in Hs. destruct Hs as [[H1 H2] H3].
  destruct n; cbn [walk_path]; rewrite H1, H2, H3; done.
Qed.

(** Through directories, the components are just appended. *)
Lemma walk_down n f qs : forall cur rest, Forall word qs ->
  (forall i, (0 < i <= length qs)%nat -> is_dir (f (abs (cur ++ take i qs))) = true) ->
  walk_path n f cur (qs ++ rest) = walk_path n f (cur ++ qs) rest.
Proof.
  induction qs as [|q qs IH]; intros cur rest Hw Hd; [by rewrite app_nil_r|]. apply Forall_cons in Hw as [Hq Hw].
  cbn [app]. rewrite walk_word by done. pose proof (Hd 1%nat ltac:(cbn; lia)) as H1. cbn [take] in H1. rewrite take_0 in H1.
  destruct (f (abs (cur ++ [q]))) as [[m|b m|t]|]; try done. rewrite IH; [by rewrite <- app_assoc|done|].
  intros i Hi. specialize (Hd (S i) ltac:(cbn; lia)). cbn [take] in Hd. by rewrite <- app_assoc.
Qed.

Section accepted.
Context `{Unicode} `{Sha256} `{Sha1} `{JsonParse} `{JsonStringify} `{JsonPretty} `{UrlParser}.
Context {E : Type} `{MaterializerEnv E}.

Lemma entry_fields e k : entry_form e -> opt_prop (canonical e) k = canonical (opt_prop e k).
Proof.
  intros (Hp & _ & [[_ Hs]|[[_ [Hs _]]|[_ Hv]]]).
  - eapply canonical_field_of; [done|exact Hs|reflexivity|done|]. apply (bool_decide_unpack _). vm_compute. exact I.
  - eapply canonical_field_of; [done|exact Hs|reflexivity|done|]. apply (bool_decide_unpack _). vm_compute. exact I.
  - unfold valid_file in Hv. rewrite !andb_true_iff in Hv. destruct Hv as [[[[[[Hs _] _] _] _] _] _].
    eapply canonical_field_of; [done|exact Hs|reflexivity|done|]. apply (bool_decide_unpack _). vm_compute. exact I.
Qed.

Lemma form_path e : entry_form e -> opt_prop e "path" = VStr (entry_rel e) /\ opt_prop (canonical e) "path" = VStr (entry_rel e).
Proof.
  intros He. pose proof He as (_ & Hs & _). unfold safePath in Hs. apply vstr_true in Hs as (p & Hp & _).
  unfold entry_rel. rewrite (entry_fields e "path" He), Hp. done.
Qed.

Lemma form_type e : entry_form e -> exists t, opt_prop e "type" = VStr t /\ opt_prop (canonical e) "type" = VStr t.
Proof.
  intros He. pose proof He as (_ & _ & Hty).
  destruct Hty as [[Ht _]|[[Ht _]|[Ht _]]]; apply has_type_value in Ht; eexists; rewrite (entry_fields e "type" He), Ht; done.
Qed.

Lemma declare_canonical paths e : entry_form e -> declare_path paths (canonical e) = declare_path paths e.
Proof.
  intros He. pose proof He as (Hp & _ & _). destruct (form_path e He) as [P1 P2]. destruct (form_type e He) as (t & T1 & T2).
  unfold declare_path. rewrite P1, P2, T1, T2. by destruct e.
Qed.

Lemma declare_all_canonical l : forall paths, Forall entry_form l ->
  foldM_res declare_path paths (map canonical l) = foldM_res declare_path paths l.
Proof.
  induction l as [|e l IH]; intros paths Hl; [done|]. apply Forall_cons in Hl as [He Hl]. cbn [map foldM_res].
  rewrite declare_canonical by done. destruct (declare_path paths e); cbn [mbind res_bind]; [by apply IH|done].
Qed.

(** *** Downloads *)
Lemma exact_loop_ok n events : forall chunks offset chunks' offset',
  offset = zlen (concat chunks) -> exact_loop n events chunks offset = Ok (chunks', offset') -> offset' = zlen (concat chunks').
Proof.
  induction events as [|e events IH]; intros chunks offset chunks' offset' Ho; cbn [exact_loop]; [by intros [= <- <-]|].
  destruct e as [[| | | | | | |b]|]; try done. destruct (_ <? _); [done|]. apply IH.
  rewrite concat_app, zlen_app, Ho. cbn. by rewrite app_nil_r.
Qed.

Lemma mat_body_ok b n r : readExactBody b n = Ok r -> zlen r = n.
Proof.
  destruct b as [events|content|]; cbn [readExactBody]; [| |done].
  - intros ([chunks offset] & Hl & Hr)%bind_ok. destruct (offset =? n) eqn:En; cbn [negb] in Hr; [|done].
    injection Hr as <-. apply Z.eqb_eq in En as ->. apply exact_loop_ok in Hl as ->; [|done]. by rewrite concatenate_concat.
  - intros (x & -> & Hr)%bind_ok. destruct (zlen x =? n) eqn:En; cbn [negb] in Hr; [|done]. injection Hr as <-. by apply Z.eqb_eq.
Qed.

Lemma downloaded_exact e b :
  downloaded_for (E := E) e b -> zlen b = get_int (opt_prop e "size") /\ opt_prop (opt_prop e "hashes") "sha1" = VStr (sha1 b).
Proof.
  intros (x & x' & r & _ & Hc). unfold check_download in Hc. cbv zeta in Hc. guard Hc as Eg. clear Eg.
  apply bind_ok in Hc as (u & _ & Hc). guard Hc as Eg. clear Eg. apply bind_ok in Hc as (y & Hy & Hc).
  destruct (strict_eq _ _) eqn:Es; cbn [negb] in Hc; [|done]. injection Hc as <-. split; [by eapply mat_body_ok|].
  by apply strict_eq_sym_str.
Qed.

(** *** The readings of a store *)
Section readings.
Context (f : store) (mounts : res jsstr) (status : jsstr -> res metadata) (allowed : jsstr -> res unit).

(** The mount table and what lies behind [stat] and [access] are left open. *)
Definition readings : jre_fs := mkJreFs
  (real_path f)
  mounts
  (fun p => match f p with Some (File b _) => Ok b | _ => Throw ENOENT end)
  (fun p => match f p with
            | Some (Dir m) => Ok (mkMetadata KDirectory 0 m)
            | Some (File b m) => Ok (mkMetadata KFile (zlen b) m)
            | Some (Link t) => Ok (mkMetadata KLink (zlen t) 511)
            | None => Throw ENOENT
            end)
  status
  (fun p => match f p with Some (Link t) => Ok t | _ => Throw ENOENT end)
  allowed.

Lemma file_entry_accepted e b path :
  entry_form e -> has_type "file" e = true -> f path = Some (File b (file_mode e)) -> downloaded_for (E := E) e b ->
  check_entry readings path (mkMetadata KFile (zlen b) (file_mode e)) (canonical e) = Ok tt.
Proof.
  intros He Ht Hf Hd. pose proof He as (_ & _ & Hform). pose proof Ht as Hty%has_type_value.
  assert (valid_file e = true) as Hv.
  { destruct Hform as [[H' _]|[[H' _]|[_ ?]]]; [..|done]; apply has_type_value in H'; rewrite H' in Hty; discriminate Hty. }
  unfold valid_file in Hv. cbv zeta in Hv. rewrite !andb_true_iff in Hv.
  destruct Hv as [[[[[[_ Hx] Hh] Hhk] Hm] Hz] _]. destruct (downloaded_exact e b Hd) as [Hlen Hsha].
  apply vint_true in Hz as (z & Hz & _). rewrite Hz in Hlen. change (get_int (VInt z)) with z in Hlen.
  rewrite Hsha in Hm. cbn [to_string] in Hm. apply matches_rep_cls in Hm as [Hhex Hlen40].
  assert (opt_prop (canonical (opt_prop e "hashes")) "sha1" = VStr (sha1 b)) as Hsha'.
  { rewrite (canonical_field_of _ ["sha1"]%string "sha1" Hh Hhk eq_refl ltac:(done) ltac:(apply NoDup_singleton)), Hsha. done. }
  unfold check_entry. cbv zeta. rewrite !(entry_fields e) by done. rewrite Hty, Hz. change (canonical (VInt z)) with (VInt z). cbn [canonical get_str].
  change (streq (js "file") (js "directory")) with false. change (streq (js "file") (js "link")) with false. cbv iota.
  rewrite Hsha'. cbn [md_kind md_size md_mode]. rewrite (bool_decide_eq_true_2 (KFile = KFile)) by done.
  assert (plainObject (canonical (opt_prop e "hashes")) = true) as -> by (by destruct (opt_prop e "hashes")).
  rewrite (proj2 (strict_eq_int (VInt (zlen b)) z)) by (by rewrite Hlen).
  assert (hex40 (VStr (sha1 b)) = true) as ->.
  { cbn [hex40 vstr]. rewrite andb_true_iff, Z.eqb_eq, forallb_forall. split; [unfold zlen; lia|].
    intros c Hc%list_elem_of_In. rewrite Forall_forall in Hhex. by apply Hhex. }
  cbn [negb orb fs_read readings]. rewrite Hf. cbn [mbind res_bind]. unfold throw_if.
  rewrite (proj2 (strict_eq_str (VStr (sha1 b)) (sha1 b)) eq_refl). cbn [negb orb].
  destruct (opt_prop e "executable") as [| |x| | | | |] eqn:Ex; try done. unfold file_mode. rewrite Ex.
  by destruct x.
Qed.

Lemma entry_accepted root paths e :
  entry_form e -> forallb safe_part (split_on SLASH (entry_rel e)) = true -> check_parents paths tt e = Ok tt ->
  resolve root = root -> normalize_parts [] (split_on SLASH root) <> [] ->
  fits (E := E) e (f (root ++ js "/" ++ entry_rel e)) ->
  (exists real, real_path f (root ++ js "/" ++ entry_rel e) = Ok real /\ within root real = true) ->
  verify_entry readings root paths tt (canonical e) = Ok tt.
Proof.
  intros He Hs Hpar Hroot Hne Hfit (real & Hreal & Hin). unfold verify_entry. destruct (form_path e He) as [P1 P2]. rewrite P2. cbn [get_str].
  unfold check_parents, throw_if in Hpar. rewrite P1 in Hpar. cbn [get_str] in Hpar. destruct (existsb _ _); [done|]. cbv zeta.
  set (path := root ++ js "/" ++ entry_rel e) in *.
  destruct Hfit as [[Ht Hd]|[[Ht (b & Hb & Hdl)]|[Ht Hl]]].
  - destruct (f path) as [[m| |]|] eqn:Ef; try done. cbn [fs_lstat fs_realpath readings]. rewrite Ef. cbn [mbind res_bind]. rewrite Hreal. cbn [mbind res_bind].
    rewrite Hin. cbn [negb]. unfold check_entry. cbv zeta. rewrite (entry_fields e "type" He), (proj1 (has_type_value _ _) Ht).
    cbn [canonical get_str]. change (streq (js "directory") (js "directory")) with true. cbv iota. cbn [md_kind].
    by rewrite (bool_decide_eq_true_2 (KDirectory = KDirectory)).
  - cbn [fs_lstat fs_realpath readings]. rewrite Hb. cbn [mbind res_bind]. rewrite Hreal. cbn [mbind res_bind].
    rewrite Hin. cbn [negb].
    by apply file_entry_accepted.
  - cbn [fs_lstat fs_realpath readings]. rewrite Hl. cbn [mbind res_bind]. rewrite Hreal. cbn [mbind res_bind]. rewrite Hin. cbn [negb].
    pose proof He as (_ & _ & Hform). pose proof Ht as Hty%has_type_value.
    assert (safeLinkTarget (opt_prop e "target") = true) as Hsafe.
    { destruct Hform as [[H' _]|[[_ [_ ?]]|[H' _]]]; [|done|]; apply has_type_value in H'; rewrite H' in Hty; discriminate Hty. }
    unfold safeLinkTarget in Hsafe. apply vstr_true in Hsafe as (t & Htg & _).
    unfold check_entry. cbv zeta. rewrite !(entry_fields e) by done. rewrite Hty, Htg. cbn [canonical get_str is_string negb orb].
    change (streq (js "link") (js "directory")) with false. change (streq (js "link") (js "link")) with true. cbv iota. cbn [md_kind].
    rewrite (bool_decide_eq_true_2 (KLink = KLink)) by done. cbn [negb orb fs_readlink readings]. rewrite Hl, Htg. cbn [mbind res_bind get_str].
    unfold throw_if. by rewrite (proj2 (strict_eq_str (VStr t) t) eq_refl).
Qed.
End readings.

(** ** Where the links lead *)

Definition declared_as (F : list jsval) (name : string) (rel : jsstr) : bool :=
  existsb (fun e => streq (entry_rel e) rel && has_type name e) F.

(** From a declared directory, the components of a target pass through declared
    directories, stay below the root and end at a declared directory or file. *)
Fixpoint leads (F : list jsval) (cur parts : list jsstr) : bool :=
  match parts with
  | [] => match cur with [] => false | _ => true end
  | p :: rest =>
      if streq p [] || streq p (js ".") then leads F cur rest
      else if streq p (js "..") then match cur with [] => false | _ => leads F (removelast cur) rest end
      else
        declared_as F "directory" (join (js "/") (cur ++ [p])) && leads F (cur ++ [p]) rest ||
        declared_as F "file" (join (js "/") (cur ++ [p])) && match rest with [] => true | _ => false end
  end.

Definition links_lead (F : list jsval) : bool :=
  forallb (fun e => negb (has_type "link" e) ||
    leads F (removelast (split_on SLASH (entry_rel e))) (split_on SLASH (get_str (opt_prop e "target")))) F.

Lemma fits_kind name e n : has_type name e = true -> fits (E := E) e n ->
  (name = "directory"%string -> is_dir n = true) /\ (name = "file"%string -> exists b m, n = Some (File b m)).
Proof.
  intros Ht%has_type_value Hf. split; intros ->; destruct Hf as [[H' Hd]|[[H' (b & -> & _)]|[H' Hd]]]; try done; eauto;
    apply has_type_value in H'; rewrite H' in Ht; discriminate Ht.
Qed.

Section real_paths.
Context (f : store) (ps : list jsstr) (Hne : ps <> []) (Hps : Forall word ps) (F : list jsval) (HF : entries_ok F).
Hypothesis above : forall a, a ∈ ancestors (abs ps) -> is_dir (f a) = true.
Hypothesis all_fit : forall e, e ∈ F -> fits (E := E) e (f (abs ps ++ js "/" ++ entry_rel e)).

Lemma declared_fits name rel : declared_as F name rel = true -> exists e, e ∈ F /\ has_type name e = true /\
  fits (E := E) e (f (abs ps ++ js "/" ++ rel)).
Proof.
  intros (e & He%list_elem_of_In & [<-%streq_true Ht]%andb_true_iff)%existsb_exists. eauto.
Qed.

Lemma leads_real n parts : forall cur, Forall (fun p => SLASH ∉ p) parts -> Forall word cur -> leads F cur parts = true ->
  exists qs, qs <> [] /\ Forall word qs /\ walk_path n f (ps ++ cur) parts = Ok (abs (ps ++ qs)).
Proof.
  induction parts as [|p parts IH]; intros cur Hp Hc Hl.
  { cbn [leads] in Hl. exists cur. split; [by intros ->|]. split; [done|]. by destruct n. }
  apply Forall_cons in Hp as [Hps' Hp]. cbn [leads] in Hl. destruct (streq p [] || streq p (js ".")) eqn:E1.
  { destruct (IH cur Hp Hc Hl) as (qs & Hq & Hw & Hr). exists qs. split_and!; [done..|]. rewrite <- Hr.
    destruct n; cbn [walk_path]; by rewrite E1. }
  destruct (streq p (js "..")) eqn:E2.
  { assert (cur <> []) as Ec by (by intros ->). replace (match cur with [] => false | _ => leads F (removelast cur) parts end)
      with (leads F (removelast cur) parts) in Hl by (by destruct cur).
    destruct (IH (removelast cur)) as (qs & Hq & Hw & Hr); [done| |done|].
    { rewrite Forall_forall in *. intros y Hy. apply Hc. rewrite (app_removelast_last [] (l := cur)) by done.
      apply elem_of_app. by left. }
    exists qs. split_and!; [done..|]. rewrite <- Hr. rewrite <- removelast_app by done.
    destruct n; cbn [walk_path]; by rewrite E1, E2. }
  assert (word p) as Hword.
  { split; [|done]. unfold safe_part. apply orb_false_iff in E1 as [-> ->]. by rewrite E2. }
  rewrite walk_word by done. rewrite <- app_assoc, abs_app by (done || apply snoc_nonempty).
  apply orb_true_iff in Hl as [[Hd Hl]%andb_true_iff|[Hd Hl]%andb_true_iff];
    destruct (declared_fits _ _ Hd) as (e & _ & Ht & Hfit); destruct (fits_kind _ _ _ Ht Hfit) as [Hdir Hfile].
  - specialize (Hdir eq_refl). destruct (f _) as [[m|b m|t]|]; try done. apply IH; [done| |done].
    apply Forall_app. split; [done|by constructor].
  - destruct (Hfile eq_refl) as (b & m & ->). destruct parts; [|done]. exists (cur ++ [p]). split; [apply snoc_nonempty|].
    split; [apply Forall_app; split; [done|by constructor]|]. by rewrite abs_app by (done || apply snoc_nonempty).
Qed.

Lemma within_abs qs : qs <> [] -> Forall word qs -> within (abs ps) (abs (ps ++ qs)) = true.
Proof.
  intros Hq Hw. rewrite abs_app by done. apply within_join; [|by rewrite normalize_abs].
  rewrite split_join_words; [by apply words_safe|done|by apply words_free].
Qed.

(** Every entry has a real path below the root. *)
Lemma entry_real e : e ∈ F -> entry_form e -> links_lead F = true ->
  exists real, real_path f (abs ps ++ js "/" ++ entry_rel e) = Ok real /\ within (abs ps) real = true.
Proof.
  intros He Hform Hlinks. pose proof (eo_safe F HF e He) as Hs. pose proof (all_fit e He) as Hfit.
  destruct (safe_words (entry_rel e) Hs) as (Hrne & Hrw & _).
  destruct (exists_last Hrne) as (init & l & El). 
  assert (forall a, a ∈ ancestors (dirname (abs ps ++ js "/" ++ entry_rel e)) -> is_dir (f a) = true) as Hdirs.
  { intros a [Ha|(p & Hp & ->)]%ancestors_dirname; [by apply above| |done..].
    destruct (eo_parents F HF e p He Hp) as (d & Hd & <- & Ht). by apply (fits_kind _ _ _ Ht (all_fit d Hd)). }
  rewrite below_abs in * by done. rewrite El in *. apply Forall_app in Hrw as [Hiw Hlw].
  assert (Forall word (ps ++ init)) as Hpi by (by apply Forall_app).
  assert (real_path f (abs (ps ++ init ++ [l])) = walk_path 40 f (ps ++ init) [l]) as ->.
  { unfold real_path. rewrite split_abs by (first [by destruct ps | by rewrite !Forall_app]).
    change (walk_path 40 f [] ([] :: ?x)) with (walk_path 40 f [] x). rewrite app_assoc. rewrite (walk_down 40 f (ps ++ init) [] [l]); [done|done|].
    intros i Hi. cbn [app]. apply Hdirs. rewrite app_assoc, dirname_abs; [|by destruct ps|by rewrite !Forall_app].
    apply ancestors_abs; [by destruct ps|done|]. exists i. split; [lia|done]. }
  pose proof Hlw as Hl1. apply Forall_cons in Hl1 as [Hl1 _].
  rewrite (walk_word _ _ _ _ _ Hl1). rewrite <- !app_assoc.
  destruct Hfit as [[_ Hd]|[[_ (b & -> & _)]|[Ht Hl]]].
  - destruct (f _) as [[m| |]|]; try done. exists (abs (ps ++ init ++ [l])). split; [done|].
    apply within_abs; [apply snoc_nonempty|by apply Forall_app].
  - exists (abs (ps ++ init ++ [l])). split; [done|]. apply within_abs; [apply snoc_nonempty|by apply Forall_app].
  - rewrite Hl. pose proof Hform as (_ & _ & Hty). pose proof Ht as Htv%has_type_value.
    assert (safeLinkTarget (opt_prop e "target") = true) as Hsafe.
    { destruct Hty as [[H' _]|[[_ [_ ?]]|[H' _]]]; [|done|]; apply has_type_value in H'; rewrite H' in Htv; discriminate Htv. }
    unfold safeLinkTarget in Hsafe. apply vstr_true in Hsafe as (t & Htg & Hsafe). rewrite !andb_true_iff in Hsafe.
    rewrite Htg. cbn [get_str]. destruct Hsafe as [[_ ->%negb_true_iff] _]. rewrite app_nil_r.
    unfold links_lead in Hlinks. rewrite forallb_forall in Hlinks. specialize (Hlinks e (proj1 (list_elem_of_In _ _) He)).
    rewrite Ht, El, removelast_last, Htg in Hlinks. cbn [negb orb get_str] in Hlinks.
    destruct (leads_real 39 _ init (split_on_free SLASH t) Hiw Hlinks) as (qs & Hq & Hqw & Hr). rewrite Hr.
    eexists. split; [done|]. by apply within_abs.
Qed.
End real_paths.

(** The serializer of the runtime writes what the parser reads back. *)
Definition reads_back (v : jsval) : Prop :=
  json_parse (json_pretty v ++ [10]) = Some v /\
  text_decode (utf8_encode (json_pretty v ++ [10])) = Some (json_pretty v ++ [10]).

(** Names are distinct in an object. *)
Definition distinct_names (v : jsval) : Prop := match v with VObj fields => map_wf fields | _ => True end.

(** What is required of a resolution: it is a JSON value, and none of its links
    dangles or goes through another link. *)
Definition plain_resolution (v : jsval) : Prop :=
  distinct_names v /\ reads_back (canonical v) /\ links_lead (get_list (opt_prop v "files")) = true.

Lemma root_verifies f umask mounts status allowed O expected resolution F parsed b :
  absoluteNormalizedPath O = true -> root_exact (E := E) umask f O resolution F -> validateResolution resolution = Ok F ->
  (forall a, a ∈ ancestors O -> is_dir (f a) = true) ->
  opt_prop resolution "component" = VStr (j_component expected) -> opt_prop resolution "major" = VInt (j_major expected) ->
  plain_resolution resolution ->
  json_parse (json_pretty (canonical resolution) ++ [10]) = Some parsed -> canonicalJsonBytes parsed = Ok b ->
  sha256 b = j_sha256 expected ->
  verifyRuntimeRoot (readings f mounts status allowed) O expected = Ok tt.
Proof.
  intros HO (_ & Hfits & Hman & _) Hval Habove Hc Hm (Hdn & [Hparse Hdec] & Hlinks) Hparsed Hb Hsha.
  assert (parsed = canonical resolution) as -> by congruence.
  destruct (validateResolution_ok _ _ Hval) as (Hfiles & Hform & Hok & paths & Hdecl & _ & Hpar).
  destruct (normal_path O HO) as (ps & Hne & Hps & ->).
  assert (exists fields, resolution = VObj fields) as (fields & Er).
  { destruct resolution as [| | | | | |fields|]; try done. by exists fields. }
  rewrite Er in Hdn. assert (forall k, opt_prop (canonical resolution) k = canonical (opt_prop resolution k)) as Hprop.
  { intros k. rewrite Er. by apply canonical_prop. }
  unfold verifyRuntimeRoot. cbn [fs_read readings]. change (abs ps ++ js "/.xmcl-runtime-resolution.json") with (abs ps ++ MANIFEST).
  rewrite Hman. cbn [mbind res_bind]. rewrite Hdec, Hparse. cbn [mbind res_bind].
  rewrite !Hprop, Hc, Hm. rewrite Hfiles in *. change (canonical (VInt (j_major expected))) with (VInt (j_major expected)).
  cbn [canonical is_array get_list] in *. assert (plainObject (canonical resolution) = true) as -> by (by rewrite Er).
  rewrite (proj2 (strict_eq_str (VStr (j_component expected)) _) eq_refl), (proj2 (strict_eq_int (VInt (j_major expected)) _) eq_refl).
  assert (streq (sha256 (utf8_encode (json_stringify (canonical (canonical resolution))))) (j_sha256 expected) = true) as ->.
  { apply streq_true. rewrite <- Hsha. f_equal. unfold canonicalJsonBytes in Hb. apply bind_ok in Hb as (x & Hx & [= <-]).
    by apply canonicalize_canonical in Hx as ->. }
  cbn [negb orb]. cbv zeta. rewrite declare_all_canonical by done. rewrite Hdecl. cbn [mbind res_bind].
  assert (forall l, (forall e, e ∈ l -> e ∈ F) ->
    foldM_res (verify_entry (readings f mounts status allowed) (abs ps) paths) tt (map canonical l) = Ok tt) as Hall; [|by apply Hall].
  rewrite Forall_forall in Hform, Hpar. induction l as [|e l IH]; intros Hl; [done|]. cbn [map foldM_res].
  assert (e ∈ F) as He by (apply Hl; left).
  rewrite (entry_accepted f mounts status allowed (abs ps) paths e);
    [|by apply Hform|by apply (eo_safe F Hok)|by apply Hpar|by apply resolve_abs|by rewrite normalize_abs|by apply Hfits|].
  2:{ apply (entry_real f ps Hne Hps F Hok Habove Hfits e He); [by apply Hform|done]. }
  cbn [mbind res_bind]. apply IH. intros. apply Hl. by right.
Qed.

(** C38: The materializer is atomic and exact, whatever the network answers and
    whichever system call fails.  When it succeeds, the output root did not exist
    before and holds exactly the reviewed resolution, that is, the only one for the
    JRE of the only matching toolchain of the reviewed toolchain catalog that was
    read, in the runtime catalog whose digest that catalog pins, with the digest the
    toolchain names: every declared directory, every link with its target, every
    file with bytes of the declared size and checksum downloaded from its own
    address, the resolution document, and nothing else; the total is within the
    limit.  When it fails, nothing outside the staging directory has changed except
    missing directories above the output root, and the staging directory is gone,
    or its removal was tried last and failed.  The process id is not negative, the
    random bytes are bytes and the staging name they form is not in use. *)
Theorem materialize_exact umask pid random rp tp O jreId (w : mat_world E) :
  0 <= pid -> Forall (fun x => 0 <= x < 256) random -> fresh pid random O (mw_fs w) ->
  let '(r, w') := materializeVerifiedJre umask pid random rp tp O jreId w in
  match r with
  | Ok v => exists expected resolution entries total,
      reviewed_resolution (mw_fs w) rp tp jreId expected resolution /\ validateResolution resolution = Ok entries /\
      total <= MAX_TOTAL_BYTES /\ v = mat_result expected entries total O /\ mw_fs w O = None /\
      root_exact umask (mw_fs w') O resolution entries /\
      forall k, at_or_below O k = false -> grown O (mw_fs w) (mw_fs w') k
  | Throw _ =>
      (forall k, at_or_below (staging_of pid random O) k = false -> grown O (mw_fs w) (mw_fs w') k) /\
      ((forall k, at_or_below (staging_of pid random O) k = true -> mw_fs w' k = None) \/
       exists x w1, fs_rm (staging_of pid random O) w1 = (Throw x, w'))
  end.
Proof.
  intros Hpid Hrandom Hfresh. destruct (absoluteNormalizedPath O) eqn:HO.
  - pose proof (materialize_run umask pid random O HO Hpid Hrandom rp tp jreId w Hfresh) as Hm.
    destruct (materializeVerifiedJre _ _ _ _ _ _ _ w) as [[v|x] w']; [|exact Hm].
    destruct Hm as (expected & resolution & entries & total & Hrev & Hval & _ & Ht & Hv & Hroot & HO0 & Hg & _).
    by exists expected, resolution, entries, total.
  - rewrite materialize_bad_root by done. by apply unchanged_unharmed.
Qed.

(** C39: The two halves of the JRE supply chain fit together: a root that the
    materializer finished for the reviewed JRE of the catalogs it read passes the
    registry's verification against that same JRE, entry by entry, real paths
    included, on the same store.  Of the resolutions of the runtime catalog it is
    required that they are JSON values, whose text reads back, and that their links
    lead through declared directories to a declared directory or file: the
    materializer checks only that the text of a target stays within the root, so a
    dangling link is materialized, and then the registry refuses the root. *)
Theorem materialized_root_verifies umask pid random rp tp O jreId (w : mat_world E) v w' mounts status allowed :
  0 <= pid -> Forall (fun x => 0 <= x < 256) random -> fresh pid random O (mw_fs w) ->
  materializeVerifiedJre umask pid random rp tp O jreId w = (Ok v, w') ->
  (forall raw runtime r, json_file (mw_fs w) rp raw runtime -> r ∈ get_list (opt_prop runtime "resolutions") ->
     plain_resolution r) ->
  exists expected resolution, reviewed_resolution (mw_fs w) rp tp jreId expected resolution /\
    opt_prop v "id" = VStr (j_id expected) /\ opt_prop v "sha256" = VStr (j_sha256 expected) /\
    opt_prop v "outputRoot" = VStr O /\
    verifyRuntimeRoot (readings (mw_fs w') mounts status allowed) O expected = Ok tt.
Proof.
  intros Hpid Hrandom Hfresh Hr Hjson.
  apply materialize_parts in Hr as (HO & expected & resolution & entries & total & parsed & b & Hrev & Hval & -> & Hroot & Habove & Hparsed & Hb & Hsha);
    [|done..].
  exists expected, resolution. split; [done|]. split_and!; [done..|].
  destruct Hrev as (rb & runtime & cb & doc & c & t & rs & b' & Hrt & _ & _ & _ & _ & _ & _ & Hrs & (Hin & Hco & Hma & _) & _).
  eapply root_verifies; try done. eapply Hjson; [exact Hrt|]. by rewrite Hrs.
Qed.
End accepted.

(** ** A run: a runtime with a directory, an executable and a link *)
#[local] Existing Instance ascii_unicode.
#[local] Existing Instance toy_sha256.
#[local] Instance run_sha1 : Sha1 := {| sha1 b := zdrop 24 (toy_digest b) |}.
#[local] Instance run_stringify : JsonStringify := {| json_stringify := to_string |}.
#[local] Instance run_pretty : JsonPretty := {| json_pretty := to_string |}.
Definition run_java : bytes := [202; 254].
Definition run_java_url : jsstr := js "https://piston-data.mojang.com/v1/objects/" ++ sha1 run_java ++ js "/java".

#[local] Instance run_urls : UrlParser := {| parse_url s :=
  if streq s run_java_url then Some (mkUrl (js "https:") [] [] (js "piston-data.mojang.com") []
    (js "/v1/objects/" ++ sha1 run_java ++ js "/java") [] [] s (js "https://piston-data.mojang.com"))
  else if streq s (js "https://maven.neoforged.net/installer.jar") then Some (mkUrl (js "https:") [] []
    (js "maven.neoforged.net") [] (js "/installer.jar") [] [] s (js "https://maven.neoforged.net"))
  else None |}.

Definition run_resolution : jsval :=
  obj [("component", VText "java-runtime-delta"); ("major", VInt 21);
       ("files", VArr [obj [("path", VText "bin"); ("type", VText "directory")];
          obj [("path", VText "bin/java"); ("type", VText "file"); ("executable", VBool true); ("size", VInt 2);
               ("hashes", obj [("sha1", VStr (sha1 run_java))]); ("url", VStr run_java_url)];
          obj [("path", VText "bin/java-21"); ("type", VText "link"); ("target", VText "java")]])]%string.

Definition run_runtime : jsval :=
  obj [("platform", obj [("os", VText "linux"); ("architecture", VText "x64")]); ("resolutions", VArr [run_resolution])]%string.

Definition run_digest : jsstr := Eval vm_compute in toy_digest (js "[object Object]").

Definition run_catalog : jsval :=
  obj [("schemaVersion", VInt 1); ("catalogVersion", VText "v1"); ("runtimeCatalogRevision", VStr (toy_digest (js "runtime")));
       ("approvedArtifactHosts", VArr [VText "maven.neoforged.net"]);
       ("toolchains", VArr [
          obj [("minecraftVersion", VText "1.21.1"); ("loader", loader_object (js "neoforge") (js "21.1.77"));
            ("java", obj [("component", VText "java-runtime-delta"); ("major", VInt 21)]);
            ("jre", obj [("id", VText "java-runtime-delta-21"); ("sha256", VStr run_digest); ("component", VText "java-runtime-delta");
               ("major", VInt 21); ("runtimeCatalogRevision", VStr (toy_digest (js "runtime")))]);
            ("artifacts", VArr [obj [("role", VText "primary"); ("coordinate", VText "net.neoforged:neoforge:21.1.77:installer");
               ("url", VText "https://maven.neoforged.net/installer.jar"); ("sha256", VStr run_digest); ("sizeBytes", VInt 3)]]);
            ("launchTemplate", VText "neoforge-unix-args-v1")]])]%string.

#[local] Instance run_parse : JsonParse := {| json_parse s :=
  default None (map_get s [(js "runtime", Some run_runtime); (js "catalog", Some run_catalog);
    (js "[object Object]" ++ [10], Some (canonical run_resolution))]) |}.

(** One object on the server, and no failing system call. *)
#[local] Instance run_env : MaterializerEnv unit := {|
  mat_fetch url _ :=
    (Ok (if streq url run_java_url
         then Some (mkResponse 200 false [] None (Some (js "2")) (Stream [Chunk (VBytes [202]); Chunk (VBytes [254])]))
         else None), tt);
  mat_fault _ := (None, tt) |}.

Definition run_store : store := fun k =>
  default None (map_get k [(js "/runtime.json", Some (File (js "runtime") 420)); (js "/catalog.json", Some (File (js "catalog") 420));
    (js "/", Some (Dir 493)); (js "/srv", Some (Dir 493))]).
Definition run_start : mat_world unit := mkMatWorld run_store tt.
Definition run_root : jsstr := js "/srv/jre/java-21".

Definition run_random : bytes := [1; 2; 171; 4; 5; 6; 7; 8].

Definition run_all : res jsval * mat_world unit :=
  materializeVerifiedJre 18 77 run_random (js "/runtime.json") (js "/catalog.json") run_root (js "java-runtime-delta-21") run_start.
Definition run_value : jsval := Eval vm_compute in get_ok VUndef run_all.1.
Definition run_end : mat_world unit := run_all.2.

Lemma run_done : run_all = (Ok run_value, run_end).
Proof.
  assert (run_all.1 = Ok run_value) as <- by vm_cast_no_check (eq_refl (@Ok jsval run_value)). apply surjective_pairing.
Qed.

(** What the tree looks like afterwards. *)
Example run_tree :
  map (mw_fs run_end) (map (fun p => run_root ++ js p) [""; "/bin"; "/bin/java"; "/bin/java-21"; "/lib"]%string) =
  [Some (Dir 493); Some (Dir 493); Some (File run_java 493); Some (Link (js "java")); None].
Proof. vm_compute. reflexivity. Qed.

Lemma run_random_bytes : Forall (fun x => 0 <= x < 256) run_random.
Proof. repeat (constructor; [lia|]). constructor. Qed.

Lemma run_fresh : fresh 77 run_random run_root (mw_fs run_start).
Proof.
  intros k Hk. cbn [mw_fs run_start]. unfold run_store.
  destruct (map_get k _) as [n|] eqn:Eg; [|done].
  apply map_get_In in Eg. rewrite !elem_of_cons in Eg.
  destruct Eg as [Ek|[Ek|[Ek|[Ek|Ek]]]]; [injection Ek as -> _; vm_compute in Hk; discriminate Hk..|by apply elem_of_nil in Ek].
Qed.

Lemma materialize_exact_witness :
  exists expected resolution entries,
    reviewed_resolution (mw_fs run_start) (js "/runtime.json") (js "/catalog.json") (js "java-runtime-delta-21") expected resolution /\
    validateResolution resolution = Ok entries /\ root_exact 18 (mw_fs run_end) run_root resolution entries.
Proof.
  pose proof (materialize_exact 18 77 run_random (js "/runtime.json") (js "/catalog.json") run_root (js "java-runtime-delta-21")
    run_start ltac:(lia) run_random_bytes run_fresh) as Hm.
  change (materializeVerifiedJre 18 77 run_random (js "/runtime.json") (js "/catalog.json") run_root (js "java-runtime-delta-21")
    run_start) with run_all in Hm.
  rewrite run_done in Hm. destruct Hm as (expected & resolution & entries & total & Hrev & Hval & _ & _ & _ & Hroot & _).
  exists expected, resolution, entries. split; [exact Hrev|]. split; [exact Hval|exact Hroot].
Defined.

Lemma run_texts raw runtime r :
  json_file (mw_fs run_start) (js "/runtime.json") raw runtime -> r ∈ get_list (opt_prop runtime "resolutions") ->
  plain_resolution r.
Proof.
  intros (mode & text & Hf & Ht & Hp) Hr. assert (raw = js "runtime") as -> by (vm_compute in Hf; vm_compute; congruence).
  assert (text = js "runtime") as -> by (vm_compute in Ht; vm_compute; congruence).
  assert (runtime = run_runtime) as -> by (vm_compute in Hp; vm_compute; congruence).
  change (r ∈ [run_resolution]) in Hr. apply list_elem_of_singleton in Hr as ->. split; [|split].
  - apply (bool_decide_unpack _). vm_compute. exact I.
  - split; vm_compute; reflexivity.
  - vm_compute. reflexivity.
Qed.

Lemma materialized_root_verifies_witness :
  exists expected, opt_prop run_value "sha256" = VStr (j_sha256 expected) /\
    verifyRuntimeRoot (readings (mw_fs run_end) (Ok []) (fun _ => Throw ENOENT) (fun _ => Ok tt)) run_root expected = Ok tt.
Proof.
  destruct (materialized_root_verifies 18 77 run_random (js "/runtime.json") (js "/catalog.json") run_root (js "java-runtime-delta-21")
    run_start run_value run_end (Ok []) (fun _ => Throw ENOENT) (fun _ => Ok tt)
    ltac:(lia) run_random_bytes run_fresh run_done run_texts) as (expected & resolution & _ & _ & Hsha & _ & Hv).
  exists expected. split; [exact Hsha|exact Hv].
Defined.
