(* ===== verification/Worker.v ===== *)
(** * The compiler worker ([compiler.mjs])

    [CompilerWorker.run]: one job from its storage grants to the publication
    callback.  The control plane, storage ([fetch]) and the runtime builder are
    operations of a class over an outside world; every call the worker makes is
    also written to a log, so that the order of calls is part of the model. *)

From S2P Require Import Prelude JsText JsNum JsValue Regex Validators Limits Node TarZst Bundle Content Effects Catalog Downloader Builder.

(** ** Services *)

(** [Date.parse(text)], [None] for NaN. *)
Class DateParse := { date_parse : jsstr -> option Z }.

(** [Number(text)], with the value of a plain decimal number. *)
Class NumberParse := {
  number_parse : jsstr -> jsnum;
  number_parse_decimal : forall s, matches decimal s = true -> is_safe (parse_radix 10 s) = true ->
    number_parse s = NInt (parse_radix 10 s);
}.

Inductive method := GET | PUT.

#[export] Instance method_eq_dec : EqDecision method.
Proof. solve_decision. Defined.

Record request := mkRequest {
  rq_method : method;
  rq_url : jsstr;
  rq_headers : jsval;
  rq_body : option bytes;
}.

(** The calls the worker makes. *)
Inductive event :=
  | EvGetGrants (deploymentId : jsval)
  | EvBuild
  | EvRequest (r : request)
  | EvPrepare (publication : jsval)
  | EvPublish (publication : jsval)
  | EvFailed (report : jsval).

Class RuntimeBuilder (W : Type) := {
  builder_build : manifest -> list (jsstr * bytes) -> jsval -> jsstr -> eff W jsval;
}.

Class Services (W : Type) := {
  getGrants : jsval -> eff W jsval;
  prepareUpload : jsval -> eff W jsval;
  publish : jsval -> eff W jsval;
  failed : jsval -> eff W jsval;
  storage_fetch : request -> eff W response;
  storage_timer : eff W bool;
}.

(** ** Grants and jobs *)

(** [hasExactHeaders(value, expected)] *)
Definition hasExactHeaders (value : jsval) (expected : list (string * string)) : bool :=
  match value with
  | VUndef => match expected with [] => true | _ => false end
  | _ =>
      plainObject value && sameKeys value (map fst expected) &&
      forallb (fun kv => strict_eq (opt_prop value kv.1) (VText kv.2)) expected
  end.

Definition hasExactOutputHeaders (value : jsval) : bool :=
  hasExactHeaders value [("if-none-match", "*")]%string ||
  hasExactHeaders value [("if-none-match", "*"); ("x-ms-blob-type", "BlockBlob")]%string.

Section grants.
Context `{UrlParser} `{DateParse}.

Definition exactHttpsUrl (value : jsval) : bool :=
  match parse_url (to_string value) with
  | Some u => streq (u_protocol u) (js "https:") && streq (u_username u) [] && streq (u_password u) [] &&
              streq (u_hash u) []
  | None => false
  end.

(** [None] is NaN. *)
Definition grantExpiresAt (grant : jsval) : option Z :=
  match date_parse (to_string (opt_prop grant "expiresAt")) with
  | Some t => if is_safe t then Some t else None
  | None => None
  end.

Definition method_name (m : method) : string := match m with GET => "GET" | PUT => "PUT" end.

Definition isExactSignedGrant (grant : jsval) (m : method) : bool :=
  match m with
  | PUT => hasExactKeys grant ["key"; "method"; "url"; "expiresAt"; "headers"]%string
  | GET => hasExactKeys grant ["key"; "method"; "url"; "expiresAt"]%string ||
           hasExactKeys grant ["key"; "method"; "url"; "expiresAt"; "headers"]%string
  end &&
  strict_eq (opt_prop grant "method") (VText (method_name m)) && is_string (opt_prop grant "key") &&
  exactHttpsUrl (opt_prop grant "url") && bool_decide (is_Some (grantExpiresAt grant)).

Definition isExactReconciliationGrant (grant : jsval) (expectedKey : jsval) : bool :=
  truthy grant && strict_eq (opt_prop grant "method") (VText "GET") &&
  strict_eq (opt_prop grant "key") expectedKey && isExactSignedGrant grant GET &&
  hasExactHeaders (opt_prop grant "headers") [].

(** [grants.find((grant) => grant.method === name)] *)
Fixpoint find_grant (name : string) (grants : list jsval) : res (option jsval) :=
  match grants with
  | [] => Ok None
  | g :: rest =>
      m ← prop g "method";
      if strict_eq m (VText name) then Ok (Some g) else find_grant name rest
  end.

Definition invalid_grants : exn := failure "invalid_grants".

(** [grantExpiresAt(grant) <= now], false for NaN *)
Definition expired (grant : jsval) (now : Z) : bool :=
  match grantExpiresAt grant with Some t => t <=? now | None => false end.

Definition verifyGrantSet (grants job : jsval) (now : Z) (requireUnexpired : bool) : res (jsval * jsval) :=
  let all := get_list (opt_prop grants "grants") in
  if negb (hasExactKeys grants ["accountId"; "serviceId"; "deploymentId"; "compilerRequestId";
             "manifestSha256"; "grants"]%string) ||
     negb (strict_eq (opt_prop grants "accountId") (opt_prop job "accountId")) ||
     negb (strict_eq (opt_prop grants "serviceId") (opt_prop job "serviceId")) ||
     negb (strict_eq (opt_prop grants "deploymentId") (opt_prop job "deploymentId")) ||
     negb (strict_eq (opt_prop grants "compilerRequestId") (opt_prop job "compilerRequestId")) ||
     negb (strict_eq (opt_prop grants "manifestSha256") (opt_prop job "manifestSha256")) ||
     negb (is_array (opt_prop grants "grants"))
  then Throw invalid_grants
  else
    i ← find_grant "GET" all;
    o ← find_grant "PUT" all;
    match i, o with
    | Some input, Some output =>
        if negb (zlen all =? 2) ||
           negb (strict_eq (opt_prop input "key")
                   (opt_prop (opt_prop (opt_prop job "frozenManifest") "archive") "key")) ||
           negb (strict_eq (opt_prop output "key") (opt_prop job "expectedContentKey")) ||
           negb (isExactSignedGrant input GET) || negb (isExactSignedGrant output PUT) ||
           negb (hasExactHeaders (opt_prop input "headers") []) ||
           negb (hasExactOutputHeaders (opt_prop output "headers")) ||
           (requireUnexpired &&
            (negb (is_safe now && (0 <? now)) || expired input now || expired output now))
        then Throw invalid_grants
        else Ok (input, output)
    | _, _ => Throw invalid_grants
    end.
End grants.

Definition invalid_job : exn := failure "invalid_job".

Definition key_prefix (accountId serviceId : jsstr) : jsstr :=
  js "shared-hosting/" ++ accountId ++ js "/" ++ serviceId ++ js "/".

Definition input_key (accountId serviceId importId : jsstr) : jsstr :=
  key_prefix accountId serviceId ++ js "compiler-inputs/" ++ importId ++ js ".xmcl-server-bundle".

Definition content_key (accountId serviceId manifestSha256 : jsstr) : jsstr :=
  key_prefix accountId serviceId ++ js "compiler-content/" ++ manifestSha256 ++ js ".tar.zst".

Definition validateCompilerJob (job : jsval) : res unit :=
  let frozen := opt_prop job "frozenManifest" in
  let archive := opt_prop frozen "archive" in
  let str k := get_str (opt_prop job k) in
  if negb (hasExactKeys job ["accountId"; "serviceId"; "deploymentId"; "compilerRequestId";
             "manifestSha256"; "expectedContentKey"; "frozenManifest"]%string) ||
     negb (vstr validKeySegment (opt_prop job "accountId")) ||
     negb (vstr validKeySegment (opt_prop job "serviceId")) ||
     negb (vstr validKeySegment (opt_prop job "deploymentId")) ||
     negb (vstr validSha256 (opt_prop job "manifestSha256")) ||
     negb (vstr validKeySegment (opt_prop job "compilerRequestId")) ||
     negb (is_string (opt_prop job "expectedContentKey")) ||
     negb (strict_eq (opt_prop frozen "sourceFormat") (VText "xmcl_server_bundle"))
  then Throw invalid_job
  else if negb (vstr validSha256 (opt_prop archive "sha256")) ||
     negb (vint (fun z => (1 <=? z) && (z <=? MAX_BUNDLE_BYTES)) (opt_prop archive "sizeBytes")) ||
     negb (is_string (opt_prop archive "key")) || negb (vstr validKeySegment (opt_prop frozen "importId"))
  then Throw invalid_job
  else
    throw_if
      (negb (strict_eq (opt_prop archive "key")
         (VStr (input_key (str "accountId"%string) (str "serviceId"%string) (get_str (opt_prop frozen "importId"))))) ||
       negb (strict_eq (opt_prop job "expectedContentKey")
         (VStr (content_key (str "accountId"%string) (str "serviceId"%string) (str "manifestSha256"%string)))))
      invalid_job.

(** ** Storage requests *)

(** The reading loop of [readExactBody] and [hashExactBody]; [limit] is the
    second bound of the former. *)
Fixpoint body_loop (expectedSize : Z) (limit : option Z) (mismatch malformed : exn)
    (events : list read_event) (chunks : list bytes) (total : Z) : res (list bytes * Z) :=
  match events with
  | [] => Ok (chunks, total)
  | ReadError e :: _ => Throw e
  | Chunk (VBytes value) :: rest =>
      let total' := total + zlen value in
      if (expectedSize <? total') || match limit with Some l => l <? total' | None => false end
      then Throw mismatch
      else body_loop expectedSize limit mismatch malformed rest (chunks ++ [value]) total'
  | Chunk _ :: _ => Throw malformed
  end.

Definition readExactBody (r : response) (expectedSize : Z) : res bytes :=
  let mismatch := failure "input_size_mismatch" in
  match rs_body r with
  | Buffer content =>
      b ← content; if negb (zlen b =? expectedSize) then Throw mismatch else Ok b
  | NoBody => Throw (TypeError "arrayBuffer is not a function")
  | Stream events =>
      r ← body_loop expectedSize (Some MAX_BUNDLE_BYTES) mismatch (failure "input_download_failed") events [] 0;
      let '(chunks, total) := r in
      if negb (total =? expectedSize) then Throw mismatch else Ok (concatenate chunks total)
  end.

Section storage.
Context {W : Type} `{Sha256} `{UrlParser} `{NumberParse} {services : Services W}.
Abbreviation M := (eff (W * list event)).

(** The hash of the chunks is that of their concatenation. *)
Definition hashExactBody (r : response) (expectedSize : Z) : res jsstr :=
  let mismatch := failure "content_reconciliation_failed" in
  match rs_body r with
  | Buffer content =>
      b ← content; if negb (zlen b =? expectedSize) then Throw mismatch else Ok (sha256 b)
  | NoBody => Throw (TypeError "arrayBuffer is not a function")
  | Stream events =>
      r ← body_loop expectedSize None mismatch mismatch events [] 0;
      let '(chunks, total) := r in
      if negb (total =? expectedSize) then Throw mismatch else Ok (sha256 (concat chunks))
  end.

(** [exactRequest]: the request is issued and raced against its timeout; any
    exception that is not a [CompilerFailure] becomes [failureCode]. *)
Definition exactRequest {A} (rq : request) (failureCode : string) (validateResponse : response -> res A) : M A :=
  try_catch
    (r ← logged (EvRequest rq)
       (fired ← storage_timer;
        if (fired : bool) then throw (failure failureCode) else storage_fetch rq);
     lift (validateResponse r))
    (fun e => throw (as_failure failureCode e)).

(** [!response.ok || response.redirected || (response.url && ...)] *)
Definition check_response (r : response) (grant : jsval) (failed_ : exn) : res unit :=
  if negb ((200 <=? rs_status r) && (rs_status r <=? 299)) || rs_redirected r then Throw failed_
  else if streq (rs_url r) [] then Ok tt
  else
    match parse_url (rs_url r), parse_url (to_string (opt_prop grant "url")) with
    | Some a, Some b => throw_if (negb (streq (u_href a) (u_href b))) failed_
    | _, _ => Throw (TypeError "Invalid URL")
    end.

(** [Number(response.headers.get("content-length") ?? 0)] *)
Definition response_length (r : response) : jsnum :=
  match rs_contentLength r with Some text => number_parse text | None => NInt 0 end.

Definition grant_request (m : method) (grant : jsval) (b : option bytes) : request :=
  mkRequest m (to_string (opt_prop grant "url")) (opt_prop grant "headers") b.

Definition downloadExact (grant expected : jsval) : M bytes :=
  let failed_ := failure "input_download_failed" in
  let mismatch := failure "input_size_mismatch" in
  exactRequest (grant_request GET grant None) "input_download_failed" (fun r =>
    _ ← check_response r grant failed_;
    match response_length r with
    | NInt length =>
        if negb (is_safe length) || (length <? 1) || (MAX_BUNDLE_BYTES <? length) ||
           negb (strict_eq (VInt length) (opt_prop expected "sizeBytes"))
        then Throw mismatch
        else
          b ← readExactBody r length;
          if negb (strict_eq (VStr (sha256 b)) (opt_prop expected "sha256"))
          then Throw (failure "input_hash_mismatch") else Ok b
    | _ => Throw mismatch
    end).

Definition uploadExact (grant : jsval) (archive : bytes) : M unit :=
  exactRequest (grant_request PUT grant (Some archive)) "content_upload_failed" (fun r =>
    check_response r grant (failure "content_upload_failed")).

Definition reconcileExactUpload `{DateParse} (grant publication : jsval) : M unit :=
  let failed_ := failure "content_reconciliation_failed" in
  let content := opt_prop publication "content" in
  if negb (isExactReconciliationGrant grant (opt_prop content "key"))
  then throw (failure "invalid_reconciliation_grant")
  else
    exactRequest (grant_request GET grant None) "content_reconciliation_failed" (fun r =>
      _ ← check_response r grant failed_;
      match response_length r with
      | NInt length =>
          if negb (is_safe length) || negb (strict_eq (VInt length) (opt_prop content "compressedSize"))
          then Throw failed_
          else
            digest ← hashExactBody r length;
            throw_if (negb (strict_eq (VStr digest) (opt_prop content "sha256"))) failed_
      | _ => Throw failed_
      end).
End storage.

(** ** Building and publishing *)
Definition invalid_upload_preparation : exn := failure "invalid_upload_preparation".

(** [typeof v === "object" && v] *)
Definition is_object (v : jsval) : bool :=
  match v with VObj _ | VArr _ | VBytes _ => true | _ => false end.

Definition verifyPreparedUpload (value job : jsval) : res jsval :=
  let publication := opt_prop value "publication" in
  let content := opt_prop publication "content" in
  if negb (val_in (opt_prop value "status") ["upload_prepared"; "upload_existing"]%string) ||
     negb (strict_eq (opt_prop publication "deploymentId") (opt_prop job "deploymentId")) ||
     negb (strict_eq (opt_prop publication "manifestSha256") (opt_prop job "manifestSha256")) ||
     negb (strict_eq (opt_prop content "key") (opt_prop job "expectedContentKey")) ||
     negb (vstr validSha256 (opt_prop content "sha256")) ||
     negb (vint (Z.leb 1) (opt_prop content "compressedSize")) ||
     negb (vint (Z.leb 1) (opt_prop content "logicalSize")) ||
     negb (is_array (opt_prop content "paths")) || negb (is_object (opt_prop publication "descriptor"))
  then Throw invalid_upload_preparation
  else Ok publication.

Definition publicationForControlPlane (job built : jsval) : res jsval :=
  let content := opt_prop built "content" in
  let entries := get_list (opt_prop content "entries") in
  let launch := opt_prop (opt_prop built "descriptor") "launch" in
  compatibility ← prop (opt_prop job "frozenManifest") "compatibility";
  minecraftVersion ← prop compatibility "minecraftVersion";
  catalog ← prop compatibility "runtimeCatalog";
  catalogSha ← prop catalog "sha256";
  Ok (obj [("deploymentId", opt_prop job "deploymentId"); ("manifestSha256", opt_prop job "manifestSha256");
     ("content", obj [("key", opt_prop content "key"); ("sha256", opt_prop content "sha256");
        ("compressedSize", opt_prop content "sizeBytes");
        ("logicalSize", VInt (foldr (fun e total => get_int (opt_prop e "sizeBytes") + total) 0 entries));
        ("paths", VArr (map (fun e => opt_prop e "path") entries))]);
     ("descriptor", obj [("schemaVersion", VInt 1); ("minecraftVersion", minecraftVersion);
        ("java", opt_prop compatibility "java"); ("runtimeCatalog", obj [("sha256", catalogSha)]);
        ("loader", obj [("kind", opt_prop compatibility "loader");
           ("version", opt_prop compatibility "loaderVersion")]);
        ("launch", obj [("kind", opt_prop launch "kind"); ("path", opt_prop launch "path");
           ("arguments", opt_prop launch "arguments")]);
        ("contentSha256", opt_prop content "sha256")])]%string).

(** The code an error carries ([error?.code]). *)
Definition error_code (e : exn) : option string :=
  match e with
  | CompilerFailure c | ToolchainCatalogFailure c | ServiceIdentityError c | WorldSeedFailure c | MaterializerFailure c
  | HttpWorkerError _ c | CodedError _ c => Some c
  | PlainError _ | TypeError _ | OutOfFuel => None
  end.

Definition failureCodes : list string :=
  ["unsupported_compatibility"; "compiler_unavailable"; "compiler_failed"]%string.

Definition classifyFailure (e : exn) : string :=
  match error_code e with
  | Some c => if bool_decide (c ∈ failureCodes) then c else "compiler_failed"
  | None => "compiler_failed"
  end.

(** What [run] returns. *)
Inductive outcome :=
  | Published (deploymentId : jsval)
  | PublishedCallbackUncertain (publication : jsval)
  | UploadReconciliationUncertain (publication : jsval)
  | Failed (code : string).

Section run.
Context {W : Type} `{Unicode} `{Sha256} `{UrlParser} `{NumberParse} `{DateParse} `{JsonParse} `{JsonStringify}
  `{InflateRaw} {services : Services W} {builder : RuntimeBuilder W}.
Abbreviation M := (eff (W * list event)).

Definition verifyBuiltContent (built job : jsval) : res unit :=
  let launch := opt_prop (opt_prop built "descriptor") "launch" in
  match opt_prop built "archive" with
  | VBytes archive =>
      if negb (truthy (opt_prop built "content")) ||
         negb (strict_eq (opt_prop (opt_prop built "content") "key") (opt_prop job "expectedContentKey")) ||
         negb (strict_eq (opt_prop launch "path") (VStr LAUNCH_SH)) ||
         negb (strict_eq (opt_prop launch "kind") (VText "generated-server-launcher")) ||
         negb (match opt_prop launch "arguments" with VArr [] => true | _ => false end)
      then Throw invalid_builder_output
      else validateImmutableContent archive (opt_prop built "content") (opt_prop built "descriptor")
  | _ => Throw invalid_builder_output
  end.

(** The [try] block up to [uploadPreparationStarted = true]: the upload grant,
    the archive and the publication. *)
Definition prepare_publication (job : jsval) : M (jsval * bytes * jsval) :=
  _ ← lift (validateCompilerJob job);
  grants ← logged (EvGetGrants (opt_prop job "deploymentId")) (getGrants (opt_prop job "deploymentId"));
  io ← lift (verifyGrantSet grants job 0 false);
  let '(input, output) := io in
  let frozen := opt_prop job "frozenManifest" in
  archive ← downloadExact input (opt_prop frozen "archive");
  bundle ← lift (validateBundle archive frozen);
  built ← logged EvBuild (builder_build bundle.1 bundle.2 frozen (get_str (opt_prop job "expectedContentKey")));
  _ ← lift (verifyBuiltContent built job);
  publication ← lift (publicationForControlPlane job built);
  mret (output, match opt_prop built "archive" with VBytes b => b | _ => [] end, publication).

(** From [prepareUpload] to the bound publication. *)
Definition upload_bound (job output : jsval) (archive : bytes) (publication : jsval) : M jsval :=
  prepared ← logged (EvPrepare publication) (prepareUpload publication);
  bound ← lift (verifyPreparedUpload prepared job);
  let reconciliation := opt_prop prepared "reconciliation" in
  let upload_or_reconcile :=
    try_catch (uploadExact output archive) (fun _ => reconcileExactUpload reconciliation bound) in
  _ ← (if strict_eq (opt_prop prepared "status") (VText "upload_prepared")
       then upload_or_reconcile
       else try_catch (reconcileExactUpload reconciliation bound) (fun _ => upload_or_reconcile));
  mret bound.

(** The failure report. *)
Definition report_failure (job : jsval) (e : exn) : M outcome :=
  let code := classifyFailure e in
  let report := obj [("deploymentId", opt_prop job "deploymentId");
    ("manifestSha256", opt_prop job "manifestSha256"); ("code", VText code)]%string in
  try_catch (_ ← logged (EvFailed report) (failed report); mret (Failed code)) (fun _ => mret (Failed code)).

(** [run(job)]; the two flags of the source are the place in this sequence at
    which an exception is caught. *)
Definition run (job : jsval) : M outcome := fun s =>
  match prepare_publication job s with
  | (Throw e, s1) => report_failure job e s1
  | (Ok (output, archive, publication), s1) =>
      match upload_bound job output archive publication s1 with
      | (Throw _, s2) => (Ok (UploadReconciliationUncertain publication), s2)
      | (Ok bound, s2) =>
          match logged (EvPublish bound) (publish bound) s2 with
          | (Throw _, s3) => (Ok (PublishedCallbackUncertain bound), s3)
          | (Ok _, s3) => (Ok (Published (opt_prop job "deploymentId")), s3)
          end
      end
  end.
End run.

Section run_proofs.
Context {W : Type} `{Unicode} `{Sha256} `{UrlParser} `{NumberParse} `{DateParse} `{JsonParse} `{JsonStringify}
  `{InflateRaw} {services : Services W} {builder : RuntimeBuilder W}.

Definition harmless (e : event) : Prop :=
  match e with
  | EvGetGrants _ | EvBuild => True
  | EvRequest r => rq_method r = GET
  | _ => False
  end.

Lemma exactRequest_calls {A} ok rq code (f : response -> res A) :
  ok (EvRequest rq) -> only_calls ok (exactRequest (W := W) rq code f).
Proof.
  intros Hok. unfold exactRequest. apply only_calls_try; [|intros; apply only_calls_lift].
  apply only_calls_bind; [by apply only_calls_logged|intros; apply only_calls_lift].
Qed.

Lemma prepare_publication_calls job : only_calls harmless (prepare_publication (W := W) job).
Proof.
  unfold prepare_publication. apply only_calls_bind; [apply only_calls_lift|intros []].
  apply only_calls_bind; [by apply only_calls_logged|intros grants].
  apply only_calls_bind; [apply only_calls_lift|intros [input output]].
  apply only_calls_bind; [by apply exactRequest_calls|intros archive].
  apply only_calls_bind; [apply only_calls_lift|intros bundle].
  apply only_calls_bind; [by apply only_calls_logged|intros built].
  apply only_calls_bind; [apply only_calls_lift|intros []].
  apply only_calls_bind; [apply only_calls_lift|intros publication]. apply only_calls_ret.
Qed.

End run_proofs.

(** ** Invariants of the calls

    A property of the world and the log that every call keeps is kept by
    [run]. *)
Section run_invariant.
Context {W : Type} `{Unicode} `{Sha256} `{UrlParser} `{NumberParse} `{DateParse} `{JsonParse} `{JsonStringify}
  `{InflateRaw} {services : Services W} {builder : RuntimeBuilder W}.
Context (J : W * list event -> Prop).
Hypothesis J_grants : forall d, preserves J (logged (EvGetGrants d) (getGrants d)).
Hypothesis J_build : forall m es v k, preserves J (logged EvBuild (builder_build m es v k)).
Hypothesis J_request : forall rq code,
  preserves J (logged (EvRequest rq)
    (fired ← storage_timer; if (fired : bool) then throw (failure code) else storage_fetch rq)).
Hypothesis J_prepare : forall p, preserves J (logged (EvPrepare p) (prepareUpload p)).
Hypothesis J_publish : forall p, preserves J (logged (EvPublish p) (publish p)).
Hypothesis J_failed : forall p, preserves J (logged (EvFailed p) (failed p)).
#[local] Hint Resolve J_grants J_build J_request J_prepare J_publish J_failed : preserves.

Lemma exactRequest_preserves {A} rq code (f : response -> res A) : preserves J (exactRequest rq code f).
Proof. unfold exactRequest. preserves. Qed.
#[local] Hint Resolve exactRequest_preserves : preserves.

Lemma reconcile_preserves grant publication : preserves J (reconcileExactUpload grant publication).
Proof. unfold reconcileExactUpload. preserves. Qed.

Lemma uploadExact_preserves grant archive : preserves J (uploadExact grant archive).
Proof. apply exactRequest_preserves. Qed.

Lemma downloadExact_preserves grant expected : preserves J (downloadExact grant expected).
Proof. apply exactRequest_preserves. Qed.
#[local] Hint Resolve reconcile_preserves uploadExact_preserves downloadExact_preserves : preserves.

Lemma prepare_publication_preserves job : preserves J (prepare_publication job).
Proof. unfold prepare_publication. preserves. Qed.

Lemma upload_bound_preserves job output archive publication :
  preserves J (upload_bound job output archive publication).
Proof. unfold upload_bound. cbv zeta. preserves. Qed.

Lemma report_failure_preserves job e : preserves J (report_failure job e).
Proof. unfold report_failure. cbv zeta. preserves. Qed.

Lemma run_preserves job : preserves J (run job).
Proof.
  intros s Hs. unfold run. pose proof (prepare_publication_preserves job s Hs) as Hp.
  destruct (prepare_publication job s) as [[[[output archive] publication]|e] s1];
    [|by apply report_failure_preserves].
  pose proof (upload_bound_preserves job output archive publication s1 Hp) as Hu.
  destruct (upload_bound _ _ _ _ s1) as [[bound|e] s2]; [|done].
  pose proof (J_publish bound s2 Hu) as Hb. by destruct (logged _ _ s2) as [[?|?] s3].
Qed.
End run_invariant.

(** ** One request *)
Section exchanges.
Context {W : Type} `{Sha256} `{UrlParser} `{NumberParse} {services : Services W}.

(** A request and its answer, or the timeout. *)
Definition exchange (rq : request) : eff W response :=
  fired ← storage_timer; if (fired : bool) then throw (PlainError "timeout") else storage_fetch rq.

(** An accepted answer: success, not redirected, from the granted URL. *)
Definition answered_ok (r : response) (grant : jsval) : Prop :=
  200 <= rs_status r <= 299 /\ rs_redirected r = false /\
  (rs_url r = [] \/ exists a b, parse_url (rs_url r) = Some a /\
     parse_url (to_string (opt_prop grant "url")) = Some b /\ u_href a = u_href b).

Lemma check_response_accepts r grant e : check_response r grant e = Ok tt -> answered_ok r grant.
Proof.
  unfold check_response. destruct (_ || _) eqn:E; [done|]. rewrite orb_false_iff, negb_false_iff, andb_true_iff, !Z.leb_le in E.
  destruct E as [Hs Hr]. destruct (streq (rs_url r) []) eqn:Eu.
  { apply streq_true in Eu. intros _. split_and!; try done; [lia..|by left]. }
  destruct (parse_url (rs_url r)) as [x|] eqn:Ex; [|done]. 
  destruct (parse_url (to_string (opt_prop grant "url"))) as [y|] eqn:Ey; [|done].
  intros Ht%throw_if_ok. rewrite negb_false_iff, streq_true in Ht.
  split_and!; try done; [lia..|right]. by exists x, y.
Qed.

(** Whatever a request answers, it is made once, and noted. *)
Lemma exactRequest_cases {A} rq code (f : response -> res A) w l :
  exists x, exactRequest rq code f (w, l) = (x, ((exchange rq w).2, l ++ [EvRequest rq])) /\
    forall a, x = Ok a -> exists r, (exchange rq w).1 = Ok r /\ f r = Ok a.
Proof.
  unfold exactRequest, exchange, try_catch, mbind, eff_bind, logged. cbn [fst snd].
  destruct (storage_timer w) as [[[]|e] w1]; cbn [fst snd].
  - eexists. split; [reflexivity|]. intros a E. by destruct (as_failure _ _).
  - destruct (storage_fetch rq w1) as [[r|e] w2]; cbn [fst snd].
    + unfold lift. destruct (f r) as [a|e] eqn:Ef; eexists; (split; [reflexivity|]); [|done].
      intros a' [= <-]. by exists r.
    + eexists. split; [reflexivity|]. done.
  - eexists. split; [reflexivity|]. done.
Qed.

Lemma exactRequest_ok {A} rq code (f : response -> res A) w l a s' :
  exactRequest rq code f (w, l) = (Ok a, s') ->
  exists r w', exchange rq w = (Ok r, w') /\ f r = Ok a /\ s' = (w', l ++ [EvRequest rq]).
Proof.
  intros E. destruct (exactRequest_cases rq code f w l) as (x & Hx & Hf). rewrite E in Hx. injection Hx as <- ->.
  destruct (Hf a eq_refl) as (r & Hr & Ha). exists r, (exchange rq w).2. split_and!; try done.
  rewrite <- Hr. apply surjective_pairing.
Qed.

Lemma exactRequest_answered {A} rq code (f : response -> res A) w l r w' a :
  exchange rq w = (Ok r, w') -> f r = Ok a -> exactRequest rq code f (w, l) = (Ok a, (w', l ++ [EvRequest rq])).
Proof.
  unfold exactRequest, exchange, try_catch, mbind, eff_bind, logged. cbn [fst snd].
  destruct (storage_timer w) as [[[]|e] w1]; cbn [fst snd]; [done| |done].
  intros -> Hf. cbn [fst snd]. unfold lift. by rewrite Hf.
Qed.

Lemma body_loop_ok expectedSize limit mismatch malformed events : forall chunks total chunks' total',
  total = zlen (concat chunks) ->
  body_loop expectedSize limit mismatch malformed events chunks total = Ok (chunks', total') ->
  total' = zlen (concat chunks') /\ exists new, chunks' = chunks ++ new /\ events = map (fun c => Chunk (VBytes c)) new.
Proof.
  induction events as [|e events IH]; intros chunks total chunks' total' Ht; cbn [body_loop].
  { intros [= <- <-]. split; [done|]. exists []. by rewrite app_nil_r. }
  destruct e as [[| | | | | | |b]|]; try done. cbv zeta. destruct (_ || _) eqn:E; [done|].
  intros (Hz & new & -> & ->)%IH; [|by rewrite concat_app, zlen_app, Ht; cbn; rewrite app_nil_r].
  split; [done|]. exists (b :: new). by rewrite <- app_assoc.
Qed.

Lemma readExactBody_ok r n b : readExactBody r n = Ok b -> carries r b /\ zlen b = n.
Proof.
  unfold readExactBody, carries. destruct (rs_body r) as [events|content|]; [| |done].
  - intros ([chunks total] & Hl & Hn)%bind_ok. destruct (total =? n) eqn:E; [|done]. injection Hn as <-.
    apply Z.eqb_eq in E as <-. apply body_loop_ok in Hl as (Hz & new & -> & ->); [|done]. cbn [app] in *.
    rewrite Hz, concatenate_concat by done. split; [by exists new|done].
  - intros (x & -> & Hn)%bind_ok. destruct (zlen x =? n) eqn:E; [|done]. injection Hn as <-. split; [done|].
    by apply Z.eqb_eq.
Qed.

(** The digest is that of a body of the expected size. *)
Lemma hashExactBody_ok r n digest :
  hashExactBody r n = Ok digest -> exists b, carries r b /\ zlen b = n /\ sha256 b = digest.
Proof.
  unfold hashExactBody, carries. destruct (rs_body r) as [events|content|]; [| |done].
  - intros ([chunks total] & Hl & Hn)%bind_ok. destruct (total =? n) eqn:E; [|done]. injection Hn as <-.
    apply Z.eqb_eq in E as <-. apply body_loop_ok in Hl as (Hz & new & -> & ->); [|done]. cbn [app] in *.
    exists (concat new). split_and!; try done. by exists new.
  - intros (x & -> & Hn)%bind_ok. destruct (zlen x =? n) eqn:E; [|done]. injection Hn as <-.
    exists x. by apply Z.eqb_eq in E.
Qed.

Lemma downloadExact_ok grant expected w l b s' :
  downloadExact grant expected (w, l) = (Ok b, s') ->
  exists r w', exchange (grant_request GET grant None) w = (Ok r, w') /\
    s' = (w', l ++ [EvRequest (grant_request GET grant None)]) /\ answered_ok r grant /\ carries r b /\
    opt_prop expected "sizeBytes" = VInt (zlen b) /\ opt_prop expected "sha256" = VStr (sha256 b).
Proof.
  intros (r & w' & Hx & ([] & Hc%check_response_accepts & Hr)%bind_ok & ->)%exactRequest_ok. exists r, w'.
  destruct (response_length r) as [n| |]; try done. guard Hr as E. destruct E as [_ Hn%strict_eq_sym_int].
  apply bind_ok in Hr as (b' & [Hb <-]%readExactBody_ok & Hr). guard Hr as Es. injection Hr as <-.
  apply strict_eq_sym_str in Es. by split_and!.
Qed.

(** ** The upload *)

(** The bound object: its size and digest. *)
Definition object_matches (bound : jsval) (b : bytes) : Prop :=
  opt_prop (opt_prop bound "content") "compressedSize" = VInt (zlen b) /\
  opt_prop (opt_prop bound "content") "sha256" = VStr (sha256 b).

Section upload.
Context `{DateParse} (output : jsval) (archive : bytes) (reconciliation bound : jsval).

(** Requests of the upload, one after the other: the archive is PUT with the
    output grant, or the object is read with the reconciliation grant. *)
Inductive tried : W -> list event -> W -> Prop :=
  | tried_nil w : tried w [] w
  | tried_snoc w l w1 rq :
      tried w l w1 -> rq = grant_request PUT output (Some archive) \/ rq = grant_request GET reconciliation None ->
      tried w (l ++ [EvRequest rq]) (exchange rq w1).2.

(** The last of them showed that the object is there: the PUT of the archive was
    accepted, or the body of the GET has the bound size and digest. *)
Definition stored (w : W) (l : list event) (w' : W) : Prop :=
  exists l0 w1 rq r, l = l0 ++ [EvRequest rq] /\ tried w l0 w1 /\ exchange rq w1 = (Ok r, w') /\
    ((rq = grant_request PUT output (Some archive) /\ answered_ok r output) \/
     (rq = grant_request GET reconciliation None /\
      isExactReconciliationGrant reconciliation (opt_prop (opt_prop bound "content") "key") = true /\
      answered_ok r reconciliation /\ exists b, carries r b /\ object_matches bound b)).

Lemma stored_tried w l w' : stored w l w' -> tried w l w'.
Proof.
  intros (l0 & w1 & rq & r & -> & Ht & Hx & Hr). replace w' with (exchange rq w1).2 by (by rewrite Hx).
  apply tried_snoc; [done|]. destruct Hr as [[-> _]|(-> & _)]; auto.
Qed.

(** From a log that ends with the requests made so far. *)
Definition attempt (w0 : W) (m : eff (W * list event) unit) : Prop := forall w l0 l,
  tried w0 l w -> exists x w' l', m (w, l0 ++ l) = (x, (w', l0 ++ l')) /\ tried w0 l' w' /\ (x = Ok tt -> stored w0 l' w').

Lemma upload_attempt w0 : attempt w0 (uploadExact output archive).
Proof.
  intros w l0 l Ht. unfold uploadExact. set (rq := grant_request PUT output (Some archive)).
  match goal with |- context [exactRequest _ ?c ?f _] => destruct (exactRequest_cases rq c f w (l0 ++ l)) as (x & Hx & Hf) end.
  exists x, (exchange rq w).2, (l ++ [EvRequest rq]). split_and!; [by rewrite Hx, app_assoc|by apply tried_snoc; [|left]|].
  intros ->. destruct (Hf tt eq_refl) as (r & Hr & Ha%check_response_accepts). exists l, w, rq, r.
  split_and!; try done; [|by left]. rewrite <- Hr. apply surjective_pairing.
Qed.

Lemma reconcile_attempt w0 : attempt w0 (reconcileExactUpload reconciliation bound).
Proof.
  intros w l0 l Ht. unfold reconcileExactUpload. cbv zeta.
  destruct (isExactReconciliationGrant _ _) eqn:Eg; cbn [negb]; [|by exists (Throw (failure "invalid_reconciliation_grant")), w, l].
  set (rq := grant_request GET reconciliation None).
  match goal with |- context [exactRequest _ ?c ?f _] => destruct (exactRequest_cases rq c f w (l0 ++ l)) as (x & Hx & Hf) end.
  exists x, (exchange rq w).2, (l ++ [EvRequest rq]). split_and!; [by rewrite Hx, app_assoc|by apply tried_snoc; [|right]|].
  intros ->. destruct (Hf tt eq_refl) as (r & Hr & ([] & Ha%check_response_accepts & Hb)%bind_ok). exists l, w, rq, r.
  split_and!; try done; [rewrite <- Hr; apply surjective_pairing|]. right. split_and!; try done.
  destruct (response_length r) as [n| |]; try done. guard Hb as E. destruct E as [_ Hn%strict_eq_sym_int].
  apply bind_ok in Hb as (digest & (b & Hc & <- & <-)%hashExactBody_ok & Hb).
  apply throw_if_ok in Hb. rewrite negb_false_iff in Hb. apply strict_eq_sym_str in Hb. by exists b.
Qed.

Lemma attempt_try w0 m m' : attempt w0 m -> attempt w0 m' -> attempt w0 (try_catch m (fun _ => m')).
Proof.
  intros Hm Hm' w l0 l Ht. destruct (Hm w l0 l Ht) as (x & w1 & l1 & E & Ht1 & Hs). unfold try_catch. rewrite E.
  destruct x as [[]|e]; [by exists (Ok tt), w1, l1|]. by apply Hm'.
Qed.
End upload.
End exchanges.

(** ** Grants are bound to the job *)
Section grant_proofs.
Context `{UrlParser} `{DateParse}.

Lemma find_grant_pair g1 g2 input output :
  find_grant "GET" [g1; g2] = Ok (Some input) -> find_grant "PUT" [g1; g2] = Ok (Some output) ->
  [g1; g2] ≡ₚ [input; output].
Proof.
  cbn [find_grant]. destruct (prop g1 "method") as [m1|]; cbn [mbind res_bind]; [|done].
  destruct (strict_eq m1 (VText "GET")) eqn:E1.
  - apply strict_eq_str in E1 as ->. intros [= <-]. change (strict_eq (VStr _) (VText "PUT")) with false.
    cbv iota. destruct (prop g2 "method") as [m2|]; cbn [mbind res_bind]; [|done].
    destruct (strict_eq m2 _); [|done]. by intros [= <-].
  - destruct (prop g2 "method") as [m2|]; cbn [mbind res_bind]; [|done].
    destruct (strict_eq m2 (VText "GET")) eqn:E2; [|done]. apply strict_eq_str in E2 as ->. intros [= <-].
    destruct (strict_eq m1 (VText "PUT")); [intros [= <-]; apply perm_swap|].
    change (strict_eq (VStr _) (VText "PUT")) with false. by cbv iota.
Qed.

(** A signed grant: its method, a key, an HTTPS URL without credentials or
    fragment, and a time of expiry. *)
Definition signed (grant : jsval) (m : method) : Prop :=
  opt_prop grant "method" = VText (method_name m) /\ is_string (opt_prop grant "key") = true /\
  (exists u, parse_url (to_string (opt_prop grant "url")) = Some u /\ u_protocol u = js "https:" /\
     u_username u = [] /\ u_password u = [] /\ u_hash u = []) /\
  is_Some (grantExpiresAt grant).

Lemma isExactSignedGrant_signed grant m : isExactSignedGrant grant m = true -> signed grant m.
Proof.
  unfold isExactSignedGrant, signed. rewrite !andb_true_iff, bool_decide_eq_true.
  intros ((((_ & Hm%strict_eq_str) & Hk) & Hu) & He). split_and!; try done. unfold exactHttpsUrl in Hu.
  destruct (parse_url _) as [u|]; [|done]. rewrite !andb_true_iff, !streq_true in Hu. exists u. naive_solver.
Qed.

(** Grants of a job: issued for its account, service, deployment, request and
    manifest; exactly one GET, for the frozen archive key and without headers, and
    one PUT, for the expected content key and only if the object does not exist
    yet; both signed. *)
Definition granted (grants job input output : jsval) : Prop :=
  Forall (fun k => strict_eq (opt_prop grants k) (opt_prop job k) = true)
    ["accountId"; "serviceId"; "deploymentId"; "compilerRequestId"; "manifestSha256"]%string /\
  get_list (opt_prop grants "grants") ≡ₚ [input; output] /\
  strict_eq (opt_prop input "key") (opt_prop (opt_prop (opt_prop job "frozenManifest") "archive") "key") = true /\
  strict_eq (opt_prop output "key") (opt_prop job "expectedContentKey") = true /\
  (signed input GET /\ hasExactHeaders (opt_prop input "headers") [] = true) /\
  (signed output PUT /\ strict_eq (opt_prop (opt_prop output "headers") "if-none-match") (VText "*") = true).

(** Grants accepted for a job are the job's own, and unexpired when that is
    required. *)
Lemma grants_bound_to_job grants job now requireUnexpired input output :
  verifyGrantSet grants job now requireUnexpired = Ok (input, output) ->
  granted grants job input output /\
  (requireUnexpired = true -> exists ti to, grantExpiresAt input = Some ti /\ now < ti /\
     grantExpiresAt output = Some to /\ now < to).
Proof.
  unfold verifyGrantSet. cbv zeta. intros Hr. guard Hr as E1.
  apply bind_ok in Hr as ([i|] & Hi & ([o|] & Ho & Hr)%bind_ok); try done.
  guard Hr as E2. injection Hr as <- <-. rewrite andb_false_iff in E2.
  destruct E1 as [[[[[[_ Ha] Hs] Hd] Hc] Hm] _].
  destruct E2 as [[[[[[[Hlen Hik] Hok] Hig%isExactSignedGrant_signed] Hog%isExactSignedGrant_signed] Hih] Hoh] Hexp].
  apply Z.eqb_eq in Hlen. split.
  - split; [by repeat constructor|]. split.
    { destruct (get_list _) as [|g1 [|g2 [|]]]; try done; [by apply find_grant_pair|]. unfold zlen in Hlen. cbn in Hlen. lia. }
    split; [done|]. split; [done|]. split; [done|]. split; [done|]. unfold hasExactOutputHeaders, hasExactHeaders in Hoh.
    destruct (opt_prop o "headers"); cbn [orb] in Hoh; rewrite ?orb_true_iff, ?andb_true_iff in Hoh; try done;
      destruct Hoh as [[_ [? _]%andb_true_iff]|[_ [? _]%andb_true_iff]]; done.
  - intros ->. destruct Hexp as [?|Hexp]; [done|]. rewrite !orb_false_iff in Hexp. destruct Hexp as [[_ Hi'] Ho'].
    destruct Hig as (_ & _ & _ & [ti Hti]), Hog as (_ & _ & _ & [to Hto]). unfold expired in *. rewrite Hti in Hi'. rewrite Hto in Ho'.
    apply Z.leb_gt in Hi', Ho'. eauto 10.
Qed.

(** An answer of [prepareUpload] that binds a publication of the job: of its
    deployment and manifest, under its key, with a digest and sizes. *)
Definition binds (job prepared bound : jsval) : Prop :=
  opt_prop prepared "publication" = bound /\
  (opt_prop prepared "status" = VText "upload_prepared" \/ opt_prop prepared "status" = VText "upload_existing") /\
  strict_eq (opt_prop bound "deploymentId") (opt_prop job "deploymentId") = true /\
  strict_eq (opt_prop bound "manifestSha256") (opt_prop job "manifestSha256") = true /\
  let content := opt_prop bound "content" in
  strict_eq (opt_prop content "key") (opt_prop job "expectedContentKey") = true /\
  (exists digest, opt_prop content "sha256" = VStr digest /\ validSha256 digest = true) /\
  (exists z, opt_prop content "compressedSize" = VInt z /\ 1 <= z) /\
  (exists z, opt_prop content "logicalSize" = VInt z /\ 1 <= z).

Lemma verifyPreparedUpload_binds prepared job bound : verifyPreparedUpload prepared job = Ok bound -> binds job prepared bound.
Proof.
  unfold verifyPreparedUpload. cbv zeta. intros Hr. guard Hr as E. injection Hr as <-.
  destruct E as [[[[[[[[Hs Hd] Hm] Hk] (x & Hx & Hx')%vstr_true] (z & Hz & Hz')%vint_true] (z2 & Hz2 & Hz2')%vint_true] _] _].
  unfold binds. cbv zeta. split_and!; try done; [|by exists x|by exists z; split; [|lia]|by exists z2; split; [|lia]].
  unfold val_in in Hs. destruct (opt_prop prepared "status"); try done. cbn in Hs.
  rewrite !orb_true_iff, !streq_true in Hs. destruct Hs as [->|[->|?]]; auto. done.
Qed.
End grant_proofs.

(** ** What a run does *)
Section publication.
Context {W : Type} `{Unicode} `{Sha256} `{UrlParser} `{NumberParse} `{DateParse} `{JsonParse} `{JsonStringify}
  `{InflateRaw} {services : Services W} {builder : RuntimeBuilder W}.

(** [upload_bound], from the answer of [prepareUpload] on. *)
Lemma upload_bound_cases job output archive publication w l :
  exists x w' requests,
    upload_bound job output archive publication (w, l) = (x, (w', l ++ EvPrepare publication :: requests)) /\
    match prepareUpload publication w with
    | (Ok prepared, w1) =>
        match verifyPreparedUpload prepared job with
        | Ok bound =>
            tried output archive (opt_prop prepared "reconciliation") w1 requests w' /\
            ((exists e, x = Throw e) \/
             (x = Ok bound /\ stored output archive (opt_prop prepared "reconciliation") bound w1 requests w'))
        | Throw _ => (exists e, x = Throw e) /\ requests = [] /\ w' = w1
        end
    | (Throw _, w1) => (exists e, x = Throw e) /\ requests = [] /\ w' = w1
    end.
Proof.
  unfold upload_bound. unfold mbind at 1, eff_bind at 1. unfold logged. cbn [fst snd].
  destruct (prepareUpload publication w) as [[prepared|e] w1]; [|by exists (Throw e), w1, []; split_and!; eauto].
  cbv zeta. unfold mbind at 1, eff_bind at 1, lift.
  destruct (verifyPreparedUpload prepared job) as [bound|e]; [|by exists (Throw e), w1, []; split_and!; eauto].
  set (rec := opt_prop prepared "reconciliation").
  assert (attempt output archive rec bound w1 (try_catch (uploadExact output archive) (fun _ => reconcileExactUpload rec bound))) as Hor
    by (apply attempt_try; [apply upload_attempt|apply reconcile_attempt]).
  set (m := if strict_eq _ _ then _ else _).
  assert (attempt output archive rec bound w1 m) as Hm.
  { unfold m. destruct (strict_eq _ _); [done|]. apply attempt_try; [apply reconcile_attempt|done]. }
  destruct (Hm w1 (l ++ [EvPrepare publication]) [] ltac:(constructor)) as (x & w' & requests & E & Ht & Hs).
  rewrite app_nil_r, <- app_assoc in E. cbn [app] in E. unfold mbind, eff_bind. rewrite E. destruct x as [[]|e].
  - exists (Ok bound), w', requests. split; [done|]. auto.
  - exists (Throw e), w', requests. split; [done|]. split; [done|]. left. by exists e.
Qed.

(** The report of a failure. *)
Definition failure_report (job : jsval) (code : string) : jsval :=
  obj [("deploymentId", opt_prop job "deploymentId"); ("manifestSha256", opt_prop job "manifestSha256");
       ("code", VText code)]%string.

Lemma report_failure_exact job e w l :
  report_failure job e (w, l) =
    (Ok (Failed (classifyFailure e)),
     ((failed (failure_report job (classifyFailure e)) w).2, l ++ [EvFailed (failure_report job (classifyFailure e))])).
Proof.
  unfold report_failure, try_catch, mbind, eff_bind, logged. cbn [fst snd]. fold (failure_report job (classifyFailure e)).
  by destruct (failed _ w) as [[?|?] w'].
Qed.

(** C2: The complete call discipline of [run], from its first call to its last.  It
    never rejects.  Until the publication is ready it only asks for grants, reads
    storage and builds; when that fails it reports the failure and does nothing
    else.  Otherwise [prepareUpload] is called next, once, with the publication just
    built; when it rejects, or its answer does not verify, nothing is sent and the
    outcome is uncertain.  Only when the answer verifies, and so binds a publication,
    are requests made, and each is a PUT of the archive just built with the output
    grant or a GET with the reconciliation grant of that answer.  The publication
    is announced last, at most once, only after one of these requests showed that
    the object is stored, and what is announced is the publication that was bound. *)
Theorem run_call_order job w :
  exists o w' log, run job (w, []) = (Ok o, (w', log)) /\
    match prepare_publication job (w, []) with
    | (Throw e, (w1, before)) =>
        let report := failure_report job (classifyFailure e) in
        Forall harmless before /\ log = before ++ [EvFailed report] /\ w' = (failed report w1).2 /\
        o = Failed (classifyFailure e)
    | (Ok (output, archive, publication), (w1, before)) =>
        Forall harmless before /\
        match prepareUpload publication w1 with
        | (Ok prepared, w2) =>
            match verifyPreparedUpload prepared job with
            | Ok bound =>
                binds job prepared bound /\
                let reconciliation := opt_prop prepared "reconciliation" in
                exists requests w3, tried output archive reconciliation w2 requests w3 /\
                ((o = UploadReconciliationUncertain publication /\ w' = w3 /\
                  log = before ++ EvPrepare publication :: requests) \/
                 (stored output archive reconciliation bound w2 requests w3 /\ w' = (publish bound w3).2 /\
                  log = before ++ EvPrepare publication :: requests ++ [EvPublish bound] /\
                  o = match (publish bound w3).1 with
                      | Ok _ => Published (opt_prop job "deploymentId")
                      | Throw _ => PublishedCallbackUncertain bound
                      end))
            | Throw _ => o = UploadReconciliationUncertain publication /\ w' = w2 /\ log = before ++ [EvPrepare publication]
            end
        | (Throw _, w2) => o = UploadReconciliationUncertain publication /\ w' = w2 /\ log = before ++ [EvPrepare publication]
        end
    end.
Proof.
  unfold run. pose proof (prepare_publication_calls job (w, [])) as (before & Hb & Hok). cbn [snd app] in Hb.
  destruct (prepare_publication job (w, [])) as [[[[output archive] publication]|e] [w1 l1]]; cbn [snd] in Hb; subst l1.
  2:{ rewrite report_failure_exact. by do 3 eexists. }
  destruct (upload_bound_cases job output archive publication w1 before) as (x & w2 & requests & -> & Hu).
  destruct (prepareUpload publication w1) as [[prepared|e] w1'].
  2:{ destruct Hu as ([e' ->] & -> & ->). by do 3 eexists. }
  destruct (verifyPreparedUpload prepared job) as [bound|e] eqn:Ev.
  2:{ destruct Hu as ([e' ->] & -> & ->). by do 3 eexists. }
  apply verifyPreparedUpload_binds in Ev. destruct Hu as [Ht [[e ->]|[-> Hs]]].
  - do 3 eexists. split; [reflexivity|]. split; [done|]. split; [done|]. exists requests, w2. auto.
  - unfold logged. cbn [fst snd]. destruct (publish bound w2) as [[v|e] w3] eqn:Ep; cbn [fst snd];
      do 3 eexists; (split; [reflexivity|]); (split; [done|]); (split; [done|]); exists requests, w2; (split; [done|]); right; rewrite Ep;
      (split_and!; try done); by rewrite <- app_assoc.
Qed.

(** The calls of a successful preparation, with their answers: the grants, the
    download, the build.  [wb] and [wb'] are the worlds around the build. *)
Definition prepared_run (job : jsval) (w : W) (output : jsval) (m : manifest) (entries : list (jsstr * bytes))
    (wb : W) (built : jsval) (archive : bytes) (publication : jsval) (wb' : W) (calls : list event) : Prop :=
  let frozen := opt_prop job "frozenManifest" in
  exists grants input r source w1,
    validateCompilerJob job = Ok tt /\
    getGrants (opt_prop job "deploymentId") w = (Ok grants, w1) /\ granted grants job input output /\
    (exchange (grant_request GET input None) w1 = (Ok r, wb) /\ answered_ok r input /\ carries r source) /\
    (opt_prop (opt_prop frozen "archive") "sizeBytes" = VInt (zlen source) /\
     opt_prop (opt_prop frozen "archive") "sha256" = VStr (sha256 source)) /\
    validateBundle source frozen = Ok (m, entries) /\
    builder_build m entries frozen (get_str (opt_prop job "expectedContentKey")) wb = (Ok built, wb') /\
    opt_prop built "archive" = VBytes archive /\ verifyBuiltContent built job = Ok tt /\
    publicationForControlPlane job built = Ok publication /\
    calls = [EvGetGrants (opt_prop job "deploymentId"); EvRequest (grant_request GET input None); EvBuild].

Lemma logged_inv {A} (e : event) (f : eff W A) w l a s' :
  logged e f (w, l) = (Ok a, s') -> exists w', f w = (Ok a, w') /\ s' = (w', l ++ [e]).
Proof. unfold logged. cbn [fst snd]. destruct (f w) as [x w']. intros [= -> <-]. by exists w'. Qed.

Lemma prepare_publication_ok job w l output archive publication s' :
  prepare_publication job (w, l) = (Ok (output, archive, publication), s') ->
  exists m entries wb built wb' calls, s' = (wb', l ++ calls) /\
    prepared_run job w output m entries wb built archive publication wb' calls.
Proof.
  intros ([] & s1 & [Hj ->]%lift_ok & Hr)%eff_bind_ok.
  apply eff_bind_ok in Hr as (grants & s2 & (w1 & Hgr & ->)%logged_inv & Hr).
  apply eff_bind_ok in Hr as ([input out] & s3 & [Hg%grants_bound_to_job ->]%lift_ok & Hr). destruct Hg as [Hg _]. cbv zeta in Hr.
  apply eff_bind_ok in Hr as (source & s4 & (r & wb & Hx & -> & Ha & Hc & Hz & Hh)%downloadExact_ok & Hr).
  apply eff_bind_ok in Hr as ([m entries] & s5 & [Hb ->]%lift_ok & Hr).
  apply eff_bind_ok in Hr as (built & s6 & (wb' & Hby & ->)%logged_inv & Hr). apply eff_bind_ok in Hr as ([] & s7 & [Hv ->]%lift_ok & Hr).
  apply eff_bind_ok in Hr as (p & s8 & [Hp ->]%lift_ok & [[= -> -> ->] ->]%mret_ok).
  exists m, entries, wb, built, wb', [EvGetGrants (opt_prop job "deploymentId"); EvRequest (grant_request GET input None); EvBuild].
  split; [by rewrite <- !app_assoc|]. exists grants, input, r, source, w1. split_and!; try done.
  unfold verifyBuiltContent in Hv. by destruct (opt_prop built "archive").
Qed.

Definition published (o : outcome) : bool :=
  match o with Published _ | PublishedCallbackUncertain _ => true | _ => false end.

(** A run that publishes, call by call, from the world it started in to the one it
    left: everything up to the build, the binding of the publication, the upload,
    and the announcement of what was bound. *)
Definition published_run (job : jsval) (w : W) (o : outcome) (w' : W) (log : list event)
    (m : manifest) (entries : list (jsstr * bytes)) (wb : W) (built : jsval) (archive : bytes) (wb' : W) : Prop :=
  exists output publication calls prepared bound requests w1 w2,
    prepared_run job w output m entries wb built archive publication wb' calls /\
    prepareUpload publication wb' = (Ok prepared, w1) /\ binds job prepared bound /\
    stored output archive (opt_prop prepared "reconciliation") bound w1 requests w2 /\
    w' = (publish bound w2).2 /\
    log = calls ++ EvPrepare publication :: requests ++ [EvPublish bound] /\
    o = match (publish bound w2).1 with
        | Ok _ => Published (opt_prop job "deploymentId")
        | Throw _ => PublishedCallbackUncertain bound
        end.

Lemma publication_steps job w o w' log :
  run job (w, []) = (Ok o, (w', log)) -> published o = true ->
  exists m entries wb built archive wb', published_run job w o w' log m entries wb built archive wb'.
Proof.
  unfold run. destruct (prepare_publication job (w, [])) as [[[[output archive] publication]|e] s1] eqn:Ep.
  2:{ destruct s1 as [w1 l1]. rewrite report_failure_exact. by intros [= <- _ _]. }
  apply prepare_publication_ok in Ep as (m & entries & wb & built & wb' & calls & -> & Hp). cbn [app].
  destruct (upload_bound_cases job output archive publication wb' calls) as (x & w2 & requests & -> & Hu).
  destruct x as [bound|e]; [|by intros [= <- _ _]].
  destruct (prepareUpload publication wb') as [[prepared|e] w1] eqn:Epr; [|by destruct Hu as [[? [=]] _]].
  destruct (verifyPreparedUpload prepared job) as [bound'|e] eqn:Ev; [|by destruct Hu as [[? [=]] _]].
  destruct Hu as [_ [[? [=]]|[[= ->] Hs]]]. unfold logged. cbn [fst snd]. intros Hr _.
  exists m, entries, wb, built, archive, wb'. exists output, publication, calls, prepared, bound', requests, w1, w2.
  destruct (publish bound' w2) as [[v|e] w3]; injection Hr as <- <- <-;
    (split_and!; [done|done|by apply verifyPreparedUpload_binds|done|done|by rewrite <- app_assoc|done]).
Qed.

(** C3: Nothing is published that was not verified.  When [run] publishes, its calls
    were, in this order and with these answers: the grants, which are the job's own;
    the GET of the input grant, whose body has the frozen size and hash and is a
    valid bundle; the build of that bundle, whose archive passed the final content
    validation under the expected key; [prepareUpload] with the publication of that
    build, answered with the bound publication; requests the last of which shows
    that the object is stored (the PUT of the archive was accepted, or the body of a
    GET with the reconciliation grant of that answer has the bound size and digest);
    and the announcement of the bound publication. *)
Theorem publication_backed job w o w' log :
  run job (w, []) = (Ok o, (w', log)) -> published o = true ->
  exists m entries wb built archive wb', published_run job w o w' log m entries wb built archive wb'.
Proof. apply publication_steps. Qed.

End publication.

(** ** Object keys do not collide *)
Lemma segment_split (c : Z) (a a' x x' : jsstr) :
  c ∉ a -> c ∉ a' -> a ++ c :: x = a' ++ c :: x' -> a = a' /\ x = x'.
Proof.
  revert a'. induction a as [|y a IH]; intros [|y' a'] Ha Ha' E; cbn in E.
  - by injection E as ->.
  - injection E as -> _. exfalso. apply Ha'. left.
  - injection E as -> _. exfalso. apply Ha. left.
  - injection E as -> E. apply not_elem_of_cons in Ha as [_ Ha], Ha' as [_ Ha'].
    by destruct (IH a' Ha Ha' E) as [-> ->].
Qed.

Lemma validKeySegment_no_slash v : validKeySegment v = true -> SLASH ∉ v.
Proof.
  unfold validKeySegment. rewrite matches_spec. intros Hl Hin.
  assert (Forall (fun c => c <> SLASH) v) as Hall; [|by rewrite Forall_forall in Hall; apply (Hall SLASH)].
  eapply lang_classes; [exact Hl|]. cbn [classes_within]. split; [intros c Hc ->; by vm_compute in Hc|].
  apply classes_within_rep. intros c Hc ->. by vm_compute in Hc.
Qed.

Lemma key_prefix_inj a s a' s' x x' :
  validKeySegment a = true -> validKeySegment s = true -> validKeySegment a' = true -> validKeySegment s' = true ->
  key_prefix a s ++ x = key_prefix a' s' ++ x' -> a = a' /\ s = s' /\ x = x'.
Proof.
  intros Ha%validKeySegment_no_slash Hs%validKeySegment_no_slash Ha'%validKeySegment_no_slash
    Hs'%validKeySegment_no_slash. unfold key_prefix. rewrite <- !app_assoc. intros E%app_inv_head.
  change (js "/") with [SLASH] in E. cbn [app] in E.
  apply segment_split in E as [-> E]; [|done..]. apply segment_split in E as [-> ->]; done.
Qed.

(** The parts of an accepted job that determine its keys. *)
Lemma validateCompilerJob_ok job :
  validateCompilerJob job = Ok tt ->
  exists a s m i, opt_prop job "accountId" = VStr a /\ opt_prop job "serviceId" = VStr s /\
    opt_prop job "manifestSha256" = VStr m /\ opt_prop (opt_prop job "frozenManifest") "importId" = VStr i /\
    (validKeySegment a = true /\ validKeySegment s = true) /\
    opt_prop (opt_prop (opt_prop job "frozenManifest") "archive") "key" = VStr (input_key a s i) /\
    opt_prop job "expectedContentKey" = VStr (content_key a s m).
Proof.
  unfold validateCompilerJob. cbv zeta. intros Hr. guard Hr as E1. guard Hr as E2. apply throw_if_ok in Hr.
  rewrite orb_false_iff, !negb_false_iff in Hr. destruct Hr as [Hk1%strict_eq_str Hk2%strict_eq_str].
  destruct E1 as [[[[[[[_ (a & Ha & Hav)%vstr_true] (s & Hs & Hsv)%vstr_true] _] (m & Hm & _)%vstr_true] _] _] _].
  destruct E2 as [_ (i & Hi & _)%vstr_true]. rewrite Ha, Hs, Hi in Hk1. rewrite Ha, Hs, Hm in Hk2.
  exists a, s, m, i. by split_and!.
Qed.

(** Jobs cannot reach each other's objects: two accepted jobs with the same
    content key have the same account, service and manifest hash; two with the
    same input key the same account, service and import; and no job's output key
    is an input key. *)
Theorem job_keys_isolated j1 j2 :
  validateCompilerJob j1 = Ok tt -> validateCompilerJob j2 = Ok tt ->
  let field k j := opt_prop j k in
  let input_of j := opt_prop (opt_prop (opt_prop j "frozenManifest") "archive") "key" in
  (field "expectedContentKey"%string j1 = field "expectedContentKey"%string j2 ->
     field "accountId"%string j1 = field "accountId"%string j2 /\
     field "serviceId"%string j1 = field "serviceId"%string j2 /\
     field "manifestSha256"%string j1 = field "manifestSha256"%string j2) /\
  (input_of j1 = input_of j2 ->
     field "accountId"%string j1 = field "accountId"%string j2 /\
     field "serviceId"%string j1 = field "serviceId"%string j2 /\
     opt_prop (opt_prop j1 "frozenManifest") "importId" = opt_prop (opt_prop j2 "frozenManifest") "importId") /\
  field "expectedContentKey"%string j1 <> input_of j2.
Proof.
  intros (a1 & s1 & m1 & i1 & Ha1 & Hs1 & Hm1 & Hi1 & [Hav1 Hsv1] & Hin1 & Hout1)%validateCompilerJob_ok
         (a2 & s2 & m2 & i2 & Ha2 & Hs2 & Hm2 & Hi2 & [Hav2 Hsv2] & Hin2 & Hout2)%validateCompilerJob_ok.
  cbv beta zeta. rewrite Ha1, Ha2, Hs1, Hs2, Hm1, Hm2, Hi1, Hi2, Hin1, Hin2, Hout1, Hout2.
  split_and!.
  - intros E%(f_equal get_str). cbn [get_str] in E. unfold input_key, content_key in E. apply key_prefix_inj in E as (-> & -> & E); [|done..].
    apply app_inv_head, app_inv_tail in E as ->. done.
  - intros E%(f_equal get_str). cbn [get_str] in E. unfold input_key, content_key in E. apply key_prefix_inj in E as (-> & -> & E); [|done..].
    apply app_inv_head, app_inv_tail in E as ->. done.
  - intros E%(f_equal get_str). cbn [get_str] in E. unfold input_key, content_key in E. by apply key_prefix_inj in E as (_ & _ & E); [|done..].
Qed.

(** ** With the reviewed builder *)
Section reviewed.
Context {W : Type} `{Unicode} `{Sha256} `{UrlParser} `{NumberParse} `{DateParse} `{JsonParse} `{JsonStringify}
  `{InflateRaw} {services : Services W} `{ArtifactDownloader W} `{Assembler W}.

(** [createReviewedCompilerWorker]: the builder of the worker is the reviewed
    one. *)
Definition createReviewedCompilerWorker (c : option catalog) : RuntimeBuilder W := {|
  builder_build m entries frozen key :=
    b ← build c m entries frozen key;
    mret (obj [("archive", VBytes (bt_archive b)); ("content", bt_content b);
               ("descriptor", bt_descriptor b)]%string) |}.

(** [new CompilerWorker({ requestTimeoutMs })]: the timeout of its requests. *)
Definition new_compiler_worker (requestTimeoutMs : jsval) : res Z :=
  let ms := match requestTimeoutMs with VUndef => VInt 30000 | v => v end in
  if vint (fun z => (1000 <=? z) && (z <=? 900000)) ms then Ok (get_int ms)
  else Throw (TypeError "invalid compiler request timeout").

(** The builder of a worker that was given none. *)
Definition FailClosedRuntimeBuilder : RuntimeBuilder W := {| builder_build _ _ _ _ := throw compiler_unavailable |}.

(** A worker without a builder publishes nothing, whatever the services answer. *)
Lemma fail_closed_publishes_nothing job w o w' log :
  run (builder := FailClosedRuntimeBuilder) job (w, []) = (Ok o, (w', log)) -> published o = false.
Proof.
  intros Hr. destruct (published o) eqn:Ho; [exfalso|done].
  destruct (publication_steps (builder := FailClosedRuntimeBuilder) job w o w' log Hr Ho)
    as (m & entries & wb & built & archive & wb' & output & publication & calls & prepared & bound & requests & w1 & w2 & Hp & _).
  destruct Hp as (grants & input & r & source & w0 & _ & _ & _ & _ & _ & _ & Hby & _). discriminate Hby.
Qed.

(** C1: From end to end.  Let a worker with the reviewed builder publish.  Then the
    run made exactly the calls of [published_run]: the bundle is the one the frozen
    manifest names by size and hash, validated against it, and [archive] is what the
    build of this bundle returned and the upload stored.  That build, from the world
    [wb] in which it was called, had the registry verify the JRE and downloaded the
    artifacts the reviewed catalog names for exactly the bundle's versions, each with
    its reviewed size and hash, and gave these to the sandbox, which attested its
    isolation and answered the files [fs].  [archive] packages a file set each of
    whose files is one of [fs], a file listed by the validated bundle, a frozen mod
    with its hash, or a generated file, and in which none of these is missing. *)
Theorem reviewed_publication_provenance c job w o w' log :
  run (builder := createReviewedCompilerWorker (Some c)) job (w, []) = (Ok o, (w', log)) -> published o = true ->
  exists m entries wb built archive wb' t p r fs files w1,
    published_run (builder := createReviewedCompilerWorker (Some c)) job w o w' log m entries wb built archive wb' /\
    resolve_toolchain c m = Ok t /\ createAssemblyPlan t = Ok p /\ sandbox_ran c t p wb r w1 /\
    validSandboxAttestation (sr_attestation r) = true /\ sr_files r = Some fs /\
    let mods := opt_prop (opt_prop job "frozenManifest") "mods" in
    all_files (origin fs m entries (get_list mods) t p) files /\ complete_files fs m mods files /\
    packageDeterministicTarZst files = Ok archive.
Proof.
  intros Hrun Ho. destruct (publication_steps (builder := createReviewedCompilerWorker (Some c)) job w o w' log Hrun Ho)
    as (m & entries & wb & built & archive & wb' & Hpub).
  destruct Hpub as (output & publication & calls & prepared & bound & requests & w2 & w3 & Hp & Hpub).
  pose proof Hp as (grants & input & r & source & w0 & _ & _ & _ & _ & _ & _ & Hby & Ha & _).
  cbn [builder_build createReviewedCompilerWorker] in Hby.
  apply eff_bind_ok in Hby as (b & w1 & Hbuild & [-> _]%mret_ok).
  change (opt_prop _ "archive") with (VBytes (bt_archive b)) in Ha. injection Ha as <-.
  destruct (build_steps _ _ _ _ _ _ _ _ Hbuild) as (t & p & sr & files & w4 & Ht & Hpl & Hs & Hc & Hfin).
  destruct (collect_files_ok _ _ _ _ _ _ _ _ _ Hc) as (sr' & fs & [= <-] & Hr & Hfs & Hall & _).
  apply finish_build_ok in Hfin as (Hpack & _).
  eexists m, entries, wb, _, (bt_archive b), wb', t, p, sr, fs, files, w4.
  split; [by exists output, publication, calls, prepared, bound, requests, w2, w3|].
  cbv zeta. split; [done|]. split; [done|]. split; [done|]. split; [done|]. split; [done|]. split; [done|].
  split; [by eapply collect_complete|done].
Qed.
End reviewed.

(** ** Runs *)
#[local] Existing Instance ascii_unicode.
#[local] Existing Instance toy_sha256.

#[local] Instance job_json : JsonParse := {|
  json_parse s := map_get s (demo_texts ++ [(js "runtime", run_runtime)]) |}.
#[local] Instance job_stringify : JsonStringify := {|
  json_stringify v := match v with VArr _ => to_string v | _ => js "runtime" end |}.
#[local] Instance job_inflate : InflateRaw := {| inflateRawSync _ := None |}.
(** Plain [https://host/path] URLs. *)
#[local] Instance job_urls : UrlParser := {| parse_url s :=
  if starts_with (js "https://") s
  then match split_on SLASH (zdrop 8 s) with
       | host :: rest => Some (mkUrl (js "https:") [] [] host [] (js "/" ++ join (js "/") rest) [] [] s
           (js "https://" ++ host))
       | [] => None
       end
  else None |}.
#[local] Instance job_dates : DateParse := {| date_parse s := Some (zlen s) |}.

Definition decimal_number (s : jsstr) : jsnum := if matches decimal s then NInt (parse_radix 10 s) else NNaN.
#[local] Instance job_numbers : NumberParse.
Proof. refine {| number_parse := decimal_number |}. intros s Hs _. unfold decimal_number. by rewrite Hs. Defined.

Definition job_bundle : bytes := Eval vm_compute in store_zip demo_entries.
Definition job_sha : jsstr := toy_digest [5].
Definition job_input : jsstr := input_key (js "acct") (js "svc") (js "import-1").
Definition job_output : jsstr := content_key (js "acct") (js "svc") job_sha.

Definition job_frozen : jsval :=
  match demo_frozen with
  | VObj fields => VObj (fields ++
      [(js "sourceFormat", VText "xmcl_server_bundle"); (js "importId", VText "import-1");
       (js "archive", obj [("key", VStr job_input); ("sha256", VStr (toy_digest job_bundle));
          ("sizeBytes", VInt (zlen job_bundle))]%string)])
  | v => v
  end.

Definition job_value : jsval :=
  obj [("accountId", VText "acct"); ("serviceId", VText "svc"); ("deploymentId", VText "dep");
       ("compilerRequestId", VText "req"); ("manifestSha256", VStr job_sha);
       ("expectedContentKey", VStr job_output); ("frozenManifest", job_frozen)]%string.

Definition job_grant (m : method) (key : jsstr) (url : string) : jsval :=
  obj (app [("key", VStr key); ("method", VText (method_name m)); ("url", VText url); ("expiresAt", VText "later")]
       match m with GET => [] | PUT => [("headers", obj [("if-none-match", VText "*")])] end)%string.

Definition job_grants : jsval :=
  obj [("accountId", VText "acct"); ("serviceId", VText "svc"); ("deploymentId", VText "dep");
       ("compilerRequestId", VText "req"); ("manifestSha256", VStr job_sha);
       ("grants", VArr [job_grant GET job_input "https://in"; job_grant PUT job_output "https://out"])]%string.

Definition job_content : jsval :=
  match run_content with
  | VObj fields => VObj (map_set (js "key") (VStr job_output) fields)
  | v => v
  end.

#[local] Instance job_builder : RuntimeBuilder unit := {|
  builder_build _ _ _ _ w := (Ok (obj [("archive", VBytes run_archive); ("content", job_content);
    ("descriptor", run_descriptor)]%string), w) |}.

(** Storage serves the bundle, accepts PUTs and has no object to reconcile. *)
Definition job_fetch (rq : request) : response :=
  if streq (rq_url rq) (js "https://in")
  then mkResponse 200 false [] None (Some (to_radix 10 (zlen job_bundle))) (Buffer (Ok job_bundle))
  else match rq_method rq with
       | PUT => mkResponse 201 false [] None None NoBody
       | GET => mkResponse 404 false [] None None NoBody
       end.

(** The control plane answers [prepareUpload] with [status] and [publication]. *)
Definition job_services (status : string) (publication : jsval -> jsval) : Services unit := {|
  getGrants _ w := (Ok job_grants, w);
  prepareUpload p w := (Ok (obj [("status", VText status); ("publication", publication p);
    ("reconciliation", job_grant GET job_output "https://check")]%string), w);
  publish _ w := (Ok VNull, w);
  failed _ w := (Ok VNull, w);
  storage_fetch rq w := (Ok (job_fetch rq), w);
  storage_timer w := (Ok false, w) |}.

Definition first_services : Services unit := job_services "upload_prepared" (fun p => p).

Lemma first_outcome : (run (services := first_services) job_value (tt, [])).1 = Ok (Published (VText "dep")).
Proof. vm_cast_no_check (eq_refl (A := res outcome) (Ok (Published (VText "dep")))). Qed.

Lemma run_parts {A} (x : A * (unit * list event)) a : x.1 = a -> x = (a, (tt, x.2.2)).
Proof. by destruct x as [? [[] ?]]; cbn; intros ->. Qed.

Lemma publication_backed_witness :
  exists m entries wb built archive wb' o log,
    published_run (services := first_services) job_value tt o tt log m entries wb built archive wb'.
Proof.
  destruct (publication_backed (services := first_services) job_value tt (Published (VText "dep")) tt _
    (run_parts _ _ first_outcome) eq_refl) as (m & entries & wb & built & archive & wb' & Hr).
  by eexists _, _, _, _, _, _, _, _.
Defined.

Lemma job_accepted : validateCompilerJob job_value = Ok tt.
Proof. vm_compute. reflexivity. Qed.

Lemma job_keys_isolated_witness :
  opt_prop job_value "expectedContentKey" <> opt_prop (opt_prop (opt_prop job_value "frozenManifest") "archive") "key".
Proof. exact (proj2 (proj2 (job_keys_isolated job_value job_value job_accepted job_accepted))). Defined.

Definition job_pair : jsval * jsval :=
  (job_grant GET job_input "https://in", job_grant PUT job_output "https://out").

Lemma job_grants_accepted : verifyGrantSet job_grants job_value 3 true = Ok (job_pair.1, job_pair.2).
Proof. vm_compute. reflexivity. Qed.

Lemma grants_bound_to_job_witness :
  exists ti to, grantExpiresAt job_pair.1 = Some ti /\ 3 < ti /\ grantExpiresAt job_pair.2 = Some to /\ 3 < to.
Proof.
  destruct (grants_bound_to_job job_grants job_value 3 true job_pair.1 job_pair.2 job_grants_accepted) as [_ H].
  exact (H eq_refl).
Defined.

(** *** With the reviewed builder *)
#[local] Instance job_artifacts : Fetch unit := {|
  fetchImpl url w := (Ok (Some (
    if streq url cat_url then mkResponse 200 false [] None (Some (js "3")) (Stream [Chunk (VBytes [1; 2; 3])])
    else mkResponse 200 false [] None (Some (js "9")) (Buffer (Ok demo_remote)))), w);
  timer w := (Ok false, w);
  artifactCacheReader := None |}.
#[local] Instance job_downloader : ArtifactDownloader unit := strict_downloader MAX_ARTIFACT_BYTES.
#[local] Instance job_assembler : Assembler unit := {|
  jre_resolve j w := (Ok (obj [("verified", VBool true); ("readOnly", VBool true); ("id", VStr (j_id j));
    ("sha256", VStr (j_sha256 j)); ("component", VStr (j_component j)); ("major", VInt (j_major j));
    ("runtimeCatalogRevision", VStr (j_runtimeCatalogRevision j)); ("rootToken", VText "root-1")]%string), w);
  capabilities := obj requiredSandboxCapabilities;
  assemble _ w := (Ok (Some (mkSandboxResult bld_attestation (Some bld_outputs))), w) |}.

Lemma reviewed_outcome :
  (run (services := first_services) (builder := createReviewedCompilerWorker (Some cat_catalog)) job_value (tt, [])).1 =
    Ok (Published (VText "dep")).
Proof. vm_cast_no_check (eq_refl (A := res outcome) (Ok (Published (VText "dep")))). Qed.

Lemma reviewed_publication_provenance_witness :
  exists files archive, packageDeterministicTarZst files = Ok archive.
Proof.
  destruct (reviewed_publication_provenance (services := first_services) cat_catalog job_value tt
    (Published (VText "dep")) tt _ (run_parts _ _ reviewed_outcome) eq_refl)
    as (m & entries & wb & built & archive & wb' & t & p & r & fs & files & w1 & H).
  exists files, archive. apply H.
Defined.

(** *** A redelivery whose build differs *)

(** The control plane kept the binding of an earlier attempt, with another
    digest; its object never arrived. *)
Definition earlier_binding (p : jsval) : jsval :=
  match p, opt_prop p "content" with
  | VObj fields, VObj content =>
      VObj (map_set (js "content") (VObj (map_set (js "sha256") (VStr (toy_digest [99])) content)) fields)
  | v, _ => v
  end.

Definition redelivery_services : Services unit := job_services "upload_existing" earlier_binding.

Definition redelivery_prepared : jsval * bytes * jsval * (unit * list event) :=
  match prepare_publication (services := redelivery_services) job_value (tt, []) with
  | (Ok r, s) => (r, s)
  | (Throw _, s) => (VUndef, [], VUndef, s)
  end.

Definition redelivery_publication : jsval := redelivery_prepared.1.2.
Definition redelivery_answer : jsval :=
  obj [("status", VText "upload_existing"); ("publication", earlier_binding redelivery_publication);
       ("reconciliation", job_grant GET job_output "https://check")]%string.

Lemma redelivery_prepares :
  prepare_publication (services := redelivery_services) job_value (tt, []) =
    (Ok (redelivery_prepared.1.1.1, redelivery_prepared.1.1.2, redelivery_prepared.1.2),
     (tt, redelivery_prepared.2.2)).
Proof. vm_compute. reflexivity. Qed.

Lemma redelivery_verifies :
  verifyPreparedUpload redelivery_answer job_value = Ok (earlier_binding redelivery_publication).
Proof. vm_compute. reflexivity. Qed.

Lemma redelivery_grant :
  isExactReconciliationGrant (opt_prop redelivery_answer "reconciliation")
    (opt_prop (opt_prop (earlier_binding redelivery_publication) "content") "key") = true.
Proof. vm_compute. reflexivity. Qed.

Lemma redelivery_digest :
  strict_eq (opt_prop (opt_prop (earlier_binding redelivery_publication) "content") "sha256")
    (VStr (sha256 redelivery_prepared.1.1.2)) = false.
Proof. vm_compute. reflexivity. Qed.

