(* ===== verification/Callbacks.v ===== *)
(** * Deployment callbacks ([http-worker.mjs])

    [AuthenticatedDeploymentCallbacks] posts signed messages to the control
    plane; [CallbackBoundControlPlane] binds them to one job and is the control
    plane the compiler worker talks to.  It is given here as an instance of the
    worker's [Services], so that the worker's theorems apply to it.  The state
    of the object is part of the world, together with the list of delivered
    messages, which no code reads. *)

From S2P Require Import Prelude JsText JsNum JsValue Regex Validators Node TarZst Bundle Effects Downloader Worker.

Definition MAX_REQUEST_BYTES : Z := 256 * 1024.
Definition MAX_CALLBACK_BYTES : Z := 4 * 1024 * 1024.

Inductive kind := KGrants | KUploadPrepared | KPublished | KFailed.

#[export] Instance kind_eq_dec : EqDecision kind.
Proof. solve_decision. Defined.

(** The table [suffixes]. *)
Definition suffix (k : kind) : string :=
  match k with
  | KGrants => "grants"
  | KUploadPrepared => "upload-prepared"
  | KPublished => "published"
  | KFailed => "failed"
  end.

(** [encodeURIComponent(s)] of a well-formed string. *)
Definition uri_unreserved (c : Z) : bool := alnum c || existsb (Z.eqb c) (js "-_.!~*'()").

Definition hex_upper (d : Z) : Z := if d <? 10 then 48 + d else 55 + d.

Definition encodeURIComponent (s : jsstr) : jsstr :=
  flat_map (fun b => if uri_unreserved b then [b] else [37; hex_upper (b / 16); hex_upper (b mod 16)])
    (utf8_encode s).

(** A message on its way to the control plane. *)
Record message := mkMessage {
  ms_url : jsstr;
  ms_identity : jsval;
  ms_body : bytes;
}.

(** The clock, the signing identity, and the connection to the control plane. *)
Class CallbackTransport (W : Type) := {
  read_clock : W -> Z * W;
  signOutgoing : jsstr -> bytes -> Z -> eff W jsval;
  callback_fetch : message -> eff W (option response);
  callback_timer : eff W bool;
}.

Definition clock {W} `{CallbackTransport W} : eff W Z := fun w => let '(t, w') := read_clock w in (Ok t, w').

(** ** [readBoundedResponse] *)
Definition validCallbackDeploymentId (v : jsval) : bool := vstr validKeySegment v.

(** The [try] block: every exception inside it becomes the same failure. *)
Fixpoint bounded_loop (maximum : Z) (failed_ : exn) (events : list read_event) (chunks : list bytes)
    (total : Z) : res (list bytes * Z) :=
  match events with
  | [] => Ok (chunks, total)
  | ReadError _ :: _ => Throw failed_
  | Chunk (VBytes value) :: rest =>
      let total' := total + zlen value in
      if maximum <? total' then Throw failed_
      else bounded_loop maximum failed_ rest (chunks ++ [value]) total'
  | Chunk _ :: _ => Throw failed_
  end.

Definition readBoundedResponse (r : response) (maximum : Z) (failureCode : string) : res bytes :=
  let failed_ := failure failureCode in
  let declared := match rs_contentLength r with Some _ => content_length r | None => None end in
  if match rs_contentLength r with
     | Some _ => match declared with Some n => maximum <? n | None => true end
     | None => false
     end
  then Throw failed_
  else
    match rs_body r with
    | Stream events =>
        ct ← bounded_loop maximum failed_ events [] 0;
        let '(chunks, total) := ct in
        if match declared with Some n => negb (total =? n) | None => false end then Throw failed_
        else Ok (concatenate chunks total)
    | _ => Throw failed_
    end.

Definition readBoundedCallbackBody (r : response) : res bytes :=
  readBoundedResponse r MAX_CALLBACK_BYTES "invalid_upload_preparation".

Section callbacks.
Context {W : Type} `{Unicode} `{UrlParser} `{DateParse} `{JsonParse} `{JsonStringify} `{CallbackTransport W}.
Context (origin : jsstr) (grantsType : response -> option jsstr).

(** ** [AuthenticatedDeploymentCallbacks] *)
Definition callback_target (deploymentId : jsstr) (k : kind) : jsstr :=
  js "/v1/internal/shared-runtime-compiler/deployments/" ++ encodeURIComponent deploymentId ++ js "/" ++
  js (suffix k).

(** [!response?.ok || response.redirected || (response.url && ...)] *)
Definition delivered_response (answer : option response) (url : jsstr) : res response :=
  let failed_ := failure "callback_delivery_failed" in
  match answer with
  | None => Throw failed_
  | Some r =>
      if negb ((200 <=? rs_status r) && (rs_status r <=? 299)) || rs_redirected r then Throw failed_
      else if streq (rs_url r) [] then Ok r
      else
        match parse_url (rs_url r) with
        | None => Throw (TypeError "Invalid URL")
        | Some u => if streq (u_href u) url then Ok r else Throw failed_
        end
  end.

Definition post (k : kind) (deploymentId : jsval) (payload : jsval) : eff W response :=
  if negb (validCallbackDeploymentId deploymentId) then throw (failure "callback_delivery_failed")
  else
    let target := callback_target (get_str deploymentId) k in
    let url := origin ++ target in
    let b := utf8_encode (json_stringify payload) in
    if MAX_CALLBACK_BYTES <? zlen b then throw (failure "callback_payload_too_large")
    else
      now ← clock;
      identity ← signOutgoing target b now;
      try_catch
        (fired ← callback_timer;
         if (fired : bool) then throw (failure "callback_delivery_failed")
         else answer ← callback_fetch (mkMessage url identity b); lift (delivered_response answer url))
        (fun e => throw (as_failure "callback_delivery_failed" e)).

Definition parseGrantResponse (r : response) (job : jsval) : res jsval :=
  b ← readBoundedResponse r MAX_REQUEST_BYTES "invalid_grants";
  match parse_bytes b with
  | None => Throw invalid_grants
  | Some grants => _ ← rethrow (verifyGrantSet grants job 0 false) invalid_grants; Ok grants
  end.

(** [grantsType] is the content type of a response, if it has one. *)
Definition callback_grants (job : jsval) : eff W jsval :=
  if negb (plainObject job) || negb (validCallbackDeploymentId (opt_prop job "deploymentId")) ||
     negb (vstr validId (opt_prop job "compilerRequestId"))
  then throw invalid_grants
  else
    r ← post KGrants (opt_prop job "deploymentId")
          (obj [("schemaVersion", VInt 1); ("compilerRequestId", opt_prop job "compilerRequestId");
                ("deploymentId", opt_prop job "deploymentId")]%string);
    if negb (rs_status r =? 200) ||
       negb (match grantsType r with
             | Some t => starts_with (js "application/json") (toLowerCase t)
             | None => false
             end)
    then throw invalid_grants
    else lift (parseGrantResponse r job).

(** ** [parseUploadPreparation] *)
Definition isReconciliationGrant (value expectedKey : jsval) : bool :=
  strict_eq (opt_prop value "key") expectedKey && strict_eq (opt_prop value "method") (VText "GET") &&
  exactHttpsUrl (opt_prop value "url") && bool_decide (is_Some (grantExpiresAt value)) &&
  is_undef (opt_prop value "headers").

Definition parseUploadPreparation (r : response) (job : jsval) : res jsval :=
  b ← readBoundedCallbackBody r;
  match parse_bytes b with
  | None => Throw invalid_upload_preparation
  | Some value =>
      let content := opt_prop value "content" in
      if negb (plainObject value) ||
         negb (sameKeys value ["schemaVersion"; "status"; "compilerRequestId"; "deploymentId";
                 "manifestSha256"; "content"; "descriptor"; "reconciliation"]%string) ||
         negb (strict_eq (opt_prop value "schemaVersion") (VInt 1)) ||
         negb (val_in (opt_prop value "status") ["upload_prepared"; "upload_existing"]%string) ||
         negb (strict_eq (opt_prop value "compilerRequestId") (opt_prop job "compilerRequestId")) ||
         negb (strict_eq (opt_prop value "deploymentId") (opt_prop job "deploymentId")) ||
         negb (strict_eq (opt_prop value "manifestSha256") (opt_prop job "manifestSha256")) ||
         negb (plainObject content) || negb (plainObject (opt_prop value "descriptor")) ||
         negb (plainObject (opt_prop value "reconciliation")) ||
         negb (strict_eq (opt_prop content "key") (opt_prop job "expectedContentKey")) ||
         negb (vstr validSha256 (opt_prop content "sha256")) ||
         negb (vint (Z.leb 1) (opt_prop content "compressedSize")) ||
         negb (vint (Z.leb 1) (opt_prop content "logicalSize")) ||
         negb (is_array (opt_prop content "paths")) ||
         negb (isReconciliationGrant (opt_prop value "reconciliation") (opt_prop job "expectedContentKey"))
      then Throw invalid_upload_preparation
      else
        Ok (obj [("status", opt_prop value "status");
             ("publication", obj [("deploymentId", opt_prop value "deploymentId");
                ("manifestSha256", opt_prop value "manifestSha256"); ("content", content);
                ("descriptor", opt_prop value "descriptor")]);
             ("reconciliation", opt_prop value "reconciliation")]%string)
  end.
End callbacks.

(** ** [CallbackBoundControlPlane] *)
Record bound (W : Type) := mkBound {
  bd_world : W;
  bd_terminal : bool;
  bd_refreshed : bool;
  bd_delivered : list (kind * jsval);
}.
Arguments mkBound {W}.
Arguments bd_world {W}.
Arguments bd_terminal {W}.
Arguments bd_refreshed {W}.
Arguments bd_delivered {W}.

(** A call that only touches the world outside. *)
Definition outside {W A} (m : eff W A) : eff (bound W) A := fun s =>
  let '(r, w') := m (bd_world s) in
  (r, mkBound w' (bd_terminal s) (bd_refreshed s) (bd_delivered s)).

Definition set_terminal {W} : eff (bound W) unit := fun s =>
  (Ok tt, mkBound (bd_world s) true (bd_refreshed s) (bd_delivered s)).

Definition set_refreshed {W} : eff (bound W) unit := fun s =>
  (Ok tt, mkBound (bd_world s) (bd_terminal s) true (bd_delivered s)).

Definition record_delivery {W} (k : kind) (payload : jsval) : eff (bound W) unit := fun s =>
  (Ok tt, mkBound (bd_world s) (bd_terminal s) (bd_refreshed s) (bd_delivered s ++ [(k, payload)])).

Section control_plane.
Context {W : Type} `{Unicode} `{UrlParser} `{DateParse} `{JsonParse} `{JsonStringify} `{CallbackTransport W}.
Context (origin : jsstr) (grantsType : response -> option jsstr) (job : jsval).

(** [this.callbacks.post(kind, job.deploymentId, payload)], recorded once it has
    been delivered. *)
Definition deliver (k : kind) (payload : jsval) : eff (bound W) response :=
  r ← outside (post origin k (opt_prop job "deploymentId") payload);
  _ ← record_delivery k payload;
  mret r.

Definition cp_getGrants (deploymentId : jsval) : eff (bound W) jsval :=
  if negb (strict_eq deploymentId (opt_prop job "deploymentId")) then throw invalid_grants
  else
    grants ← outside (callback_grants origin grantsType job);
    now ← outside clock;
    _ ← lift (verifyGrantSet grants job now true);
    _ ← set_refreshed;
    mret grants.

Definition names_job (publication : jsval) : bool :=
  strict_eq (opt_prop publication "deploymentId") (opt_prop job "deploymentId") &&
  strict_eq (opt_prop publication "manifestSha256") (opt_prop job "manifestSha256") &&
  strict_eq (opt_prop (opt_prop publication "content") "key") (opt_prop job "expectedContentKey").

Definition publication_payload (status : string) (publication : jsval) : jsval :=
  obj [("schemaVersion", VInt 1); ("status", VText status);
       ("compilerRequestId", opt_prop job "compilerRequestId");
       ("deploymentId", opt_prop job "deploymentId"); ("manifestSha256", opt_prop job "manifestSha256");
       ("content", opt_prop publication "content"); ("descriptor", opt_prop publication "descriptor")]%string.

Definition cp_publish (publication : jsval) : eff (bound W) jsval :=
  if negb (truthy publication) || negb (names_job publication) then throw (failure "invalid_publication")
  else
    _ ← deliver KPublished (publication_payload "published" publication);
    _ ← set_terminal;
    mret VUndef.

Definition cp_prepareUpload (publication : jsval) : eff (bound W) jsval :=
  if negb (truthy publication) || negb (names_job publication) then throw invalid_upload_preparation
  else
    r ← deliver KUploadPrepared (publication_payload "upload_prepared" publication);
    lift (parseUploadPreparation r job).

Definition refreshed : eff (bound W) bool := fun s => (Ok (bd_refreshed s), s).

Definition failure_payload (report : jsval) : jsval :=
  obj [("schemaVersion", VInt 1); ("status", VText "failed");
       ("compilerRequestId", opt_prop job "compilerRequestId");
       ("deploymentId", opt_prop job "deploymentId"); ("manifestSha256", opt_prop job "manifestSha256");
       ("code", opt_prop report "code")]%string.

Definition cp_failed (report : jsval) : eff (bound W) jsval :=
  ok ← refreshed;
  if negb ok then throw invalid_grants
  else if negb (truthy report) ||
     negb (strict_eq (opt_prop report "deploymentId") (opt_prop job "deploymentId")) ||
     negb (strict_eq (opt_prop report "manifestSha256") (opt_prop job "manifestSha256")) ||
     negb (val_in (opt_prop report "code") failureCodes)
  then throw (failure "invalid_failure_callback")
  else
    _ ← deliver KFailed (failure_payload report);
    _ ← set_terminal;
    mret VUndef.

(** The control plane of one job, with storage from outside. *)
Context (store_fetch : request -> eff W response) (store_timer : eff W bool).

Definition bound_services : Services (bound W) := {|
  getGrants := cp_getGrants;
  prepareUpload := cp_prepareUpload;
  publish := cp_publish;
  failed := cp_failed;
  storage_fetch rq := outside (store_fetch rq);
  storage_timer := outside store_timer |}.

(** [new CallbackBoundControlPlane({ callbacks, job, now })] *)
Definition fresh_bound (w : W) : bound W := mkBound w false false [].
End control_plane.

(** ** Invariants of the control plane object *)
Section cp_proofs.
Context {W : Type} `{Unicode} `{UrlParser} `{DateParse} `{JsonParse} `{JsonStringify} `{CallbackTransport W}.
Context (origin : jsstr) (grantsType : response -> option jsstr) (job : jsval).
Context (store_fetch : request -> eff W response) (store_timer : eff W bool).

Implicit Types s : bound W.

Definition terminal_kind (k : kind) : bool := match k with KPublished | KFailed => true | _ => false end.

(** Every delivered message names the job. *)
Definition payload_of_job (payload : jsval) : Prop :=
  opt_prop payload "deploymentId" = opt_prop job "deploymentId" /\
  opt_prop payload "manifestSha256" = opt_prop job "manifestSha256" /\
  opt_prop payload "compilerRequestId" = opt_prop job "compilerRequestId".

(** The terminal messages among those delivered. *)
Definition terminals (s : bound W) : list kind := List.filter terminal_kind (map fst (bd_delivered s)).

(** A failure is delivered only after verified, unexpired grants were seen. *)
Definition bound_inv (s : bound W) : Prop :=
  Forall (fun kp => payload_of_job kp.2) (bd_delivered s) /\
  (KFailed ∈ map fst (bd_delivered s) -> bd_refreshed s = true).

(** Nothing terminal has been delivered yet. *)
Definition quiet (s : bound W) : Prop := bound_inv s /\ bd_terminal s = false /\ terminals s = [].

(** [k] was the one terminal message. *)
Definition ended (k : kind) (s : bound W) : Prop := bound_inv s /\ bd_terminal s = true /\ terminals s = [k].

Lemma fresh_quiet w : quiet (fresh_bound w).
Proof. split_and!; try done. by split; [constructor|intros ?%elem_of_nil]. Qed.

Lemma outside_quiet {A} (m : eff W A) : preserves quiet (outside m).
Proof. intros s Hs. unfold outside. by destruct (m (bd_world s)). Qed.

Lemma deliver_cases k payload s :
  let '(r, s') := deliver origin job k payload s in
  exists w, s' = mkBound w (bd_terminal s) (bd_refreshed s)
    (match r with Ok _ => bd_delivered s ++ [(k, payload)] | Throw _ => bd_delivered s end).
Proof.
  unfold deliver, mbind, eff_bind, outside. destruct (post _ _ _ _ (bd_world s)) as [[x|e] w]; by exists w.
Qed.

Lemma bound_inv_append s w b k payload :
  bound_inv s -> payload_of_job payload -> (k = KFailed -> bd_refreshed s = true) ->
  bound_inv (mkBound w b (bd_refreshed s) (bd_delivered s ++ [(k, payload)])).
Proof.
  intros (Hp & Hf) Hj Hk. split; cbn.
  - apply Forall_app. split; [done|]. by constructor.
  - rewrite map_app. intros [Hin|Hin]%elem_of_app; [auto|]. apply list_elem_of_singleton in Hin. auto.
Qed.

Lemma terminals_append s w b f k payload :
  terminals (mkBound w b f (bd_delivered s ++ [(k, payload)])) =
    terminals s ++ (if terminal_kind k then [k] else []).
Proof. unfold terminals. cbn. by rewrite map_app, List.filter_app. Qed.

(** A terminal delivery followed by the flag: either both or neither. *)
Lemma deliver_terminal k payload s :
  quiet s -> payload_of_job payload -> terminal_kind k = true -> (k = KFailed -> bd_refreshed s = true) ->
  let '(r, s') := (_ ← deliver origin job k payload; _ ← set_terminal; mret VUndef) s in
  match r with Ok _ => ended k s' | Throw _ => quiet s' end.
Proof.
  intros (Hi & Hb & Ht) Hp Hk Hr. pose proof (deliver_cases k payload s) as Hd. unfold mbind at 1, eff_bind at 1.
  destruct (deliver origin job k payload s) as [[r|e] s1]; destruct Hd as (w & ->); [|by split_and!].
  cbn. split; [|split; [done|]].
  - exact (bound_inv_append s w true k payload Hi Hp Hr).
  - etrans; [apply (terminals_append s w true (bd_refreshed s) k payload)|]. by rewrite Ht, Hk.
Qed.

Lemma publish_terminal publication s :
  quiet s ->
  let '(r, s') := cp_publish origin job publication s in
  match r with Ok _ => ended KPublished s' | Throw _ => quiet s' end.
Proof.
  intros Hs. unfold cp_publish. destruct (negb (truthy publication) || _); [done|]. by apply deliver_terminal.
Qed.

Lemma failed_terminal report s :
  quiet s ->
  let '(r, s') := cp_failed origin job report s in
  match r with Ok _ => ended KFailed s' | Throw _ => quiet s' end.
Proof.
  intros Hs. unfold cp_failed, mbind at 1, eff_bind at 1, refreshed at 1.
  destruct (bd_refreshed s) eqn:E; cbn [negb]; [|done].
  destruct (negb (truthy report) || _ || _ || _); [done|]. by apply deliver_terminal.
Qed.

Lemma cp_getGrants_quiet d : preserves quiet (cp_getGrants origin grantsType job d).
Proof.
  unfold cp_getGrants. pose proof @outside_quiet as Ho.
  assert (preserves quiet set_refreshed) by (intros s ((Hp & Hf) & Hb & Ht); by split_and!). preserves.
Qed.

Lemma cp_prepareUpload_quiet p : preserves quiet (cp_prepareUpload origin job p).
Proof.
  unfold cp_prepareUpload. destruct (negb (truthy p) || _); [apply preserves_lift|].
  apply preserves_bind; [|intros; apply preserves_lift]. intros s (Hi & Hb & Ht).
  pose proof (deliver_cases KUploadPrepared (publication_payload job "upload_prepared" p) s) as Hd.
  destruct (deliver _ _ _ _ s) as [[r|e] s']; destruct Hd as (w & ->); [|by split_and!].
  split; [|split; [done|]].
  - by apply bound_inv_append.
  - etrans; [apply (terminals_append s w (bd_terminal s) (bd_refreshed s) KUploadPrepared)|]. by rewrite Ht.
Qed.

(** *** One terminal message per run *)
Context `{Sha256} `{NumberParse} `{InflateRaw} {builder : RuntimeBuilder W}.

#[local] Instance job_services : Services (bound W) :=
  bound_services origin grantsType job store_fetch store_timer.

(** The builder does not touch the control plane object. *)
Definition outside_builder : RuntimeBuilder (bound W) := {|
  builder_build m entries frozen key := outside (builder_build m entries frozen key) |}.
#[local] Existing Instance outside_builder.

Definition quiet_run (s : bound W * list event) : Prop := quiet s.1.

Lemma quiet_logged {A} e (m : eff (bound W) A) : preserves quiet m -> preserves quiet_run (logged e m).
Proof. intros Hm [s l] Hs. specialize (Hm s Hs). unfold logged. cbn [fst]. by destruct (m s). Qed.

Lemma storage_quiet rq code :
  preserves quiet (fired ← storage_timer; if (fired : bool) then throw (failure code) else storage_fetch rq).
Proof.
  apply preserves_bind; [apply outside_quiet|intros []; [apply preserves_lift|apply outside_quiet]].
Qed.

(** Nothing terminal is said before the last call of [run]. *)
Lemma prepare_publication_quiet : preserves quiet_run (prepare_publication job).
Proof.
  apply prepare_publication_preserves.
  - intros d. apply quiet_logged, cp_getGrants_quiet.
  - intros m es v k. apply quiet_logged, outside_quiet.
  - intros rq code. apply quiet_logged, storage_quiet.
Qed.

Lemma upload_bound_quiet output archive publication :
  preserves quiet_run (upload_bound job output archive publication).
Proof.
  apply upload_bound_preserves.
  - intros rq code. apply quiet_logged, storage_quiet.
  - intros p. apply quiet_logged, cp_prepareUpload_quiet.
Qed.

(** What the control plane has been told once a run is over. *)
Definition told (o : outcome) (s : bound W) : Prop :=
  match o with
  | Published _ => ended KPublished s
  | Failed _ => ended KFailed s \/ quiet s
  | PublishedCallbackUncertain _ | UploadReconciliationUncertain _ => quiet s
  end.

Lemma run_told s l : quiet s -> exists o s' l', run job (s, l) = (Ok o, (s', l')) /\ told o s'.
Proof.
  intros Hs. unfold run. pose proof (prepare_publication_quiet (s, l) Hs) as Hq1.
  destruct (prepare_publication job (s, l)) as [[[[output archive] publication]|e] [s1 l1]]; cbn [snd] in Hq1.
  - pose proof (upload_bound_quiet output archive publication (s1, l1) Hq1) as Hq2.
    destruct (upload_bound job output archive publication (s1, l1)) as [[bd|e] [s2 l2]]; cbn [snd] in Hq2; [|eauto].
    unfold logged. cbn [fst snd]. pose proof (publish_terminal bd s2 Hq2) as Hq3.
    change (publish bd s2) with (cp_publish origin job bd s2).
    destruct (cp_publish origin job bd s2) as [[v|e] s3]; eauto.
  - unfold report_failure. cbv zeta. set (report := obj _). unfold try_catch, mbind, eff_bind, logged.
    cbn [fst snd]. pose proof (failed_terminal report s1 Hq1) as Hq3.
    change (failed report s1) with (cp_failed origin job report s1).
    destruct (cp_failed origin job report s1) as [[v|e'] s3]; do 3 eexists; (split; [reflexivity|]); cbn; auto.
Qed.

(** C9: A run tells the control plane at most once how it ended, and
    [terminalCallbackDelivered] is exactly the record of that: after a published
    job one [published] message was acknowledged and the flag is set; after a
    failed one either a [failed] message was acknowledged and the flag is set, or
    neither; in the uncertain outcomes nothing terminal was acknowledged and the
    flag is clear.  Every message names the job, and a failure is reported only
    after unexpired grants of the job were verified. *)
Theorem terminal_callback_once w :
  exists o s' log,
    run job (fresh_bound w, []) = (Ok o, (s', log)) /\
    match o with
    | Published _ => bd_terminal s' = true /\ terminals s' = [KPublished]
    | Failed _ => terminals s' = if bd_terminal s' then [KFailed] else []
    | PublishedCallbackUncertain _ | UploadReconciliationUncertain _ => bd_terminal s' = false /\ terminals s' = []
    end /\
    Forall (fun kp => payload_of_job kp.2) (bd_delivered s') /\
    (KFailed ∈ map fst (bd_delivered s') -> bd_refreshed s' = true).
Proof.
  destruct (run_told (fresh_bound w) [] (fresh_quiet w)) as (o & s' & log & Hr & Ht).
  exists o, s', log. split; [done|]. destruct o; cbn in Ht; try (by destruct Ht as ([] & ? & ?)).
  destruct Ht as [([] & Hb & Ht)|([] & Hb & Ht)]; by rewrite Hb, Ht.
Qed.
End cp_proofs.
