(* ===== verification/HttpWorker.v ===== *)
(** * The HTTP boundary of the worker ([http-worker.mjs], [CompilerHttpWorker])

    The request handler: target and body parsing, the request authenticator, the
    message envelope, the durable enqueue and the reply.  The queue is any
    implementation of [JobQueue]; the authenticator is an operation of a class,
    of which the HMAC identity is an instance.  The worker loops are part of the
    server state here and run in [WorkerLoops]. *)

From S2P Require Import Prelude JsText JsNum JsValue Regex Validators Node TarZst QueueSpec MemoryQueue Identity Bundle Effects Downloader Worker Callbacks.

Definition MAX_ENVELOPE_LIFETIME_MS : Z := 5 * 60 * 1000.

Definition compiler_unavailable : exn := HttpWorkerError 503 "compiler_unavailable".
Definition invalid_request : exn := HttpWorkerError 400 "invalid_request".
Definition request_too_large : exn := HttpWorkerError 413 "request_too_large".
Definition request_unauthorized : exn := HttpWorkerError 401 "request_unauthorized".
Definition job_conflict : exn := HttpWorkerError 409 "idempotency_conflict".
Definition invalid_persisted_job : exn := failure "invalid_persisted_job".

(** ** Envelopes *)
Section envelope.
Context `{DateParse} `{JsonParse}.

(** [Date.parse(value)] when it is a safe integer. *)
Definition safe_date (value : jsval) : option Z :=
  match date_parse (to_string value) with
  | Some t => if is_safe t then Some t else None
  | None => None
  end.

Definition validMessageLifetime (issuedAt expiresAt : jsval) (now : Z) : bool :=
  match safe_date issuedAt, safe_date expiresAt with
  | Some issued, Some expires =>
      (issued <=? now + 60000) && (now <? expires) && (expires - issued <=? MAX_ENVELOPE_LIFETIME_MS)
  | _, _ => false
  end.

Definition parseEnvelope (body : bytes) (now : Z) : res jsval :=
  match parse_bytes body with
  | None => Throw invalid_request
  | Some envelope =>
      let job := opt_prop envelope "job" in
      let grants := opt_prop envelope "grants" in
      if negb (plainObject envelope) ||
         negb (sameKeys envelope ["schemaVersion"; "requestId"; "issuedAt"; "expiresAt"; "job"; "grants"]%string) ||
         negb (strict_eq (opt_prop envelope "schemaVersion") (VInt 1)) ||
         negb (vstr validId (opt_prop envelope "requestId")) ||
         negb (plainObject job) || negb (plainObject grants) ||
         negb (strict_eq (opt_prop envelope "requestId") (opt_prop job "compilerRequestId")) ||
         negb (strict_eq (opt_prop grants "compilerRequestId") (opt_prop envelope "requestId")) ||
         negb (validMessageLifetime (opt_prop envelope "issuedAt") (opt_prop envelope "expiresAt") now)
      then Throw invalid_request
      else _ ← rethrow (validateCompilerJob job) invalid_request; Ok envelope
  end.

(** A stored body was checked against the clock when it was accepted; it is read
    back as of its own [issuedAt]. *)
Definition parseQueuedEnvelope (body : bytes) : res jsval :=
  match parse_bytes body with
  | None => Throw invalid_persisted_job
  | Some value =>
      match safe_date (opt_prop value "issuedAt") with
      | None => Throw invalid_persisted_job
      | Some issuedAt => rethrow (parseEnvelope body issuedAt) invalid_persisted_job
      end
  end.
End envelope.

(** ** Requests and replies *)
Record http_request := mkHttp {
  hr_method : jsstr;
  hr_url : jsstr;
  hr_headers : list (jsstr * header_value);
  hr_chunks : list read_event;
}.

(** [sendJson(response, status, value)], with the two headers set before it. *)
Record reply := mkReply {
  rp_status : Z;
  rp_body : jsval;
  rp_allow : option string;
  rp_retryAfter : option string;
}.

Definition sendJson (status : Z) (value : jsval) : reply := mkReply status value None None.

Definition code_body (code : string) : jsval := obj [("code", VText code)]%string.

(** [new URL(value, "http://worker.invalid")] *)
Class TargetParser := { parse_target_url : jsstr -> option url }.

Definition parseTarget `{TargetParser} (value : jsstr) : option jsstr :=
  match parse_target_url value with
  | Some u => if negb (streq (u_search u) []) || negb (streq (u_hash u) []) then None else Some (u_pathname u)
  | None => None
  end.

(** [/^application\/json(?:\s*;\s*charset=utf-8)?$/i] *)
Definition json_type : re :=
  Seq (liti "application/json")
    (opt (seqs [Star (Cls is_space); liti ";"; Star (Cls is_space); liti "charset=utf-8"])).

Definition isJsonContentType (value : option jsstr) : bool :=
  match value with Some v => matches json_type v | None => false end.

(** [for await (const chunk of request)] *)
Fixpoint request_loop (maximum : Z) (events : list read_event) (chunks : list bytes) (total : Z) :
    res (list bytes * Z) :=
  match events with
  | [] => Ok (chunks, total)
  | ReadError e :: _ => Throw e
  | Chunk (VBytes chunk) :: rest =>
      let total' := total + zlen chunk in
      if maximum <? total' then Throw request_too_large
      else request_loop maximum rest (chunks ++ [chunk]) total'
  | Chunk _ :: _ => Throw invalid_request
  end.

Definition readRequestBody (r : http_request) (maximum : Z) : res bytes :=
  if match header (hr_headers r) "content-length" with
     | Some declared => negb (matches decimal declared) || (maximum <? parse_radix 10 declared)
     | None => false
     end
  then Throw request_too_large
  else
    ct ← request_loop maximum (hr_chunks r) [] 0;
    Ok (concatenate ct.1 ct.2).

(** [normalizeHttpError(error)]: the status and code of the reply. *)
Definition normalizeHttpError (e : exn) : Z * string :=
  match e with
  | HttpWorkerError status code => (status, code)
  | _ => (500, "compiler_failed"%string)
  end.

(** [maxConcurrentJobs] of the constructor. *)
Definition validConcurrency (v : jsval) : bool := vint (fun z => (1 <=? z) && (z <=? 16)) v.

Definition chosen_concurrency (v : jsval) : Z :=
  match v with VNum (NInt z) => if validConcurrency v then z else 1 | _ => 1 end.

(** ** The server *)

(** Where a worker loop is suspended, or how it ended. *)
Inductive loop :=
  | LTop
  | LClaiming
  | LWaiting
  | LWorking (c : claimed)
  | LFinishing (c : claimed) (o : QueueSpec.outcome)
  | LRetrying (c : claimed) (code : string)
  | LStopped
  | LDead (e : exn).

Record server (Q : Type) := mkServer {
  sv_queue : Q;
  sv_activeJobs : Z;
  sv_started : bool;
  sv_startPromise : option (res unit);
  sv_stopping : bool;
  sv_loops : list loop;
}.
Arguments mkServer {Q}.
Arguments sv_queue {Q}.
Arguments sv_activeJobs {Q}.
Arguments sv_started {Q}.
Arguments sv_startPromise {Q}.
Arguments sv_stopping {Q}.
Arguments sv_loops {Q}.

(** [this.requestAuthenticator] *)
Class Authenticator (W : Type) := { authenticate : Identity.request -> eff W unit }.

(** [resolve()] of a waiting loop; the others are not in [this.waiters]. *)
Definition wake_loop (l : loop) : loop := match l with LWaiting => LTop | _ => l end.

Section server.
Context {Q : Type} {base : Z} `{JobQueue Q base}.
Context {W : Type} `{Authenticator W} `{DateParse} `{JsonParse} `{JsonStringify} `{Sha256} `{TargetParser}.
Context (ready : bool) (maxConcurrentJobs : nat).
Abbreviation M := (eff (W * server Q)).

(** [new CompilerHttpWorker(options)] *)
Definition new_server (q : Q) : server Q := mkServer q 0 false None false [].

Definition on_world {A} (m : eff W A) : M A := fun s => let '(r, w') := m s.1 in (r, (w', s.2)).

Definition with_queue (s : server Q) (q : Q) : server Q :=
  mkServer q (sv_activeJobs s) (sv_started s) (sv_startPromise s) (sv_stopping s) (sv_loops s).

Definition with_loops (s : server Q) (ls : list loop) : server Q :=
  mkServer (sv_queue s) (sv_activeJobs s) (sv_started s) (sv_startPromise s) (sv_stopping s) ls.

Definition on_queue {A} (f : Q -> res A * Q) : M A := fun s =>
  let '(r, q') := f (sv_queue s.2) in (r, (s.1, with_queue s.2 q')).

Definition wake : M unit := fun s => (Ok tt, (s.1, with_loops s.2 (map wake_loop (sv_loops s.2)))).

Definition health (s : server Q) : jsval :=
  obj [("status", VText "ok"); ("ready", VBool ready); ("activeJobs", VInt (sv_activeJobs s))]%string.

(** [start()]: the promise of the first call is kept, also when it rejects. *)
Definition start (now : Z) : M unit := fun s =>
  let sv := s.2 in
  if negb ready then (Throw compiler_unavailable, s)
  else if sv_started sv then (Ok tt, s)
  else
    match sv_startPromise sv with
    | Some r => (r, s)
    | None =>
        match q_initialize now (sv_queue sv) with
        | (Ok _, q') => (Ok tt, (s.1, mkServer q' (sv_activeJobs sv) true (Some (Ok tt)) false
                                        (replicate maxConcurrentJobs LTop)))
        | (Throw e, q') => (Throw e, (s.1, mkServer q' (sv_activeJobs sv) false (Some (Throw e))
                                        (sv_stopping sv) (sv_loops sv)))
        end
    end.

Definition verifyIncoming (q : Identity.request) : M unit :=
  try_catch (on_world (authenticate q)) (fun _ => throw request_unauthorized).

Definition enqueue_input (envelope : jsval) (body : bytes) : input :=
  mkInput (get_str (opt_prop envelope "requestId"))
    (get_str (opt_prop (opt_prop envelope "job") "deploymentId"))
    (sha256_text (json_stringify (opt_prop envelope "job"))) body.

Definition jobs_target : jsstr := js "/v1/compiler-jobs".

(** [consume(request)]; [now] is the worker's clock and [qnow] the queue's. *)
Definition consume (now qnow : Z) (q : Identity.request) : M jsval :=
  if negb ready then throw compiler_unavailable
  else if negb (streq (r_method q) (js "POST")) || negb (streq (r_target q) jobs_target)
  then throw invalid_request
  else
    _ ← verifyIncoming q;
    envelope ← lift (parseEnvelope (r_body q) now);
    _ ← try_catch (on_queue (q_enqueue qnow (enqueue_input envelope (r_body q))))
          (fun e => throw (if bool_decide (error_code e = Some "idempotency_conflict"%string) then job_conflict else e));
    _ ← wake;
    mret (obj [("status", VText "accepted");
               ("deploymentId", opt_prop (opt_prop envelope "job") "deploymentId")]%string).

(** The [try] block of [handleHttp]. *)
Definition accept_job (now qnow : Z) (target : jsstr) (r : http_request) : M jsval :=
  _ ← start qnow;
  body ← lift (readRequestBody r MAX_REQUEST_BYTES);
  consume now qnow (Identity.mkRequest (js "POST") target (hr_headers r) body).

Definition error_reply (e : exn) : reply :=
  let '(status, code) := normalizeHttpError e in
  mkReply status (code_body code) None (if status =? 429 then Some "1"%string else None).

Definition handleHttp (now qnow : Z) (r : http_request) (s : W * server Q) : reply * (W * server Q) :=
  let is_get := streq (hr_method r) (js "GET") in
  match parseTarget (hr_url r) with
  | None | Some [] => (sendJson 404 (code_body "not_found"), s)
  | Some target =>
      if is_get && streq target (js "/healthz") then (sendJson 200 (health s.2), s)
      else if is_get && streq target (js "/readyz")
      then (sendJson (if ready then 200 else 503)
              (obj [("status", VText (if ready then "ready" else "compiler_unavailable"))]%string), s)
      else if negb (streq target jobs_target) then (sendJson 404 (code_body "not_found"), s)
      else if negb (streq (hr_method r) (js "POST"))
      then (mkReply 405 (code_body "method_not_allowed") (Some "POST"%string) None, s)
      else if negb (isJsonContentType (header (hr_headers r) "content-type"))
      then (sendJson 415 (code_body "content_type_required"), s)
      else
        match accept_job now qnow target r s with
        | (Ok result, s') => (sendJson 202 result, s')
        | (Throw e, s') => (error_reply e, s')
        end
  end.
End server.

(** ** Envelopes are read back as they were accepted *)
Section envelope_proofs.
Context `{DateParse} `{JsonParse}.

Lemma parseEnvelope_ok body now envelope :
  parseEnvelope body now = Ok envelope ->
  parse_bytes body = Some envelope /\ validateCompilerJob (opt_prop envelope "job") = Ok tt /\
  vstr validId (opt_prop envelope "requestId") = true /\
  opt_prop envelope "requestId" = opt_prop (opt_prop envelope "job") "compilerRequestId" /\
  exists issued expires,
    safe_date (opt_prop envelope "issuedAt") = Some issued /\ safe_date (opt_prop envelope "expiresAt") = Some expires /\
    issued <= now + 60000 /\ now < expires /\ expires - issued <= MAX_ENVELOPE_LIFETIME_MS /\
    (forall now', issued <= now' + 60000 -> now' < expires -> parseEnvelope body now' = Ok envelope) /\
    (forall now', expires <= now' -> parseEnvelope body now' = Throw invalid_request).
Proof.
  unfold parseEnvelope. destruct (parse_bytes body) as [v|]; [|done]. cbv zeta.
  match goal with |- context [?b || negb (validMessageLifetime ?x ?y now)] => set (g := b); set (ia := x); set (ea := y) end.
  destruct g eqn:Eg; [done|]. cbn [orb].
  destruct (validMessageLifetime ia ea now) eqn:El; [|done]. cbn [negb].
  intros (u & Hj & [= <-])%bind_ok. apply rethrow_ok in Hj. destruct u.
  unfold g in Eg. rewrite !orb_false_iff, !negb_false_iff in Eg. destruct Eg as [[[[[_ Hid] _] _] Hr] _].
  split_and!; [done..| |].
  { destruct (opt_prop v "requestId") as [| | | |r| | |] eqn:Er; try done. cbn in Hr.
    destruct (opt_prop (opt_prop v "job") "compilerRequestId"); try done. by apply streq_true in Hr as ->. }
  unfold validMessageLifetime in *. fold ia ea. destruct (safe_date ia) as [issued|]; [|done].
  destruct (safe_date ea) as [expires|]; [|done].
  rewrite !andb_true_iff, !Z.leb_le, Z.ltb_lt in El. destruct El as [[? ?] ?].
  exists issued, expires. split_and!; try done; intros now'.
  - intros ? ?. rewrite (proj2 (Z.leb_le _ _)), (proj2 (Z.ltb_lt _ _)), (proj2 (Z.leb_le _ _)) by done.
    cbn. by rewrite Hj.
  - intros ?. rewrite (proj2 (Z.ltb_ge _ _)), andb_false_r by done. done.
Qed.

(** C26: An accepted envelope that was issued before it expires is read back
    from the queue unchanged, however much later that is; and one whose expiry
    is not after its issue time, which the sixty seconds of clock skew lets
    through, is refused whenever it is claimed, so that its job is retried for
    ever. *)
Theorem queued_envelope_reads_back body now envelope :
  parseEnvelope body now = Ok envelope ->
  exists issued expires,
    safe_date (opt_prop envelope "issuedAt") = Some issued /\
    safe_date (opt_prop envelope "expiresAt") = Some expires /\
    parseQueuedEnvelope body = if issued <? expires then Ok envelope else Throw invalid_persisted_job.
Proof.
  intros (Hp & _ & _ & _ & issued & expires & Hi & He & _ & _ & _ & Hok & Hno)%parseEnvelope_ok.
  exists issued, expires. split_and!; [done..|]. unfold parseQueuedEnvelope. rewrite Hp, Hi.
  destruct (Z.ltb_spec issued expires).
  - by rewrite Hok by lia.
  - by rewrite Hno by lia.
Qed.
End envelope_proofs.

(** ** What the handler answers and keeps *)
Section enqueue_spec.
Context (key : jsstr -> jsstr).

Lemma spec_enqueue_ok now i m b m' :
  spec_enqueue key now i m = (Ok b, m') ->
  exists j, m' !! key (in_id i) = Some j /\ identity_of j = identity_of_input i /\
    (j_state j = QTerminal \/ j_body j = in_body i \/ j_redeliveryBody j = Some (in_body i)).
Proof.
  unfold spec_enqueue. destruct (validateEnqueue i); [|done].
  destruct (m !! key (in_id i)) as [j|] eqn:Ej.
  - destruct (assertSameIdentity _ _) as [[]|] eqn:Es; [|done]. apply assertSameIdentity_ok in Es.
    intros [= _ <-]. destruct (j_state j) eqn:Et; [| | |by exists j; auto];
      eexists; (split; [by rewrite lookup_insert_eq|]); (split; [done|]); cbn; auto.
  - intros [= _ <-]. eexists. rewrite lookup_insert_eq. split; [done|]. cbn. auto.
Qed.

Lemma spec_enqueue_throws now i m e m' :
  spec_enqueue key now i m = (Throw e, m') ->
  m' = m /\ (e = idempotency_conflict \/ e = TypeError "invalid compiler queue job").
Proof.
  unfold spec_enqueue, validateEnqueue. destruct (throw_if _ _) as [|e'] eqn:Ev.
  - destruct (m !! key (in_id i)) as [j|]; [|done].
    destruct (assertSameIdentity_cases (identity_of j) (identity_of_input i)) as [[_ ->]|[_ ->]]; [done|].
    intros [= <- <-]. auto.
  - unfold throw_if in Ev. destruct (_ || _) in Ev; [|done]. intros [= <- <-]. injection Ev as <-. auto.
Qed.
End enqueue_spec.

(** The request stream fails with errors of its own. *)
Definition foreign (e : exn) : Prop := match e with HttpWorkerError _ _ => False | _ => True end.

Definition foreign_stream (r : http_request) : Prop :=
  Forall (fun ev => match ev with ReadError e => foreign e | _ => True end) (hr_chunks r).

Lemma request_loop_ok maximum events : forall chunks total chunks' total',
  total = zlen (concat chunks) -> total <= maximum ->
  request_loop maximum events chunks total = Ok (chunks', total') ->
  total' = zlen (concat chunks') /\ total' <= maximum.
Proof.
  induction events as [|[v|e] events IH]; intros chunks total chunks' total' Ht Hm; cbn [request_loop]; [|destruct v|]; try done.
  { by intros [= <- <-]. }
  destruct (Z.ltb_spec maximum (total + zlen b)); [done|]. apply IH; [|done].
  rewrite concat_app, zlen_app. cbn. rewrite app_nil_r. lia.
Qed.

Lemma request_loop_throws maximum events : forall chunks total,
  Forall (fun ev => match ev with ReadError e => foreign e | _ => True end) events ->
  only_throws (fun e => e = request_too_large \/ e = invalid_request \/ foreign e)
    (request_loop maximum events chunks total).
Proof.
  induction events as [|[v|e] events IH]; intros chunks total; cbn [request_loop]; [done| |].
  - intros [_ Hf]%Forall_cons. destruct v; cbn; auto. destruct (_ <? _); cbn; auto.
  - intros [He _]%Forall_cons. cbn. auto.
Qed.

Lemma readRequestBody_ok r body : readRequestBody r MAX_REQUEST_BYTES = Ok body -> zlen body <= MAX_REQUEST_BYTES.
Proof.
  unfold readRequestBody. destruct (match header _ _ with Some _ => _ | None => _ end); [done|].
  intros ([chunks total] & Hl & [= <-])%bind_ok. apply request_loop_ok in Hl as [Ht Hm]; [|done..].
  cbn [fst snd]. by rewrite concatenate_concat, <- Ht.
Qed.

Lemma readRequestBody_throws r :
  foreign_stream r ->
  only_throws (fun e => e = request_too_large \/ e = invalid_request \/ foreign e) (readRequestBody r MAX_REQUEST_BYTES).
Proof.
  intros Hf. unfold readRequestBody. destruct (match header _ _ with Some _ => _ | None => _ end); [cbn; auto|].
  apply only_throws_bind; [by apply request_loop_throws|done].
Qed.

Section handler_proofs.
Context {Q : Type} {base : Z} `{JobQueue Q base}.
Context {W : Type} `{Authenticator W} `{DateParse} `{JsonParse} `{JsonStringify} `{Sha256} `{TargetParser}.
Context (ready : bool) (maxConcurrentJobs : nat).

Implicit Types sv : server Q.
Implicit Types w : W.

(** No earlier [initialize] failed; the queue is well formed. *)
Definition healthy (n : Z) sv : Prop :=
  q_inv n (sv_queue sv) /\ match sv_startPromise sv with Some (Throw _) => False | _ => True end.

(** The jobs are as before, or as a restart leaves them. *)
Definition kept sv sv' : Prop :=
  q_abs (sv_queue sv') = q_abs (sv_queue sv) \/ q_abs (sv_queue sv') = spec_recover (q_abs (sv_queue sv)).

(** The errors of the handler: its own, or those of others. *)
Definition http_error (e : exn) : Prop :=
  e ∈ [compiler_unavailable; invalid_request; request_too_large; request_unauthorized; job_conflict] \/ foreign e.

Lemma start_cases n now w sv :
  healthy n sv ->
  (ready = false /\ start ready maxConcurrentJobs now (w, sv) = (Throw compiler_unavailable, (w, sv))) \/
  exists sv', start ready maxConcurrentJobs now (w, sv) = (Ok tt, (w, sv')) /\ ready = true /\
    healthy n sv' /\ kept sv sv'.
Proof.
  intros [Hq Hp]. unfold start. cbn [fst snd]. destruct ready; cbn [negb]; [right|by left].
  destruct (sv_started sv) eqn:Es; [exists sv; split; [done|]; split; [done|]; split; [done|by left]|].
  destruct (sv_startPromise sv) as [[[]|e]|] eqn:Ep; [|done|].
  - exists sv. split; [done|]. split; [done|]. split; [|by left]. unfold healthy. by rewrite Ep.
  - destruct (q_initialize_law n now (sv_queue sv) Hq) as (q' & -> & Hq' & Ha).
    eexists. split; [reflexivity|]. split; [done|]. split; [|by right]. by split.
Qed.

(** What a successful delivery has established. *)
Definition accepted (now : Z) (r : http_request) (w w' : W) sv' (result : jsval) : Prop :=
  exists body envelope j,
    readRequestBody r MAX_REQUEST_BYTES = Ok body /\
    authenticate (Identity.mkRequest (js "POST") jobs_target (hr_headers r) body) w = (Ok tt, w') /\
    parseEnvelope body now = Ok envelope /\
    q_abs (sv_queue sv') !! q_key (get_str (opt_prop envelope "requestId")) = Some j /\
    identity_of j = identity_of_input (enqueue_input envelope body) /\
    (j_state j = QTerminal \/ j_body j = body \/ j_redeliveryBody j = Some body) /\
    result = obj [("status", VText "accepted");
                  ("deploymentId", opt_prop (opt_prop envelope "job") "deploymentId")]%string.

Lemma verifyIncoming_cases q w sv :
  (exists w', verifyIncoming q (w, sv) = (Ok tt, (w', sv)) /\ authenticate q w = (Ok tt, w')) \/
  (exists w', verifyIncoming q (w, sv) = (Throw request_unauthorized, (w', sv))).
Proof.
  unfold verifyIncoming, try_catch, on_world. cbn [fst snd].
  destruct (authenticate q w) as [[[]|e] w']; [left|right]; by exists w'.
Qed.

Lemma consume_cases n now qnow r body w sv :
  healthy n sv -> 0 <= n -> clock_ok qnow -> ready = true ->
  readRequestBody r MAX_REQUEST_BYTES = Ok body ->
  let '(res, (w', sv')) :=
    consume ready now qnow (Identity.mkRequest (js "POST") jobs_target (hr_headers r) body) (w, sv) in
  healthy n sv' /\
  match res with
  | Ok result => accepted now r w w' sv' result
  | Throw e => http_error e /\ q_abs (sv_queue sv') = q_abs (sv_queue sv)
  end.
Proof.
  intros Hs Hn Hc -> Hb. unfold consume. cbn [negb Identity.r_method Identity.r_target]. rewrite !streq_refl. cbn [negb orb].
  unfold mbind at 1, eff_bind at 1.
  destruct (verifyIncoming_cases (Identity.mkRequest (js "POST") jobs_target (hr_headers r) body) w sv)
    as [(w1 & -> & Ha)|(w1 & ->)]; [|split; [done|]; split; [left; set_solver|done]].
  unfold mbind at 1, eff_bind at 1, lift at 1. cbn [Identity.r_body].
  destruct (parseEnvelope body now) as [envelope|e] eqn:Ep.
  2:{ split; [done|]. split; [|done]. left. unfold parseEnvelope in Ep.
      destruct (parse_bytes body) as [v|]; [|injection Ep as <-; set_solver]. cbv zeta in Ep.
      destruct (_ || _) in Ep; [injection Ep as <-; set_solver|].
      destruct (validateCompilerJob _); [done|]. injection Ep as <-. set_solver. }
  unfold mbind at 1, eff_bind at 1, try_catch at 1, on_queue at 1. cbn [fst snd].
  destruct Hs as [Hq Hp].
  pose proof (q_enqueue_law n qnow (enqueue_input envelope body) (sv_queue sv) Hq Hn Hc) as Hl.
  destruct (q_enqueue qnow _ (sv_queue sv)) as [[b|e] q']; destruct Hl as [Hq' Hl].
  - symmetry in Hl. apply spec_enqueue_ok in Hl as (j & Hj & Hid & Hbody). cbn. split; [by split|].
    exists body, envelope, j. by split_and!.
  - symmetry in Hl. apply spec_enqueue_throws in Hl as [Hq2 He]. cbn. split; [by split|]. split; [|done].
    destruct He as [->| ->]; [left|right]; cbn; [set_solver|done].
Qed.

Lemma accept_job_cases n now qnow r w sv :
  healthy n sv -> 0 <= n -> clock_ok qnow -> foreign_stream r ->
  let '(res, (w', sv')) := accept_job ready maxConcurrentJobs now qnow jobs_target r (w, sv) in
  healthy n sv' /\
  match res with
  | Ok result => accepted now r w w' sv' result
  | Throw e => http_error e /\ kept sv sv'
  end.
Proof.
  intros Hs Hn Hc Hf. unfold accept_job, mbind at 1, eff_bind at 1.
  destruct (start_cases n qnow w sv Hs) as [[_ ->]|(sv1 & -> & Hready & Hs1 & Hk)].
  { split; [done|]. split; [left; set_solver|by left]. }
  unfold mbind at 1, eff_bind at 1, lift at 1. pose proof (readRequestBody_throws r Hf) as Ht.
  destruct (readRequestBody r MAX_REQUEST_BYTES) as [body|e] eqn:Eb.
  2:{ split; [done|]. split; [|done]. destruct Ht as [->|[->|?]]; [left; set_solver..|by right]. }
  pose proof (consume_cases n now qnow r body w sv1 Hs1 Hn Hc Hready Eb) as Hcons.
  destruct (consume _ _ _ _ (w, sv1)) as [[result|e] [w' sv']]; destruct Hcons as [Hs' Hr]; (split; [done|]); [done|].
  destruct Hr as [He Ha]. split; [done|]. unfold kept. by rewrite Ha.
Qed.

(** Every other request is answered without touching anything. *)
Lemma handleHttp_cases now qnow r (s : W * server Q) :
  (exists rep, handleHttp ready maxConcurrentJobs now qnow r s = (rep, s) /\
     rp_status rep ∈ [200; 404; 405; 415; 503] /\ rp_retryAfter rep = None) \/
  handleHttp ready maxConcurrentJobs now qnow r s =
    match accept_job ready maxConcurrentJobs now qnow jobs_target r s with
    | (Ok result, s') => (sendJson 202 result, s')
    | (Throw e, s') => (error_reply e, s')
    end.
Proof.
  unfold handleHttp. cbv zeta.
  assert (forall rep, rp_status rep ∈ [200; 404; 405; 415; 503] -> rp_retryAfter rep = None ->
    exists rep', (rep, s) = (rep', s) /\ rp_status rep' ∈ [200; 404; 405; 415; 503] /\ rp_retryAfter rep' = None)
    as Hrep by eauto.
  destruct (parseTarget (hr_url r)) as [[|c t]|]; [left; apply Hrep; [set_solver|done]| |left; apply Hrep; [set_solver|done]].
  destruct (_ && _); [left; apply Hrep; [set_solver|done]|].
  destruct (_ && _); [left; apply Hrep; [destruct ready; set_solver|done]|].
  destruct (streq (c :: t) jobs_target) eqn:Et; [|left; apply Hrep; [set_solver|done]].
  apply streq_true in Et. rewrite Et. cbn [negb].
  destruct (negb _); [left; apply Hrep; [set_solver|done]|].
  destruct (negb _); [left; apply Hrep; [set_solver|done]|]. by right.
Qed.

Lemma error_reply_cases e :
  http_error e ->
  rp_status (error_reply e) ∈ [400; 401; 409; 413; 500; 503] /\ rp_retryAfter (error_reply e) = None.
Proof.
  intros [He|He].
  - rewrite !elem_of_cons in He. destruct He as [->|[->|[->|[->|[->|He]]]]]; [(split; [set_solver|done])..|].
    by apply elem_of_nil in He.
  - assert (error_reply e = mkReply 500 (code_body "compiler_failed") None None) as -> by (by destruct e).
    split; [set_solver|done].
Qed.

Lemma handleHttp_sound n now qnow r w sv :
  healthy n sv -> 0 <= n -> clock_ok qnow -> foreign_stream r ->
  let '(rep, (w', sv')) := handleHttp ready maxConcurrentJobs now qnow r (w, sv) in
  healthy n sv' /\
  if rp_status rep =? 202 then accepted now r w w' sv' (rp_body rep) else kept sv sv'.
Proof.
  intros Hs Hn Hc Hf. destruct (handleHttp_cases now qnow r (w, sv)) as [(rep & -> & Hr & _)| ->].
  - split; [done|]. destruct (Z.eqb_spec (rp_status rep) 202) as [E|]; [|by left].
    rewrite E in Hr. set_solver.
  - pose proof (accept_job_cases n now qnow r w sv Hs Hn Hc Hf) as Ha.
    destruct (accept_job _ _ _ _ _ _ _) as [[result|e] [w' sv']]; destruct Ha as [Hs' Ha]; (split; [done|]); [done|].
    destruct Ha as [[Hr _]%error_reply_cases Hk].
    destruct (Z.eqb_spec (rp_status (error_reply e)) 202) as [E|]; [|done]. rewrite E in Hr. set_solver.
Qed.

(** C4: The handler answers 202 only when the body was read completely within
    the limit, the authenticator accepted exactly those bytes for this method
    and target, the envelope is valid and unexpired, and the queue holds the job
    under its request id with this body as its current or next body (or already
    finished).  Every other answer leaves the jobs as they were, up to the
    recovery of the first start. *)
Theorem http_accepts_exactly n now qnow r w sv :
  healthy n sv -> 0 <= n -> clock_ok qnow -> foreign_stream r ->
  let '(rep, (w', sv')) := handleHttp ready maxConcurrentJobs now qnow r (w, sv) in
  healthy n sv' /\
  if rp_status rep =? 202 then accepted now r w w' sv' (rp_body rep) else kept sv sv'.
Proof. apply handleHttp_sound. Qed.

(** C27: The complete list of status codes of the handler.  It never answers 429
    and never sets [retry-after]: a worker whose loops are all busy accepts
    deliveries like an idle one. *)
Theorem http_status_codes n now qnow r w sv :
  healthy n sv -> 0 <= n -> clock_ok qnow -> foreign_stream r ->
  let rep := (handleHttp ready maxConcurrentJobs now qnow r (w, sv)).1 in
  rp_status rep ∈ [200; 202; 400; 401; 404; 405; 409; 413; 415; 500; 503] /\ rp_retryAfter rep = None.
Proof.
  intros Hs Hn Hc Hf. cbv zeta. destruct (handleHttp_cases now qnow r (w, sv)) as [(rep & -> & Hr & ?)| ->].
  - split; [|done]. cbn [fst]. set_solver.
  - pose proof (accept_job_cases n now qnow r w sv Hs Hn Hc Hf) as Ha.
    destruct (accept_job _ _ _ _ _ _ _) as [[result|e] [w' sv']]; destruct Ha as [_ Ha]; [split; [set_solver|done]|].
    destruct Ha as [[Hr ?]%error_reply_cases _]. split; [|done]. cbn [fst]. set_solver.
Qed.
End handler_proofs.

(** ** Behind the HMAC identity *)
Section hmac_http.
Context {Q : Type} {base : Z} `{JobQueue Q base} {S : Type} `{ReplayStore S}.
Context `{Sha256} `{Base64Url} `{Hmac} `{DateParse} `{JsonParse} `{JsonStringify} `{TargetParser}.
Context (ready : bool) (maxConcurrentJobs : nat) (c : hmac_config).

(** The identity as authenticator of a request that arrives at [now]. *)
Definition hmac_authenticator (now : Z) : Authenticator S := {| authenticate q := hmac_verifyIncoming c now q |}.

Definition hmac_handle (now qnow : Z) (r : http_request) (s : S * server Q) : reply * (S * server Q) :=
  handleHttp (H0 := hmac_authenticator now) ready maxConcurrentJobs now qnow r s.

(** Behind the HMAC identity a delivery is accepted at most once: after a
    202, and whatever requests the identity has checked since, a request with
    the same timestamp and nonce is not accepted, provided the clock has not
    gone back. *)
Theorem http_no_replay n now1 qnow1 r1 s sv rep1 s1 sv1 mid now2 qnow2 r2 n2 sv2 :
  healthy n sv -> 0 <= n -> clock_ok qnow1 -> foreign_stream r1 ->
  hmac_handle now1 qnow1 r1 (s, sv) = (rep1, (s1, sv1)) -> rp_status rep1 = 202 ->
  healthy n2 sv2 -> 0 <= n2 -> clock_ok qnow2 -> foreign_stream r2 ->
  header (hr_headers r2) "x-xmcl-timestamp" = header (hr_headers r1) "x-xmcl-timestamp" ->
  header (hr_headers r2) "x-xmcl-nonce" = header (hr_headers r1) "x-xmcl-nonce" ->
  Forall (fun c => c.1 <= now2) mid ->
  rp_status (hmac_handle now2 qnow2 r2 (verify_all (hmac_verifyIncoming c) mid s1, sv2)).1 <> 202.
Proof.
  intros Hs Hn Hc Hf E1 Hok1 Hs2 Hn2 Hc2 Hf2 Ht Hno Hmid Hok2. unfold hmac_handle in *.
  pose proof (handleHttp_sound (H0 := hmac_authenticator now1) ready maxConcurrentJobs n now1 qnow1 r1 s sv
    Hs Hn Hc Hf) as Ha. rewrite E1, Hok1 in Ha. destruct Ha as [_ (body & env & j & _ & Hv1 & _)].
  set (mids := verify_all _ mid s1) in *.
  pose proof (handleHttp_sound (H0 := hmac_authenticator now2) ready maxConcurrentJobs n2 now2 qnow2 r2
    mids sv2 Hs2 Hn2 Hc2 Hf2) as Hb.
  destruct (handleHttp _ _ _ _ r2 (mids, sv2)) as [rep2 [s2 sv2']]. cbn [fst] in Hok2. rewrite Hok2 in Hb.
  destruct Hb as [_ (body2 & env2 & j2 & _ & Hv2 & _)]. cbn [authenticate hmac_authenticator] in *.
  apply (replay_rejected (h_keyId c) (h_maxAgeMs c) (hmac_verifyIncoming c) (hmac_consumes c)
    now1 _ s s1 mid now2 (Identity.mkRequest (js "POST") jobs_target (hr_headers r2) body2) Hv1); [done..|].
  fold mids. by rewrite Hv2.
Qed.
End hmac_http.

(** ** Deliveries *)
#[local] Existing Instance toy_sha256.
#[local] Existing Instance rfc_base64url.
#[local] Existing Instance toy_hmac.
#[local] Instance listing : FsReplay.Readdir := {|
  FsReplay.readdir m := map fst (map_to_list m); FsReplay.readdir_perm m := reflexivity _ |}.
#[local] Instance demo_nonces : NonceStore FsReplay.t := fs_nonce_store 1000.
#[local] Instance demo_store : ReplayStore FsReplay.t := fs_replay_store 1000.
#[local] Existing Instance Memory.queue.

(** Milliseconds in decimal. *)
Definition decimal_dates : DateParse := {|
  date_parse s := if matches decimal s then Some (parse_radix 10 s) else None |}.
#[local] Existing Instance decimal_dates.

Definition demo_envelope (issuedAt expiresAt : string) : jsval :=
  obj [("schemaVersion", VInt 1); ("requestId", VText "req"); ("issuedAt", VText issuedAt);
       ("expiresAt", VText expiresAt); ("job", job_value);
       ("grants", obj [("compilerRequestId", VText "req")])]%string.

Definition envelope_texts : JsonParse := {|
  json_parse s := map_get s [(js "good", demo_envelope "1000000" "1200000");
                             (js "early", demo_envelope "1050000" "1040000")] |}.
#[local] Existing Instance envelope_texts.
#[local] Instance plain_stringify : JsonStringify := {| json_stringify v := to_string v |}.
(** Targets without a query. *)
Definition path_targets : TargetParser := {|
  parse_target_url s := Some (mkUrl (js "http:") [] [] (js "worker.invalid") [] s [] [] s (js "http://worker.invalid")) |}.
#[local] Existing Instance path_targets.

Definition delivery (text : string) : http_request :=
  mkHttp (js "POST") jobs_target
    ((js "content-type", HString (js "application/json")) ::
     get_ok [] (hmac_signOutgoing demo_hmac 1000000 demo_random (js "POST") jobs_target (js text)))
    [Chunk (VBytes (js text))].

Definition fresh_server : server Memory.t := new_server Memory.empty.

Lemma fresh_healthy : healthy (base := 1000) 0 fresh_server.
Proof. split; [exact Memory.mem_empty_inv|exact I]. Qed.

Lemma clock_1000000 : clock_ok 1000000.
Proof. split; done. Qed.

Lemma delivery_foreign text : foreign_stream (delivery text).
Proof. repeat constructor. Qed.

Definition first_delivery : reply * (FsReplay.t * server Memory.t) :=
  hmac_handle (base := 1000) true 2 demo_hmac 1010000 1000000 (delivery "good") (demo_fs, fresh_server).

Lemma first_delivery_accepted : rp_status first_delivery.1 = 202.
Proof. vm_cast_no_check (eq_refl 202). Qed.

Lemma http_accepts_exactly_witness :
  exists w' sv' result,
    accepted (base := 1000) (H0 := hmac_authenticator demo_hmac 1010000) 1010000 (delivery "good") demo_fs w' sv' result.
Proof.
  pose proof (http_accepts_exactly (base := 1000) (H0 := hmac_authenticator demo_hmac 1010000) true 2 0 1010000 1000000
    (delivery "good") demo_fs fresh_server fresh_healthy (Z.le_refl 0) clock_1000000 (delivery_foreign "good")) as Hx.
  pose proof first_delivery_accepted as Hok. unfold first_delivery, hmac_handle in Hok.
  destruct (handleHttp _ _ _ _ _ _) as [rep [w' sv']]. cbn [fst] in Hok. rewrite Hok in Hx.
  exists w', sv', (rp_body rep). exact (proj2 Hx).
Defined.

Lemma http_status_codes_witness : rp_retryAfter first_delivery.1 = None.
Proof.
  exact (proj2 (http_status_codes (base := 1000) (H0 := hmac_authenticator demo_hmac 1010000) true 2 0 1010000 1000000
    (delivery "good") demo_fs fresh_server fresh_healthy (Z.le_refl 0) clock_1000000 (delivery_foreign "good"))).
Defined.

Lemma http_no_replay_witness :
  rp_status (hmac_handle (base := 1000) true 2 demo_hmac 1060000 1000000 (delivery "good")
    (verify_all (hmac_verifyIncoming demo_hmac) [(1020000, demo_request)] first_delivery.2.1, fresh_server)).1 <> 202.
Proof.
  apply (http_no_replay (base := 1000) true 2 demo_hmac 0 1010000 1000000 (delivery "good") demo_fs fresh_server
    first_delivery.1 first_delivery.2.1 first_delivery.2.2 [(1020000, demo_request)] 1060000 1000000 (delivery "good") 0
    fresh_server fresh_healthy (Z.le_refl 0) clock_1000000 (delivery_foreign "good")).
  - unfold first_delivery. destruct (hmac_handle _ _ _ _ _ _ _) as [rep [w' sv']]. reflexivity.
  - exact first_delivery_accepted.
  - exact fresh_healthy.
  - lia.
  - exact clock_1000000.
  - apply delivery_foreign.
  - reflexivity.
  - reflexivity.
  - repeat constructor; simpl; lia.
Defined.

Lemma good_envelope : parseEnvelope (js "good") 1010000 = Ok (demo_envelope "1000000" "1200000").
Proof. vm_compute. reflexivity. Qed.

Lemma early_envelope : parseEnvelope (js "early") 1010000 = Ok (demo_envelope "1050000" "1040000").
Proof. vm_compute. reflexivity. Qed.

(** One envelope of each sort. *)
Lemma queued_envelope_reads_back_witness :
  parseQueuedEnvelope (js "good") = Ok (demo_envelope "1000000" "1200000") /\
  parseQueuedEnvelope (js "early") = Throw invalid_persisted_job.
Proof.
  destruct (queued_envelope_reads_back _ _ _ good_envelope) as (i & e & [= <-] & [= <-] & Hg).
  destruct (queued_envelope_reads_back _ _ _ early_envelope) as (i & e & [= <-] & [= <-] & He).
  split; [exact Hg|exact He].
Defined.
