(* ===== verification/WorkerLoops.v ===== *)
(** * The worker loops ([http-worker.mjs], [runLoop] and [processQueued])

    [maxConcurrentJobs] loops claim jobs from the shared queue and work on them
    while requests keep arriving.  The code suspends only at its [await]s, so an
    execution is a sequence of the steps below, one per [await] of a loop, plus
    the requests, the two halves of [stop] and the end of the process.  The
    answers a job receives from outside are those of some world, chosen at its
    step.

    A call of the queue may reject for a reason of its own, a failing file system
    call ([QueueFaults]).  A rejected [claim] ends its loop; a rejected [finish] is
    followed by a second one that asks for a retry, and the rejection of that one is
    swallowed.  The steps are labelled with the jobs they give up: jobs the queue
    has marked running and no loop holds any more. *)

From S2P Require Import Prelude JsText JsNum JsValue Regex Validators Node TarZst QueueSpec MemoryQueue Identity Bundle Effects Downloader Worker Callbacks HttpWorker.

(** ** [processQueued] up to the queue's [finish] *)
Definition result_status (o : outcome) : string :=
  match o with
  | Published _ => "published"
  | PublishedCallbackUncertain _ => "published_callback_uncertain"
  | UploadReconciliationUncertain _ => "upload_reconciliation_uncertain"
  | Failed _ => "failed"
  end.

(** The object [run] returns. *)
Definition run_result (job : jsval) (o : outcome) : jsval :=
  let uncertain publication :=
    obj [("status", VText (result_status o)); ("deploymentId", opt_prop job "deploymentId");
         ("manifestSha256", opt_prop job "manifestSha256"); ("content", opt_prop publication "content");
         ("descriptor", opt_prop publication "descriptor")]%string in
  match o with
  | Published id => obj [("status", VText (result_status o)); ("deploymentId", id)]%string
  | PublishedCallbackUncertain publication | UploadReconciliationUncertain publication => uncertain publication
  | Failed code => obj [("status", VText (result_status o)); ("code", VText code)]%string
  end.

(** [typeof error?.code === "string" ? error.code : "compiler_failed"] *)
Definition retry_code (e : exn) : string := default "compiler_failed"%string (error_code e).

Definition retry_outcome (code : string) : QueueSpec.outcome :=
  QueueSpec.mkOutcome (js "retry") (obj [("status", VText "queue_retry"); ("code", VText code)]%string).

Section process.
Context {W : Type} `{Unicode} `{UrlParser} `{DateParse} `{JsonParse} `{JsonStringify} `{CallbackTransport W}
  `{Sha256} `{NumberParse} `{InflateRaw} {builder : RuntimeBuilder W}.
Context (origin : jsstr) (grantsType : response -> option jsstr).
Context (store_fetch : request -> eff W response) (store_timer : eff W bool).

(** [worker.run(envelope.job)] with a control plane of its own. *)
Definition run_bound (job : jsval) (w : W) : res outcome * (bound W * list event) :=
  run (services := bound_services origin grantsType job store_fetch store_timer) (builder := outside_builder)
    job (fresh_bound w, []).

Definition is_terminal (o : outcome) (s : bound W) : bool :=
  bd_terminal s && bool_decide (result_status o ∈ ["published"; "failed"]%string).

(** What the queue will be told, or the code of the exception. *)
Definition process_job (c : claimed) (w : W) : QueueSpec.outcome + string :=
  match parseQueuedEnvelope (c_body c) with
  | Throw e => inr (retry_code e)
  | Ok envelope =>
      let job := opt_prop envelope "job" in
      match run_bound job w with
      | (Ok o, (s, _)) =>
          inl (QueueSpec.mkOutcome (js (if is_terminal o s then "terminal" else "retry")) (run_result job o))
      | (Throw e, _) => inr (retry_code e)
      end
  end.
End process.

(** ** Steps *)

(** The job a loop is holding. *)
Definition holder (l : loop) : option claimed :=
  match l with
  | LWorking c | LFinishing c _ | LRetrying c _ => Some c
  | _ => None
  end.

Definition settled (l : loop) : bool := match l with LStopped | LDead _ => true | _ => false end.

Section steps.
Context {Q : Type} {base : Z} `{JobQueue Q base}.
Context {A : Type} `{Authenticator A} `{TargetParser}.
Context {W : Type} `{Unicode} `{UrlParser} `{DateParse} `{JsonParse} `{JsonStringify} `{CallbackTransport W}
  `{Sha256} `{NumberParse} `{InflateRaw} {builder : RuntimeBuilder W}.
Context (origin : jsstr) (grantsType : response -> option jsstr).
Context (store_fetch : request -> eff W response) (store_timer : eff W bool).
Context (ready : bool) (maxConcurrentJobs : nat).

Implicit Types s : server Q.

Definition set_loop s (i : nat) (l : loop) : server Q := with_loops s (<[i := l]> (sv_loops s)).

(** [this.activeJobs += d], with the new queue. *)
Definition set_active s (q : Q) (d : Z) : server Q :=
  mkServer q (sv_activeJobs s + d) (sv_started s) (sv_startPromise s) (sv_stopping s) (sv_loops s).

Abbreviation process := (process_job origin grantsType store_fetch store_timer).

(** One step of loop [i], with the jobs it gives up. *)
Inductive loop_step s : list jsstr -> server Q -> Prop :=
  | step_leave i :
      sv_loops s !! i = Some LTop -> sv_stopping s = true -> loop_step s [] (set_loop s i LStopped)
  | step_enter i :
      sv_loops s !! i = Some LTop -> sv_stopping s = false -> loop_step s [] (set_loop s i LClaiming)
  | step_claim i now c q' :
      sv_loops s !! i = Some LClaiming -> clock_ok now -> q_claim now (sv_queue s) = (Ok (Some c), q') ->
      loop_step s [] (set_loop (set_active s q' 1) i (LWorking c))
  | step_claim_none i now q' :
      sv_loops s !! i = Some LClaiming -> clock_ok now -> q_claim now (sv_queue s) = (Ok None, q') ->
      loop_step s [] (set_loop (with_queue s q') i LWaiting)
  | step_claim_rejects i now e q' :
      sv_loops s !! i = Some LClaiming -> clock_ok now -> q_claim now (sv_queue s) = (Throw e, q') ->
      loop_step s [] (set_loop (with_queue s q') i (LDead e))
  | step_timer i :
      sv_loops s !! i = Some LWaiting -> loop_step s [] (set_loop s i LTop)
  | step_process i c w o :
      sv_loops s !! i = Some (LWorking c) -> process c w = inl o -> loop_step s [] (set_loop s i (LFinishing c o))
  | step_process_throws i c w code :
      sv_loops s !! i = Some (LWorking c) -> process c w = inr code -> loop_step s [] (set_loop s i (LRetrying c code))
  | step_finish i c o now q' :
      sv_loops s !! i = Some (LFinishing c o) -> clock_ok now ->
      q_finish now (c_id c) o (sv_queue s) = (Ok tt, q') -> loop_step s [] (set_loop (set_active s q' (-1)) i LTop)
  | step_finish_throws i c o now e q' :
      sv_loops s !! i = Some (LFinishing c o) -> clock_ok now ->
      q_finish now (c_id c) o (sv_queue s) = (Throw e, q') ->
      loop_step s [] (set_loop (with_queue s q') i (LRetrying c (retry_code e)))
  | step_retry i c code now r q' :
      sv_loops s !! i = Some (LRetrying c code) -> clock_ok now ->
      q_finish now (c_id c) (retry_outcome code) (sv_queue s) = (r, q') ->
      loop_step s [] (set_loop (set_active s q' (-1)) i LTop)
  (* The queue rejects.  A rejecting [claim] rejects the promise of the loop, which
     nothing handles before [stop]: by default the process ends, which is [step_crash];
     here it may also go on without the loop. *)
  | step_claim_fault i now e lost q' :
      sv_loops s !! i = Some LClaiming -> clock_ok now -> claim_fault now (sv_queue s) lost q' ->
      loop_step s lost (set_loop (with_queue s q') i (LDead e))
  | step_finish_fault i c o e q' :
      sv_loops s !! i = Some (LFinishing c o) -> unaffected (sv_queue s) q' ->
      loop_step s [] (set_loop (with_queue s q') i (LRetrying c (retry_code e)))
  | step_retry_fault i c code q' :
      sv_loops s !! i = Some (LRetrying c code) -> unaffected (sv_queue s) q' ->
      loop_step s [c_id c] (set_loop (set_active s q' (-1)) i LTop).

(** [stop()] up to the [await], and after it. *)
Definition stop_request s : server Q :=
  if sv_started s
  then mkServer (sv_queue s) (sv_activeJobs s) true (sv_startPromise s) true (map wake_loop (sv_loops s))
  else s.

Definition stop_done s : server Q := mkServer (sv_queue s) (sv_activeJobs s) false None (sv_stopping s) [].

(** A request is one step, or, as it suspends between its parts, a start, later an
    [enqueue] (also one that rejects) and the wake-ups of [step_timer]. *)
Inductive step s : list jsstr -> server Q -> Prop :=
  | step_loop lost s' : loop_step s lost s' -> step s lost s'
  | step_http now qnow r (a a' : A) rep s' :
      clock_ok qnow -> handleHttp ready maxConcurrentJobs now qnow r (a, s) = (rep, (a', s')) -> step s [] s'
  | step_start now (a a' : A) r s' :
      start ready maxConcurrentJobs now (a, s) = (r, (a', s')) -> step s [] s'
  | step_enqueue now v body q' :
      clock_ok now -> parse_bytes body = Some v -> enqueue_fault now (enqueue_input v body) (sv_queue s) q' ->
      step s [] (with_queue s q')
  | step_stop : step s [] (stop_request s)
  | step_stopped :
      sv_started s = true -> sv_stopping s = true -> forallb settled (sv_loops s) = true -> step s [] (stop_done s)
  | step_crash : step s [] (new_server (sv_queue s)).

(** Executions, with their length and the jobs given up since the worker was
    started. *)
Inductive steps (P : server Q -> list jsstr -> server Q -> Prop) : nat -> server Q -> list jsstr -> server Q -> Prop :=
  | steps_nil s : steps P 0 s [] s
  | steps_snoc t s1 lost s2 lost' s3 :
      steps P t s1 lost s2 -> P s2 lost' s3 -> steps P (S t) s1 (if sv_started s3 then lost ++ lost' else []) s3.

(** ** The invariant *)

(** A stored body is an envelope of its job: same request id, deployment and job
    fingerprint. *)
Definition body_of (j : job) (b : bytes) : Prop :=
  exists v, parse_bytes b = Some v /\ identity_of j = identity_of_input (enqueue_input v b).

Definition bodies_ok (m : gmap jsstr job) : Prop := forall k j, m !! k = Some j ->
  j_id j <> [] /\ body_of j (j_body j) /\ (forall b, j_redeliveryBody j = Some b -> body_of j b).

(** A claimed body is an envelope with the claimed ids. *)
Definition claimed_ok (c : claimed) : Prop :=
  c_id c <> [] /\
  exists v, parse_bytes (c_body c) = Some v /\ c_id c = get_str (opt_prop v "requestId") /\
    c_deploymentId c = get_str (opt_prop (opt_prop v "job") "deploymentId").

(** The run of a job ended with an acknowledged terminal callback. *)
Definition retired_by (c : claimed) (o : QueueSpec.outcome) : Prop :=
  exists envelope w r sb log k,
    parseQueuedEnvelope (c_body c) = Ok envelope /\
    run_bound origin grantsType store_fetch store_timer (opt_prop envelope "job") w = (Ok r, (sb, log)) /\
    terminals sb = [k] /\ QueueSpec.o_result o = run_result (opt_prop envelope "job") r.

Definition outcome_ok (l : loop) : Prop :=
  match l with
  | LFinishing c o => valid_kind o = true /\ (QueueSpec.o_kind o = js "terminal" -> retired_by c o)
  | _ => True
  end.

Definition holders (ls : list loop) : list (option claimed) := map holder ls.

Definition held_count (hs : list (option claimed)) : Z :=
  foldr (fun h n => (if h is Some _ then 1 else 0) + n) 0 hs.

(** Who owns the running jobs; [lost] are the ones given up. *)
Record owned (m : gmap jsstr job) (hs : list (option claimed)) (lost : list jsstr) (started : bool) : Prop := {
  owned_running : forall i c, hs !! i = Some (Some c) -> running q_key m (c_id c) /\ claimed_ok c;
  owned_distinct : forall i i' c c',
    hs !! i = Some (Some c) -> hs !! i' = Some (Some c') -> c_id c = c_id c' -> i = i';
  owned_all : started = true -> forall id, running q_key m id ->
    (exists i c, hs !! i = Some (Some c) /\ c_id c = id) \/ id ∈ lost;
  owned_lost : forall id, id ∈ lost ->
    running q_key m id /\ forall i c, hs !! i = Some (Some c) -> c_id c <> id;
}.

Record inv (n : Z) (lost : list jsstr) (s : server Q) : Prop := {
  inv_healthy : healthy n s;
  inv_bodies : bodies_ok (q_abs (sv_queue s));
  inv_owned : owned (q_abs (sv_queue s)) (holders (sv_loops s)) lost (sv_started s);
  inv_lost : sv_started s = false -> lost = [];
  inv_active : sv_activeJobs s = held_count (holders (sv_loops s));
  inv_outcomes : Forall outcome_ok (sv_loops s);
  inv_started : if sv_started s then length (sv_loops s) = maxConcurrentJobs else sv_loops s = [];
}.

(** ** The queue side *)
Lemma running_back (m : gmap jsstr job) e m' id :
  keyed q_key m -> qstep base q_key m e m' -> running q_key m' id ->
  (running q_key m id /\ ~ releases id e) \/ claims id e.
Proof.
  intros Hm Hs (j' & Hj' & Hid & Hr).
  destruct Hs as [now i m r m' Hs|now m c m' Hs|now id' o m m' Hs|now id' o m Hs|m].
  - left. split; [|by intros [|[? ?]]]. unfold spec_enqueue in Hs.
    destruct (validateEnqueue i); [|injection Hs as _ <-; by exists j'].
    destruct (m !! q_key (in_id i)) as [j|] eqn:Ej.
    + destruct (assertSameIdentity _ _); [|injection Hs as _ <-; by exists j'].
      destruct (j_state j) eqn:Es; injection Hs as _ <-; [| | |by exists j'];
        apply lookup_insert_Some in Hj' as [[Ek <-]|[_ Hj']]; try (by exists j'); try done.
      exists j. rewrite <- Ek. by split_and!.
    + injection Hs as _ <-. apply lookup_insert_Some in Hj' as [[_ <-]|[_ Hj']]; [done|by exists j'].
  - destruct Hs as [_|k j Hk Hd]; [left; split; [by exists j'|by intros [|[? ?]]]|].
    apply lookup_insert_Some in Hj' as [[_ <-]|[_ Hj']]; [right; by eexists|].
    left. split; [by exists j'|by intros [|[? ?]]].
  - unfold spec_finish in Hs. destruct (m !! q_key id') as [j|] eqn:Ej; [|done].
    destruct (decide _) as [(Hjid & _ & _)|]; [|done]. injection Hs as <-.
    apply lookup_insert_Some in Hj' as [[_ <-]|[Hne Hj']]; [by destruct (streq _ _)|].
    left. split; [by exists j'|]. intros [|[? [= -> _]]]; done.
  - left. split; [by exists j'|]. by intros [|[? ?]].
  - unfold spec_recover in Hj'. rewrite lookup_fmap, fmap_Some in Hj'. destruct Hj' as (j & _ & ->).
    cbn in Hr. destruct (decide _); done.
Qed.

(** Every event but an enqueue keeps the bodies; an enqueue brings an envelope. *)
Lemma bodies_step (m : gmap jsstr job) e m' :
  qstep base q_key m e m' -> bodies_ok m ->
  (forall i r, e = EEnqueue i r -> exists v, parse_bytes (in_body i) = Some v /\ i = enqueue_input v (in_body i)) ->
  bodies_ok m'.
Proof.
  intros Hs Hb He.
  destruct Hs as [now i m r m' Hs|now m c m' Hs|now id' o m m' Hs|now id' o m Hs|m]; [| | |done|].
  - destruct (He i r eq_refl) as (v & Hv & Hi). unfold spec_enqueue in Hs.
    destruct (validateEnqueue i) as [[]|] eqn:Ev; [|by injection Hs as _ <-].
    unfold validateEnqueue in Ev. apply throw_if_ok in Ev. rewrite !orb_false_iff, streq_false in Ev.
    destruct (m !! q_key (in_id i)) as [j|] eqn:Ej.
    + destruct (assertSameIdentity _ _) as [[]|] eqn:Ea; [|by injection Hs as _ <-].
      apply assertSameIdentity_ok in Ea. destruct (Hb _ _ Ej) as (Hj1 & Hj2 & Hj3).
      assert (body_of j (in_body i)) as Hnew by (exists v; by rewrite Ea, <- Hi).
      destruct (j_state j); injection Hs as _ <-; try done; intros k j' [[_ <-]|[_ Hj']]%lookup_insert_Some;
        try (by apply (Hb k)); split_and!; cbn; try done; by intros b [= <-].
    + injection Hs as _ <-. intros k j' [[_ <-]|[_ Hj']]%lookup_insert_Some; [|by apply (Hb k)].
      split_and!; [tauto| |done]. exists v. cbn. by rewrite <- Hi.
  - destruct Hs as [_|k j Hk _]; [done|]. intros k' j' [[_ <-]|[_ Hj']]%lookup_insert_Some; [exact (Hb k j Hk)|by apply (Hb k')].
  - unfold spec_finish in Hs. destruct (m !! q_key id') as [j|] eqn:Ej; [|done].
    destruct (decide _); [|done]. injection Hs as <-. destruct (Hb _ _ Ej) as (Hj1 & Hj2 & Hj3).
    intros k' j' [[_ <-]|[_ Hj']]%lookup_insert_Some; [|by apply (Hb k')].
    destruct (streq _ _); [by split_and!|]. split_and!; cbn; [done| |done].
    destruct (j_redeliveryBody j) as [b|]; [by apply Hj3|done].
  - intros k j. unfold spec_recover. rewrite lookup_fmap, fmap_Some. intros (j0 & Hj0 & ->). exact (Hb k j0 Hj0).
Qed.

(** ** Ownership *)
Lemma owned_quiet (m : gmap jsstr job) e m' hs lost b :
  keyed q_key m -> qstep base q_key m e m' ->
  (forall id, ~ releases id e) -> (forall id, ~ claims id e) -> owned m hs lost b -> owned m' hs lost b.
Proof.
  intros Hm Hs Hrel Hcl [Hr Hd Ha Hl]. split.
  - intros i c Hi. destruct (Hr i c Hi) as [Hrun Hok]. split; [|done].
    by destruct (running_step _ _ _ _ _ _ Hm Hs Hrun (Hrel _)).
  - done.
  - intros Hb id Hrun. destruct (running_back _ _ _ _ Hm Hs Hrun) as [[Hrun' _]|Hc]; [by apply Ha|by apply Hcl in Hc].
  - intros id [Hrun Hno]%Hl. split; [|done]. by destruct (running_step _ _ _ _ _ _ Hm Hs Hrun (Hrel _)).
Qed.

(** A claimed job was not running, and no loop held it. *)
Lemma claim_new (m : gmap jsstr job) now c m' hs lost b :
  keyed q_key m -> bodies_ok m -> spec_claim now m (Some c) m' -> owned m hs lost b ->
  (running q_key m' (c_id c) /\ claimed_ok c) /\
  (forall i c', hs !! i = Some (Some c') -> running q_key m' (c_id c') /\ c_id c' <> c_id c) /\
  (forall id, id ∈ lost -> running q_key m' id /\ id <> c_id c) /\
  (forall id, running q_key m' id -> running q_key m id \/ id = c_id c).
Proof.
  intros Hm Hbod Hsc [Hr Hd Ha Hl].
  assert (qstep base q_key m (EClaim (Some c)) m') as Hs by (by econstructor).
  assert (forall id, running q_key m id -> running q_key m' id /\ id <> c_id c) as Hold.
  { intros id Hrun. destruct (running_step _ _ _ _ _ _ Hm Hs Hrun) as [? Hn]; [by intros [|[? ?]]|]. split; [done|].
    intros E. apply Hn. by exists c. }
  split; [split; [|split]|split_and!].
  - inversion Hsc as [|k j Hk Hdue]; subst. pose proof (Hm k j Hk) as ->. eexists. by rewrite lookup_insert_eq.
  - inversion Hsc as [|k j Hk Hdue]; subst. by destruct (Hbod k j Hk).
  - inversion Hsc as [|k j Hk Hdue]; subst. destruct (Hbod k j Hk) as (_ & (v & Hv & Hidv) & _).
    exists v. injection Hidv as E1 E2 _. by split_and!.
  - intros i' c' Hi'. by apply Hold, (Hr i').
  - intros id [Hrun _]%Hl. by apply Hold.
  - intros id Hrun. destruct (running_back _ _ _ _ Hm Hs Hrun) as [[? _]|(c0 & [= <-] & Hc)]; auto.
Qed.

Lemma owned_claim (m : gmap jsstr job) now c m' hs i lost b :
  keyed q_key m -> bodies_ok m -> spec_claim now m (Some c) m' -> hs !! i = Some None ->
  owned m hs lost b -> owned m' (<[i := Some c]> hs) lost b.
Proof.
  intros Hm Hbod Hsc Hi Ho. destruct (claim_new _ _ _ _ _ _ _ Hm Hbod Hsc Ho) as (Hnew & Hold & Hlost & Hback).
  destruct Ho as [Hr Hd Ha Hl].
  assert (i < length hs)%nat as Hlen by (by apply lookup_lt_is_Some; eexists). split.
  - intros i' c' [(-> & [= <-] & _)|[Hne Hi']]%list_lookup_insert_Some; [done|].
    split; [by apply (Hold i')|by apply (Hr i')].
  - intros i1 i2 c1 c2 [(<- & E1 & _)|[Hne1 Hi1]]%list_lookup_insert_Some
      [(<- & E2 & _)|[Hne2 Hi2]]%list_lookup_insert_Some E; simplify_eq; [done|..].
    + exfalso. by apply (Hold _ _ Hi2).
    + exfalso. by apply (Hold _ _ Hi1).
    + by eapply Hd.
  - intros Hb id [Hrun'| ->]%Hback; [|left; exists i, c; split; [by apply list_lookup_insert_eq|done]].
    destruct (Ha Hb id Hrun') as [(i' & c' & Hi' & Hc')|?]; [left|by right]. exists i', c'. split; [|done].
    rewrite list_lookup_insert_ne; [done|]. intros ->. by rewrite Hi in Hi'.
  - intros id Hid. destruct (Hlost id Hid). split; [done|].
    intros i' c' [(-> & [= <-] & _)|[Hne Hi']]%list_lookup_insert_Some; [congruence|]. by apply (proj2 (Hl id Hid) i').
Qed.

(** A job that was claimed by a call that then rejected. *)
Lemma owned_claim_lost (m : gmap jsstr job) now c m' hs lost b :
  keyed q_key m -> bodies_ok m -> spec_claim now m (Some c) m' -> owned m hs lost b -> owned m' hs (lost ++ [c_id c]) b.
Proof.
  intros Hm Hbod Hsc Ho. destruct (claim_new _ _ _ _ _ _ _ Hm Hbod Hsc Ho) as (Hnew & Hold & Hlost & Hback).
  destruct Ho as [Hr Hd Ha Hl]. split.
  - intros i c' Hi. split; [by apply (Hold i)|by apply (Hr i)].
  - done.
  - intros Hb id [[?|?]%(Ha Hb)| ->]%Hback; [by left|right; set_solver..].
  - intros id [Hid| ->%list_elem_of_singleton]%elem_of_app; [|split; [by apply Hnew|]; intros i c' Hi; by apply (Hold i)].
    split; [by apply Hlost|]. by apply Hl.
Qed.

Lemma owned_finish (m : gmap jsstr job) o m' hs i c lost b :
  keyed q_key m -> qstep base q_key m (EFinish (c_id c) o true) m' -> hs !! i = Some (Some c) ->
  owned m hs lost b -> owned m' (<[i := None]> hs) lost b.
Proof.
  intros Hm Hs Hi [Hr Hd Ha Hl]. split.
  - intros i' c' [(_ & ? & _)|[Hne Hi']]%list_lookup_insert_Some; [done|].
    destruct (Hr i' c' Hi') as [Hrun Hok]. split; [|done].
    destruct (running_step _ _ _ _ _ _ Hm Hs Hrun) as [? _]; [|done].
    intros [|[? [= E _]]]; [done|]. by apply Hne, (Hd i i' c c').
  - intros i1 i2 c1 c2 [(_ & ? & _)|[Hne1 Hi1]]%list_lookup_insert_Some; [done|].
    intros [(_ & ? & _)|[Hne2 Hi2]]%list_lookup_insert_Some; [done|]. by eapply Hd.
  - intros Hb id Hrun. destruct (running_back _ _ _ _ Hm Hs Hrun) as [[Hrun' Hrel]|(? & ? & _)]; [|done].
    destruct (Ha Hb id Hrun') as [(i' & c' & Hi' & Hc')|?]; [left|by right]. exists i', c'. split; [|done].
    rewrite list_lookup_insert_ne; [done|]. intros ->. simplify_eq. apply Hrel. right. by eexists.
  - intros id Hid. destruct (Hl id Hid) as [Hrun Hno]. split.
    + destruct (running_step _ _ _ _ _ _ Hm Hs Hrun) as [? _]; [|done]. intros [|[? [= E _]]]; [done|]. by apply (Hno i c).
    + intros i' c' [(_ & ? & _)|[Hne Hi']]%list_lookup_insert_Some; [done|]. by apply (Hno i').
Qed.

(** A held job that its loop lets go of while it is running. *)
Lemma owned_drop (m : gmap jsstr job) hs i c lost b :
  hs !! i = Some (Some c) -> owned m hs lost b -> owned m (<[i := None]> hs) (lost ++ [c_id c]) b.
Proof.
  intros Hi [Hr Hd Ha Hl]. split.
  - intros i' c' [(_ & ? & _)|[Hne Hi']]%list_lookup_insert_Some; [done|by apply (Hr i')].
  - intros i1 i2 c1 c2 [(_ & ? & _)|[Hne1 Hi1]]%list_lookup_insert_Some; [done|].
    intros [(_ & ? & _)|[Hne2 Hi2]]%list_lookup_insert_Some; [done|]. by eapply Hd.
  - intros Hb id Hrun. destruct (Ha Hb id Hrun) as [(i' & c' & Hi' & Hc')|?]; [|right; set_solver].
    destruct (decide (i' = i)) as [->|Hne]; [right; rewrite Hi in Hi'; simplify_eq; set_solver|].
    left. exists i', c'. by rewrite list_lookup_insert_ne.
  - intros id [Hid| ->%list_elem_of_singleton]%elem_of_app.
    + destruct (Hl id Hid) as [? Hno]. split; [done|].
      intros i' c' [(_ & ? & _)|[Hne Hi']]%list_lookup_insert_Some; [done|by apply (Hno i')].
    + split; [by apply (Hr i)|]. intros i' c' [(_ & ? & _)|[Hne Hi']]%list_lookup_insert_Some E; [done|].
      by apply Hne, (Hd i i' c c').
Qed.

Lemma held_count_insert hs (i : nat) h h' :
  hs !! i = Some h ->
  held_count (<[i := h']> hs) =
    held_count hs - (if h is Some _ then 1 else 0) + (if h' is Some _ then 1 else 0).
Proof.
  assert (forall h l, held_count (h :: l) = (if h is Some _ then 1 else 0) + held_count l) as Hcons by done.
  revert i. induction hs as [|h0 hs IH]; intros [|i]; cbn [lookup list_lookup]; [done..| |].
  - intros [= ->]. change (<[0%nat := h']> (h :: hs)) with (h' :: hs). rewrite !Hcons. lia.
  - intros Hi. change (<[S i := h']> (h0 :: hs)) with (h0 :: <[i := h']> hs). rewrite !Hcons, (IH i Hi). lia.
Qed.

Lemma held_count_bounds hs : 0 <= held_count hs <= Z.of_nat (length hs).
Proof.
  induction hs as [|[c|] hs IH]; [done|..]; rewrite length_cons, Nat2Z.inj_succ; unfold held_count in *;
    cbn [foldr]; lia.
Qed.

Lemma held_count_zero hs : Forall (eq None) hs -> held_count hs = 0.
Proof. by induction 1 as [|h hs <- _ IH]. Qed.

(** A change of loop [i] that keeps its job. *)
Lemma holders_insert ls (i : nat) l l' : ls !! i = Some l -> holders (<[i := l']> ls) = <[i := holder l']> (holders ls).
Proof. intros _. apply list_fmap_insert. Qed.

Lemma holders_lookup ls (i : nat) l : ls !! i = Some l -> holders ls !! i = Some (holder l).
Proof. intros Hl. unfold holders. by rewrite list_lookup_fmap, Hl. Qed.

Lemma holders_same ls (i : nat) l l' :
  ls !! i = Some l -> holder l' = holder l -> holders (<[i := l']> ls) = holders ls.
Proof.
  intros Hl E. erewrite holders_insert by done. rewrite E. by apply list_insert_id, holders_lookup.
Qed.

Lemma length_holders ls : length (holders ls) = length ls.
Proof. apply length_map. Qed.

Lemma holders_wake ls : holders (map wake_loop ls) = holders ls.
Proof. unfold holders. rewrite map_map. apply map_ext. by intros []. Qed.

(** ** Every step keeps the invariant *)
Ltac server :=
  cbn [sv_queue sv_activeJobs sv_started sv_startPromise sv_stopping sv_loops set_loop with_loops with_queue
       set_active stop_done new_server fst snd].

Lemma inv_mono n n' lost s : inv n lost s -> n <= n' -> inv n' lost s.
Proof. intros [[Hq Hp] Hb Ho Hz Ha Hc Hs] Hn. split; try done. split; [by eapply q_inv_mono|done]. Qed.

Lemma inv_set_loop n lost s i l l' :
  inv n lost s -> sv_loops s !! i = Some l -> holder l' = holder l ->
  outcome_ok l' -> inv n lost (set_loop s i l').
Proof.
  intros [Hh Hb Ho Hz Ha Hc Hs] Hl E Hl'. pose proof (holders_same _ _ _ _ Hl E) as Hsame.
  split; server; rewrite ?Hsame; try done; [by apply Forall_insert|].
  destruct (sv_started s); [by rewrite length_insert|]. by rewrite Hs in Hl.
Qed.

Lemma inv_wake n lost s : inv n lost s -> inv n lost (with_loops s (map wake_loop (sv_loops s))).
Proof.
  intros [Hh Hb Ho Hz Ha Hc Hs]. split; server; rewrite ?holders_wake; try done.
  - apply Forall_map. eapply Forall_impl; [done|]. by intros [].
  - destruct (sv_started s); [by rewrite length_map|]. by rewrite Hs.
Qed.

(** A queue operation that neither claims nor releases. *)
Lemma inv_queue n lost s q' e :
  inv n lost s -> q_inv n q' -> qstep base q_key (q_abs (sv_queue s)) e (q_abs q') ->
  (forall id, ~ releases id e) -> (forall id, ~ claims id e) ->
  (forall i r, e = EEnqueue i r -> exists v, parse_bytes (in_body i) = Some v /\ i = enqueue_input v (in_body i)) ->
  inv n lost (with_queue s q').
Proof.
  intros [[Hq Hp] Hb Ho Hz Ha Hc Hs] Hq' Hstep Hrel Hcl He. split; server; try done.
  - by eapply bodies_step.
  - eapply owned_quiet; try done. by eapply q_keyed_law.
Qed.

(** A rejected call without effect. *)
Lemma inv_unaffected n lost s q' : inv n lost s -> unaffected (sv_queue s) q' -> inv n lost (with_queue s q').
Proof.
  intros [[Hq Hp] Hb Ho Hz Ha Hc Hs] [E Hq']. split; server; rewrite ?E; try done. split; [by apply Hq'|done].
Qed.

Lemma inv_enqueue n lost now v body s :
  inv n lost s -> 0 <= n -> clock_ok now -> parse_bytes body = Some v ->
  inv n lost (with_queue s (q_enqueue now (enqueue_input v body) (sv_queue s)).2).
Proof.
  intros Hi Hn Hc Hv. pose proof (inv_healthy _ _ _ Hi) as [Hq _].
  pose proof (q_enqueue_law n now (enqueue_input v body) (sv_queue s) Hq Hn Hc) as Hl.
  destruct (q_enqueue now _ (sv_queue s)) as [r q']. destruct Hl as [Hq' Hl].
  eapply inv_queue; [done|done|by eapply qstep_enqueue|by intros id [|[? ?]]|by intros id (? & ? & _)|].
  intros i r' [= <- <-]. by exists v.
Qed.

Lemma inv_enqueue_fault n lost now v body s q' :
  inv n lost s -> 0 <= n -> clock_ok now -> parse_bytes body = Some v ->
  enqueue_fault now (enqueue_input v body) (sv_queue s) q' -> inv n lost (with_queue s q').
Proof.
  intros Hi Hn Hc Hv [q0 Hu|r q1 q0 E Hu]; [by apply inv_unaffected|].
  pose proof (inv_enqueue n lost now v body s Hi Hn Hc Hv) as Hi'. rewrite E in Hi'.
  by apply (inv_unaffected _ _ (with_queue s q1) q0).
Qed.

Lemma recover_not_running (m : gmap jsstr job) id : ~ running q_key (spec_recover m) id.
Proof.
  intros (j & Hj & _ & Hr). unfold spec_recover in Hj. rewrite lookup_fmap, fmap_Some in Hj.
  destruct Hj as (j0 & _ & ->). cbn in Hr. by destruct (decide _).
Qed.

Lemma holders_replicate k : holders (replicate k LTop) = replicate k None.
Proof. induction k as [|k IH]; [done|]. cbn. by f_equal. Qed.

Lemma owned_none (m : gmap jsstr job) k : (forall id, ~ running q_key m id) -> owned m (replicate k None) [] true.
Proof.
  intros Hm. split.
  - intros i c [? _]%lookup_replicate. done.
  - intros i i' c c' [? _]%lookup_replicate. done.
  - intros _ id Hr. by apply Hm in Hr.
  - by intros id ?%not_elem_of_nil.
Qed.

Lemma inv_start n lost now : preserves (fun p : A * server Q => inv n lost p.2) (start ready maxConcurrentJobs now).
Proof.
  intros [a s] Hi. cbn [snd] in Hi. unfold start. cbn [fst snd]. destruct ready; cbn [negb]; [|done].
  destruct (sv_started s) eqn:Es; [done|]. destruct (sv_startPromise s) eqn:Ep; [done|].
  destruct Hi as [[Hq Hp] Hb Ho Hz Ha Hc Hs]. rewrite Es in Hs. rewrite (Hz Es).
  destruct (q_initialize_law n now (sv_queue s) Hq) as (q' & -> & Hq' & Hr). cbn [snd].
  split; server; rewrite ?holders_replicate, ?Hr; [done| | |done| | |by apply length_replicate].
  - eapply bodies_step; [apply qstep_recover|done|by intros].
  - apply owned_none, recover_not_running.
  - rewrite Ha, Hs. symmetry. by apply held_count_zero, Forall_replicate.
  - by apply Forall_replicate.
Qed.

(** What the start, the enqueue of an envelope and the wake-up keep, a request
    keeps. *)
Lemma handleHttp_preserves (I : server Q -> Prop) now qnow r a s :
  preserves (fun p : A * server Q => I p.2) (start ready maxConcurrentJobs qnow) ->
  (forall v body s, parse_bytes body = Some v -> I s ->
     I (with_queue s (q_enqueue qnow (enqueue_input v body) (sv_queue s)).2)) ->
  (forall s, I s -> I (with_loops s (map wake_loop (sv_loops s)))) ->
  I s -> I (handleHttp (W := A) ready maxConcurrentJobs now qnow r (a, s)).2.2.
Proof.
  intros Hstart Henq Hwake Hi.
  destruct (handleHttp_cases ready maxConcurrentJobs now qnow r (a, s)) as [(rep & -> & _)| ->]; [done|].
  assert (preserves (fun p : A * server Q => I p.2) (accept_job ready maxConcurrentJobs now qnow jobs_target r)) as Hacc.
  { unfold accept_job. apply preserves_bind; [done|intros _]. apply preserves_lift_bind. intros body _.
    unfold consume. destruct (negb ready); [apply preserves_lift|]. destruct (_ || _); [apply preserves_lift|].
    apply preserves_bind.
    { apply preserves_try; [|intros; apply preserves_lift]. intros [a' s'] Hs'. unfold on_world. cbn [fst snd].
      by destruct (authenticate _ a'). }
    intros _. apply preserves_lift_bind. intros envelope (Hv & _)%parseEnvelope_ok. cbn [Identity.r_body] in *.
    apply preserves_bind; [|intros _; apply preserves_bind; [|intros; apply preserves_ret]].
    - apply preserves_try; [|intros; apply preserves_lift]. intros [a' s'] Hs'. unfold on_queue. cbn [fst snd].
      pose proof (Henq envelope body s' Hv Hs') as Hq. by destruct (q_enqueue _ _ _).
    - intros [a' s'] Hs'. by apply Hwake. }
  specialize (Hacc (a, s) Hi). by destruct (accept_job _ _ _ _ _ _ _) as [[|] [a' s']].
Qed.

Lemma inv_http n lost now qnow r a s :
  inv n lost s -> 0 <= n -> clock_ok qnow -> inv n lost (handleHttp (W := A) ready maxConcurrentJobs now qnow r (a, s)).2.2.
Proof.
  intros Hi Hn Hc. apply (handleHttp_preserves (inv n lost)); [apply inv_start| |intros; by apply inv_wake|done].
  intros v body s' Hv Hs'. by apply inv_enqueue.
Qed.

Lemma process_outcome c w o :
  process c w = inl o -> valid_kind o = true /\ (QueueSpec.o_kind o = js "terminal" -> retired_by c o).
Proof.
  unfold process_job. destruct (parseQueuedEnvelope (c_body c)) as [envelope|e] eqn:Ep; [|done]. cbv zeta.
  destruct (run_told origin grantsType (opt_prop envelope "job") store_fetch store_timer (fresh_bound w) [] (fresh_quiet _ w))
    as (r & sb & log & Hrun & Htold).
  change (run_bound origin grantsType store_fetch store_timer (opt_prop envelope "job") w = (Ok r, (sb, log))) in Hrun.
  rewrite Hrun.
  intros [= <-]. cbn [QueueSpec.o_kind]. destruct (is_terminal r sb) eqn:Et; (split; [done|]); [|done].
  intros _. unfold is_terminal in Et. apply andb_true_iff in Et as [Hb Hst]. apply bool_decide_eq_true in Hst.
  assert (exists k, terminals sb = [k]) as [k Hk].
  { destruct r; cbn in Htold, Hst; [by destruct Htold as (_ & _ & ?); eexists|set_solver..|].
    destruct Htold as [(_ & _ & ?)|(_ & ? & _)]; [by eexists|congruence]. }
  by exists envelope, w, r, sb, log, k.
Qed.

Lemma inv_claim n lost s i now c q' :
  inv n lost s -> 0 <= n < MAX_SAFE_INTEGER -> sv_loops s !! i = Some LClaiming -> clock_ok now ->
  q_claim now (sv_queue s) = (Ok (Some c), q') -> inv (n + 1) lost (set_loop (set_active s q' 1) i (LWorking c)).
Proof.
  intros [[Hq Hp] Hb Ho Hz Ha Hc Hs] Hn Hl Hclk E.
  destruct (q_claim_law n now (sv_queue s) Hq Hn Hclk) as (c0 & q0 & E0 & Hq' & Hspec).
  rewrite E in E0. injection E0 as <- <-. pose proof (holders_lookup _ _ _ Hl) as Hh.
  split; server; rewrite ?(holders_insert _ _ _ (LWorking c) Hl).
  - by split.
  - eapply bodies_step; [by eapply qstep_claim|done|by intros].
  - eapply owned_claim; try done. by eapply q_keyed_law.
  - done.
  - erewrite held_count_insert by done. cbn. lia.
  - by apply Forall_insert.
  - destruct (sv_started s); [by rewrite length_insert|]. by rewrite Hs in Hl.
Qed.

(** A started worker has a loop; one without loops is not started. *)
Lemma inv_running n lost s (i : nat) l : inv n lost s -> sv_loops s !! i = Some l -> sv_started s = true.
Proof. intros [_ _ _ _ _ _ Hs] Hl. destruct (sv_started s); [done|]. by rewrite Hs in Hl. Qed.

Lemma inv_claim_fault n lost s i now e lost' q' :
  inv n lost s -> 0 <= n < MAX_SAFE_INTEGER -> sv_loops s !! i = Some LClaiming -> clock_ok now ->
  claim_fault now (sv_queue s) lost' q' -> inv (n + 1) (lost ++ lost') (set_loop (with_queue s q') i (LDead e)).
Proof.
  intros Hi Hn Hl Hclk Hf. pose proof (inv_running _ _ _ _ _ Hi Hl) as Hst. destruct Hf as [q0 Hu|c q1 q0 E Hu].
  - rewrite app_nil_r. apply (inv_set_loop _ _ (with_queue s q0) _ LClaiming); try done.
    apply inv_unaffected; [|done]. eapply inv_mono; [done|lia].
  - destruct Hi as [[Hq Hp] Hb Ho Hz Ha Hc Hs].
    destruct (q_claim_law n now (sv_queue s) Hq Hn Hclk) as (c0 & q2 & E0 & Hq' & Hspec).
    rewrite E in E0. injection E0 as <- <-. destruct Hu as [Eu Hu].
    apply (inv_set_loop _ _ (with_queue s q0) _ LClaiming); try done.
    split; server; rewrite ?Eu; try done; [by split; [apply Hu|]| | |by rewrite Hst].
    + eapply bodies_step; [by eapply qstep_claim|done|by intros].
    + eapply owned_claim_lost; try done. by eapply q_keyed_law.
Qed.

(** Finishing a held job, when no call rejects, succeeds and lets go of it. *)
Lemma inv_finish n lost s i l c now o r q' :
  inv n lost s -> sv_loops s !! i = Some l -> holder l = Some c -> clock_ok now -> valid_kind o = true ->
  q_finish now (c_id c) o (sv_queue s) = (r, q') ->
  r = Ok tt /\ spec_finish base q_key now (c_id c) o (q_abs (sv_queue s)) = Some (q_abs q') /\
  inv n lost (set_loop (set_active s q' (-1)) i LTop).
Proof.
  intros [[Hq Hp] Hb Ho Hz Ha Hc Hs] Hl Hhl Hclk Hk E.
  pose proof (holders_lookup _ _ _ Hl) as Hh. rewrite Hhl in Hh.
  destruct (owned_running _ _ _ _ Ho i c Hh) as [(j & Hj & Hid & Hrun) [Hne _]].
  pose proof (q_finish_law n now (c_id c) o (sv_queue s) Hq Hclk Hk) as Hlaw. rewrite E in Hlaw.
  destruct Hlaw as [Hq' Hlaw]. destruct (spec_finish base q_key now (c_id c) o (q_abs (sv_queue s))) as [m|] eqn:Es.
  2:{ unfold spec_finish in Es. rewrite Hj, decide_True in Es; [|done]. by destruct (streq _ _). }
  destruct Hlaw as [-> Hm]. subst m. split; [done|]. split; [done|].
  assert (qstep base q_key (q_abs (sv_queue s)) (EFinish (c_id c) o true) (q_abs q')) as Hstep by (by econstructor).
  split; server; rewrite ?(holders_insert _ _ _ LTop Hl).
  - by split.
  - eapply bodies_step; [done|done|by intros].
  - eapply owned_finish; try done. by eapply q_keyed_law.
  - done.
  - erewrite held_count_insert by done. cbn. lia.
  - by apply Forall_insert.
  - destruct (sv_started s); [by rewrite length_insert|]. by rewrite Hs in Hl.
Qed.

(** A loop gives up its job. *)
Lemma inv_retry_fault n lost s i c code q' :
  inv n lost s -> sv_loops s !! i = Some (LRetrying c code) -> unaffected (sv_queue s) q' ->
  inv n (lost ++ [c_id c]) (set_loop (set_active s q' (-1)) i LTop).
Proof.
  intros Hi Hl [Eu Hu]. pose proof (inv_running _ _ _ _ _ Hi Hl) as Hst. destruct Hi as [[Hq Hp] Hb Ho Hz Ha Hc Hs].
  pose proof (holders_lookup _ _ _ Hl) as Hh. split; server; rewrite ?(holders_insert _ _ _ LTop Hl), ?Eu; try done.
  - by split; [apply Hu|].
  - by apply owned_drop.
  - by rewrite Hst.
  - erewrite held_count_insert by done. cbn. lia.
  - by apply Forall_insert.
  - destruct (sv_started s); [by rewrite length_insert|done].
Qed.

Lemma inv_loop_step n lost s lost' s' :
  inv n lost s -> 0 <= n < MAX_SAFE_INTEGER -> loop_step s lost' s' -> inv (n + 1) (lost ++ lost') s'.
Proof.
  intros Hi Hn Hs. pose proof (inv_mono n (n + 1) lost s Hi ltac:(lia)) as Hi1.
  pose proof (inv_healthy _ _ _ Hi) as [Hq _].
  destruct Hs as [i Hl _|i Hl _|i now c q' Hl Hc E|i now q' Hl Hc E|i now e q' Hl Hc E|i Hl|i c w o Hl E|i c w code Hl E
                 |i c o now q' Hl Hc E|i c o now e q' Hl Hc E|i c code now r q' Hl Hc E
                 |i now e lost' q' Hl Hc Hf|i c o e q' Hl Hu|i c code q' Hl Hu]; rewrite ?app_nil_r.
  - by eapply inv_set_loop.
  - by eapply inv_set_loop.
  - by eapply inv_claim.
  - destruct (q_claim_law n now (sv_queue s) Hq Hn Hc) as (c0 & q0 & E0 & Hq' & Hspec).
    rewrite E in E0. injection E0 as <- <-. apply (inv_set_loop _ _ (with_queue s q') _ LClaiming); try done.
    eapply inv_queue; [done|done|by eapply qstep_claim|by intros id [|[? ?]]|by intros id (? & ? & _)|by intros].
  - by destruct (q_claim_law n now (sv_queue s) Hq Hn Hc) as (c0 & q0 & E0 & _); rewrite E in E0.
  - by eapply inv_set_loop.
  - eapply inv_set_loop; [done..|]. by eapply process_outcome.
  - by eapply inv_set_loop.
  - pose proof (Forall_lookup_1 _ _ _ _ (inv_outcomes _ _ _ Hi1) Hl) as [Hk _]. by eapply (inv_finish _ _ s i).
  - pose proof (Forall_lookup_1 _ _ _ _ (inv_outcomes _ _ _ Hi1) Hl) as [Hk _].
    by eapply inv_finish in E as [? _].
  - by destruct (inv_finish (n + 1) lost s i _ c now (retry_outcome code) r q' Hi1 Hl eq_refl Hc eq_refl E) as (_ & _ & ?).
  - by eapply inv_claim_fault.
  - apply (inv_set_loop _ _ (with_queue s q') _ (LFinishing c o)); try done. by apply inv_unaffected.
  - by eapply inv_retry_fault.
Qed.

Lemma settled_holders ls : forallb settled ls = true -> Forall (eq None) (holders ls).
Proof. induction ls as [|l ls IH]; cbn; [by constructor|]. intros [Hl Hls]%andb_true_iff. by constructor; [destruct l|apply IH]. Qed.

Lemma owned_empty (m : gmap jsstr job) : owned m [] [] false.
Proof.
  split; [intros i c; by rewrite lookup_nil|intros i i' c c'; by rewrite lookup_nil|done|].
  by intros id ?%not_elem_of_nil.
Qed.

Lemma loop_flags s lost s' : loop_step s lost s' -> sv_started s' = sv_started s /\ sv_stopping s' = sv_stopping s.
Proof. by destruct 1. Qed.

(** Nothing is given up by a worker that is not started. *)
Lemma inv_kept n lost s : inv n lost s -> inv n (if sv_started s then lost ++ [] else []) s.
Proof. intros Hi. pose proof (inv_lost _ _ _ Hi) as Hz. rewrite app_nil_r. destruct (sv_started s); [done|]. by rewrite <- Hz. Qed.

Lemma inv_step n lost s lost' s' :
  inv n lost s -> 0 <= n < MAX_SAFE_INTEGER -> step s lost' s' ->
  inv (n + 1) (if sv_started s' then lost ++ lost' else []) s'.
Proof.
  intros Hi Hn Hs. pose proof (inv_mono n (n + 1) lost s Hi ltac:(lia)) as Hi1.
  destruct Hs as [lost' s' Hs|now qnow r a a' rep s' Hc E|now a a' r s' E|now v body q' Hc Hv Hf| |Hst Hsp Hall|].
  - pose proof (inv_loop_step _ _ _ _ _ Hi Hn Hs) as Hi'. pose proof (inv_lost _ _ _ Hi') as Hz.
    destruct (sv_started s'); [done|]. by rewrite <- Hz.
  - pose proof (inv_http (n + 1) lost now qnow r a s Hi1 ltac:(lia) Hc) as Hh. rewrite E in Hh. by apply inv_kept.
  - pose proof (inv_start (n + 1) lost now (a, s) Hi1) as Hh. rewrite E in Hh. by apply inv_kept.
  - apply inv_kept. eapply inv_enqueue_fault; [done|lia|done..].
  - apply inv_kept. unfold stop_request. destruct (sv_started s) eqn:Es; [|done].
    destruct (inv_wake _ _ _ Hi1) as [Hh Hb Ho Hz Ha Hc Hl]. revert Ho Hz Ha Hc Hl. server. rewrite Es. by split.
  - destruct Hi1 as [Hh Hb Ho Hz Ha Hc Hl]. split; server; [by destruct Hh|done|apply owned_empty|done| |done|done].
    rewrite Ha. by rewrite held_count_zero by (by apply settled_holders).
  - destruct Hi1 as [Hh Hb Ho Hz Ha Hc Hl]. split; server; [by destruct Hh|done|apply owned_empty|done|done|done|done].
Qed.

Lemma inv_steps t s lost s' n :
  inv n [] s -> 0 <= n -> n + Z.of_nat t <= MAX_SAFE_INTEGER -> steps step t s lost s' -> inv (n + Z.of_nat t) lost s'.
Proof.
  intros Hi Hn Ht Hs. induction Hs as [s|t s1 lost s2 lost' s3 _ IH Hstep]; [by rewrite Z.add_0_r|].
  rewrite Nat2Z.inj_succ in *. replace (n + Z.succ (Z.of_nat t)) with (n + Z.of_nat t + 1) by lia.
  eapply inv_step; [apply IH; [done|lia]|lia|done].
Qed.

Lemma inv_new q : q_inv 0 q -> bodies_ok (q_abs q) -> inv 0 [] (new_server q).
Proof. intros Hq Hb. split; server; [by split|done|apply owned_empty|done|done|done|done]. Qed.

(** ** The theorems *)

(** C6: In every execution, of any interleaving of the loops, requests, stops and
    crashes, and whatever calls of the queue reject, [activeJobs] is the number of
    jobs being worked on and never exceeds [maxConcurrentJobs]; each of these jobs is
    marked running in the queue and no two loops hold the same one.  While the worker
    is started, the jobs marked running are exactly those a loop holds and those that
    were given up since the start: a job is given up only when the [finish] that
    asks for its retry rejects, or when a [claim] that took it rejects.  A rejected
    [finish] has had no effect here; the other case is in [QueueFaults]. *)
Theorem running_jobs_owned q t lost s :
  q_inv 0 q -> bodies_ok (q_abs q) -> Z.of_nat t <= MAX_SAFE_INTEGER -> steps step t (new_server q) lost s ->
  sv_activeJobs s = held_count (holders (sv_loops s)) /\
  sv_activeJobs s <= Z.of_nat maxConcurrentJobs /\
  (forall i l c, sv_loops s !! i = Some l -> holder l = Some c -> running q_key (q_abs (sv_queue s)) (c_id c)) /\
  (forall i i' l l' c c', sv_loops s !! i = Some l -> sv_loops s !! i' = Some l' ->
     holder l = Some c -> holder l' = Some c' -> c_id c = c_id c' -> i = i') /\
  (sv_started s = true -> forall id, running q_key (q_abs (sv_queue s)) id <->
     (exists i l c, sv_loops s !! i = Some l /\ holder l = Some c /\ c_id c = id) \/ id ∈ lost).
Proof.
  intros Hq Hb Ht Hs. destruct (inv_steps t _ lost s 0 (inv_new q Hq Hb) ltac:(lia) ltac:(lia) Hs) as [_ _ Ho _ Ha _ Hl].
  assert (forall i l c, sv_loops s !! i = Some l -> holder l = Some c -> running q_key (q_abs (sv_queue s)) (c_id c)) as Hrun.
  { intros i l c Hi Hc. apply (owned_running _ _ _ _ Ho i). by rewrite (holders_lookup _ _ _ Hi), Hc. }
  split; [done|]. split_and!; [|done| |].
  - rewrite Ha. pose proof (held_count_bounds (holders (sv_loops s))) as Hbd. rewrite length_holders in Hbd.
    destruct (sv_started s); rewrite Hl in *; cbn in *; lia.
  - intros i i' l l' c c' Hi Hi' Hc Hc'. apply (owned_distinct _ _ _ _ Ho).
    + by rewrite (holders_lookup _ _ _ Hi), Hc.
    + by rewrite (holders_lookup _ _ _ Hi'), Hc'.
  - intros Hst id. split.
    + intros Hr. destruct (owned_all _ _ _ _ Ho Hst id Hr) as [(i & c & Hi & Hc)|?]; [left|by right].
      unfold holders in Hi. rewrite list_lookup_fmap in Hi. apply fmap_Some in Hi as (l & Hl' & E). by exists i, l, c.
    + intros [(i & l & c & Hi & Hc & <-)|Hid]; [by eapply Hrun|by apply (owned_lost _ _ _ _ Ho)].
Qed.

(** *** Retired jobs *)
Definition terminal_in (m : gmap jsstr job) (k : jsstr) : Prop := exists j, m !! k = Some j /\ j_state j = QTerminal.

Lemma terminal_back (m : gmap jsstr job) e m' k :
  qstep base q_key m e m' -> terminal_in m' k ->
  terminal_in m k \/ exists id o j, e = EFinish id o true /\ QueueSpec.o_kind o = js "terminal" /\
    m' !! k = Some j /\ j_id j = id /\ j_terminalResult j = Some (QueueSpec.o_result o).
Proof.
  intros Hs (j' & Hj' & Ht).
  destruct Hs as [now i m r m' Hs|now m c m' Hs|now id' o m m' Hs|now id' o m Hs|m]; [left..| | |].
  - unfold spec_enqueue in Hs. destruct (validateEnqueue i); [|injection Hs as _ <-; by exists j'].
    destruct (m !! q_key (in_id i)) as [j|] eqn:Ej.
    + destruct (assertSameIdentity _ _); [|injection Hs as _ <-; by exists j'].
      destruct (j_state j) eqn:Es; injection Hs as _ <-; [| | |by exists j'];
        (apply lookup_insert_Some in Hj' as [[_ <-]|[_ Hj']]; [|by exists j']); cbn in Ht; congruence.
    + injection Hs as _ <-. apply lookup_insert_Some in Hj' as [[_ <-]|[_ Hj']]; [done|by exists j'].
  - destruct Hs as [_|k' j Hk _]; [by exists j'|]. apply lookup_insert_Some in Hj' as [[_ <-]|[_ Hj']]; [done|by exists j'].
  - pose proof Hs as Hs'. unfold spec_finish in Hs. destruct (m !! q_key id') as [j|] eqn:Ej; [|done].
    destruct (decide _) as [(Hid & _)|]; [|done]. injection Hs as <-. pose proof Hj' as Hlook.
    apply lookup_insert_Some in Hj' as [[Ek <-]|[_ Hj']]; [|left; by exists j'].
    destruct (streq _ _) eqn:Eo; [|done]. apply streq_true in Eo. right. by exists id', o, (job_terminal (QueueSpec.o_result o) j).
  - left. by exists j'.
  - left. unfold spec_recover in Hj'. rewrite lookup_fmap, fmap_Some in Hj'. destruct Hj' as (j & Hj & ->).
    exists j. split; [done|]. cbn in Ht. by destruct (decide _).
Qed.

Lemma start_terminal n lost now a s k :
  inv n lost s -> terminal_in (q_abs (sv_queue (start (W := A) ready maxConcurrentJobs now (a, s)).2.2)) k ->
  terminal_in (q_abs (sv_queue s)) k.
Proof.
  intros Hi. unfold start. cbn [fst snd]. destruct ready; cbn [negb]; [|done].
  destruct (sv_started s); [done|]. destruct (sv_startPromise s); [done|]. pose proof (inv_healthy _ _ _ Hi) as [Hq _].
  destruct (q_initialize_law n now (sv_queue s) Hq) as (q' & -> & _ & Hr). server. rewrite Hr. intros Ht.
  by apply (terminal_back _ _ _ _ (qstep_recover base q_key _)) in Ht as [?|(? & ? & ? & ? & _)].
Qed.

Lemma enqueue_terminal n lost now i s k :
  inv n lost s -> 0 <= n -> clock_ok now ->
  terminal_in (q_abs (q_enqueue now i (sv_queue s)).2) k -> terminal_in (q_abs (sv_queue s)) k.
Proof.
  intros Hi Hn Hc. pose proof (inv_healthy _ _ _ Hi) as [Hq _].
  pose proof (q_enqueue_law n now i (sv_queue s) Hq Hn Hc) as Hl.
  destruct (q_enqueue _ _ _) as [r' q']. destruct Hl as [_ Hl]. server. intros Ht.
  by destruct (terminal_back _ _ _ _ (qstep_enqueue base q_key _ _ _ _ _ (eq_sym Hl)) Ht) as [?|(? & ? & ? & ? & _)].
Qed.

Lemma http_terminal n lost now qnow r a s k :
  inv n lost s -> 0 <= n -> clock_ok qnow ->
  terminal_in (q_abs (sv_queue (handleHttp (W := A) ready maxConcurrentJobs now qnow r (a, s)).2.2)) k ->
  terminal_in (q_abs (sv_queue s)) k.
Proof.
  intros Hi Hn Hc.
  apply (handleHttp_preserves (fun s' => inv n lost s' /\
    (terminal_in (q_abs (sv_queue s')) k -> terminal_in (q_abs (sv_queue s)) k))); [| | |done].
  - intros [a' s'] [Hi' Hk]. split; [by apply inv_start|]. intros Ht. by eapply Hk, start_terminal.
  - intros v body s' Hv [Hi' Hk]. split; [by apply inv_enqueue|]. revert Hk. server. intros Hk Ht.
    by apply Hk, (enqueue_terminal n lost qnow (enqueue_input v body) s').
  - intros s' [Hi' Hk]. split; [by apply inv_wake|done].
Qed.

Lemma claim_terminal n lost now s c q' k :
  inv n lost s -> 0 <= n < MAX_SAFE_INTEGER -> clock_ok now -> q_claim now (sv_queue s) = (c, q') ->
  terminal_in (q_abs q') k -> terminal_in (q_abs (sv_queue s)) k.
Proof.
  intros Hi Hn Hc E Ht. pose proof (inv_healthy _ _ _ Hi) as [Hq _].
  destruct (q_claim_law n now (sv_queue s) Hq Hn Hc) as (c0 & q0 & E0 & _ & Hspec). rewrite E in E0. injection E0 as _ <-.
  by apply (terminal_back _ _ _ _ (qstep_claim base q_key _ _ _ _ Hspec)) in Ht as [?|(? & ? & ? & ? & _)].
Qed.

(** A [finish] that makes a job terminal. *)
Lemma finish_terminal n lost s (i : nat) l c now o r q' k :
  inv n lost s -> sv_loops s !! i = Some l -> holder l = Some c -> clock_ok now ->
  valid_kind o = true -> (QueueSpec.o_kind o = js "terminal" -> retired_by c o) ->
  q_finish now (c_id c) o (sv_queue s) = (r, q') -> terminal_in (q_abs q') k ->
  terminal_in (q_abs (sv_queue s)) k \/
  exists c o j, retired_by c o /\ claimed_ok c /\ q_abs q' !! k = Some j /\ j_id j = c_id c /\
    j_terminalResult j = Some (QueueSpec.o_result o).
Proof.
  intros Hi Hl Hh Hc Hk Hret E Htq.
  destruct (inv_finish n lost s i l c now o r q' Hi Hl Hh Hc Hk E) as (_ & Hspec & _).
  apply (terminal_back _ _ _ _ (qstep_finish base q_key _ _ _ _ _ Hspec)) in Htq as [?|(id & o' & j & [= <- <-] & Hko & Hj & Hid & Hres)];
    [by left|]. right. exists c, o, j. split_and!; try done; [by apply Hret|].
  apply (owned_running _ _ _ _ (inv_owned _ _ _ Hi) i). by rewrite (holders_lookup _ _ _ Hl), Hh.
Qed.

Lemma loop_step_terminal n lost s lost' s' k :
  inv n lost s -> 0 <= n < MAX_SAFE_INTEGER -> loop_step s lost' s' -> terminal_in (q_abs (sv_queue s')) k ->
  terminal_in (q_abs (sv_queue s)) k \/
  exists c o j, retired_by c o /\ claimed_ok c /\ q_abs (sv_queue s') !! k = Some j /\ j_id j = c_id c /\
    j_terminalResult j = Some (QueueSpec.o_result o).
Proof.
  intros Hi Hn Hs Ht.
  destruct Hs as [i Hl _|i Hl _|i now c q' Hl Hc E|i now q' Hl Hc E|i now e q' Hl Hc E|i Hl|i c w o Hl E|i c w code Hl E
                 |i c o now q' Hl Hc E|i c o now e q' Hl Hc E|i c code now r q' Hl Hc E
                 |i now e lost' q' Hl Hc Hf|i c o e q' Hl [Eu _]|i c code q' Hl [Eu _]]; try (by left).
  1-3: left; by eapply claim_terminal.
  - pose proof (Forall_lookup_1 _ _ _ _ (inv_outcomes _ _ _ Hi) Hl) as [Hk Hret]. by eapply finish_terminal.
  - pose proof (Forall_lookup_1 _ _ _ _ (inv_outcomes _ _ _ Hi) Hl) as [Hk Hret]. by eapply finish_terminal.
  - by eapply (finish_terminal n lost s i _ c now (retry_outcome code)).
  - left. destruct Hf as [q0 [Eu _]|c q1 q0 E [Eu _]]; revert Ht; server; rewrite Eu; [done|]. by eapply claim_terminal.
  - left. revert Ht. server. by rewrite Eu.
  - left. revert Ht. server. by rewrite Eu.
Qed.

(** C5: A job is archived as terminal only after the control plane has
    acknowledged how it ended: in any execution, whatever calls of the queue reject,
    the step that makes a job terminal is the [finish] of a loop whose run, for an
    envelope with that request id read back from the queue, delivered exactly one
    terminal message; the archived result is the one of that run. *)
Theorem retired_only_after_callback q t lost s lost' s' k j :
  q_inv 0 q -> bodies_ok (q_abs q) -> Z.of_nat t < MAX_SAFE_INTEGER -> steps step t (new_server q) lost s -> step s lost' s' ->
  q_abs (sv_queue s') !! k = Some j -> j_state j = QTerminal ->
  (forall j0, q_abs (sv_queue s) !! k = Some j0 -> j_state j0 <> QTerminal) ->
  exists body envelope w r sb log kd,
    parseQueuedEnvelope body = Ok envelope /\ opt_prop envelope "requestId" = VStr (j_id j) /\
    run_bound origin grantsType store_fetch store_timer (opt_prop envelope "job") w = (Ok r, (sb, log)) /\
    terminals sb = [kd] /\ j_terminalResult j = Some (run_result (opt_prop envelope "job") r).
Proof.
  intros Hq Hb Ht Hs Hstep Hj Hterm Hbefore.
  pose proof (inv_steps t _ lost s 0 (inv_new q Hq Hb) ltac:(lia) ltac:(lia) Hs) as Hi. rewrite Z.add_0_l in Hi.
  assert (terminal_in (q_abs (sv_queue s')) k) as Hk' by (by exists j).
  assert (~ terminal_in (q_abs (sv_queue s)) k) as Hk by (intros (j0 & Hj0 & Ht0); by eapply Hbefore).
  destruct Hstep as [lost' s' Hl|now qnow r a a' rep s' Hc E|now a a' r s' E|now v body q' Hc Hv Hf| | |].
  - destruct (loop_step_terminal _ _ _ _ _ _ Hi ltac:(lia) Hl Hk') as [?|(c & o & j0 & Hret & Hok & Hj0 & Hid & Hres)]; [done|].
    assert (j0 = j) as -> by congruence. destruct Hret as (envelope & w & r & sb & log & kd & Hp & Hrun & Hkd & Ho).
    destruct Hok as (_ & v & Hv & Hcid & _). exists (c_body c), envelope, w, r, sb, log, kd.
    split; [done|]. split; [|by rewrite Hres, Ho]. unfold parseQueuedEnvelope in Hp. rewrite Hv in Hp.
    destruct (safe_date _) as [issued|]; [|done]. apply rethrow_ok, parseEnvelope_ok in Hp as (Hv' & _ & Hstr & _).
    assert (v = envelope) as -> by congruence. rewrite Hid, Hcid. by destruct (opt_prop envelope "requestId").
  - pose proof (http_terminal _ _ now qnow r a s k Hi ltac:(lia) Hc) as Hh. rewrite E in Hh. by apply Hh in Hk'.
  - pose proof (start_terminal _ _ now a s k Hi) as Hh. rewrite E in Hh. by apply Hh in Hk'.
  - exfalso. apply Hk. revert Hk'. server. destruct Hf as [q0 [Eu _]|r q1 q0 E [Eu _]]; rewrite Eu; [done|].
    replace q1 with (q_enqueue now (enqueue_input v body) (sv_queue s)).2 by (by rewrite E).
    by apply (enqueue_terminal (Z.of_nat t) lost); [|lia|].
  - unfold stop_request in Hk'. by destruct (sv_started s).
  - done.
  - done.
Qed.

(** *** Stopping *)

(** The steps a loop can still make once [stop] has been called. *)
Definition weight (l : loop) : nat :=
  match l with
  | LStopped | LDead _ => 0
  | LTop => 1
  | LWaiting => 2
  | LRetrying _ _ => 3
  | LFinishing _ _ => 4
  | LWorking _ => 5
  | LClaiming => 6
  end.

Definition weights (ls : list loop) : nat := foldr (fun l n => weight l + n)%nat 0%nat ls.

Lemma weights_insert ls (i : nat) l l' :
  ls !! i = Some l -> (weights (<[i := l']> ls) + weight l = weights ls + weight l')%nat.
Proof.
  revert i. induction ls as [|l0 ls IH]; intros [|i]; cbn [lookup list_lookup]; [done..| |].
  - intros [= ->]. change (<[0%nat := l']> (l :: ls)) with (l' :: ls). cbn. lia.
  - intros Hi. specialize (IH i Hi). change (<[S i := l']> (l0 :: ls)) with (l0 :: <[i := l']> ls).
    cbn [weights foldr]. unfold weights in IH. lia.
Qed.

Lemma weights_bound ls : (weights ls <= 6 * length ls)%nat.
Proof. induction ls as [|l ls IH]; [done|]. cbn [weights foldr length]. unfold weights in IH. destruct l; cbn; lia. Qed.

Lemma stopping_step s lost s' :
  loop_step s lost s' -> sv_stopping s = true ->
  (weights (sv_loops s') < weights (sv_loops s))%nat /\ sv_stopping s' = true /\ sv_started s' = sv_started s.
Proof.
  assert (forall i l l', sv_loops s !! i = Some l -> (weight l' < weight l)%nat ->
    (weights (<[i := l']> (sv_loops s)) < weights (sv_loops s))%nat) as Hlt.
  { intros i l l' Hl Hw. pose proof (weights_insert _ _ _ l' Hl). lia. }
  intros [] Hst; try congruence; (split; [|done]); server; (eapply Hlt; [done|cbn; lia]).
Qed.

Lemma unsettled ls : forallb settled ls = false -> exists (i : nat) l, ls !! i = Some l /\ settled l = false.
Proof.
  induction ls as [|l ls IH]; [done|]. cbn. intros [Hl|Hls]%andb_false_iff; [by exists 0%nat, l|].
  destruct (IH Hls) as (i & l' & Hi & Hs'). by exists (S i), l'.
Qed.

(** When every loop has ended, the running jobs are those that were given up. *)
Lemma settled_drained n lost s :
  inv n lost s -> sv_started s = true -> forallb settled (sv_loops s) = true ->
  sv_activeJobs s = 0 /\ forall id, running q_key (q_abs (sv_queue s)) id <-> id ∈ lost.
Proof.
  intros [_ _ Ho _ Ha _ _] Hst Hall%settled_holders. split; [by rewrite Ha, held_count_zero|].
  intros id. split; [|intros Hid; by apply (owned_lost _ _ _ _ Ho)]. intros Hrun.
  destruct (owned_all _ _ _ _ Ho Hst id Hrun) as [(i & c & Hi & _)|?]; [|done].
  by apply (Forall_lookup_1 _ _ _ _ Hall) in Hi.
Qed.

(** A loop that has not ended can make a step. *)
Lemma loop_progress s (w : W) : forallb settled (sv_loops s) = false -> exists s', loop_step s [] s'.
Proof.
  intros (i & l & Hl & Hns)%unsettled. assert (clock_ok 0) as Hc by done. destruct l as [| | |c|c o|c code| |e]; try done.
  - destruct (sv_stopping s) eqn:E; eexists; [by eapply step_leave|by eapply step_enter].
  - destruct (q_claim 0 (sv_queue s)) as [[[c|]|e] q'] eqn:E; eexists;
      [by eapply step_claim|by eapply step_claim_none|by eapply step_claim_rejects].
  - eexists. by eapply step_timer.
  - destruct (process c w) as [o|code] eqn:E; eexists; [by eapply step_process|by eapply step_process_throws].
  - destruct (q_finish 0 (c_id c) o (sv_queue s)) as [[[]|e] q'] eqn:E; eexists;
      [by eapply step_finish|by eapply step_finish_throws].
  - destruct (q_finish 0 (c_id c) (retry_outcome code) (sv_queue s)) as [r q'] eqn:E. eexists. by eapply step_retry.
Qed.

Lemma stopping_steps t s lost s' :
  steps loop_step t s lost s' -> sv_stopping s = true ->
  (weights (sv_loops s') + t <= weights (sv_loops s))%nat /\ sv_stopping s' = true /\ sv_started s' = sv_started s.
Proof.
  intros Hs Hst. induction Hs as [s|t s1 lost s2 lost' s3 _ IH Hstep]; [split; [lia|done]|].
  destruct (IH Hst) as (Hw & Hst2 & Hsd). destruct (stopping_step _ _ _ Hstep Hst2) as (Hw' & ? & ?).
  split; [lia|]. split; [done|congruence].
Qed.

Lemma steps_app t1 t2 s1 lost s2 lost' s3 :
  steps step t1 s1 lost s2 -> steps loop_step t2 s2 lost' s3 -> sv_started s2 = true ->
  steps step (t1 + t2)%nat s1 (lost ++ lost') s3 /\ sv_started s3 = true.
Proof.
  intros H12 H23 Hst. induction H23 as [s|t s2 lost' s3 lost'' s4 _ IH Hl]; [by rewrite Nat.add_0_r, app_nil_r|].
  destruct (IH H12 Hst) as [Hs Hst3]. destruct (loop_flags _ _ _ Hl) as [E _]. rewrite Hst3 in E. split; [|done].
  rewrite Nat.add_succ_r. pose proof (steps_snoc _ _ _ _ _ _ _ Hs (step_loop _ _ _ Hl)) as Hs'. rewrite E in *.
  by rewrite <- app_assoc in Hs'.
Qed.

(** C7: [stop] drains the worker.  Once it has been called the loops make at
    most six steps each, whatever they were doing and whatever calls of the queue
    reject; as long as one has not ended it can make a step; and when all have ended
    the jobs left marked running are exactly those that were given up, because
    the [finish] that asks for a retry rejected or a [claim] that took the job
    did (a rejected [finish] having had no effect). *)
Theorem stop_drains q t t' s lost lost' s' (w : W) :
  q_inv 0 q -> bodies_ok (q_abs q) -> Z.of_nat (t + t') <= MAX_SAFE_INTEGER ->
  steps step t (new_server q) lost s -> sv_started s = true -> sv_stopping s = true -> steps loop_step t' s lost' s' ->
  (t' <= 6 * maxConcurrentJobs)%nat /\
  if forallb settled (sv_loops s')
  then sv_activeJobs s' = 0 /\ forall id, running q_key (q_abs (sv_queue s')) id <-> id ∈ lost ++ lost'
  else exists s'', loop_step s' [] s''.
Proof.
  intros Hq Hb Ht Hs Hst Hsp Hl. destruct (steps_app _ _ _ _ _ _ _ Hs Hl Hst) as [Hs' Hst'].
  pose proof (inv_steps t _ lost s 0 (inv_new q Hq Hb) ltac:(lia) ltac:(lia) Hs) as Hi.
  pose proof (inv_steps (t + t') _ _ s' 0 (inv_new q Hq Hb) ltac:(lia) ltac:(lia) Hs') as Hi'.
  destruct (stopping_steps _ _ _ _ Hl Hsp) as (Hw & _ & _). split.
  - pose proof (weights_bound (sv_loops s)). destruct Hi as [_ _ _ _ _ _ Hlen]. rewrite Hst in Hlen. lia.
  - destruct (forallb settled (sv_loops s')) eqn:E; [|by apply loop_progress].
    by apply (settled_drained _ _ _ Hi').
Qed.
End steps.

(** ** An execution

    One worker loop; a job is delivered, claimed, fails after its grants were
    refreshed, and is retired. *)
#[local] Existing Instance Memory.queue.
#[local] Existing Instance toy_sha256.
#[local] Existing Instance ascii_unicode.
#[local] Existing Instance path_targets.
#[local] Existing Instance Worker.job_urls.
#[local] Existing Instance Worker.job_numbers.
#[local] Existing Instance Worker.job_inflate.
#[local] Existing Instance Worker.job_builder.
#[local] Instance any_request : Authenticator unit := {| authenticate _ w := (Ok tt, w) |}.
#[local] Instance loop_dates : DateParse := {|
  date_parse s := Some (if matches decimal s then parse_radix 10 s else 2000000) |}.
#[local] Instance loop_texts : JsonParse := {|
  json_parse s := map_get s [(js "good", demo_envelope "1000000" "1200000"); (js "grants", job_grants)] |}.
#[local] Instance loop_stringify : JsonStringify := {| json_stringify v := to_string v |}.
(** The control plane refreshes the grants and acknowledges everything. *)
#[local] Instance loop_transport : CallbackTransport unit := {|
  read_clock w := (1010000, w);
  signOutgoing _ _ _ w := (Ok VNull, w);
  callback_fetch m w := (Ok (Some (mkResponse 200 false [] None None
    (Stream [Chunk (VBytes (if ends_with (js "/grants") (ms_url m) then js "grants" else []))]))), w);
  callback_timer w := (Ok false, w) |}.

Definition loop_origin : jsstr := js "https://control".
Definition loop_type (r : response) : option jsstr := Some (js "application/json").
(** Storage is down. *)
Definition no_fetch (r : request) : eff unit response := throw (PlainError "fetch failed").
Definition no_timer : eff unit bool := mret false.

Definition loop_delivery : http_request :=
  mkHttp (js "POST") jobs_target [(js "content-type", HString (js "application/json"))] [Chunk (VBytes (js "good"))].

Definition accept_reply : reply * (unit * server Memory.t) :=
  handleHttp (base := 1000) true 1 1010000 1000000 loop_delivery (tt, new_server Memory.empty).

Definition st1 : server Memory.t := Eval vm_compute in accept_reply.2.2.
Definition st2 : server Memory.t := Eval vm_compute in set_loop st1 0 LClaiming.
Definition claim2 : res (option claimed) * Memory.t := Eval vm_compute in Memory.claim 1000000 (sv_queue st2).
Definition loop_claim : claimed := Eval vm_compute in
  match claim2.1 with Ok (Some c) => c | _ => mkClaimed [] [] [] 0 end.
Definition st3 : server Memory.t := Eval vm_compute in set_loop (set_active st2 claim2.2 1) 0 (LWorking loop_claim).
Definition loop_outcome : QueueSpec.outcome := Eval vm_compute in
  match process_job loop_origin loop_type no_fetch no_timer loop_claim tt with
  | inl o => o
  | inr _ => QueueSpec.mkOutcome [] VUndef
  end.
Definition st4 : server Memory.t := Eval vm_compute in set_loop st3 0 (LFinishing loop_claim loop_outcome).
Definition finish4 : res unit * Memory.t := Eval vm_compute in
  Memory.finish 1000 1000000 (c_id loop_claim) loop_outcome (sv_queue st4).
Definition st5 : server Memory.t := Eval vm_compute in set_loop (set_active st4 finish4.2 (-1)) 0 LTop.

Example loop_outcome_terminal : QueueSpec.o_kind loop_outcome = js "terminal".
Proof. reflexivity. Qed.

Abbreviation demo_step := (step (base := 1000) loop_origin loop_type no_fetch no_timer true 1).
Abbreviation demo_loop := (loop_step (base := 1000) loop_origin loop_type no_fetch no_timer).
Abbreviation demo_run := (steps demo_step).

Lemma demo_run4 : demo_run 4 (new_server Memory.empty) [] st4.
Proof.
  assert (demo_run 1 (new_server Memory.empty) [] st1) as H1.
  { refine (steps_snoc _ 0 _ [] _ [] st1 (steps_nil _ _) _).
    refine (step_http (base := 1000) loop_origin loop_type no_fetch no_timer true 1 (new_server Memory.empty)
      1010000 1000000 loop_delivery tt tt accept_reply.1 st1 clock_1000000 _).
    vm_cast_no_check (eq_refl accept_reply). }
  assert (demo_run 2 (new_server Memory.empty) [] st2) as H2.
  { refine (steps_snoc _ 1 _ [] _ [] st2 H1 _). apply step_loop.
    exact (step_enter (base := 1000) loop_origin loop_type no_fetch no_timer st1 0 eq_refl eq_refl). }
  assert (demo_run 3 (new_server Memory.empty) [] st3) as H3.
  { refine (steps_snoc _ 2 _ [] _ [] st3 H2 _). apply step_loop.
    exact (step_claim (base := 1000) loop_origin loop_type no_fetch no_timer st2 0 1000000 loop_claim claim2.2
      eq_refl clock_1000000 eq_refl). }
  refine (steps_snoc _ 3 _ [] _ [] st4 H3 _). apply step_loop.
  refine (step_process (base := 1000) loop_origin loop_type no_fetch no_timer st3 0 loop_claim tt loop_outcome eq_refl _).
  vm_cast_no_check (eq_refl (inl loop_outcome : QueueSpec.outcome + string)).
Qed.

Lemma demo_finish : demo_step st4 [] st5.
Proof.
  apply step_loop.
  exact (step_finish (base := 1000) loop_origin loop_type no_fetch no_timer st4 0 loop_claim loop_outcome 1000000 finish4.2
    eq_refl clock_1000000 eq_refl).
Qed.

Lemma empty_bodies : bodies_ok (q_abs (JobQueue := Memory.queue 1000) Memory.empty).
Proof.
  intros k j Hj. assert (q_abs (JobQueue := Memory.queue 1000) Memory.empty = ∅) as E by (vm_compute; reflexivity).
  rewrite E in Hj. by apply lookup_empty_Some in Hj.
Qed.

(** Both calls of [finish] reject: the loop goes on without the job. *)
Definition lost5 : server Memory.t := Eval vm_compute in
  set_loop st4 0 (LRetrying loop_claim (retry_code (CodedError "no space left on device" "ENOSPC"))).
Definition lost6 : server Memory.t := Eval vm_compute in set_loop (set_active lost5 (sv_queue lost5) (-1)) 0 LTop.

Lemma demo_lost : demo_run 6 (new_server Memory.empty) [c_id loop_claim] lost6.
Proof.
  assert (forall q, unaffected (H := Memory.queue 1000) q q) as Hu by reflexivity.
  assert (demo_run 5 (new_server Memory.empty) [] lost5) as H5.
  { refine (steps_snoc _ 4 _ [] _ [] lost5 demo_run4 _). apply step_loop.
    exact (step_finish_fault (base := 1000) loop_origin loop_type no_fetch no_timer st4 0 loop_claim loop_outcome
      (CodedError "no space left on device" "ENOSPC") (sv_queue st4) eq_refl (Hu _)). }
  refine (steps_snoc _ 5 _ [] _ [c_id loop_claim] lost6 H5 _). apply step_loop.
  exact (step_retry_fault (base := 1000) loop_origin loop_type no_fetch no_timer lost5 0 loop_claim
    (retry_code (CodedError "no space left on device" "ENOSPC")) (sv_queue lost5) eq_refl (Hu _)).
Qed.

(** The job is running and held, and, when both [finish] calls have rejected, running
    and given up. *)
Lemma running_jobs_owned_witness :
  (sv_activeJobs st4 <= 1 /\
   running (q_key (JobQueue := Memory.queue 1000)) (q_abs (JobQueue := Memory.queue 1000) (sv_queue st4)) (c_id loop_claim)) /\
  (sv_activeJobs lost6 <= 1 /\
   running (q_key (JobQueue := Memory.queue 1000)) (q_abs (JobQueue := Memory.queue 1000) (sv_queue lost6)) (c_id loop_claim)).
Proof.
  split.
  - destruct (running_jobs_owned (H := Memory.queue 1000) loop_origin loop_type no_fetch no_timer true 1 Memory.empty 4 [] st4
      Memory.mem_empty_inv empty_bodies ltac:(done) demo_run4) as (_ & Hle & Hrun & _).
    split; [exact Hle|]. exact (Hrun 0%nat (LFinishing loop_claim loop_outcome) loop_claim eq_refl eq_refl).
  - destruct (running_jobs_owned (H := Memory.queue 1000) loop_origin loop_type no_fetch no_timer true 1 Memory.empty 6 [c_id loop_claim] lost6
      Memory.mem_empty_inv empty_bodies ltac:(done) demo_lost) as (_ & Hle & _ & _ & Hrun).
    split; [exact Hle|]. apply (Hrun eq_refl). right. left.
Defined.

Lemma retired_only_after_callback_witness :
  exists body envelope, parseQueuedEnvelope body = Ok envelope /\ opt_prop envelope "requestId" = VText "req".
Proof.
  assert (exists j, q_abs (JobQueue := Memory.queue 1000) (sv_queue st5) !! js "req" = Some j /\
    j_state j = QTerminal /\ j_id j = js "req") as (j & Hj & Ht & Hid) by (eexists; split; [reflexivity|done]).
  assert (forall j0, q_abs (JobQueue := Memory.queue 1000) (sv_queue st4) !! js "req" = Some j0 ->
    j_state j0 <> QTerminal) as Hbefore by (intros j0 [= <-]; done).
  destruct (retired_only_after_callback (H := Memory.queue 1000) loop_origin loop_type no_fetch no_timer true 1 Memory.empty 4 [] st4 [] st5
    (js "req") j Memory.mem_empty_inv empty_bodies ltac:(done) demo_run4 demo_finish Hj Ht Hbefore)
    as (body & envelope & w & r & sb & log & kd & Hp & He & _).
  exists body, envelope. split; [exact Hp|]. rewrite He, Hid. reflexivity.
Defined.

(** [stop] while the job is being finished. *)
Definition st_stopping : server Memory.t := Eval vm_compute in stop_request st4.

Lemma stop_drains_witness : exists s', demo_loop st_stopping [] s'.
Proof.
  destruct (stop_drains (H := Memory.queue 1000) loop_origin loop_type no_fetch no_timer true 1 Memory.empty 5 0 st_stopping [] [] st_stopping
    tt Memory.mem_empty_inv empty_bodies ltac:(done)
    (steps_snoc _ 4 _ [] _ [] st_stopping demo_run4 (step_stop loop_origin loop_type no_fetch no_timer true 1 st4))
    eq_refl eq_refl (steps_nil _ _)) as (_ & Hstep).
  exact Hstep.
Defined.
