(* ===== verification/ServerProcess.v ===== *)
(** * The server process ([worker-server.mjs], [createCompilerHttpServer])

    The process composes the production worker, or serves a worker that is never
    ready when the composition fails; listens; and on SIGINT or SIGTERM closes the
    server, stops the worker and exits, at the latest after ten seconds.  The model
    is a step relation: connections, answers, the steps of the worker loops
    ([WorkerLoops]), signals, the callbacks of [server.close], the timers and the
    passing of time come in any order Node allows.  As in [WorkerLoops], calls of
    the queue may reject, and the steps are labelled with the jobs they give up.

    The port and host parsers are in [Production]. *)

From S2P Require Import Prelude JsText JsNum JsValue Regex Validators Node TarZst QueueSpec MemoryQueue Identity Bundle Effects Downloader Worker Callbacks HttpWorker WorkerLoops.

Inductive signal := SIGINT | SIGTERM.

#[export] Instance signal_eq_dec : EqDecision signal.
Proof. solve_decision. Defined.

Inductive life := Alive | Exited (code : Z) | Killed (by_signal : signal).

(** [pr_worker]: the value of [worker], [None] when the composition was rejected.
    [pr_handled]: the signals whose [process.once] handler has not run yet.
    [pr_closing]: the callbacks of [server.close] waiting for its end.
    [pr_stops]: those that are waiting for [worker.stop()].
    [pr_deadlines]: when the timers of [setTimeout] fire. *)
Record process (Q : Type) := mkProcess {
  pr_worker : option (server Q);
  pr_listening : bool;
  pr_open : nat;
  pr_handled : list signal;
  pr_closing : nat;
  pr_stops : nat;
  pr_deadlines : list Z;
  pr_clock : Z;
  pr_life : life;
}.
Arguments mkProcess {Q}.
Arguments pr_worker {Q}.
Arguments pr_listening {Q}.
Arguments pr_open {Q}.
Arguments pr_handled {Q}.
Arguments pr_closing {Q}.
Arguments pr_stops {Q}.
Arguments pr_deadlines {Q}.
Arguments pr_clock {Q}.
Arguments pr_life {Q}.

Definition exit_timeout : Z := 10000.

Section process.
Context {Q : Type} {base : Z} `{JobQueue Q base}.
Context {A : Type} `{Authenticator A} `{TargetParser}.
Context {W : Type} `{Unicode} `{UrlParser} `{DateParse} `{JsonParse} `{JsonStringify} `{CallbackTransport W}
  `{Sha256} `{NumberParse} `{InflateRaw} {builder : RuntimeBuilder W}.
Context (origin : jsstr) (grantsType : response -> option jsstr).
Context (store_fetch : request -> eff W response) (store_timer : eff W bool).
Context (maxConcurrentJobs : nat).

Implicit Types p : process Q.

Abbreviation worker_step := (loop_step origin grantsType store_fetch store_timer).

(** The first lines of the script: a worker that is ready and started, or none. *)
Definition boot (composed : res (server Q)) (clock : Z) : process Q :=
  mkProcess (match composed with Ok w => Some w | Throw _ => None end)
    true 0 [SIGINT; SIGTERM] 0 0 [] clock Alive.

Definition with_clock p (clock : Z) : process Q :=
  mkProcess (pr_worker p) (pr_listening p) (pr_open p) (pr_handled p) (pr_closing p) (pr_stops p)
    (pr_deadlines p) clock (pr_life p).

(** A request came, or one was answered. *)
Definition with_open p (worker : option (server Q)) (open : nat) : process Q :=
  mkProcess worker (pr_listening p) open (pr_handled p) (pr_closing p) (pr_stops p)
    (pr_deadlines p) (pr_clock p) (pr_life p).

Definition with_life p (l : life) : process Q :=
  mkProcess (pr_worker p) (pr_listening p) (pr_open p) (pr_handled p) (pr_closing p) (pr_stops p)
    (pr_deadlines p) (pr_clock p) l.

(** The handler of a signal: [server.close(callback)] stops listening, and the
    timer is set.  The handler is gone ([process.once]). *)
Definition on_signal p (s : signal) : process Q :=
  mkProcess (pr_worker p) false (pr_open p) (filter (fun s' => s' <> s) (pr_handled p)) (S (pr_closing p)) (pr_stops p)
    (pr_deadlines p ++ [pr_clock p + exit_timeout]) (pr_clock p) (pr_life p).

(** The server has closed: every waiting callback calls [worker?.stop()]. *)
Definition on_closed p : process Q :=
  mkProcess (stop_request <$> pr_worker p) (pr_listening p) (pr_open p) (pr_handled p) 0 (pr_closing p + pr_stops p)
    (pr_deadlines p) (pr_clock p) (pr_life p).

(** [worker?.stop()] has settled, or there is no worker. *)
Definition stop_settled (worker : option (server Q)) : bool :=
  match worker with
  | Some w => negb (sv_started w) || forallb settled (sv_loops w)
  | None => true
  end.

Definition on_stopped p : process Q :=
  mkProcess ((fun w => if sv_started w then stop_done w else w) <$> pr_worker p) (pr_listening p) (pr_open p)
    (pr_handled p) (pr_closing p) (pred (pr_stops p)) (pr_deadlines p) (pr_clock p) (Exited 0).

(** [createCompilerHttpServer(worker ? { worker } : {})]: whether the worker behind
    the server is ready, and its state.  The fallback, [new CompilerHttpWorker({})],
    has no queue; [q] stands for it. *)
Definition served_worker (worker : option (server Q)) (q : Q) : bool * server Q :=
  match worker with
  | Some w => (true, w)
  | None => (false, new_server q)
  end.

(** One step of a process that is alive.  A request is answered in one step, or its
    [enqueue] (also one that rejects) is a step of its own while the request is
    open. *)
Inductive lifecycle_step p : list jsstr -> process Q -> Prop :=
  | process_tick clock :
      pr_clock p <= clock -> Forall (fun d => clock <= d) (pr_deadlines p) -> lifecycle_step p [] (with_clock p clock)
  | process_connect :
      pr_listening p = true -> lifecycle_step p [] (with_open p (pr_worker p) (S (pr_open p)))
  | process_answer q n now qnow r (a a' : A) rep w' :
      pr_open p = S n -> clock_ok qnow ->
      handleHttp (served_worker (pr_worker p) q).1 maxConcurrentJobs now qnow r (a, (served_worker (pr_worker p) q).2) =
        (rep, (a', w')) ->
      lifecycle_step p [] (with_open p ((fun _ => w') <$> pr_worker p) n)
  | process_hangup n :
      pr_open p = S n -> lifecycle_step p [] (with_open p (pr_worker p) n)
  | process_enqueue n w now v body q' :
      pr_open p = S n -> pr_worker p = Some w -> clock_ok now -> parse_bytes body = Some v ->
      enqueue_fault now (enqueue_input v body) (sv_queue w) q' ->
      lifecycle_step p [] (with_open p (Some (with_queue w q')) (pr_open p))
  | process_work w lost w' :
      pr_worker p = Some w -> worker_step w lost w' -> lifecycle_step p lost (with_open p (Some w') (pr_open p))
  | process_signal s :
      s ∈ pr_handled p -> lifecycle_step p [] (on_signal p s)
  | process_killed s :
      s ∉ pr_handled p -> lifecycle_step p [] (with_life p (Killed s))
  | process_closed :
      pr_listening p = false -> pr_open p = 0%nat -> (0 < pr_closing p)%nat -> lifecycle_step p [] (on_closed p)
  | process_stopped :
      (0 < pr_stops p)%nat -> stop_settled (pr_worker p) = true -> lifecycle_step p [] (on_stopped p)
  | process_timeout d :
      d ∈ pr_deadlines p -> d <= pr_clock p -> lifecycle_step p [] (with_life p (Exited 1)).

(** Executions, with the jobs given up; a process that has ended makes no step. *)
Inductive process_run (p0 : process Q) : nat -> list jsstr -> process Q -> Prop :=
  | process_run_start : process_run p0 0 [] p0
  | process_run_step t lost p lost' p' :
      process_run p0 t lost p -> pr_life p = Alive -> lifecycle_step p lost' p' -> process_run p0 (S t) (lost ++ lost') p'.

(** What [createProductionCompilerWorker] resolves to: a ready worker over a queue
    [q], after [start]. *)
Definition composed_over (q : Q) (composed : res (server Q)) : Prop :=
  forall w, composed = Ok w -> exists now (a a' : A),
    start true maxConcurrentJobs now (a, new_server q) = (Ok tt, (a', w)).

(** The worker that serves when the composition failed accepts nothing and
    never changes. *)
Lemma unavailable_fails_closed n now qnow r (a : A) (w : server Q) :
  exists rep, handleHttp false n now qnow r (a, w) = (rep, (a, w)) /\ rp_status rep ∈ [200; 404; 405; 415; 503].
Proof.
  destruct (handleHttp_cases false n now qnow r (a, w)) as [(rep & -> & Hr & _)| ->]; [by exists rep|].
  eexists. split; [reflexivity|]. set_solver.
Qed.

(** ** The invariant *)
Abbreviation worker_inv := (inv origin grantsType store_fetch store_timer maxConcurrentJobs).

Record process_inv (n : Z) (lost : list jsstr) p : Prop := {
  pi_worker : forall w, pr_worker p = Some w -> pr_life p = Alive -> worker_inv n lost w /\ sv_started w = true;
  pi_listening : pr_listening p = true -> pr_closing p = 0%nat /\ pr_stops p = 0%nat;
  pi_stops : (0 < pr_stops p)%nat -> pr_open p = 0%nat /\ forall w, pr_worker p = Some w -> pr_life p = Alive -> sv_stopping w = true;
  pi_signalled : pr_listening p = false -> pr_deadlines p <> [];
  pi_clean : pr_life p = Exited 0 -> pr_listening p = false /\ pr_open p = 0%nat /\
    forall w, pr_worker p = Some w -> sv_activeJobs w = 0 /\ forall id, running q_key (q_abs (sv_queue w)) id <-> id ∈ lost;
}.

Lemma start_started now (a a' : A) q w :
  start true maxConcurrentJobs now (a, new_server q) = (Ok tt, (a', w)) -> sv_started w = true.
Proof. unfold start. cbn. destruct (q_initialize now q) as [[[]|e] q']; [|done]. by intros [= _ <-]. Qed.

Lemma http_started n now qnow r (a a' : A) rep w w' :
  handleHttp true n now qnow r (a, w) = (rep, (a', w')) -> sv_started w = true -> sv_started w' = true.
Proof.
  intros E Hst.
  pose proof (handleHttp_preserves true n (fun w => sv_started w = true) now qnow r a w) as Hp. rewrite E in Hp.
  apply Hp; [|done..]. intros [a0 s0] Hs0. cbn in Hs0. unfold start. cbn. by rewrite Hs0.
Qed.

Lemma boot_inv q composed clock :
  q_inv 0 q -> bodies_ok (q_abs q) -> composed_over q composed -> process_inv 0 [] (boot composed clock).
Proof.
  intros Hq Hb Hc. split; cbn; try done; try lia. destruct composed as [w|e]; [|done]. intros w' [= <-] _.
  destruct (Hc w eq_refl) as (now & a & a' & E). split; [|by eapply start_started].
  pose proof (inv_start origin grantsType store_fetch store_timer true maxConcurrentJobs 0 [] now (a, new_server q)) as Hi.
  rewrite E in Hi. apply Hi. by apply inv_new.
Qed.

Abbreviation server_step := (step origin grantsType store_fetch store_timer true maxConcurrentJobs).

Lemma server_step_inv n lost w lost' w' :
  worker_inv n lost w -> 0 <= n < MAX_SAFE_INTEGER -> server_step w lost' w' -> sv_started w' = true ->
  worker_inv (n + 1) (lost ++ lost') w'.
Proof. intros Hi Hn Hs Hst. pose proof (inv_step _ _ _ _ _ _ _ _ _ _ _ Hi Hn Hs) as Hi'. by rewrite Hst in Hi'. Qed.

(** What a step leaves, when it does not end the process. *)
Definition workers_keep (n : Z) (lost : list jsstr) p' : Prop := forall w', pr_worker p' = Some w' ->
  pr_life p' = Alive -> worker_inv n lost w' /\ sv_started w' = true.

(** A step of the worker, or none. *)
Lemma worker_keeps n lost p lost' p' w w' :
  process_inv n lost p -> 0 <= n < MAX_SAFE_INTEGER -> pr_life p = Alive -> pr_worker p = Some w -> server_step w lost' w' ->
  pr_worker p' = Some w' -> sv_started w' = true -> workers_keep (n + 1) (lost ++ lost') p'.
Proof.
  intros [Hw _ _ _ _] Hn Ha Ew Hstep Ew' Hst w2 E2 _. rewrite Ew' in E2. injection E2 as <-. split; [|done].
  eapply server_step_inv; [by apply (Hw w Ew)|done..].
Qed.

Lemma worker_idle n lost p p' :
  process_inv n lost p -> pr_life p = Alive -> pr_worker p' = pr_worker p -> workers_keep (n + 1) (lost ++ []) p'.
Proof.
  intros [Hw _ _ _ _] Ha E w E' _. rewrite E in E'. destruct (Hw w E' Ha) as [Hi Hst]. split; [|done].
  rewrite app_nil_r. eapply inv_mono; [exact Hi|lia].
Qed.

Lemma closed_inv n lost p :
  process_inv n lost p -> 0 <= n < MAX_SAFE_INTEGER -> pr_life p = Alive ->
  pr_listening p = false -> pr_open p = 0%nat -> process_inv (n + 1) (lost ++ []) (on_closed p).
Proof.
  intros Hi Hn Ha Hli Ho. destruct Hi as [Hw Hl Hs Hd Hc].
  assert (forall w', stop_request <$> pr_worker p = Some w' -> exists w, pr_worker p = Some w /\ w' = stop_request w /\
    sv_started w' = true /\ sv_stopping w' = true) as Hstop.
  { intros w' (w & Ew & ->)%fmap_Some. exists w. destruct (Hw w Ew Ha) as [_ Hst]. unfold stop_request. by rewrite Hst. }
  split; cbn [on_closed pr_worker pr_listening pr_open pr_closing pr_stops pr_deadlines pr_life]; try done.
  - intros w' E _. destruct (Hstop w' E) as (w & Ew & -> & Hst & _). split; [|done].
    eapply server_step_inv; [by apply (Hw w Ew)|done| |done]. apply step_stop.
  - by rewrite Hli.
  - intros _. split; [done|]. intros w' E _. by destruct (Hstop w' E) as (w & _ & _ & _ & ?).
  - by rewrite Ha.
Qed.

Lemma stopped_inv n lost p :
  process_inv n lost p -> 0 <= n < MAX_SAFE_INTEGER -> pr_life p = Alive ->
  (0 < pr_stops p)%nat -> stop_settled (pr_worker p) = true -> process_inv (n + 1) (lost ++ []) (on_stopped p).
Proof.
  intros [Hw Hl Hs Hd Hc] Hn Ha Hst Hset. destruct (Hs Hst) as [Ho Hsp].
  assert (pr_listening p = false) as Hli by (destruct (pr_listening p); [destruct (Hl eq_refl); lia|done]).
  assert (forall w', (fun w => if sv_started w then stop_done w else w) <$> pr_worker p = Some w' -> exists w,
    pr_worker p = Some w /\ w' = stop_done w /\ worker_inv n lost w /\ sv_started w = true /\
    forallb settled (sv_loops w) = true) as Hstop.
  { intros w' (w & Ew & ->)%fmap_Some. exists w. destruct (Hw w Ew Ha) as [Hi Hsta].
    rewrite Ew in Hset. cbn in Hset. rewrite Hsta in *. by split_and!. }
  split; cbn [on_stopped pr_worker pr_listening pr_open pr_closing pr_stops pr_deadlines pr_life]; try done.
  - by rewrite Hli.
  - intros _. split_and!; [done..|]. intros w' E. destruct (Hstop w' E) as (w & Ew & -> & Hi & Hsta & Hall).
    rewrite app_nil_r. by eapply (settled_drained origin grantsType store_fetch store_timer maxConcurrentJobs n lost w).
Qed.

(** Steps that neither close nor stop the server. *)
Lemma quiet_inv n lost p lost' p' :
  process_inv n lost p -> pr_life p = Alive -> workers_keep (n + 1) lost' p' ->
  pr_listening p' = pr_listening p -> pr_closing p' = pr_closing p -> pr_stops p' = pr_stops p ->
  pr_deadlines p' = pr_deadlines p -> pr_life p' <> Exited 0 ->
  ((0 < pr_stops p)%nat -> pr_open p' = 0%nat /\
     forall w', pr_worker p' = Some w' -> pr_life p' = Alive -> sv_stopping w' = true) ->
  process_inv (n + 1) lost' p'.
Proof.
  intros [Hw Hl Hs Hd Hc] Ha Hk El Ec Es Ed He Hs'. split; rewrite ?El, ?Ec, ?Es, ?Ed; done.
Qed.

Lemma lifecycle_step_inv n lost p lost' p' :
  process_inv n lost p -> 0 <= n < MAX_SAFE_INTEGER -> pr_life p = Alive -> lifecycle_step p lost' p' ->
  process_inv (n + 1) (lost ++ lost') p'.
Proof.
  intros Hp Hn Ha Hstep. pose proof (pi_stops _ _ _ Hp) as Hs. pose proof (pi_listening _ _ _ Hp) as Hl.
  destruct Hstep as [clock Hck Hds|Hli|q k now qnow r a a' rep w' Eo Hck Eh|k Eo|k w now v body q' Eo Ew Hck Hv Hf|w lost' w' Ew Hloop
                    |s Hsig|s Hsig|Hli Ho Hcl|Hst Hset|d Hin Hle];
    [| | | | | | | |by apply closed_inv|by apply stopped_inv|].
  all: try (apply (quiet_inv n lost p); [done..|by apply (worker_idle n lost p)| | | | | |]; try done; cbn; try congruence; by intros []%Hs).
  - apply (quiet_inv n lost p); try done; [by apply (worker_idle n lost p)|cbn; congruence|]. destruct (Hl Hli). lia.
  - destruct (pr_worker p) as [w|] eqn:Ew.
    2:{ apply (quiet_inv n lost p); try done; cbn; [congruence|]. intros []%Hs; congruence. }
    apply (quiet_inv n lost p); try done; [|cbn; congruence|intros []%Hs; congruence].
    eapply worker_keeps; [done..|by eapply step_http|done|]. eapply http_started; [exact Eh|].
    by apply (pi_worker _ _ _ Hp).
  - apply (quiet_inv n lost p); try done; [by apply (worker_idle n lost p)|cbn; congruence|intros []%Hs; congruence].
  - apply (quiet_inv n lost p); try done; [|cbn; congruence|intros []%Hs; congruence].
    eapply worker_keeps; [done..|by eapply step_enqueue|done|]. by apply (pi_worker _ _ _ Hp w Ew).
  - destruct (loop_flags _ _ _ _ _ _ _ Hloop) as [E1 E2]. apply (quiet_inv n lost p); try done; [|cbn; congruence|].
    + eapply worker_keeps; [done..|by apply step_loop|done|]. rewrite E1. by apply (pi_worker _ _ _ Hp w Ew).
    + intros [Ho Hsp]%Hs. split; [done|]. cbn. intros w1 [= <-] _. rewrite E2. by apply Hsp.
  - pose proof Hp as [Hw _ _ Hd Hc]. split; cbn; try done.
    + intros w Ew _. by eapply (worker_idle n lost p).
    + intros _ E. by apply app_eq_nil in E as [_ ?].
    + by rewrite Ha.
Qed.

Lemma process_run_inv q composed clock t lost p :
  q_inv 0 q -> bodies_ok (q_abs q) -> composed_over q composed -> Z.of_nat t <= MAX_SAFE_INTEGER ->
  process_run (boot composed clock) t lost p -> process_inv (Z.of_nat t) lost p.
Proof.
  intros Hq Hb Hc Ht Hr. induction Hr as [|t lost p lost' p' _ IH Ha Hs]; [by apply (boot_inv q)|].
  rewrite Nat2Z.inj_succ in *. eapply lifecycle_step_inv; [apply IH; lia|lia|done|done].
Qed.

(** C8: What a clean exit leaves.  The process exits with code 0 only after a
    signal, when it has stopped listening, every request has been answered or given
    up by its client and no worker loop holds a job; the jobs left marked running in
    the queue are exactly those its loops gave up, each because the [finish] that
    asks for its retry rejected or a [claim] that took it did (a rejected [finish]
    having had no effect), and there are none when no call of the queue rejects;
    however requests, the loops, signals, timers and callbacks interleave.  A process
    whose composition failed has no worker and exits the same way. *)
Theorem clean_exit_drained q composed clock t lost p :
  q_inv 0 q -> bodies_ok (q_abs q) -> composed_over q composed -> Z.of_nat t <= MAX_SAFE_INTEGER ->
  process_run (boot composed clock) t lost p -> pr_life p = Exited 0 ->
  pr_listening p = false /\ pr_open p = 0%nat /\ pr_deadlines p <> [] /\
  forall w, pr_worker p = Some w ->
    sv_activeJobs w = 0 /\ forall id, running q_key (q_abs (sv_queue w)) id <-> id ∈ lost.
Proof.
  intros Hq Hb Hc Ht Hr He. destruct (process_run_inv q composed clock t lost p Hq Hb Hc Ht Hr) as [_ _ _ Hd Hclean].
  destruct (Hclean He) as (Hli & Ho & Hw). split_and!; auto.
Qed.

(** ** The deadline *)
Definition on_time p : Prop := Forall (fun d => pr_clock p <= d) (pr_deadlines p).

Lemma on_time_step p lost p' : on_time p -> lifecycle_step p lost p' -> on_time p' /\ forall d, d ∈ pr_deadlines p -> d ∈ pr_deadlines p'.
Proof.
  intros Ht Hs. destruct Hs; try (by split). split; [|set_solver]. unfold on_time. cbn [on_signal pr_deadlines pr_clock].
  apply Forall_app. split; [done|]. constructor; [unfold exit_timeout; lia|done].
Qed.

Lemma on_time_run p t lost p' : on_time p -> process_run p t lost p' ->
  on_time p' /\ forall d, d ∈ pr_deadlines p -> d ∈ pr_deadlines p'.
Proof.
  intros Ht Hr. induction Hr as [|t lost p1 lost' p2 _ [IH Hd] _ Hs]; [done|].
  destruct (on_time_step p1 lost' p2 IH Hs) as [Hot Hkept]. auto.
Qed.

Lemma closed_run p t lost p' : pr_listening p = false -> process_run p t lost p' ->
  pr_listening p' = false /\ (pr_open p' <= pr_open p)%nat.
Proof.
  intros Hl Hr. induction Hr as [|t lost p1 lost' p2 _ [IH Ho] _ Hs]; [done|]. destruct Hs; cbn; try (split; [done|lia]). congruence.
Qed.

Lemma earliest (l : list Z) : l <> [] -> exists d, d ∈ l /\ Forall (fun x => d <= x) l.
Proof.
  induction l as [|x l IH]; [done|]. intros _. destruct l as [|y l]; [exists x; split; [set_solver|by repeat constructor]|].
  destruct IH as (d & Hd & Hall); [done|]. destruct (Z.le_ge_cases x d) as [Hle|Hge].
  - exists x. split; [set_solver|]. constructor; [lia|]. eapply Forall_impl; [exact Hall|]. cbn. lia.
  - exists d. split; [set_solver|]. by constructor.
Qed.

(** A signal ends the process within ten seconds, when timers fire on time.  Whenever a signal that still
    has its handler arrives, the process accepts no further connection, its clock
    never passes ten seconds after the signal, and from any state it can get into
    meanwhile the timers take it to its exit by then. *)
Theorem shutdown_bounded composed clock t lost p s t' lost' p' :
  process_run (boot composed clock) t lost p -> pr_life p = Alive -> s ∈ pr_handled p ->
  process_run (on_signal p s) t' lost' p' ->
  pr_listening p' = false /\ (pr_open p' <= pr_open p)%nat /\ pr_clock p' <= pr_clock p + 10000 /\
  (pr_life p' = Alive -> exists p1 p2, lifecycle_step p' [] p1 /\ lifecycle_step p1 [] p2 /\ pr_life p1 = Alive /\
     pr_life p2 = Exited 1 /\ pr_clock p2 <= pr_clock p + 10000).
Proof.
  intros Hr Ha Hs Hr'. destruct (on_time_run (boot composed clock) t lost p ltac:(by constructor) Hr) as [Ht _].
  destruct (on_time_step p [] (on_signal p s) Ht (process_signal _ s Hs)) as [Ht1 _].
  destruct (on_time_run _ _ _ _ Ht1 Hr') as [Ht' Hd]. destruct (closed_run (on_signal p s) t' lost' p' eq_refl Hr') as [Hl Ho].
  assert (pr_clock p + 10000 ∈ pr_deadlines p') as Hmine by (apply Hd; cbn; unfold exit_timeout; set_solver).
  pose proof (proj1 (Forall_forall _ _) Ht' _ Hmine : pr_clock p' <= _) as Hck. split_and!; [done..|].
  intros Ha'. destruct (earliest (pr_deadlines p')) as (d & Hin & Hall); [intros E; rewrite E in Hmine; set_solver|].
  pose proof (proj1 (Forall_forall _ _) Hall _ Hmine : d <= _) as Hdm.
  pose proof (proj1 (Forall_forall _ _) Ht' _ Hin : pr_clock p' <= d) as Hcd.
  exists (with_clock p' d), (with_life (with_clock p' d) (Exited 1)). split_and!; try done.
  - by apply process_tick.
  - apply (process_timeout _ d); cbn; [done|lia].
Qed.
End process.

(** ** A run

    A job is delivered and claimed; SIGTERM arrives while it is being worked on;
    the server closes, the loop finishes the job and ends, and the process exits. *)
#[local] Existing Instance Memory.queue.
#[local] Existing Instance toy_sha256.
#[local] Existing Instance ascii_unicode.
#[local] Existing Instance path_targets.
#[local] Existing Instance Worker.job_urls.
#[local] Existing Instance Worker.job_numbers.
#[local] Existing Instance Worker.job_inflate.
#[local] Existing Instance Worker.job_builder.
#[local] Existing Instance any_request.
#[local] Existing Instance loop_dates.
#[local] Existing Instance loop_texts.
#[local] Existing Instance loop_stringify.
#[local] Existing Instance loop_transport.

Definition ready_worker : server Memory.t := Eval vm_compute in
  (start (W := unit) (base := 1000) true 1 1000000 (tt, new_server Memory.empty)).2.2.

Abbreviation demo_process := (lifecycle_step (base := 1000) (A := unit) loop_origin loop_type no_fetch no_timer 1).
Abbreviation demo_processes := (process_run (base := 1000) (A := unit) loop_origin loop_type no_fetch no_timer 1).

Definition p0 : process Memory.t := boot (Ok ready_worker) 5000.
Definition p1 : process Memory.t := with_open p0 (Some ready_worker) 1.
Definition p2 : process Memory.t := with_open p1 (Some st1) 0.
Definition p3 : process Memory.t := with_open p2 (Some st2) 0.
Definition p4 : process Memory.t := with_open p3 (Some st3) 0.
Definition p5 : process Memory.t := with_open p4 (Some st4) 0.
Definition p6 : process Memory.t := on_signal p5 SIGTERM.
Definition p7 : process Memory.t := on_closed p6.
Definition st6 : server Memory.t := Eval vm_compute in set_loop (set_active st_stopping finish4.2 (-1)) 0 LTop.
Definition p8 : process Memory.t := with_open p7 (Some st6) 0.
Definition st7 : server Memory.t := Eval vm_compute in set_loop st6 0 LStopped.
Definition p9 : process Memory.t := with_open p8 (Some st7) 0.
Definition p10 : process Memory.t := on_stopped p9.

Lemma demo_composed : composed_over (base := 1000) (A := unit) 1 Memory.empty (Ok ready_worker).
Proof. intros w [= <-]. exists 1000000, tt, tt. vm_compute. reflexivity. Qed.

Lemma demo_signalled : demo_processes p0 5 [] p5.
Proof.
  pose proof (process_run_start (base := 1000) (A := unit) loop_origin loop_type no_fetch no_timer 1 p0) as Hr.
  eapply (process_run_step _ _ _ _ _ _ _ [] _ [] p1) in Hr; [|done|by apply process_connect].
  eapply (process_run_step _ _ _ _ _ _ _ [] _ [] p2) in Hr; [|done|].
  2:{ refine (process_answer (base := 1000) loop_origin loop_type no_fetch no_timer 1 p1 Memory.empty 0 1010000 1000000
        loop_delivery tt tt accept_reply.1 st1 eq_refl clock_1000000 _).
      vm_cast_no_check (eq_refl accept_reply). }
  eapply (process_run_step _ _ _ _ _ _ _ [] _ [] p3) in Hr; [|done|].
  2:{ refine (process_work (base := 1000) loop_origin loop_type no_fetch no_timer 1 p2 st1 [] st2 eq_refl _).
      exact (step_enter (base := 1000) loop_origin loop_type no_fetch no_timer st1 0 eq_refl eq_refl). }
  eapply (process_run_step _ _ _ _ _ _ _ [] _ [] p4) in Hr; [|done|].
  2:{ refine (process_work (base := 1000) loop_origin loop_type no_fetch no_timer 1 p3 st2 [] st3 eq_refl _).
      exact (step_claim (base := 1000) loop_origin loop_type no_fetch no_timer st2 0 1000000 loop_claim claim2.2
        eq_refl clock_1000000 eq_refl). }
  eapply (process_run_step _ _ _ _ _ _ _ [] _ [] p5) in Hr; [|done|].
  2:{ refine (process_work (base := 1000) loop_origin loop_type no_fetch no_timer 1 p4 st3 [] st4 eq_refl _).
      refine (step_process (base := 1000) loop_origin loop_type no_fetch no_timer st3 0 loop_claim tt loop_outcome eq_refl _).
      vm_cast_no_check (eq_refl (inl loop_outcome : QueueSpec.outcome + string)). }
  exact Hr.
Qed.

(** From the signal to the end of the loop. *)
Lemma demo_drains q t : demo_processes q t [] p6 -> demo_processes q (S (S (S t))) [] p9.
Proof.
  intros Hr.
  eapply (process_run_step _ _ _ _ _ _ _ [] _ [] p7) in Hr; [|done|by apply process_closed; [..|cbn; lia]].
  eapply (process_run_step _ _ _ _ _ _ _ [] _ [] p8) in Hr; [|done|].
  2:{ refine (process_work (base := 1000) loop_origin loop_type no_fetch no_timer 1 p7 st_stopping [] st6 eq_refl _).
      exact (step_finish (base := 1000) loop_origin loop_type no_fetch no_timer st_stopping 0 loop_claim loop_outcome
        1000000 finish4.2 eq_refl clock_1000000 eq_refl). }
  eapply (process_run_step _ _ _ _ _ _ _ [] _ [] p9) in Hr; [|done|].
  2:{ refine (process_work (base := 1000) loop_origin loop_type no_fetch no_timer 1 p8 st6 [] st7 eq_refl _).
      exact (step_leave (base := 1000) loop_origin loop_type no_fetch no_timer st6 0 eq_refl eq_refl). }
  exact Hr.
Qed.

Lemma demo_exited : demo_processes p0 10 [] p10.
Proof.
  pose proof demo_signalled as Hr.
  eapply (process_run_step _ _ _ _ _ _ _ [] _ [] p6) in Hr; [|done|by apply process_signal; right; left].
  apply demo_drains in Hr.
  eapply (process_run_step _ _ _ _ _ _ _ [] _ [] p10) in Hr; [|done|by apply process_stopped; [cbn; lia|]].
  exact Hr.
Qed.

Lemma clean_exit_drained_witness :
  pr_life p10 = Exited 0 /\ exists w, pr_worker p10 = Some w /\ sv_activeJobs w = 0.
Proof.
  split; [reflexivity|].
  destruct (clean_exit_drained (H := Memory.queue 1000) (A := unit) loop_origin loop_type no_fetch no_timer 1 Memory.empty
    (Ok ready_worker) 5000 10 [] p10 Memory.mem_empty_inv empty_bodies demo_composed ltac:(done) demo_exited eq_refl)
    as (_ & _ & _ & Hw).
  exists (stop_done st7). split; [reflexivity|]. exact (proj1 (Hw (stop_done st7) eq_refl)).
Defined.

Lemma shutdown_bounded_witness :
  exists q1 q2, demo_process p9 [] q1 /\ demo_process q1 [] q2 /\ pr_life q2 = Exited 1 /\ pr_clock q2 <= 15000.
Proof.
  destruct (shutdown_bounded (base := 1000) (A := unit) loop_origin loop_type no_fetch no_timer 1 (Ok ready_worker) 5000
    5 [] p5 SIGTERM 3 [] p9 demo_signalled eq_refl ltac:(by right; left) (demo_drains p6 0 (process_run_start _ _ _ _ _ p6))) as (_ & _ & _ & Hexit).
  destruct (Hexit eq_refl) as (q1 & q2 & Hs1 & Hs2 & _ & Hl & Hc). exists q1, q2. split; [exact Hs1|].
  split; [exact Hs2|]. split; [exact Hl|exact Hc].
Defined.
