(* ===== verification/Production.v ===== *)
(** * The production composition ([production-composition.mjs], [http-worker.mjs], [worker-server.mjs])

    [createProductionCompilerWorker] reads the configuration, validates it once
    and hands its parts to the constructors of all components, each of which
    checks its own arguments again; the HTTP worker silently falls back to
    defaults, or to a worker that is never ready, when an option is not
    acceptable.  The theorem shows that after the one validation no constructor
    rejects and no fallback is taken. *)

From S2P Require Import Prelude JsText JsNum JsValue Regex Validators Limits Node TarZst QueueSpec Identity Bundle Content Effects Catalog Downloader Builder Worker Callbacks HttpWorker Installer Sandbox JreRegistry.
From Stdlib Require Import Ascii.

(** ** Paths and configuration *)
Definition PRODUCTION_PATHS : list (string * string) :=
  [("configuration", "/etc/xmcl-compiler/worker.json");
   ("catalog", "/opt/xmcl-compiler/app/toolchain-catalog.lock.json");
   ("jreRegistry", "/etc/xmcl-compiler/jre-registry.json");
   ("jreRoot", "/opt/xmcl/jres");
   ("workspaceRoot", "/run/xmcl-compiler/workspaces");
   ("replayRoot", "/var/lib/xmcl-compiler/replay");
   ("queueRoot", "/var/lib/xmcl-compiler/jobs");
   ("artifactRoot", "/var/lib/xmcl-compiler/artifacts");
   ("secretsRoot", "/run/credentials/xmcl-compiler.service");
   ("bubblewrap", "/usr/bin/bwrap");
   ("prlimit", "/usr/bin/prlimit")]%string.

Definition default_paths : jsval := obj (map (fun kv => (kv.1, VText kv.2)) PRODUCTION_PATHS).

(** [paths.k] of a validated path set *)
Definition path_of (paths : jsval) (k : string) : jsstr := get_str (opt_prop paths k).

(** The [within] of this module: both sides normalized and absolute. *)
Definition within_root (root : jsstr) (value : jsval) : bool :=
  absoluteNormalizedPath root && vstr (fun v => absoluteNormalizedPath v && within root v) value.

Definition invalid_paths : exn := TypeError "invalid production paths".
Definition invalid_configuration : exn := TypeError "invalid production configuration".

Definition probe_of (paths : jsval) (k : string) : bool :=
  within_root (path_of paths k) (VStr (path_of paths k ++ js "/probe")).

Definition validatePathSet (paths : jsval) : res unit :=
  throw_if
    (negb (plainObject paths) || negb (sameKeys paths (map fst PRODUCTION_PATHS)) ||
     existsb (fun v => negb (vstr absoluteNormalizedPath v))
       (match paths with VObj fields => map snd fields | _ => [] end) ||
     negb (probe_of paths "jreRoot") || negb (probe_of paths "queueRoot") ||
     negb (probe_of paths "artifactRoot") || negb (probe_of paths "secretsRoot"))
    invalid_paths.

Definition vbounded (v : jsval) (minimum maximum : Z) : bool :=
  vint (fun z => (minimum <=? z) && (z <=? maximum)) v.

(** The fields [exactHttpsOrigin] and the callback constructor look at. *)
Definition bare_origin (u : url) : bool :=
  streq (u_username u) [] && streq (u_password u) [] && streq (u_hash u) [] && streq (u_pathname u) (js "/") &&
  streq (u_search u) [].

Definition exactHttpsOrigin `{UrlParser} (v : jsval) : bool :=
  match parse_url (to_string v) with
  | Some u => streq (u_protocol u) (js "https:") && bare_origin u
  | None => false
  end.

Definition validateConfiguration `{UrlParser} (value paths : jsval) : res unit :=
  let callback := opt_prop value "callback" in
  let identity := opt_prop value "identity" in
  let sandbox := opt_prop value "sandbox" in
  throw_if
    (negb (plainObject value) ||
     negb (sameKeys value ["schemaVersion"; "callback"; "identity"; "sandbox"; "artifactDownloadTimeoutMs";
             "objectRequestTimeoutMs"; "maxConcurrentJobs"]%string) ||
     negb (strict_eq (opt_prop value "schemaVersion") (VInt 1)) ||
     negb (plainObject callback) || negb (sameKeys callback ["controlPlaneOrigin"; "timeoutMs"]%string) ||
     negb (exactHttpsOrigin (opt_prop callback "controlPlaneOrigin")) ||
     negb (vbounded (opt_prop callback "timeoutMs") 1000 60000) ||
     negb (plainObject identity) ||
     negb (sameKeys identity ["keyId"; "secretPath"; "maxAgeMs"; "maxReplayEntries"]%string) ||
     negb (vstr validIdentifier (opt_prop identity "keyId")) ||
     negb (within_root (path_of paths "secretsRoot") (opt_prop identity "secretPath")) ||
     negb (vbounded (opt_prop identity "maxAgeMs") 1000 300000) ||
     negb (vbounded (opt_prop identity "maxReplayEntries") 1 10000000) ||
     negb (plainObject sandbox) ||
     negb (sameKeys sandbox ["timeoutMs"; "addressSpaceBytes"; "fileSizeBytes"; "processLimit"; "cpuSeconds"]%string) ||
     negb (vbounded (opt_prop sandbox "timeoutMs") 10000 (15 * 60 * 1000)) ||
     negb (vbounded (opt_prop sandbox "addressSpaceBytes") (512 * 1024 * 1024) (8 * 1024 * 1024 * 1024)) ||
     negb (vbounded (opt_prop sandbox "fileSizeBytes") (64 * 1024 * 1024) maxFileBytes) ||
     negb (vbounded (opt_prop sandbox "processLimit") 16 1024) ||
     negb (vbounded (opt_prop sandbox "cpuSeconds") 10 600) ||
     negb (vbounded (opt_prop value "artifactDownloadTimeoutMs") 1 300000) ||
     negb (vbounded (opt_prop value "objectRequestTimeoutMs") 1000 900000) ||
     negb (vbounded (opt_prop value "maxConcurrentJobs") 1 16))
    invalid_configuration.

(** ** The secret *)
Record secret_metadata := mkSecretMetadata { sm_file : bool; sm_size : Z; sm_mode : Z; sm_uid : Z; sm_gid : Z }.

Definition safeSecretMetadata (m : secret_metadata) : bool :=
  if negb (sm_file m) || (64 * 1024 <? sm_size m) then false
  else
    let permissions := js_and (sm_mode m) 511 in
    (permissions =? 256) || ((permissions =? 288) && (sm_uid m =? 0) && (sm_gid m =? 0)).

(** What the composition reads from the machine. *)
Record machine := mkMachine {
  mc_read : jsstr -> res bytes;
  mc_realpath : jsstr -> res jsstr;
  mc_secret_stat : jsstr -> res secret_metadata;
  mc_jres : jre_fs;
  mc_replay_initialize : jsstr -> res unit;
  mc_queue_initialize : jsstr -> res unit;
  mc_uid : option Z;
  mc_gid : option Z;
}.

Definition readSecret (mc : machine) (path root : jsstr) : res bytes :=
  rethrow
    (actual ← mc_realpath mc path;
     if negb (within_root root (VStr actual)) then Throw (PlainError "secret escaped configured root")
     else
       metadata ← mc_secret_stat mc actual;
       if negb (safeSecretMetadata metadata) then Throw (PlainError "unsafe secret permissions")
       else mc_read mc actual)
    (TypeError "invalid production service identity").

(** ** The constructors *)
Definition invalid_replay_store : exn := TypeError "invalid filesystem replay store configuration".
Definition invalid_identity : exn := TypeError "invalid HMAC service identity configuration".
Definition invalid_sandbox : exn := TypeError "invalid bubblewrap sandbox configuration".
Definition invalid_downloader : exn := TypeError "invalid strict artifact downloader configuration".

(** [new FilesystemReplayStore({ directory, maxEntries })] *)
Definition new_replay_store (directory : jsstr) (maxEntries : jsval) : res unit :=
  throw_if (negb (absoluteNormalizedPath directory) || negb (vbounded maxEntries 1 10000000)) invalid_replay_store.

(** [new HmacServiceIdentity({ ..., requireDurableReplay: true })] over the durable
    store. *)
Definition new_identity (keyId maxAgeMs : jsval) (secret : bytes) : res hmac_config :=
  let c := mkHmac (get_str keyId) secret (get_int maxAgeMs) in
  if hmac_valid c then Ok c else Throw invalid_identity.

(** The constructor for these arguments, which refuses a store that is not durable. *)
Lemma new_identity_protected id age secret :
  new_identity (VStr id) (VInt age) secret =
    (c ← new_HmacServiceIdentity (VStr id) (VBytes secret) (VInt age) (VBool true) true; Ok c.1) /\
  new_HmacServiceIdentity (VStr id) (VBytes secret) (VInt age) (VBool true) false = Throw invalid_identity.
Proof.
  unfold new_identity, new_HmacServiceIdentity. cbn [toSecret get_str get_int VInt]. rewrite andb_true_r, andb_false_r.
  split; [by destruct (hmac_valid _)|done].
Qed.

(** [new StrictArtifactDownloader({ timeoutMs, ... })] *)
Definition new_downloader (timeoutMs : jsval) : res unit :=
  throw_if (negb (vbounded timeoutMs 1 300000)) invalid_downloader.

Definition sandbox_of (config paths : jsval) : sandbox_config :=
  let sandbox := opt_prop config "sandbox" in
  mkSandboxConfig (path_of paths "workspaceRoot") (path_of paths "bubblewrap") (path_of paths "prlimit")
    (get_int (opt_prop sandbox "timeoutMs")) (get_int (opt_prop sandbox "addressSpaceBytes"))
    (get_int (opt_prop sandbox "fileSizeBytes")) (get_int (opt_prop sandbox "processLimit"))
    (get_int (opt_prop sandbox "cpuSeconds")).

Definition new_sandbox (config paths : jsval) : res sandbox_config :=
  if valid_sandbox (sandbox_of config paths) then Ok (sandbox_of config paths) else Throw invalid_sandbox.

(** *** [CompilerHttpWorker] *)

(** The options the constructor distinguishes; the booleans say whether an
    object has what the [valid*] predicates ask for. *)
Record worker_options := mkOptions {
  wo_catalog : option catalog;
  wo_jres : bool;
  wo_capabilities : jsval;
  wo_strictDownloader : bool;
  wo_replayProtected : bool;
  wo_origin : jsval;
  wo_callbackTimeoutMs : jsval;
  wo_maxConcurrentJobs : jsval;
  wo_objectRequestTimeoutMs : jsval;
  wo_queue : bool;
  wo_allowInsecure : bool;
}.

(** [new AuthenticatedDeploymentCallbacks(...)]: the origin. *)
Definition new_callbacks `{UrlParser} (o : worker_options) : res jsstr :=
  if negb (wo_allowInsecure o || wo_replayProtected o) || negb (vbounded (wo_callbackTimeoutMs o) 1000 60000)
  then Throw (TypeError "invalid callback identity")
  else
    match parse_url (to_string (wo_origin o)) with
    | None => Throw (TypeError "invalid callback URL")
    | Some u =>
        if negb (truthy (wo_origin o)) || negb (bare_origin u) ||
           (negb (streq (u_protocol u) (js "https:")) &&
            negb (wo_allowInsecure o && streq (u_protocol u) (js "http:")))
        then Throw (TypeError "invalid control-plane origin")
        else Ok (u_origin u)
    end.

Record composition := mkComposition { cp_catalog : catalog; cp_origin : jsstr; cp_timeoutMs : jsval }.

Definition createComposition `{UrlParser} (o : worker_options) : option composition :=
  match wo_catalog o with
  | None => None
  | Some c =>
      if negb (wo_jres o) || negb (hasCapabilities (wo_capabilities o)) ||
         negb (wo_allowInsecure o || wo_strictDownloader o) || negb (wo_allowInsecure o || wo_replayProtected o)
      then None
      else
        match new_callbacks o with
        | Ok origin => Some (mkComposition c origin (wo_callbackTimeoutMs o))
        | Throw _ => None
        end
  end.

Record http_worker := mkHttpWorker {
  hw_maxConcurrentJobs : Z;
  hw_objectRequestTimeoutMs : Z;
  hw_composition : option composition;
  hw_ready : bool;
}.

Definition new_http_worker `{UrlParser} (o : worker_options) : http_worker :=
  let composition := createComposition o in
  mkHttpWorker (chosen_concurrency (wo_maxConcurrentJobs o))
    (if vbounded (wo_objectRequestTimeoutMs o) 1000 900000 then get_int (wo_objectRequestTimeoutMs o) else 30000)
    composition
    (bool_decide (is_Some composition) && (wo_queue o || wo_allowInsecure o)).

(** ** The composition *)
Record production := mkProduction {
  pd_catalog : catalog;
  pd_registry : registry;
  pd_identity : hmac_config;
  pd_sandbox : sandbox_config;
  pd_worker : http_worker;
}.

Section create.
Context {W : Type} `{Unicode} `{Sha256} `{Sha1} `{UrlParser} `{JsonParse} `{JsonStringify} {host : SandboxHost W}.
Abbreviation M := (eff (W * list call)).

Definition loadJson (mc : machine) (path : jsstr) : res jsval :=
  rethrow
    (b ← mc_read mc path;
     match text_decode b with
     | Some text => match json_parse text with Some v => Ok v | None => Throw (PlainError "JSON") end
     | None => Throw (TypeError "decode")
     end)
    (TypeError "invalid production configuration file").

(** [VerifiedReadOnlyJreRegistry.load] *)
Definition load_registry (mc : machine) (path : jsstr) (c : catalog) (rootDirectory : jsstr) : res registry :=
  document ← rethrow (loadJson mc path) invalid_registry;
  new_registry document c rootDirectory.

Definition initialized_registry (mc : machine) (g : registry) : res registry :=
  match registry_initialize (mc_jres mc) g with
  | (Ok _, g') => Ok g'
  | (Throw e, _) => Throw e
  end.

(** The options of the worker.  The composition passes the objects it has just
    constructed for the JREs, the downloader, the authenticator and the queue, so
    they are always present; and no builder of its own. *)
Definition worker_of (config : jsval) (c : catalog) : http_worker :=
  let callback := opt_prop config "callback" in
  new_http_worker (mkOptions (Some c) true sandbox_capabilities true true (opt_prop callback "controlPlaneOrigin")
    (opt_prop callback "timeoutMs") (opt_prop config "maxConcurrentJobs")
    (opt_prop config "objectRequestTimeoutMs") true false).

Definition createProductionCompilerWorker (mc : machine) (paths : jsval) : M production :=
  _ ← lift (validatePathSet paths);
  config ← lift (loadJson mc (path_of paths "configuration"));
  _ ← lift (validateConfiguration config paths);
  catalogDocument ← lift (loadJson mc (path_of paths "catalog"));
  c ← lift (ReviewedToolchainCatalog catalogDocument (Some [js "neoforge"]));
  g ← lift (load_registry mc (path_of paths "jreRegistry") c (path_of paths "jreRoot"));
  g ← lift (initialized_registry mc g);
  let identity := opt_prop config "identity" in
  _ ← lift (new_replay_store (path_of paths "replayRoot") (opt_prop identity "maxReplayEntries"));
  _ ← lift (mc_replay_initialize mc (path_of paths "replayRoot"));
  secret ← lift (readSecret mc (get_str (opt_prop identity "secretPath")) (path_of paths "secretsRoot"));
  i ← lift (new_identity (opt_prop identity "keyId") (opt_prop identity "maxAgeMs") secret);
  s ← lift (new_sandbox config paths);
  _ ← initialize s (mc_uid mc) (mc_gid mc);
  _ ← lift (new_downloader (opt_prop config "artifactDownloadTimeoutMs"));
  let worker := worker_of config c in
  if negb (hw_ready worker) then throw HttpWorker.compiler_unavailable
  else
    _ ← lift (mc_queue_initialize mc (path_of paths "queueRoot"));
    mret (mkProduction c g i s worker).
End create.

(** ** The server process ([worker-server.mjs]) *)

(** [/^(?:[1-9]\d{0,4})$/] *)
Definition port_pattern : re := Seq (Cls (rng "1" "9")) (rep (Cls digit) 0 4).

Definition parsePort (value : option jsstr) : Z :=
  match value with
  | Some v => if matches port_pattern v && (parse_radix 10 v <=? 65535) then parse_radix 10 v else 8080
  | None => 8080
  end.

Definition parseHost (value : option jsstr) : jsstr :=
  match value with
  | Some v => if str_in v (map js ["0.0.0.0"; "127.0.0.1"; "::"]%string) then v else js "0.0.0.0"
  | None => js "0.0.0.0"
  end.

(** ** After the validation *)
Lemma vbounded_true v lo hi : vbounded v lo hi = true -> exists z, v = VInt z /\ bounded z lo hi = true.
Proof.
  intros (z & -> & Hs & Hz)%vint_true. exists z. split; [done|]. unfold bounded. rewrite Hs. done.
Qed.

(** Every key of a validated path set is there. *)
Lemma path_present paths k :
  validatePathSet paths = Ok tt -> k ∈ map fst PRODUCTION_PATHS -> absoluteNormalizedPath (path_of paths k) = true.
Proof.
  unfold validatePathSet, throw_if. match goal with |- (if ?b then _ else _) = _ -> _ => destruct b eqn:Eg; [done|] end.
  intros _ Hk. rewrite !orb_false_iff, !negb_false_iff in Eg. destruct Eg as [[[[[[Hp Hkeys] Hv] _] _] _] _].
  destruct (sameKeys_fields paths _ Hp Hkeys eq_refl ltac:(done)) as (fields & -> & Hperm).
  assert (js k ∈ map_keys fields) as Hin by (rewrite Hperm; by apply (list_elem_of_fmap_2 js)).
  unfold path_of, opt_prop. destruct (map_get (js k) fields) as [v|] eqn:E; [|by apply map_get_None in E].
  apply map_get_In in E. apply not_true_iff_false in Hv. cbn [default].
  destruct (vstr absoluteNormalizedPath v) eqn:Ev; [by apply vstr_true in Ev as (s & -> & ?)|].
  exfalso. apply Hv, existsb_exists. exists v. rewrite Ev. split; [|done].
  apply in_map_iff. exists (js k, v). split; [done|]. by apply list_elem_of_In.
Qed.

Ltac prod_key := vm_compute; repeat (first [apply list_elem_of_here | apply list_elem_of_further]).

Section accept.
Context `{UrlParser}.

(** A URL without a base has a scheme. *)
Hypothesis url_has_scheme : forall s u, parse_url s = Some u -> ch ":" ∈ s.

Lemma origin_truthy v u : parse_url (to_string v) = Some u -> truthy v = true.
Proof.
  intros Hu%url_has_scheme%includes_char_spec. destruct v as [| |[]|[[]| |]|[]| | |]; try done.
Qed.

Lemma chosen_bounded m : bounded m 1 16 = true -> chosen_concurrency (VInt m) = m.
Proof.
  unfold bounded. rewrite <- andb_assoc. intros Hm. unfold chosen_concurrency, VInt, validConcurrency, vint.
  by rewrite Hm.
Qed.

Lemma callbacks_accepted config c :
  exactHttpsOrigin (opt_prop (opt_prop config "callback") "controlPlaneOrigin") = true ->
  vbounded (opt_prop (opt_prop config "callback") "timeoutMs") 1000 60000 = true ->
  exists u, parse_url (to_string (opt_prop (opt_prop config "callback") "controlPlaneOrigin")) = Some u /\
    u_protocol u = js "https:" /\
    hw_composition (worker_of config c) =
      Some (mkComposition c (u_origin u) (opt_prop (opt_prop config "callback") "timeoutMs")).
Proof.
  unfold exactHttpsOrigin. destruct (parse_url _) as [u|] eqn:Eu; [|done].
  rewrite andb_true_iff, streq_true. intros [Hp Hb] Ht. exists u. split; [done|]. split; [done|].
  unfold worker_of, new_http_worker, createComposition. cbn [hw_composition wo_catalog wo_jres wo_capabilities
    wo_strictDownloader wo_replayProtected wo_allowInsecure negb orb]. rewrite capabilities_suffice. cbn [negb orb].
  unfold new_callbacks. cbn [wo_allowInsecure wo_replayProtected wo_callbackTimeoutMs wo_origin negb orb andb].
  rewrite Ht, Eu, Hb, Hp, (origin_truthy _ _ Eu), streq_refl. done.
Qed.

(** C33: After the one validation of paths and configuration, no constructor of
    the composition rejects and no fallback of the HTTP worker is taken: the
    replay store, the sandbox and the downloader accept their parts, the
    identity accepts any secret of at least 32 bytes and no shorter one, and the
    worker is ready, with the configured concurrency, request timeout, callback
    timeout and the configured https origin.  ([url_has_scheme]: the parser
    refuses a text without a colon.) *)
Theorem production_constructors_accept config paths c secret :
  validatePathSet paths = Ok tt -> validateConfiguration config paths = Ok tt ->
  let identity := opt_prop config "identity" in
  new_replay_store (path_of paths "replayRoot") (opt_prop identity "maxReplayEntries") = Ok tt /\
  (is_ok (new_identity (opt_prop identity "keyId") (opt_prop identity "maxAgeMs") secret) = (32 <=? zlen secret)) /\
  new_sandbox config paths = Ok (sandbox_of config paths) /\
  new_downloader (opt_prop config "artifactDownloadTimeoutMs") = Ok tt /\
  let worker := worker_of config c in
  hw_ready worker = true /\
  opt_prop config "maxConcurrentJobs" = VInt (hw_maxConcurrentJobs worker) /\
  opt_prop config "objectRequestTimeoutMs" = VInt (hw_objectRequestTimeoutMs worker) /\
  exists u, parse_url (to_string (opt_prop (opt_prop config "callback") "controlPlaneOrigin")) = Some u /\
    u_protocol u = js "https:" /\
    hw_composition worker =
      Some (mkComposition c (u_origin u) (opt_prop (opt_prop config "callback") "timeoutMs")).
Proof.
  intros Hpaths Hc. assert (forall k, k ∈ map fst PRODUCTION_PATHS -> absoluteNormalizedPath (path_of paths k) = true)
    as Hpath by (intros; by apply path_present).
  unfold validateConfiguration, throw_if in Hc. cbv zeta in Hc.
  match type of Hc with (if ?b then _ else _) = _ => destruct b eqn:Eg; [done|] end.
  rewrite !orb_false_iff, !negb_false_iff in Eg.
  destruct Eg as [[[[[[[[[[[[[[[[[[[[[[_ _] _] _] _] Horigin] Hcb] _] _] Hkey] _] Hage] Hent] _] _] Ht] Ha] Hf] Hpr] Hcpu] Hdl] Hobj] Hmax].
  pose proof (callbacks_accepted config c Horigin Hcb) as Hcomp.
  apply vbounded_true in Ht as (t & Et & Ht), Ha as (a & Ea & Ha), Hf as (f & Ef & Hf), Hpr as (pr & Epr & Hpr),
    Hcpu as (cpu & Ecpu & Hcpu), Hage as (age & Eage & Hage).
  apply vstr_true in Hkey as (key & Ekey & Hkey). cbv zeta. split_and!.
  - unfold new_replay_store, throw_if. rewrite Hent, Hpath by prod_key. done.
  - unfold new_identity, hmac_valid. rewrite Ekey, Eage. cbn [get_str h_keyId h_key h_maxAgeMs].
    change (get_int (VInt age)) with age. unfold bounded in Hage. rewrite !andb_true_iff in Hage.
    destruct Hage as [[-> ->] ->]. rewrite Hkey. by destruct (32 <=? zlen secret).
  - unfold new_sandbox, valid_sandbox, sandbox_of. cbn [sc_workspaceRoot sc_bubblewrapPath sc_prlimitPath sc_timeoutMs
      sc_addressSpaceBytes sc_fileSizeBytes sc_processLimit sc_cpuSeconds].
    rewrite Et, Ea, Ef, Epr, Ecpu. unfold VInt. cbn [get_int]. rewrite Ht, Ha, Hf, Hpr, Hcpu.
    rewrite !Hpath by prod_key. done.
  - unfold new_downloader, throw_if. by rewrite Hdl.
  - destruct Hcomp as (u & _ & _ & Hu). unfold worker_of, new_http_worker in *. cbn [hw_ready hw_composition] in *.
    rewrite Hu. rewrite bool_decide_eq_true_2 by done. done.
  - apply vbounded_true in Hmax as (m & Em & Hm).
    change (hw_maxConcurrentJobs (worker_of config c)) with (chosen_concurrency (opt_prop config "maxConcurrentJobs")).
    by rewrite Em, chosen_bounded.
  - unfold worker_of, new_http_worker. cbn [hw_objectRequestTimeoutMs wo_objectRequestTimeoutMs]. rewrite Hobj.
    by apply vbounded_true in Hobj as (m & -> & _).
  - exact Hcomp.
Qed.
End accept.

(** ** The example configuration ([worker.example.json]) *)
Definition example_config : jsval :=
  obj [("schemaVersion", VInt 1);
       ("callback", obj [("controlPlaneOrigin", VText "https://api-staging.xmcl.app"); ("timeoutMs", VInt 10000)]);
       ("identity", obj [("keyId", VText "compiler-staging");
          ("secretPath", VText "/run/credentials/xmcl-compiler.service/service-hmac-secret");
          ("maxAgeMs", VInt 60000); ("maxReplayEntries", VInt 1000000)]);
       ("sandbox", obj [("timeoutMs", VInt 300000); ("addressSpaceBytes", VInt 3221225472);
          ("fileSizeBytes", VInt 268435456); ("processLimit", VInt 256); ("cpuSeconds", VInt 240)]);
       ("artifactDownloadTimeoutMs", VInt 240000); ("objectRequestTimeoutMs", VInt 900000);
       ("maxConcurrentJobs", VInt 1)]%string.

#[local] Instance prod_urls : UrlParser := {| parse_url s :=
  if includes_char (ch ":") s
  then Some (mkUrl (js "https:") [] [] (js "api-staging.xmcl.app") [] (js "/") [] [] s s) else None |}.

Lemma production_constructors_accept_witness :
  hw_ready (worker_of example_config cat_empty) = true /\
  new_sandbox example_config default_paths = Ok (sandbox_of example_config default_paths).
Proof.
  destruct (production_constructors_accept) with (config := example_config) (paths := default_paths) (c := cat_empty)
    (secret := replicate 32 7) as (_ & _ & Hs & _ & Hr & _).
  - intros s u. cbn. destruct (includes_char (ch ":") s) eqn:E; [|discriminate]. intros _. by apply includes_char_spec.
  - vm_compute. reflexivity.
  - vm_compute. reflexivity.
  - split; [exact Hr|exact Hs].
Defined.

(** The port is always one a server can bind. *)
Lemma parsePort_range v : 1 <= parsePort v <= 65535.
Proof.
  unfold parsePort. destruct v as [v|]; [|lia]. destruct (matches port_pattern v) eqn:Em; cbn [andb]; [|lia].
  destruct (Z.leb_spec (parse_radix 10 v) 65535); [|lia]. split; [|done].
  destruct v as [|x v]; [done|]. unfold port_pattern in Em. rewrite matches_seq_cls in Em.
  apply andb_true_iff in Em as [Hx Hd]. apply matches_rep_cls in Hd as [Hd _].
  unfold parse_radix, parse_digits. cbn [fold_left].
  assert (forall l acc, Forall (fun c => digit c = true) l -> 1 <= acc ->
    1 <= fold_left (fun acc c => acc * 10 + digit_value c) l acc) as Hpos.
  { clear. induction l as [|y l IH]; intros acc Hl Ha; cbn [fold_left]; [done|].
    apply Forall_cons in Hl as [Hy Hl]. apply IH; [done|].
    assert (48 <= y <= 57) as Hr by (cbv -[Z.leb andb] in Hy; rewrite andb_true_iff, !Z.leb_le in Hy; lia).
    assert (0 <= digit_value y) by (unfold digit_value; repeat case_match; lia). lia. }
  apply Hpos; [done|]. assert (49 <= x <= 57) as Hr by (cbv -[Z.leb andb] in Hx; rewrite andb_true_iff, !Z.leb_le in Hx; lia).
  unfold digit_value. repeat case_match; lia.
Qed.
