(* ===== verification/WorldSeed.v ===== *)
(** * The world-seed boundary ([world-seed.mjs])

    [WorldSeedWorker.run]: validate the job, ask the control plane for its
    grants, download the one object they name and hand it to the unpacker.  The
    control plane, [fetch] and the handler are operations of a class, and every
    call is logged.  The theorem gives the exact sequences of calls and what
    the handler may be given. *)

From S2P Require Import Prelude JsText JsNum JsValue Regex Validators Node Effects Worker.
From Stdlib Require Import Ascii.

Definition seed_failure (code : string) : exn := WorldSeedFailure code.
Definition is_seed_failure (e : exn) : Prop := exists code, e = WorldSeedFailure code.

(** What [fetch] resolves to, as far as it is read. *)
Record seed_response := mkSeedResponse {
  sd_ok : bool;
  sd_contentLength : option jsstr;
  sd_arrayBuffer : res bytes;
}.

(** The object passed to the handler. *)
Record unpack_request := mkUnpack {
  up_archive : bytes;
  up_accountId : jsval;
  up_serviceId : jsval;
  up_seedId : jsval;
  up_worldName : jsval;
}.

Inductive seed_call :=
  | SeedGrants (seedId : jsval)
  | SeedFetch (url headers : jsval)
  | SeedUnpack (r : unpack_request).

Class SeedServices (W : Type) := {
  getWorldSeedGrants : jsval -> eff W jsval;
  seed_fetch : jsval -> jsval -> eff W seed_response;
  unpack : unpack_request -> eff W jsval;
}.

(** [FailClosedWorldSeedHandler.unpack] *)
Definition failClosedUnpack {W} (_ : unpack_request) : eff W jsval :=
  throw (seed_failure "world_seed_handler_unavailable").

(** [/[\x00-\x1f\x7f]/] finds nothing *)
Definition seedId_char (c : Z) : bool := negb ((c <=? 31) || (c =? 127)).

Definition validSeedId (v : jsval) : bool :=
  vstr (fun s => (0 <? zlen s) && (zlen s <=? 255) && forallb seedId_char s) v.

Definition exactHttpsUrl (v : jsval) : bool := vstr (starts_with (js "https://")) v.

Definition seed_key (job : jsval) : jsstr :=
  js "shared-hosting/" ++ to_string (opt_prop job "accountId") ++ js "/" ++ to_string (opt_prop job "serviceId") ++
  js "/world-seeds/" ++ to_string (opt_prop job "seedId") ++ js ".xmcl-world-seed".

Definition validateJob (job : jsval) : res unit :=
  let archive := opt_prop job "archive" in
  throw_if
    (negb (truthy job) || negb (validSeedId (opt_prop job "accountId")) ||
     negb (validSeedId (opt_prop job "serviceId")) || negb (validSeedId (opt_prop job "seedId")) ||
     negb (vstr (fun s => negb (streq s [])) (opt_prop job "worldName")) || negb (truthy archive) ||
     negb (vstr validSha256 (opt_prop archive "sha256")) ||
     negb (vint (fun z => (1 <=? z) && (z <=? 512 * 1024 * 1024)) (opt_prop archive "sizeBytes")) ||
     negb (strict_eq (opt_prop archive "key") (VStr (seed_key job))))
    (seed_failure "invalid_world_seed_job").

(** [Object.keys(v ?? {}).length]; a string has its indices as keys. *)
Definition key_count (v : jsval) : Z :=
  match v with VStr s => zlen s | _ => zlen (object_keys v) end.

Definition verifyWorldSeedGrantSet (grants job : jsval) : res jsval :=
  let invalid := seed_failure "invalid_world_seed_grants" in
  if negb (truthy grants) || negb (strict_eq (opt_prop grants "accountId") (opt_prop job "accountId")) ||
     negb (strict_eq (opt_prop grants "serviceId") (opt_prop job "serviceId")) ||
     negb (strict_eq (opt_prop grants "seedId") (opt_prop job "seedId"))
  then Throw invalid
  else
    match opt_prop grants "grants" with
    | VArr [input] =>
        if negb (truthy input) || negb (strict_eq (opt_prop input "method") (VText "GET")) ||
           negb (strict_eq (opt_prop input "key") (opt_prop (opt_prop job "archive") "key")) ||
           negb (exactHttpsUrl (opt_prop input "url")) || negb (is_string (opt_prop input "expiresAt")) ||
           negb (key_count (opt_prop input "headers") =? 0)
        then Throw invalid else Ok input
    | _ => Throw invalid
    end.

Section seed.
Context {W : Type} `{Sha256} `{NumberParse} {services : SeedServices W}.
Abbreviation M := (eff (W * list seed_call)).

(** The checks of the response. *)
Definition check_seed (r : seed_response) (expected : jsval) : res bytes :=
  if negb (sd_ok r) then Throw (seed_failure "world_seed_download_failed")
  else
    match match sd_contentLength r with Some text => number_parse text | None => NInt 0 end with
    | NInt length =>
        if negb (is_safe length) || (length <? 1) || negb (strict_eq (VInt length) (opt_prop expected "sizeBytes"))
        then Throw (seed_failure "world_seed_size_mismatch")
        else
          b ← sd_arrayBuffer r;
          if negb (strict_eq (VInt (zlen b)) (opt_prop expected "sizeBytes")) ||
             negb (strict_eq (VStr (sha256 b)) (opt_prop expected "sha256"))
          then Throw (seed_failure "world_seed_hash_mismatch") else Ok b
    | _ => Throw (seed_failure "world_seed_size_mismatch")
    end.

Definition downloadExactWorldSeed (grant expected : jsval) : M bytes :=
  r ← logged (SeedFetch (opt_prop grant "url") (opt_prop grant "headers"))
        (seed_fetch (opt_prop grant "url") (opt_prop grant "headers"));
  lift (check_seed r expected).

Definition seed_unpack_request (archive : bytes) (job : jsval) : unpack_request :=
  mkUnpack archive (opt_prop job "accountId") (opt_prop job "serviceId") (opt_prop job "seedId")
    (opt_prop job "worldName").

Definition seed_run (job : jsval) : M jsval :=
  _ ← lift (validateJob job);
  grants ← logged (SeedGrants (opt_prop job "seedId")) (getWorldSeedGrants (opt_prop job "seedId"));
  input ← lift (verifyWorldSeedGrantSet grants job);
  archive ← downloadExactWorldSeed input (opt_prop job "archive");
  let request := seed_unpack_request archive job in
  logged (SeedUnpack request) (unpack request).

(** ** What a run may do *)

Definition seed_id (v : jsval) (id : jsstr) : Prop :=
  v = VStr id /\ 0 < zlen id <= 255 /\ Forall (fun c => 31 < c /\ c <> 127) id.

(** A job: three identifiers, a name, and an archive stored under the key they
    determine, with a digest and a size. *)
Definition seed_job (job : jsval) : Prop :=
  exists account service seed world sha size,
    seed_id (opt_prop job "accountId") account /\ seed_id (opt_prop job "serviceId") service /\
    seed_id (opt_prop job "seedId") seed /\ opt_prop job "worldName" = VStr world /\ world <> [] /\
    let archive := opt_prop job "archive" in
    opt_prop archive "sha256" = VStr sha /\ validSha256 sha = true /\
    opt_prop archive "sizeBytes" = VInt size /\ 1 <= size <= 512 * 1024 * 1024 /\
    opt_prop archive "key" = VStr (js "shared-hosting/" ++ account ++ js "/" ++ service ++ js "/world-seeds/" ++ seed ++
      js ".xmcl-world-seed").

(** The answer of the control plane is for this account, service and seed and holds
    this one grant: to get this job's object from an https URL, with an expiry,
    without headers. *)
Definition seed_grant (job grants input : jsval) : Prop :=
  opt_prop grants "accountId" = opt_prop job "accountId" /\ opt_prop grants "serviceId" = opt_prop job "serviceId" /\
  opt_prop grants "seedId" = opt_prop job "seedId" /\ opt_prop grants "grants" = VArr [input] /\
  opt_prop input "method" = VText "GET" /\ opt_prop input "key" = opt_prop (opt_prop job "archive") "key" /\
  (exists rest, opt_prop input "url" = VStr (js "https://" ++ rest)) /\
  (exists expiresAt, opt_prop input "expiresAt" = VStr expiresAt) /\
  object_keys (opt_prop input "headers") = [] /\ (forall s, opt_prop input "headers" = VStr s -> s = []).

(** The response is this archive: announced and delivered with the job's size, with
    the job's digest. *)
Definition seed_delivered (job : jsval) (r : seed_response) (archive : bytes) : Prop :=
  sd_ok r = true /\ (exists text, sd_contentLength r = Some text /\ number_parse text = NInt (zlen archive)) /\
  sd_arrayBuffer r = Ok archive /\ opt_prop (opt_prop job "archive") "sizeBytes" = VInt (zlen archive) /\
  opt_prop (opt_prop job "archive") "sha256" = VStr (sha256 archive).

(** The outcomes of a run in a world: its result, the world it leaves, its calls. *)
Inductive seed_outcome (job : jsval) (w : W) : res jsval * (W * list seed_call) -> Prop :=
  | seed_no_job :
      ~ seed_job job -> seed_outcome job w (Throw (seed_failure "invalid_world_seed_job"), (w, []))
  | seed_no_answer e w1 :
      seed_job job -> getWorldSeedGrants (opt_prop job "seedId") w = (Throw e, w1) ->
      seed_outcome job w (Throw e, (w1, [SeedGrants (opt_prop job "seedId")]))
  | seed_no_grant grants w1 :
      seed_job job -> getWorldSeedGrants (opt_prop job "seedId") w = (Ok grants, w1) ->
      (forall input, ~ seed_grant job grants input) ->
      seed_outcome job w
        (Throw (seed_failure "invalid_world_seed_grants"), (w1, [SeedGrants (opt_prop job "seedId")]))
  | seed_no_response grants w1 input e w2 :
      seed_job job -> getWorldSeedGrants (opt_prop job "seedId") w = (Ok grants, w1) -> seed_grant job grants input ->
      seed_fetch (opt_prop input "url") (opt_prop input "headers") w1 = (Throw e, w2) ->
      seed_outcome job w (Throw e, (w2,
        [SeedGrants (opt_prop job "seedId"); SeedFetch (opt_prop input "url") (opt_prop input "headers")]))
  | seed_no_archive grants w1 input r w2 e :
      seed_job job -> getWorldSeedGrants (opt_prop job "seedId") w = (Ok grants, w1) -> seed_grant job grants input ->
      seed_fetch (opt_prop input "url") (opt_prop input "headers") w1 = (Ok r, w2) ->
      (forall archive, ~ seed_delivered job r archive) -> is_seed_failure e \/ sd_arrayBuffer r = Throw e ->
      seed_outcome job w (Throw e, (w2,
        [SeedGrants (opt_prop job "seedId"); SeedFetch (opt_prop input "url") (opt_prop input "headers")]))
  | seed_unpacked grants w1 input r w2 archive result w3 :
      seed_job job -> getWorldSeedGrants (opt_prop job "seedId") w = (Ok grants, w1) -> seed_grant job grants input ->
      seed_fetch (opt_prop input "url") (opt_prop input "headers") w1 = (Ok r, w2) -> seed_delivered job r archive ->
      unpack (mkUnpack archive (opt_prop job "accountId") (opt_prop job "serviceId") (opt_prop job "seedId")
        (opt_prop job "worldName")) w2 = (result, w3) ->
      seed_outcome job w (result, (w3,
        [SeedGrants (opt_prop job "seedId"); SeedFetch (opt_prop input "url") (opt_prop input "headers");
         SeedUnpack (mkUnpack archive (opt_prop job "accountId") (opt_prop job "serviceId") (opt_prop job "seedId")
           (opt_prop job "worldName"))])).

(** ** The checks decide it *)

Lemma object_of_prop v k x : opt_prop v k = x -> x <> VUndef -> truthy v = true.
Proof. destruct v; cbn; intros; by subst. Qed.

Lemma validSeedId_spec v : validSeedId v = true <-> exists id, seed_id v id.
Proof.
  unfold validSeedId, seed_id. rewrite vstr_true. apply exist_proper. intros id.
  rewrite !andb_true_iff, Z.ltb_lt, Z.leb_le, forallb_forall, Forall_forall. unfold seedId_char.
  split; intros [-> Hs]; (split; [done|]).
  - destruct Hs as [Hl Hs]. split; [done|]. intros c Hc%list_elem_of_In%Hs. lia.
  - destruct Hs as [Hl Hs]. split; [done|]. intros c Hc%list_elem_of_In%Hs. lia.
Qed.

Lemma validateJob_spec job : validateJob job = Ok tt <-> seed_job job.
Proof.
  unfold validateJob, throw_if, seed_job. cbv zeta.
  match goal with |- (if ?b then _ else _) = _ <-> _ => transitivity (b = false); [by destruct b|] end.
  rewrite !orb_false_iff, !negb_false_iff, !validSeedId_spec, !vstr_true, vint_true, strict_eq_str. split.
  - intros [[[[[[[[_ (a & Ha)] (s & Hs)] (i & Hi)] (n & Hn & Hne)] _] (h & Hh & Hv)] (z & Hz & _ & Hr)] Hk].
    exists a, s, i, n, h, z. rewrite andb_true_iff, !Z.leb_le in Hr. split_and!; try done; try lia.
    + by intros ->.
    + rewrite Hk. unfold seed_key. destruct Ha as [-> _], Hs as [-> _], Hi as [-> _]. done.
  - intros (a & s & i & n & h & z & Ha & Hs & Hi & Hn & Hne & Hh & Hv & Hz & Hr & Hk). split_and!; eauto.
    + destruct Ha as [Ha _]. by eapply object_of_prop.
    + exists n. split; [done|]. destruct n; done.
    + by eapply object_of_prop.
    + exists z. split; [done|]. unfold is_safe, MAX_SAFE_INTEGER. lia.
    + rewrite Hk. unfold seed_key. destruct Ha as [-> _], Hs as [-> _], Hi as [-> _]. done.
Qed.

Lemma key_count_none v : (key_count v =? 0) = true <-> object_keys v = [] /\ forall s, v = VStr s -> s = [].
Proof.
  rewrite Z.eqb_eq. assert (forall A (l : list A), zlen l = 0 <-> l = []) as Hz.
  { intros A l. unfold zlen. destruct l; cbn; split; (done || lia). }
  destruct v as [| | | |x| | |]; cbn [key_count]; rewrite Hz; cbn [object_keys];
    (split; [|intros [Ha Hb]]); try (intros ->; split; [done|by intros ? [= ->]]); try done.
  - by apply Hb.
Qed.

Lemma grants_spec grants job input :
  seed_job job -> verifyWorldSeedGrantSet grants job = Ok input <-> seed_grant job grants input.
Proof.
  intros (a & s & i & n & h & z & [Ha _] & [Hs _] & [Hi _] & _ & _ & _ & _ & _ & _ & Hk).
  unfold verifyWorldSeedGrantSet, seed_grant. cbv zeta in *. rewrite Ha, Hs, Hi, Hk. split.
  - match goal with |- (if ?b then _ else _) = _ -> _ => destruct b eqn:E; [done|] end.
    destruct (opt_prop grants "grants") as [| | | | |[|g [|]]| |]; try done.
    match goal with |- (if ?b then _ else _) = _ -> _ => destruct b eqn:Eg; [done|] end. intros [= <-].
    rewrite !orb_false_iff, !negb_false_iff, !strict_eq_str in *.
    destruct Eg as [[[[[_ Hm] Hkey] (u & Hu & (t & ->)%starts_with_spec)%vstr_true] Hex] [Hh1 Hh2]%key_count_none].
    split_and!; try tauto; [|by exists t|].
    + by apply strict_eq_text.
    + destruct (opt_prop g "expiresAt"); try done. eauto.
  - intros (H1 & H2 & H3 & -> & H5 & H6 & (rest & H7) & (ex & H8) & H9).
    rewrite (object_of_prop grants "accountId" (VStr a)) by done.
    rewrite H1, H2, H3, H5, H6, H7, H8. rewrite (object_of_prop input "method" (VText "GET")) by done.
    rewrite (proj2 (key_count_none _) H9). rewrite !(proj2 (strict_eq_str _ _)) by done.
    unfold exactHttpsUrl, vstr. rewrite starts_with_app. done.
Qed.

Lemma delivered_spec job r archive :
  seed_job job -> check_seed r (opt_prop job "archive") = Ok archive <-> seed_delivered job r archive.
Proof.
  intros (_ & _ & _ & _ & _ & z & _ & _ & _ & _ & _ & _ & _ & Hz & Hr & _). cbv zeta in *.
  unfold check_seed, seed_delivered. rewrite Hz. destruct (sd_ok r); cbn [negb]; [|split; [done|by intros (? & _)]]. split.
  - destruct (sd_contentLength r) as [text|]; [|done]. destruct (number_parse text) as [l| |] eqn:En; [|done|done].
    match goal with |- (if ?b then _ else _) = _ -> _ => destruct b eqn:E; [done|] end. intros (b & Hb & Hd)%bind_ok.
    match type of Hd with (if ?b then _ else _) = _ => destruct b eqn:Eg; [done|] end. injection Hd as ->.
    rewrite !orb_false_iff, !negb_false_iff in *. destruct E as [_ El%strict_eq_int].
    destruct Eg as [Eb%strict_eq_int Hs%strict_eq_sym_str]. split_and!; try done.
    exists text. split; [done|]. rewrite En. f_equal. unfold VInt in *. congruence.
  - intros (_ & (text & -> & ->) & -> & [= ->] & ->). rewrite (proj2 (strict_eq_int _ _)) by done.
    replace (is_safe (zlen archive)) with true by (unfold is_safe, MAX_SAFE_INTEGER; lia).
    replace (zlen archive <? 1) with false by lia. cbn [negb orb]. unfold mbind, res_bind.
    by rewrite (proj2 (strict_eq_int _ _)), (proj2 (strict_eq_str _ _)).
Qed.

Lemma check_seed_throws r expected e : check_seed r expected = Throw e -> is_seed_failure e \/ sd_arrayBuffer r = Throw e.
Proof.
  unfold check_seed, is_seed_failure, seed_failure. destruct (negb (sd_ok r)); [intros [= <-]; eauto|].
  destruct (match sd_contentLength r with Some text => number_parse text | None => NInt 0 end);
    [|intros [= <-]; eauto|intros [= <-]; eauto].
  match goal with |- (if ?b then _ else _) = _ -> _ => destruct b; [intros [= <-]; eauto|] end.
  destruct (sd_arrayBuffer r) as [b|e']; unfold mbind, res_bind; [|by intros [= ->]; right].
  match goal with |- (if ?b then _ else _) = _ -> _ => destruct b; [intros [= <-]; eauto|done] end.
Qed.

(** C34: The complete behaviour of a world-seed run, in the worlds it goes through.
    It makes no call for what is no job.  Otherwise it asks the control plane for
    the grants of the seed; it fetches only when the answer is for this account,
    service and seed and holds exactly one grant, to get this job's object from an
    https URL without headers, and fetches that URL; the unpacker is called only
    when the response announced and delivered the size the job names with the
    digest it names, with exactly those bytes and the job's own fields, and its
    answer is the result.  In every other case the run stops there with the error
    of the failing call or its own. *)
Theorem world_seed_run_exact job w : seed_outcome job w (seed_run job (w, [])).
Proof.
  unfold seed_run, mbind, eff_bind, lift. destruct (validateJob job) as [[]|e] eqn:Hv.
  2:{ assert (e = seed_failure "invalid_world_seed_job") as ->.
      { unfold validateJob, throw_if in Hv. cbv zeta in Hv. case_match; congruence. }
      apply seed_no_job. rewrite <- validateJob_spec. congruence. }
  apply validateJob_spec in Hv. unfold logged at 1. cbn [fst snd app].
  destruct (getWorldSeedGrants _ w) as [[grants|e] w1] eqn:Eg; [|by eapply seed_no_answer].
  destruct (verifyWorldSeedGrantSet grants job) as [input|e] eqn:Ei.
  2:{ assert (e = seed_failure "invalid_world_seed_grants") as ->.
      { unfold verifyWorldSeedGrantSet in Ei. cbv zeta in Ei. repeat case_match; congruence. }
      eapply seed_no_grant; [done|done|]. intros input Hi%grants_spec; [congruence|done]. }
  apply grants_spec in Ei; [|done]. unfold downloadExactWorldSeed, mbind, eff_bind, lift, logged at 1. cbn [fst snd app].
  destruct (seed_fetch _ _ w1) as [[r|e] w2] eqn:Ef; [|by eapply seed_no_response].
  destruct (check_seed r _) as [archive|e] eqn:Ec.
  - apply delivered_spec in Ec; [|done]. cbv zeta. unfold logged. cbn [fst snd app].
    destruct (unpack _ w2) as [result w3] eqn:Eu. by eapply seed_unpacked.
  - eapply seed_no_archive; try done; [|by eapply check_seed_throws].
    intros archive Hd%delivered_spec; [congruence|done].
Qed.
End seed.
