(* ===== verification/Scripts.v ===== *)
(** * The catalog scripts ([scripts/update_toolchain_catalog.mjs], [scripts/validate_toolchain_catalog.mjs])

    The update script generates the toolchain lock and writes it; the validate
    script checks a lock on disk, as the build does.  Files are a map from absolute
    path to content; a call fails when its file is missing or when the environment
    says so.  The theorem shows that the two fit together: after a successful
    update, validation of the same files succeeds. *)

From S2P Require Import Prelude JsText JsNum JsValue Regex Validators Limits Node TarZst Bundle Content Effects Catalog Downloader ToolchainLock CatalogFetch CatalogGenerator Builder Sandbox JreRegistry Materializer Worker.
From Stdlib Require Import Ascii.

(** ** [readFile(path, "utf8")]

    The decoder of buffers does not fail: it writes U+FFFD for every maximal part of
    a sequence that is not UTF-8, and keeps a byte order mark. *)
Fixpoint utf8_text (b : bytes) : jsstr :=
  match b with
  | [] => []
  | b0 :: t =>
      if b0 <? 0x80 then b0 :: utf8_text t
      else if (0xc2 <=? b0) && (b0 <=? 0xdf) then
        match t with
        | b1 :: t' => if is_cont b1 then (b0 - 0xc0) * 64 + (b1 - 0x80) :: utf8_text t' else 0xfffd :: utf8_text t
        | [] => [0xfffd]
        end
      else if (0xe0 <=? b0) && (b0 <=? 0xef) then
        match t with
        | b1 :: t1 =>
            if ((if b0 =? 0xe0 then 0xa0 else 0x80) <=? b1) && (b1 <=? (if b0 =? 0xed then 0x9f else 0xbf)) then
              match t1 with
              | b2 :: t2 =>
                  if is_cont b2 then (b0 - 0xe0) * 4096 + (b1 - 0x80) * 64 + (b2 - 0x80) :: utf8_text t2
                  else 0xfffd :: utf8_text t1
              | [] => [0xfffd]
              end
            else 0xfffd :: utf8_text t
        | [] => [0xfffd]
        end
      else if (0xf0 <=? b0) && (b0 <=? 0xf4) then
        match t with
        | b1 :: t1 =>
            if ((if b0 =? 0xf0 then 0x90 else 0x80) <=? b1) && (b1 <=? (if b0 =? 0xf4 then 0x8f else 0xbf)) then
              match t1 with
              | b2 :: t2 =>
                  if is_cont b2 then
                    match t2 with
                    | b3 :: t3 =>
                        if is_cont b3 then
                          let cp := (b0 - 0xf0) * 262144 + (b1 - 0x80) * 4096 + (b2 - 0x80) * 64 + (b3 - 0x80) - 0x10000 in
                          0xd800 + cp / 1024 :: 0xdc00 + cp mod 1024 :: utf8_text t3
                        else 0xfffd :: utf8_text t2
                    | [] => [0xfffd]
                    end
                  else 0xfffd :: utf8_text t1
              | [] => [0xfffd]
              end
            else 0xfffd :: utf8_text t
        | [] => [0xfffd]
        end
      else 0xfffd :: utf8_text t
  end.

(** On UTF-8 it is the strict decoder. *)
Lemma utf8_text_valid b : forall s, utf8_decode b = Some s -> utf8_text b = s.
Proof.
  induction b as [b IH] using (induction_ltof1 _ (@length Z)). unfold ltof in IH.
  destruct b as [|b0 t]; [by intros s [= <-]|]. intros s. cbn [utf8_decode utf8_text].
  destruct (b0 <? _); [|destruct (_ && (b0 <=? 0xdf)); [|destruct (_ && (b0 <=? 0xef)); [|destruct (_ && (b0 <=? 0xf4)); [|done]]]].
  - intros (r & Hr & ->)%fmap_Some. f_equal. apply IH; [cbn; lia|done].
  - destruct t as [|b1 t]; [done|]. destruct (is_cont b1); [|done]. intros (r & Hr & ->)%fmap_Some. f_equal. apply IH; [cbn; lia|done].
  - destruct t as [|b1 [|b2 t]]; try done. destruct (_ <=? b1), (b1 <=? _); cbn [andb]; try done. destruct (is_cont b2); [|done].
    intros (r & Hr & ->)%fmap_Some. f_equal. apply IH; [cbn; lia|done].
  - destruct t as [|b1 [|b2 [|b3 t]]]; try done. destruct (_ <=? b1), (b1 <=? _); cbn [andb]; try done. destruct (is_cont b2); [|done].
    destruct (is_cont b3); [|done]. cbv zeta. intros (r & Hr & ->)%fmap_Some. do 2 f_equal. apply IH; [cbn; lia|done].
Qed.

(** ** The world of a script *)
Record script_world (W : Type) := mkScriptWorld {
  sc_files : jsstr -> option bytes;
  sc_stdout : list jsstr;
  sc_net : W * list jsstr;
}.
Arguments mkScriptWorld {W} _ _ _.
Arguments sc_files {W} _ _.
Arguments sc_stdout {W} _.
Arguments sc_net {W} _.

(** Whether the next call to the file system fails, and how. *)
Class ScriptFaults (W : Type) := { script_fault : W * list jsstr -> option exn * (W * list jsstr) }.

Section files.
Context {W : Type} `{ScriptFaults W}.
Abbreviation M := (eff (script_world W)).

Definition script_read (p : jsstr) : M bytes := fun w =>
  let '(f, n) := script_fault (sc_net w) in
  let w' := mkScriptWorld (sc_files w) (sc_stdout w) n in
  match f with
  | Some e => (Throw e, w')
  | None => match sc_files w p with Some b => (Ok b, w') | None => (Throw ENOENT, w') end
  end.

(** [writeFile(path, text, "utf8")]; what a failing write leaves in its own file is
    not modelled, and nothing is claimed of the output of a failed update. *)
Definition script_write (p : jsstr) (b : bytes) : M unit := fun w =>
  let '(f, n) := script_fault (sc_net w) in
  match f with
  | Some e => (Throw e, mkScriptWorld (sc_files w) (sc_stdout w) n)
  | None => (Ok tt, mkScriptWorld (fun k => if streq k p then Some b else sc_files w k) (sc_stdout w) n)
  end.

Definition print (line : jsstr) : M unit := fun w =>
  (Ok tt, mkScriptWorld (sc_files w) (sc_stdout w ++ [line]) (sc_net w)).

Definition on_network {A} (m : eff (W * list jsstr) A) : M A := fun w =>
  let '(r, n) := m (sc_net w) in (r, mkScriptWorld (sc_files w) (sc_stdout w) n).
End files.

(** ** Arguments *)
Section arguments.
Context (cwd root : jsstr).

(** The failure is named after the option, without its two dashes. *)
Definition missing_option (option : string) : exn := tc_failure (String.append "missing_" option).

Definition resolveRequired (value : jsstr) (option : string) : res jsstr :=
  if streq value [] || starts_with (js "-") value then Throw (missing_option option) else Ok (resolve_from cwd value).

Definition default_lock : jsstr := resolve_from root (js "toolchain-catalog.lock.json").
Definition lock_required : exn := tc_failure "runtime_catalog_lock_required".
Definition invalid_arguments : exn := tc_failure "invalid_arguments".

Record update_arguments := mkUpdate { ua_runtimeCatalogLock : jsstr; ua_output : jsstr; ua_check : bool }.

(** The loop: an option with a value consumes the next argument too. *)
Fixpoint read_update (arguments : list jsstr) (lock : option jsstr) (output : jsstr) (check : bool) : res update_arguments :=
  match arguments with
  | [] => match lock with Some l => Ok (mkUpdate l output check) | None => Throw lock_required end
  | argument :: rest =>
      if streq argument (js "--runtime-catalog-lock") then
        match rest with
        | value :: rest' => l ← resolveRequired value "runtime-catalog-lock"; read_update rest' (Some l) output check
        | [] => Throw (missing_option "runtime-catalog-lock")
        end
      else if streq argument (js "--output") then
        match rest with
        | value :: rest' => o ← resolveRequired value "output"; read_update rest' lock o check
        | [] => Throw (missing_option "output")
        end
      else if streq argument (js "--check") then read_update rest lock output true
      else Throw invalid_arguments
  end.

Definition update_parseArguments (arguments : list jsstr) : res update_arguments :=
  read_update arguments None default_lock false.

Record validate_arguments := mkValidate { va_runtimeCatalogLock : jsstr; va_catalog : jsstr }.

Fixpoint read_validate (arguments : list jsstr) (lock : option jsstr) (catalog : jsstr) : res validate_arguments :=
  match arguments with
  | [] => match lock with Some l => Ok (mkValidate l catalog) | None => Throw lock_required end
  | argument :: rest =>
      if streq argument (js "--runtime-catalog-lock") then
        match rest with
        | value :: rest' => l ← resolveRequired value "runtime-catalog-lock"; read_validate rest' (Some l) catalog
        | [] => Throw (missing_option "runtime-catalog-lock")
        end
      else if streq argument (js "--catalog") then
        match rest with
        | value :: rest' => c ← resolveRequired value "catalog"; read_validate rest' lock c
        | [] => Throw (missing_option "catalog")
        end
      else Throw invalid_arguments
  end.

Definition validate_parseArguments (arguments : list jsstr) : res validate_arguments :=
  read_validate arguments None default_lock.
End arguments.

(** ** The scripts *)
Section scripts.
Context {W : Type} `{Unicode} `{Sha256} `{Sha1} `{InflateRaw} `{JsonParse} `{JsonStringify} `{JsonPretty} `{UrlParser}.
Context `{CatalogNet W} `{ScriptFaults W} (cwd root : jsstr).
Abbreviation M := (eff (script_world W)).

(** The body of [main]; the generator takes its default candidates. *)
Definition update_with (candidates : list jsval) (arguments : list jsstr) : M unit :=
  a ← lift (update_parseArguments cwd root arguments);
  runtimeCatalogBytes ← script_read (ua_runtimeCatalogLock a);
  catalog ← on_network (generateToolchainCatalog runtimeCatalogBytes candidates);
  next ← lift (formatCatalog catalog);
  previous ← try_catch (b ← script_read (ua_output a); mret (utf8_text b))
    (fun e => if bool_decide (error_code e = Some "ENOENT"%string) then mret [] else throw e);
  if streq previous next then print (js "toolchain catalog unchanged: " ++ ua_output a ++ [10])
  else if ua_check a then throw (tc_failure "catalog_update_required")
  else
    _ ← script_write (ua_output a) (utf8_encode next);
    print (js "toolchain catalog updated: " ++ ua_output a ++ [10]).

Definition update_main : list jsstr -> M unit := update_with SUPPORTED_TOOLCHAIN_CANDIDATES.

Definition parseCatalogText (b : bytes) : res jsval := parseJson b "catalog_malformed".

(** The two reads run together; here the first one is the one that fails first. *)
Definition validate_main (arguments : list jsstr) : M unit :=
  a ← lift (validate_parseArguments cwd root arguments);
  runtimeCatalogBytes ← script_read (va_runtimeCatalogLock a);
  content ← script_read (va_catalog a);
  let catalogText := utf8_text content in
  value ← lift (parseCatalogText (utf8_encode catalogText));
  _ ← lift (validateToolchainCatalog value runtimeCatalogBytes None (Some catalogText));
  formatted ← lift (formatCatalog value);
  if negb (streq catalogText formatted) then throw (tc_failure "catalog_not_canonical")
  else print (js "toolchain catalog valid: " ++ va_catalog a ++ [10]).
End scripts.

(** ** Documents with distinct names *)

(** Every object of the value has distinct names, as objects of the language do. *)
Fixpoint distinct_deep (v : jsval) : Prop :=
  match v with
  | VArr l => (fix go l := match l with [] => True | x :: t => distinct_deep x /\ go t end) l
  | VObj fields =>
      map_wf fields /\ (fix go l := match l with [] => True | kv :: t => distinct_deep kv.2 /\ go t end) fields
  | _ => True
  end.

Lemma distinct_arr l : distinct_deep (VArr l) <-> Forall distinct_deep l.
Proof. induction l as [|x l IH]; [by split|]. rewrite Forall_cons, <- IH. done. Qed.

Lemma distinct_obj fields : distinct_deep (VObj fields) <-> map_wf fields /\ Forall (fun kv => distinct_deep kv.2) fields.
Proof.
  cbn [distinct_deep]. apply and_iff_compat_l. induction fields as [|kv l IH]; [by split|]. rewrite Forall_cons, <- IH. done.
Qed.

Lemma distinct_named fields :
  bool_decide (NoDup (map (fun kv => js kv.1) fields)) = true -> Forall (fun kv => distinct_deep kv.2) fields ->
  distinct_deep (obj fields).
Proof.
  intros Hnd%bool_decide_eq_true Hf. unfold obj. apply distinct_obj. split.
  - unfold map_wf, map_keys. by rewrite map_map.
  - apply Forall_map. eapply Forall_impl; [exact Hf|]. by intros [k v].
Qed.

Lemma distinct_prop v k : distinct_deep v -> distinct_deep (opt_prop v k).
Proof.
  destruct v as [| | | | | |fields|]; intros Hv; try exact I. apply distinct_obj in Hv as [_ Hf]. cbn [opt_prop].
  destruct (map_get (js k) fields) as [x|] eqn:E; [|exact I]. apply map_get_In in E. rewrite Forall_forall in Hf. apply (Hf _ E).
Qed.

#[local] Instance key_le_trans {V} : Transitive (@key_le V).
Proof. intros a b c. unfold key_le. by apply (transitivity (R := str_le)). Qed.
#[local] Instance key_le_total {V} : Total (@key_le V).
Proof. intros a b. unfold key_le. apply (total str_le). Qed.

(** Sorting sorted fields with distinct names changes nothing. *)
Lemma sort_fixed {V} (l : list (jsstr * V)) : map_wf l -> merge_sort key_le (merge_sort key_le l) = merge_sort key_le l.
Proof.
  intros Hwf. assert (merge_sort key_le l ≡ₚ l) as Hp by apply merge_sort_Permutation.
  assert (merge_sort key_le (merge_sort key_le l) ≡ₚ merge_sort key_le l) as Hpp by apply merge_sort_Permutation.
  apply (StronglySorted_unique_strong key_le); [|apply (StronglySorted_merge_sort _)..|done].
  intros [k1 x1] [k2 x2] H1 H2 H12 H21. rewrite Hpp, Hp in H1. rewrite Hp in H2. unfold key_le in *. cbn in *.
  assert (k1 = k2) as -> by (by apply (anti_symm str_le)). f_equal.
  apply (map_wf_get _ _ _ Hwf) in H1. apply (map_wf_get _ _ _ Hwf) in H2. congruence.
Qed.

Lemma mapM_fixed {A} (f : A -> res A) l : Forall (fun x => f x = Ok x) l -> mapM_res f l = Ok l.
Proof. intros Hl. apply mapM_res_ok. by apply Forall_Forall2_diag. Qed.

(** [canonicalize] is idempotent on such documents. *)
Fixpoint canonicalize_idem (v : jsval) : distinct_deep v -> forall x, canonicalize v = Ok x -> canonicalize x = Ok x.
Proof.
  destruct v as [| |b|n|s|l|fields|b]; intros Hv x; try (by intros [= <-]); try done.
  - cbn [canonicalize]. destruct n as [|t|z] eqn:En; try (by intros [= <-]); try done. destruct (_ || _) eqn:E; [done|].
    intros [= <-]. cbn [canonicalize]. by rewrite E.
  - apply distinct_arr in Hv. rewrite canonicalize_arr. intros (l' & Hm & [= <-])%bind_ok. rewrite canonicalize_arr.
    rewrite mapM_fixed; [done|]. revert l' Hm. induction l as [|y l IH]; intros l' Hm; cbn [mapM_res] in Hm; [by injection Hm as <-|].
    apply bind_ok in Hm as (y' & Hy & Hm). apply bind_ok in Hm as (l'' & Hl & [= <-]). apply Forall_cons in Hv as [Hv1 Hv2].
    constructor; [by eapply canonicalize_idem|by apply IH].
  - apply distinct_obj in Hv as [Hwf Hv]. rewrite canonicalize_obj. intros (fs & Hm & [= <-])%bind_ok. rewrite canonicalize_obj.
    assert (map_keys fs = map_keys fields) as Hkeys by apply (canonical_fields_get fields fs [] Hm).
    assert (Forall (fun kv => canonical_field kv = Ok kv) fs) as Hfs.
    { clear Hwf Hkeys. revert fs Hm. induction fields as [|[k y] l IH]; intros l' Hm; cbn [mapM_res] in Hm; [by injection Hm as <-|].
      apply bind_ok in Hm as (y' & Hy & Hm). apply bind_ok in Hm as (l'' & Hl & [= <-]). apply Forall_cons in Hv as [Hv1 Hv2].
      unfold canonical_field in Hy. apply bind_ok in Hy as (y1 & Hy & [= <-]). cbn [fst snd] in *.
      constructor; [|by apply IH]. unfold canonical_field. cbn [fst snd]. by rewrite (canonicalize_idem _ Hv1 _ Hy). }
    rewrite mapM_fixed by (by rewrite merge_sort_Permutation). cbn [mbind res_bind]. rewrite sort_fixed; [done|].
    unfold map_wf. by rewrite Hkeys.
Qed.

(** ** The generated lock *)
Section generated.
Context {W : Type} `{Unicode} `{Sha256} `{Sha1} `{InflateRaw} `{JsonParse} `{JsonStringify} `{JsonPretty} `{UrlParser}.
Context `{CatalogNet W}.

Lemma jre_distinct rt java jre : distinct_deep java -> jreFor rt java = Ok jre -> distinct_deep jre.
Proof.
  intros Hj. unfold jreFor. cbv zeta. destruct (negb _); [done|]. intros (b & _ & [= <-])%bind_ok.
  apply distinct_named; [vm_compute; reflexivity|]. repeat constructor; by apply distinct_prop.
Qed.

Lemma built_distinct a : built_artifact (W := W) a -> distinct_deep a.
Proof. intros (role & coordinate & url & b & -> & _). apply distinct_named; [vm_compute; reflexivity|]. repeat constructor. Qed.

Lemma toolchain_distinct rt minecraft toolchains candidate s l s' :
  distinct_deep candidate -> generate_toolchain (W := W) rt minecraft toolchains candidate s = (Ok l, s') ->
  Forall distinct_deep toolchains -> Forall distinct_deep l.
Proof.
  unfold generate_toolchain. cbv zeta. intros Hc Hr Hts. apply eff_bind_ok in Hr as (jre & s1 & Hj & Hr). apply lift_ok in Hj as [Hj _].
  apply eff_bind_ok in Hr as ([p pb] & s2 & Hp & Hr). apply eff_bind_ok in Hr as ([sv svb] & s3 & Hs & Hr).
  apply eff_bind_ok in Hr as (deps & s4 & Hd & Hr). apply mret_ok in Hr as [-> _]. cbn [fst snd] in *.
  apply Forall_app. split; [done|]. apply Forall_singleton.
  apply primary_built in Hp as (co & url & _ & _ & Hpins & _). apply server_built in Hs.
  assert (Forall (fun a => built_artifact (W := W) a.1) deps) as Hdeps.
  { destruct (strict_eq _ _) in Hd; [by eapply dependencies_built|]. apply mret_ok in Hd as [-> _]. constructor. }
  apply distinct_named; [vm_compute; reflexivity|]. apply Forall_cons. split; [by apply distinct_prop|].
  apply Forall_cons. split; [by apply distinct_prop|]. apply Forall_cons. split; [by apply distinct_prop|].
  apply Forall_cons. split; [eapply jre_distinct; [|exact Hj]; by apply distinct_prop|].
  apply Forall_cons. split; [|apply Forall_singleton; cbn [snd]; unfold template_of; by destruct (map_get _ loaderTemplates)]. cbn [snd].
  apply distinct_arr. rewrite sortArtifacts_perm. constructor; [apply built_distinct; by exists "primary"%string, co, url, pb|].
  constructor; [by apply built_distinct|]. apply Forall_map. eapply Forall_impl; [exact Hdeps|]. intros a. by apply built_distinct.
Qed.

(** The lock is its own canonical form, and passes the validation again. *)
Lemma generated_canonical b candidates s lock s' :
  Forall distinct_deep candidates -> generateToolchainCatalog (W := W) b candidates s = (Ok lock, s') ->
  canonicalize lock = Ok lock /\ plainObject lock = true /\ exists document Y,
    parseCatalogDocument document = Ok lock /\ validateToolchainCatalog document b (Some candidates) None = Ok Y.
Proof.
  intros Hc. unfold generateToolchainCatalog. intros (rt & s1 & _ & Hr)%eff_bind_ok. apply eff_bind_ok in Hr as (u & s2 & _ & Hr).
  apply eff_bind_ok in Hr as (mc & s3 & _ & Hr). apply eff_bind_ok in Hr as (ts & s4 & Hts & Hr).
  apply eff_bind_ok in Hr as (rev & s5 & _ & Hr). cbv zeta in Hr. apply eff_bind_ok in Hr as (Y & s6 & Hv & Hr).
  apply lift_ok in Hv as [Hv ->]. apply lift_ok in Hr as [Hr _].
  assert (Forall distinct_deep ts) as Hd.
  { eapply (foldM_eff_ind _ (Forall distinct_deep)); [constructor| |exact Hts].
    intros candidate l w l' w' Hin Hl Hg. eapply toolchain_distinct; [|exact Hg|done]. rewrite Forall_forall in Hc. by apply Hc. }
  assert (parseCatalogDocument (lock_object rt rev ts) = Ok lock) as HX.
  { unfold validateToolchainCatalog in Hv. apply bind_ok in Hv as (X & HX & _). rewrite HX.
    unfold parseCatalogDocument in HX. guard HX as Eg. congruence. }
  split; [|split; [by apply (document_shape _ _ HX)|by exists (lock_object rt rev ts), Y]].
  eapply canonicalize_idem; [|exact Hr]. unfold lock_object. apply distinct_named; [vm_compute; reflexivity|].
  apply Forall_cons. split; [exact I|]. apply Forall_cons. split; [exact I|]. apply Forall_cons. split; [exact I|].
  apply Forall_cons. split; [apply distinct_arr, Forall_map, Forall_forall; by intros|].
  apply Forall_singleton. apply distinct_arr. by rewrite sort_toolchains_perm.
Qed.

(** A canonical lock that passed once passes with its own text. *)
Lemma canonical_revalidates document lock b candidates Y text :
  parseCatalogDocument document = Ok lock -> validateToolchainCatalog document b candidates None = Ok Y ->
  canonicalize lock = Ok lock -> formatCatalog lock = Ok text -> validateToolchainCatalog lock b None (Some text) = Ok lock.
Proof.
  intros Hd Hv Hc Hf. destruct (document_shape _ _ Hd) as (Hp & Hk & Hs & Hcr & Hrr & l & Hl & Hlen).
  unfold validateToolchainCatalog in Hv. rewrite Hd in Hv. cbn [mbind res_bind] in Hv. apply bind_ok in Hv as (rt & Hrt & Hv).
  apply bind_ok in Hv as ([] & Hchk & _). unfold check_catalog in Hchk. cbv zeta in Hchk.
  destruct (negb (strict_eq (opt_prop lock "runtimeCatalogRevision") _)) eqn:E1; [done|]. apply bind_ok in Hchk as (ex & Hex & Hchk).
  destruct (negb (strict_eq (opt_prop lock "catalogRevision") _)) eqn:E2; [done|]. apply bind_ok in Hchk as ([] & _ & Hchk).
  destruct (sameStringList _ _) eqn:E3; cbn [negb] in Hchk; [|done]. apply bind_ok in Hchk as (keys & Hts & _).
  assert (parseCatalogDocument lock = Ok lock) as Hparse.
  { unfold parseCatalogDocument. rewrite Hp, Hk, Hs, Hcr, Hrr, (sameStringList_exact _ _ E3), Hl. cbn [is_array get_list negb orb].
    rewrite (proj2 (strict_eq_int (VInt 1) 1) eq_refl), (proj2 (Z.ltb_ge (zlen l) 1)) by lia. exact Hc. }
  unfold validateToolchainCatalog. rewrite Hparse. cbn [mbind res_bind]. rewrite Hrt. cbn [mbind res_bind].
  unfold check_catalog. cbv zeta. rewrite E1, Hex. cbn [mbind res_bind]. rewrite E2, Hf. cbn [mbind res_bind]. unfold throw_if at 1.
  rewrite streq_refl. cbn [negb mbind res_bind]. rewrite E3. cbn [negb]. rewrite Hts. cbn [mbind res_bind]. exact Hc.
Qed.
End generated.

Lemma candidates_distinct : Forall distinct_deep SUPPORTED_TOOLCHAIN_CANDIDATES.
Proof.
  unfold SUPPORTED_TOOLCHAIN_CANDIDATES. cbn [map].
  repeat constructor; try (apply (bool_decide_unpack _); vm_compute; exact I); repeat constructor.
Qed.

(** ** Update, then validate *)
Section fit.
Context {W : Type} `{Unicode} `{Sha256} `{Sha1} `{InflateRaw} `{JsonParse} `{JsonStringify} `{JsonPretty} `{UrlParser}.
Context `{CatalogNet W} `{ScriptFaults W} (cwd root : jsstr).

Lemma script_read_ok p (w : script_world W) b w' :
  script_read p w = (Ok b, w') -> sc_files w p = Some b /\ sc_files w' = sc_files w.
Proof.
  unfold script_read. destruct (script_fault _) as [[e|] n]; [done|].
  destruct (sc_files w p) eqn:E; [|done]. by intros [= <- <-].
Qed.

Lemma script_write_ok p b (w : script_world W) u w' :
  script_write p b w = (Ok u, w') -> sc_files w' = fun k => if streq k p then Some b else sc_files w k.
Proof. unfold script_write. destruct (script_fault _) as [[e|] n]; [done|]. by intros [= _ <-]. Qed.

(** The text the update compares with. *)
Lemma previous_ok p (w : script_world W) text w' :
  try_catch (b ← script_read p; mret (utf8_text b))
    (fun e => if bool_decide (error_code e = Some "ENOENT"%string) then mret [] else throw e) w = (Ok text, w') ->
  sc_files w' = sc_files w /\ (text = [] \/ exists b, sc_files w p = Some b /\ text = utf8_text b).
Proof.
  unfold try_catch, mbind, eff_bind, script_read. destruct (script_fault _) as [[e|] n].
  - case_bool_decide; [|done]. intros [= <- <-]. split; [done|by left].
  - destruct (sc_files w p) as [b|]; [intros [= <- <-]; split; [done|right; by exists b]|].
    case_bool_decide; [|done]. intros [= <- <-]. split; [done|by left].
Qed.

(** What a successful update did. *)
Lemma update_done candidates uargs (w w1 : script_world W) :
  update_with cwd root candidates uargs w = (Ok tt, w1) ->
  exists a b lock s s' next, update_parseArguments cwd root uargs = Ok a /\
    sc_files w (ua_runtimeCatalogLock a) = Some b /\ generateToolchainCatalog b candidates s = (Ok lock, s') /\
    formatCatalog lock = Ok next /\
    exists c, sc_files w1 (ua_output a) = Some c /\ (utf8_text c = next \/ c = utf8_encode next).
Proof.
  unfold update_with. intros (a & x1 & Ha & Hr)%eff_bind_ok. apply lift_ok in Ha as [Ha ->].
  apply eff_bind_ok in Hr as (b & w2 & [Hb F2]%script_read_ok & Hr).
  apply eff_bind_ok in Hr as (lock & w3 & Hg & Hr). unfold on_network in Hg.
  destruct (generateToolchainCatalog b candidates (sc_net w2)) as [r s'] eqn:Eg. injection Hg as -> <-.
  apply eff_bind_ok in Hr as (next & w4 & Hn & Hr). apply lift_ok in Hn as [Hn ->].
  apply eff_bind_ok in Hr as (text & w5 & [F5 Ht]%previous_ok & Hr). cbn [sc_files] in *. rewrite F2 in *.
  exists a, b, lock, (sc_net w2), s', next. do 4 (split; [done|]). destruct (streq text next) eqn:Es.
  - apply streq_true in Es as ->. injection Hr as <-. cbn [sc_files]. rewrite F5.
    destruct Ht as [->|(c & Hc & ->)]; [|exists c; split; [done|by left]].
    unfold formatCatalog in Hn. apply bind_ok in Hn as (v & _ & [= Hn]). by destruct (json_pretty v).
  - destruct (ua_check a); [done|]. apply eff_bind_ok in Hr as (u & w6 & Hw%script_write_ok & Hr). injection Hr as <-.
    cbn [sc_files]. rewrite Hw, F5. exists (utf8_encode next). rewrite streq_refl. split; [done|by right].
Qed.

(** The serializer writes well-formed text without a byte order mark, which the
    parser reads back. *)
Definition prints (v : jsval) : Prop :=
  json_parse (json_pretty v ++ [10]) = Some v /\ well_formed (json_pretty v ++ [10]) = true /\
  has_bom (json_pretty v ++ [10]) = false.

(** The files an update may have changed: its output, and that only outside check
    mode. *)
Definition spared (a : update_arguments) (f : jsstr -> option bytes) (w : script_world W) : Prop :=
  (forall k, k <> ua_output a -> sc_files w k = f k) /\ (ua_check a = true -> sc_files w = f).

Lemma read_spares a f p : preserves (spared a f) (script_read p).
Proof.
  intros w Hw. unfold script_read. destruct (script_fault _) as [[e|] n]; [done|]. by destruct (sc_files w p).
Qed.

Lemma network_spares {A} a f (m : eff (W * list jsstr) A) : preserves (spared a f) (on_network m).
Proof. intros w Hw. unfold on_network. by destruct (m (sc_net w)). Qed.

Lemma print_spares a f line : preserves (spared a f) (print line).
Proof. by intros w Hw. Qed.

Lemma write_spares a f b : ua_check a = false -> preserves (spared a f) (script_write (ua_output a) b).
Proof.
  intros Hc w [Hf _]. unfold script_write. destruct (script_fault _) as [[e|] n]; (split; [|congruence]); cbn [snd sc_files]; [done|].
  intros k Hk. rewrite (proj2 (streq_false _ _) Hk). by apply Hf.
Qed.

#[local] Hint Resolve read_spares network_spares print_spares write_spares : preserves.

Lemma update_spares candidates uargs a w :
  update_parseArguments cwd root uargs = Ok a -> spared a (sc_files w) (update_with cwd root candidates uargs w).2.
Proof.
  intros Ha. assert (preserves (spared a (sc_files w)) (update_with cwd root candidates uargs)) as Hp.
  { unfold update_with. rewrite Ha. apply preserves_lift_bind. intros x [= <-]. preserves. }
  by apply Hp.
Qed.

(** C40: The two catalog scripts fit together.  Every run of the update script,
    failing or not, leaves every file but its output alone, and in check mode that
    one too; and after a successful one, when the validate script runs on the same
    two files, no call failing, it succeeds: the lock is canonical, parses back,
    carries its own revision and passes every check.  For the second part the
    candidates are objects with distinct names (the ones in the source are), the
    two paths differ, and the generated lock is text the JSON parser reads back. *)
Theorem updated_lock_validates candidates uargs a (w : script_world W) :
  update_parseArguments cwd root uargs = Ok a ->
  let '(result, w1) := update_with cwd root candidates uargs w in
  (forall k, k <> ua_output a -> sc_files w1 k = sc_files w k) /\ (ua_check a = true -> sc_files w1 = sc_files w) /\
  forall vargs (V : Type) (faults : ScriptFaults V) (v : script_world V),
    result = Ok tt -> Forall distinct_deep candidates -> ua_runtimeCatalogLock a <> ua_output a ->
    validate_parseArguments cwd root vargs = Ok (mkValidate (ua_runtimeCatalogLock a) (ua_output a)) ->
    (forall b lock s s', sc_files w (ua_runtimeCatalogLock a) = Some b ->
       generateToolchainCatalog b candidates s = (Ok lock, s') -> prints lock) ->
    (forall n, (script_fault (W := V) n).1 = None) -> sc_files v = sc_files w1 ->
    (validate_main cwd root vargs v).1 = Ok tt.
Proof.
  intros Ha. pose proof (update_spares candidates uargs a w Ha) as [Hothers Hcheck].
  destruct (update_with cwd root candidates uargs w) as [result w1] eqn:Hu. cbn [snd] in *. split; [done|]. split; [done|].
  intros vargs V faults v -> Hc Hne Hv Hprints Hcalm Hfiles.
  apply update_done in Hu as (a' & b & lock & s & s' & next & Ha' & Hb & Hg & Hn & c & Hout & Htext).
  assert (a' = a) as -> by congruence.
  destruct (Hprints b lock s s' Hb Hg) as (Hparse & Hwf & Hbom).
  destruct (generated_canonical b candidates s lock s' Hc Hg) as (Hcan & Hobj & document & Y & Hd & Hval).
  pose proof (canonical_revalidates document lock b _ Y next Hd Hval Hcan Hn) as Hre.
  assert (next = json_pretty lock ++ [10]) as En by (unfold formatCatalog in Hn; rewrite Hcan in Hn; by injection Hn as <-).
  assert (utf8_text c = next) as Hc'.
  { destruct Htext as [?| ->]; [done|]. rewrite En. by apply utf8_text_valid, utf8_roundtrip. }
  assert (forall p d (x : script_world V), sc_files x = sc_files w1 -> sc_files w1 p = Some d ->
    exists n, script_read p x = (Ok d, mkScriptWorld (sc_files w1) (sc_stdout x) n)) as Hread.
  { intros p d x Hx Hp. unfold script_read. specialize (Hcalm (sc_net x)). destruct (script_fault (sc_net x)) as [f n].
    cbn [fst] in Hcalm. subst f. rewrite Hx, Hp. by exists n. }
  unfold validate_main. rewrite Hv. unfold mbind at 1, eff_bind at 1, lift at 1. cbn [va_runtimeCatalogLock va_catalog].
  destruct (Hread (ua_runtimeCatalogLock a) b v) as (n1 & E1); [done|by rewrite Hothers|].
  unfold mbind at 1, eff_bind at 1. rewrite E1.
  destruct (Hread (ua_output a) c (mkScriptWorld (sc_files w1) (sc_stdout v) n1)) as (n2 & E2); [done..|].
  unfold mbind at 1, eff_bind at 1. rewrite E2. cbv zeta. rewrite Hc'.
  unfold parseCatalogText, parseJson. rewrite En, text_roundtrip by done. rewrite <- En, En, Hparse, Hobj, <- En.
  unfold mbind at 1, eff_bind at 1, lift at 1. rewrite Hre. unfold mbind at 1, eff_bind at 1, lift at 1.
  rewrite Hn. unfold mbind at 1, eff_bind at 1, lift at 1. by rewrite streq_refl.
Qed.
End fit.

(** ** A run: an update for one Fabric candidate, then its validation *)
#[local] Existing Instance ascii_unicode.
#[local] Existing Instance toy_sha256.
#[local] Existing Instance demo_sha1.
#[local] Existing Instance demo_inflate.
#[local] Existing Instance demo_stringify.
#[local] Existing Instance demo_pretty.
#[local] Existing Instance demo_urls.
#[local] Existing Instance demo_net.

(** The documents of the generation, and the lock behind its own text. *)
#[local] Instance script_parse : JsonParse := {| json_parse s :=
  if streq s (js "[object Object]" ++ [10]) then Some demo_lock else json_parse (JsonParse := demo_parse) s |}.
#[local] Instance script_calm : ScriptFaults unit := {| script_fault n := (None, n) |}.

Definition script_store : jsstr -> option bytes := fun k =>
  if streq k (js "/work/runtime.json") then Some lock_runtime_bytes else None.
Definition script_start : script_world unit := mkScriptWorld script_store [] (tt, []).
Definition update_line : list jsstr := map js ["--runtime-catalog-lock"; "runtime.json"; "--output"; "/out/lock.json"]%string.
Definition validate_line : list jsstr := map js ["--catalog"; "/out/lock.json"; "--runtime-catalog-lock"; "/work/runtime.json"]%string.
Definition script_arguments : update_arguments := mkUpdate (js "/work/runtime.json") (js "/out/lock.json") false.
Definition script_cwd : jsstr := js "/work".

Definition script_updated : res unit * script_world unit :=
  update_with script_cwd script_cwd [demo_candidate] update_line script_start.

Lemma script_update_done : script_updated = (Ok tt, script_updated.2).
Proof.
  rewrite (surjective_pairing script_updated) at 1. assert (script_updated.1 = Ok tt) as -> by vm_cast_no_check (eq_refl (Ok tt)). done.
Qed.

Example script_output : sc_stdout script_updated.2 = [js "toolchain catalog updated: /out/lock.json" ++ [10]].
Proof. vm_compute. reflexivity. Qed.

Lemma script_prints b lock s s' :
  sc_files script_start (ua_runtimeCatalogLock script_arguments) = Some b ->
  generateToolchainCatalog b [demo_candidate] s = (Ok lock, s') -> prints lock.
Proof.
  intros Hb Hg. assert (b = lock_runtime_bytes) as -> by (vm_compute in Hb; vm_compute; congruence).
  assert (lock = demo_lock) as ->.
  { destruct s as [[] log]. assert ((generateToolchainCatalog lock_runtime_bytes [demo_candidate] (tt, log)).1 = Ok demo_lock) as E
      by (vm_compute; reflexivity).
    rewrite Hg in E. cbn [fst] in E. congruence. }
  split; [vm_compute; reflexivity|]. split; vm_compute; reflexivity.
Qed.

Lemma updated_lock_validates_witness :
  (validate_main script_cwd script_cwd validate_line script_updated.2).1 = Ok tt /\
  sc_files script_updated.2 (js "/work/runtime.json") = Some lock_runtime_bytes.
Proof.
  pose proof (updated_lock_validates script_cwd script_cwd [demo_candidate] update_line script_arguments script_start eq_refl) as Hu.
  change (update_with script_cwd script_cwd [demo_candidate] update_line script_start) with script_updated in Hu.
  rewrite script_update_done in Hu. destruct Hu as (Hothers & _ & Hvalid). split.
  - apply Hvalid.
    + reflexivity.
    + apply Forall_singleton. repeat constructor; try (apply (bool_decide_unpack _); vm_compute; exact I); repeat constructor.
    + vm_compute. intros E. discriminate E.
    + vm_compute. reflexivity.
    + exact script_prints.
    + intros n. reflexivity.
    + reflexivity.
  - cbn [snd]. rewrite Hothers; [reflexivity|]. vm_compute. intros E. discriminate E.
Defined.
